(** * NeuPrint derivation core: a shallow embedding and its checked properties

    The development embeds the scoring pipeline of [lib/server/derive.ts] and
    of the four modules it imports ([derive/rsl], [derive/cff], [derive/rc],
    [derive/rfs]), and the request handler of [app/api/analyze/route.ts]
    that calls it.

    Conventions of the embedding.
    - A JavaScript number is a [num]: a rational, one of the two infinities,
      or NaN.  Arithmetic is exact: the rounding of IEEE doubles and the sign
      of zero are not modelled.  Every finite result is kept in lowest terms,
      so that equal numbers are equal terms.  Where the rounding of doubles
      can decide a result (a value halfway between two whole numbers, a sum
      at the edge of a tolerance, a product beyond [2 ^ 53]), the statements
      leave a margin or restrict the inputs, and say so.
    - A JavaScript value is a [value]; an object is an association list in
      insertion order (JavaScript lists integer-like keys first; the
      objects built here have no such key).
    - A function that can throw returns a [res].  [Beyond] marks a dynamic
      coercion that the embedding does not model (a string, an array or an
      object used where a number is expected).
    - The nearest-centroid rule, which compares square roots, is embedded
      over binary64 floats in [Module Control]; [Module Doubles] runs three
      computations of the core over the same floats.  [entropy01], which
      calls [Math.log], is embedded over the real numbers in
      [Module Reals_kernels]. *)

From Stdlib Require Import ZArith QArith Qround Qabs List String Ascii Bool Lia Lqa.
From Stdlib Require Import DecimalString.
From Stdlib Require Import Reals Lra.
From Stdlib Require Import Floats.
Import ListNotations.

Set Implicit Arguments.

(** Linear arithmetic over the rationals and over the reals. *)
Ltac qlra := Lqa.lra.
Ltac rlra := Lra.lra.

(** ** Numbers *)

Inductive num : Type :=
| NaN
| PInf
| NInf
| Fin (q : Q).

(** The number written [q] in the source, in lowest terms. *)
Definition lit (q : Q) : num := Fin (Qred q).

Module Num.

Local Open Scope Q_scope.

Definition Qltb (a b : Q) : bool := negb (Qle_bool b a).

Definition isFinite (x : num) : bool :=
  match x with Fin _ => true | _ => false end.

Definition isNaN (x : num) : bool :=
  match x with NaN => true | _ => false end.

(** [x < y], [x <= y], [x === y] on numbers; every comparison with NaN is
    false. *)
Definition ltb (x y : num) : bool :=
  match x, y with
  | NaN, _ | _, NaN => false
  | Fin a, Fin b => Qltb a b
  | NInf, NInf => false
  | NInf, _ => true
  | _, NInf => false
  | PInf, _ => false
  | Fin _, PInf => true
  end.

Definition eqb (x y : num) : bool :=
  match x, y with
  | Fin a, Fin b => Qeq_bool a b
  | PInf, PInf | NInf, NInf => true
  | _, _ => false
  end.

Definition leb (x y : num) : bool := ltb x y || eqb x y.
Definition gtb (x y : num) : bool := ltb y x.
Definition geb (x y : num) : bool := leb y x.

Definition neg (x : num) : num :=
  match x with
  | NaN => NaN
  | PInf => NInf
  | NInf => PInf
  | Fin a => lit (- a)
  end.

Definition add (x y : num) : num :=
  match x, y with
  | NaN, _ | _, NaN => NaN
  | PInf, NInf | NInf, PInf => NaN
  | PInf, _ | _, PInf => PInf
  | NInf, _ | _, NInf => NInf
  | Fin a, Fin b => lit (a + b)
  end.

Definition sub (x y : num) : num := add x (neg y).

(** The infinity whose sign is that of [a], for [a] different from 0. *)
Definition inf_of_sign (a : Q) : num := if Qltb a 0 then NInf else PInf.

Definition mul (x y : num) : num :=
  match x, y with
  | NaN, _ | _, NaN => NaN
  | Fin a, Fin b => lit (a * b)
  | Fin a, PInf | PInf, Fin a => if Qeq_bool a 0 then NaN else inf_of_sign a
  | Fin a, NInf | NInf, Fin a => if Qeq_bool a 0 then NaN else inf_of_sign (- a)
  | PInf, PInf | NInf, NInf => PInf
  | PInf, NInf | NInf, PInf => NInf
  end.

Definition div (x y : num) : num :=
  match x, y with
  | NaN, _ | _, NaN => NaN
  | Fin a, Fin b =>
      if Qeq_bool b 0
      then (if Qeq_bool a 0 then NaN else inf_of_sign a)
      else lit (a / b)
  | Fin _, _ => Fin 0
  | PInf, Fin b => if Qltb b 0 then NInf else PInf
  | NInf, Fin b => if Qltb b 0 then PInf else NInf
  | _, _ => NaN
  end.

(** [Math.max], [Math.min] of two numbers: NaN as soon as one is NaN. *)
Definition max (x y : num) : num :=
  match x, y with
  | NaN, _ | _, NaN => NaN
  | _, _ => if ltb x y then y else x
  end.

Definition min (x y : num) : num :=
  match x, y with
  | NaN, _ | _, NaN => NaN
  | _, _ => if ltb y x then y else x
  end.

Definition floor (x : num) : num :=
  match x with
  | Fin a => Fin (inject_Z (Qfloor a))
  | _ => x
  end.

(** [Math.round]: the nearest integer, a tie going up. *)
Definition round (x : num) : num :=
  match x with
  | Fin a => Fin (inject_Z (Qfloor (a + (1 # 2))))
  | _ => x
  end.

Definition abs (x : num) : num :=
  match x with
  | NaN => NaN
  | PInf | NInf => PInf
  | Fin a => lit (Qabs a)
  end.

(** Truthiness of a number: 0 and NaN are falsy. *)
Definition truthy (x : num) : bool :=
  match x with
  | NaN => false
  | Fin a => negb (Qeq_bool a 0)
  | _ => true
  end.

End Num.

Declare Scope num_scope.
Delimit Scope num_scope with num.
Bind Scope num_scope with num.
Notation "x + y" := (Num.add x y) : num_scope.
Notation "x - y" := (Num.sub x y) : num_scope.
Notation "x * y" := (Num.mul x y) : num_scope.
Notation "x / y" := (Num.div x y) : num_scope.
Notation "x <? y" := (Num.ltb x y) : num_scope.
Notation "x <=? y" := (Num.leb x y) : num_scope.
Notation "x >? y" := (Num.gtb x y) : num_scope.
Notation "x >=? y" := (Num.geb x y) : num_scope.


(** ** Values, exceptions *)

#[local] Unset Elimination Schemes.

Inductive value : Type :=
| VUndef
| VNull
| VBool (b : bool)
| VNum (n : num)
| VStr (s : string)
| VArr (xs : list value)
| VObj (kvs : list (string * value)).

#[local] Set Elimination Schemes.

Inductive exn : Type :=
| TypeError
| Error (msg : string).

Inductive res (A : Type) : Type :=
| Ok (a : A)
| Throw (e : exn)
| Beyond.

Arguments Ok {A} a.
Arguments Throw {A} e.
Arguments Beyond {A}.

Definition bind {A B : Type} (m : res A) (f : A -> res B) : res B :=
  match m with
  | Ok a => f a
  | Throw e => Throw e
  | Beyond => Beyond
  end.

Notation "x <- m ;; k" := (bind m (fun x => k))
  (at level 61, m at next level, right associativity).

Fixpoint mapM {A B : Type} (f : A -> res B) (xs : list A) : res (list B) :=
  match xs with
  | [] => Ok []
  | x :: r => y <- f x ;; ys <- mapM f r ;; Ok (y :: ys)
  end.

Module Js.

Local Open Scope string_scope.

Definition string_of_nat (n : nat) : string :=
  NilZero.string_of_uint (Nat.to_uint n).

Definition string_of_Z (z : Z) : string :=
  NilZero.string_of_int (Z.to_int z).

(** [String(x)] for a number.  An integer is printed in full; another
    rational is printed by its decimal expansion, cut after 20 digits. *)
Fixpoint frac_digits (fuel : nat) (f : Q) : string :=
  match fuel with
  | O => EmptyString
  | S k =>
      if Qeq_bool f 0 then EmptyString
      else
        let d := Qfloor (f * 10) in
        string_of_Z d ++ frac_digits k (Qred (f * 10 - inject_Z d))
  end.

Definition numToString (x : num) : string :=
  match x with
  | NaN => "NaN"
  | PInf => "Infinity"
  | NInf => "-Infinity"
  | Fin q =>
      let z := Qfloor q in
      if Qeq_bool q (inject_Z z) then string_of_Z z
      else
        let a := Qabs q in
        let n := Qfloor a in
        (if Num.Qltb q 0 then "-" else EmptyString)
          ++ string_of_Z n ++ "." ++ frac_digits 20 (Qred (a - inject_Z n))
  end.

(** [x.toFixed(6)] *)
Definition pad6 (s : string) : string :=
  string_of_list_ascii (repeat "0"%char (6 - String.length s)) ++ s.

Definition toFixed6 (x : num) : string :=
  match x with
  | Fin q =>
      let n := Qfloor (Qabs q * 1000000 + (1 # 2)) in
      (if Num.Qltb q 0 then "-" else EmptyString)
        ++ string_of_Z (n / 1000000) ++ "." ++ pad6 (string_of_Z (n mod 1000000))
  | _ => numToString x
  end.

(** The digits of a string, the others removed, and [Number] of a string
    of digits. *)
Definition is_digit (c : ascii) : bool :=
  (48 <=? nat_of_ascii c)%nat && (nat_of_ascii c <=? 57)%nat.

Definition digits_only (s : string) : string :=
  string_of_list_ascii (filter is_digit (list_ascii_of_string s)).

Definition number_of_digits (s : string) : num :=
  Fin (inject_Z
         (fold_left (fun acc c => (acc * 10 + Z.of_nat (nat_of_ascii c - 48))%Z)
            (list_ascii_of_string s) 0%Z)).

(** The own enumerable properties of a value, as [Object.keys] and the
    spread [{...v}] see them.  A string is a sequence of bytes here. *)
Fixpoint indexed {A : Type} (i : nat) (xs : list A) : list (string * A) :=
  match xs with
  | [] => []
  | x :: r => (string_of_nat i, x) :: indexed (S i) r
  end.

Definition chars (s : string) : list value :=
  map (fun c => VStr (String c EmptyString)) (list_ascii_of_string s).

Definition props (v : value) : list (string * value) :=
  match v with
  | VObj kvs => kvs
  | VArr xs => indexed 0 xs
  | VStr s => indexed 0 (chars s)
  | _ => []
  end.

Fixpoint assoc (kvs : list (string * value)) (k : string) : option value :=
  match kvs with
  | [] => None
  | (k', v) :: r => if String.eqb k' k then Some v else assoc r k
  end.

Fixpoint assoc_of {A : Type} (kvs : list (string * A)) (k : string) : option A :=
  match kvs with
  | [] => None
  | (k', v) :: r => if String.eqb k' k then Some v else assoc_of r k
  end.

(** [o[k]] for a named key [k] (not an index, not [length]): [undefined]
    when the key is absent or [o] is a primitive. *)
Definition get (o : value) (k : string) : value :=
  match o with
  | VObj kvs => match assoc kvs k with Some v => v | None => VUndef end
  | _ => VUndef
  end.

Definition has (o : value) (k : string) : bool :=
  match assoc (props o) k with Some _ => true | None => false end.

Definition keys (o : value) : list string := map fst (props o).

(** [o[k] = v] on an object: an existing key keeps its place. *)
Fixpoint assoc_set (kvs : list (string * value)) (k : string) (v : value)
  : list (string * value) :=
  match kvs with
  | [] => [(k, v)]
  | (k', v') :: r =>
      if String.eqb k' k then (k', v) :: r else (k', v') :: assoc_set r k v
  end.

Definition set (o : value) (k : string) (v : value) : value :=
  match o with
  | VObj kvs => VObj (assoc_set kvs k v)
  | _ => o
  end.

Definition truthy (v : value) : bool :=
  match v with
  | VUndef | VNull => false
  | VBool b => b
  | VNum n => Num.truthy n
  | VStr s => negb (String.eqb s EmptyString)
  | VArr _ | VObj _ => true
  end.

Definition nullish (v : value) : bool :=
  match v with VUndef | VNull => true | _ => false end.

(** [a ?? b] *)
Definition coalesce (a b : value) : value := if nullish a then b else a.

(** [v && typeof v === "object"] *)
Definition is_object (v : value) : bool :=
  match v with VArr _ | VObj _ => true | _ => false end.

Definition isArray (v : value) : bool :=
  match v with VArr _ => true | _ => false end.

(** [v && typeof v === "object" && !Array.isArray(v)] *)
Definition is_plain (v : value) : bool :=
  match v with VObj _ => true | _ => false end.

(** [{ ...a, ...b, ... }] *)
Definition spread (vs : list value) : value :=
  fold_left (fun o kv => set o (fst kv) (snd kv)) (flat_map props vs) (VObj []).

(** [typeof x === "number" && isFinite(x)] *)
Definition isFiniteNumber (v : value) : bool :=
  match v with VNum n => Num.isFinite n | _ => false end.

Definition num_of_nat (n : nat) : num := Fin (inject_Z (Z.of_nat n)).

(** [xs.sort(cmp)]: a stable sort by insertion; as in JavaScript, a
    comparison that yields NaN counts as 0. *)
Fixpoint insert_sorted {A : Type} (cmp : A -> A -> num) (x : A) (ys : list A)
  : list A :=
  match ys with
  | [] => [x]
  | y :: r =>
      if Num.ltb (Fin 0) (cmp x y) then y :: insert_sorted cmp x r else x :: ys
  end.

Definition sort {A : Type} (cmp : A -> A -> num) (xs : list A) : list A :=
  fold_right (insert_sorted cmp) [] xs.

(** [xs.slice(0, e)]: [e] is truncated to an integer, NaN counts as 0 and a
    negative [e] counts from the end. *)
Definition slice0 {A : Type} (xs : list A) (e : num) : list A :=
  match e with
  | NaN | NInf => []
  | PInf => xs
  | Fin q =>
      let z := if Num.Qltb q 0 then Qceiling q else Qfloor q in
      if (z <? 0)%Z
      then firstn (Z.to_nat (Z.max (Z.of_nat (List.length xs) + z) 0)) xs
      else firstn (Z.to_nat z) xs
  end.

(** [Number(v)] and the implicit conversion to a number, for the values on
    which it needs no parsing. *)
Definition toNumber (v : value) : res num :=
  match v with
  | VUndef => Ok NaN
  | VNull => Ok (Fin 0)
  | VBool b => Ok (if b then Fin 1 else Fin 0)
  | VNum n => Ok n
  | VStr _ | VArr _ | VObj _ => Beyond
  end.

End Js.

Notation "o .[ k ]" := (Js.get o k) (at level 1, left associativity, format "o .[ k ]").
Notation "a ?? b" := (Js.coalesce a b) (at level 45, right associativity).

(** ** The deep merge of the orchestrators

    [deepMergeInto] and [deepMergeAll] are declared, with the same text, in
    [derive], [deriveCff], [deriveRc] and [deriveRfs].  The source updates
    [target] in place; here the updated target is returned. *)

Definition merge_key (t : value) (k : string) (sv : value) (rec : value -> value)
  : value :=
  let tv := t.[k] in
  if Js.is_plain tv && Js.is_plain sv then Js.set t k (rec tv) else Js.set t k sv.

Fixpoint deepMergeInto (target src : value) {struct src} : value :=
  match src with
  | VObj kvs =>
      fold_left
        (fun t kv => merge_key t (fst kv) (snd kv) (fun tv => deepMergeInto tv (snd kv)))
        kvs target
  | VArr xs =>
      (fix items (i : nat) (xs : list value) (t : value) {struct xs} : value :=
         match xs with
         | [] => t
         | x :: r =>
             items (S i) r
               (merge_key t (Js.string_of_nat i) x (fun tv => deepMergeInto tv x))
         end) 0%nat xs target
  | _ => target
  end.

Definition deepMergeAll (objs : list value) : value :=
  fold_left deepMergeInto objs (VObj []).


(** ** The first steps of every orchestrator

    [input.analysis_input] when [input] is an object that has it, else
    [input]; then the raw features under one of their five names. *)

Definition unwrap (input : value) : value :=
  if Js.is_object input && Js.has input "analysis_input"
  then input.["analysis_input"] else input.

Definition rawOf (ai : value) : value :=
  ai.["raw_features"] ?? ai.["raw"] ?? ai.["rawFeatures"]
    ?? ai.["raw_features_v1"] ?? ai.["raw_features_v2"].

(** ** Numbers in binary64

    Where the result of the code is decided by the rounding of IEEE doubles,
    the code is embedded over the primitive floats of Rocq: the binary64
    numbers of JavaScript, with its [+], [-], [*], [/] and [Math.sqrt]
    (correctly rounded, ties to even) and its comparisons (false as soon as
    one side is NaN).  The functions of [Math] that are no primitive are
    written out here. *)

#[global] Set Warnings "-inexact-float".

Module F64.

Local Open Scope float_scope.

(** [Number.isFinite(x)], and [isFinite(x)], on a number *)
Definition isFinite (x : float) : bool := is_finite x.

(** [Math.max(x, y)] and [Math.min(x, y)]: NaN as soon as one is NaN, and
    [+0] above [-0]. *)
Definition max (x y : float) : float :=
  if is_nan x || is_nan y then nan
  else if x <? y then y
  else if y <? x then x
  else if is_zero x then x + y
  else x.

Definition min (x y : float) : float :=
  if is_nan x || is_nan y then nan
  else if y <? x then y
  else if x <? y then x
  else if is_zero x then - (- x + - y)
  else x.

(** [2^52]: from there on every double is a whole number. *)
Definition two52 : float := 4503599627370496.

(** The whole part of [|x|], for [|x| < 2^52]: adding [2^52] rounds to a
    whole number, which is taken back when it is above [|x|]. *)
Definition whole_part (a : float) : float :=
  let r := (a + two52) - two52 in
  if a <? r then r - 1 else r.

(** [Math.floor(x)] *)
Definition floor (x : float) : float :=
  if negb (is_finite x) then x
  else if two52 <=? abs x then x
  else if is_zero x then x
  else
    let t := whole_part (abs x) in
    if 0 <? x then t
    else if t =? abs x then - t
    else - (t + 1).

(** [Math.round(x)]: the nearest whole number, a tie going up; a zero
    result keeps the sign of [x]. *)
Definition round (x : float) : float :=
  if negb (is_finite x) then x
  else
    let f := floor x in
    let r := if (x - f) <? 0.5 then f else f + 1 in
    if is_zero r && (x <? 0) then - 0 else r.

(** The rational that a finite double stands for (0 for the others). *)
Definition exact (x : float) : Q :=
  match Prim2SF x with
  | S754_finite s m e =>
      ((if s then -1 else 1) * inject_Z (Z.pos m) * Qpower 2 e)%Q
  | _ => 0%Q
  end.

End F64.

(** ** RSL: level, FRI and cohort position (the module [derive/rsl], whose
    text is the second half of the file [derive/rfs.ts]) *)

Module Rsl.

Local Open Scope string_scope.
Local Open Scope num_scope.

Inductive RSLLevelCode : Type := L1 | L2 | L3 | L4 | L5 | L6.

Record RSLLevelMeta : Type := {
  level_short_name : string;
  level_full_name : string;
  level_description : string
}.

(** An absent optional field is [None]. *)
Record RSLLevelInput : Type := {
  coherence_rubric_0to5 : num;
  structure_rubric_0to5 : num;
  evaluation_rubric_0to5 : num;
  integration_rubric_0to5 : num;
  evidence_count : option num;
  evidence_link_rate_0to1 : option num;
  has_counterpoint : option bool;
  has_refutation : option bool
}.

Record RSLLevelFlags : Type := {
  strict_mode : bool;
  evidence_required_for_L4plus : bool;
  allow_L6 : bool
}.

Record RSLLevelPolicy : Type := {
  gate_L2_min : num;
  gate_L3_min : num;
  gate_L4_min : num;
  gate_L5_min : num;
  gate_L6_min : num;
  min_evidence_count_for_L4plus : num;
  min_evidence_link_rate_for_L4plus : num;
  strict_gate_bonus : num;
  l6_integration_min : num
}.

Record RSLGates : Type := {
  gate_L2 : bool;
  gate_L3 : bool;
  gate_L4 : bool;
  gate_L5 : bool;
  gate_L6 : bool
}.

Record RSLLevelResult : Type := {
  level : RSLLevelCode;
  meta : RSLLevelMeta;
  rubric_min : num;
  rubric_mean_0to5 : num;
  evidence_ok : bool;
  gates : RSLGates
}.

Definition LEVEL_METADATA (l : RSLLevelCode) : RSLLevelMeta :=
  match l with
  | L1 =>
      {| level_short_name := "L1 Fragmented";
         level_full_name := "L1 Fragmented Reasoning";
         level_description :=
           "Unstable reasoning with weak structure and low coherence across claims." |}
  | L2 =>
      {| level_short_name := "L2 Linear";
         level_full_name := "Linear Reasoning";
         level_description :=
           "Basic sequential reasoning with limited structural branching or evaluation." |}
  | L3 =>
      {| level_short_name := "L3 Structured";
         level_full_name := "L3 Structured Reasoning";
         level_description :=
           "Organized reasoning components with partial coordination across dimensions." |}
  | L4 =>
      {| level_short_name := "L4 Coordinated";
         level_full_name := "L4 Coordinated Reasoning";
         level_description :=
           "Multiple reasoning dimensions are coordinated with evidence support and evaluation." |}
  | L5 =>
      {| level_short_name := "L5 Integrated";
         level_full_name := "L5 Integrated Reasoning";
         level_description :=
           "Reasoning dimensions integrate into a stable, non-dominant structure with balanced evaluation." |}
  | L6 =>
      {| level_short_name := "L6 Expert";
         level_full_name := "L6 Expert Reasoning";
         level_description :=
           "Consistently expert-level reasoning with high integration, evaluation depth, and structural control." |}
  end.

Definition clampInt0to5 (x : num) : num :=
  if negb (Num.isFinite x) then Fin 0
  else
    let r := Num.round x in
    if r <? Fin 0 then Fin 0 else if r >? Fin 5 then Fin 5 else r.

Definition clamp01 (x : option num) : num :=
  let v := match x with
           | Some n => if Num.isFinite n then n else Fin 0
           | None => Fin 0
           end in
  if v <? Fin 0 then Fin 0 else if v >? Fin 1 then Fin 1 else v.

(** [bool(x)], that is [x === true] *)
Definition bool' (x : option bool) : bool :=
  match x with Some true => true | _ => false end.

Definition evidenceOK (inp : RSLLevelInput) (policy : RSLLevelPolicy)
    (flags : RSLLevelFlags) : bool :=
  if negb (evidence_required_for_L4plus flags) then true
  else
    let evCount := match evidence_count inp with Some n => n | None => Fin 0 end in
    let evLink := clamp01 (evidence_link_rate_0to1 inp) in
    if evCount <? min_evidence_count_for_L4plus policy then false
    else if evLink <? min_evidence_link_rate_for_L4plus policy then false
    else true.

Definition adjustedGate (base : num) (flags : RSLLevelFlags)
    (policy : RSLLevelPolicy) : num :=
  let b := clampInt0to5 base in
  let add := if strict_mode flags then strict_gate_bonus policy else Fin 0 in
  let out := b + add in
  if out <? Fin 0 then Fin 0 else if out >? Fin 5 then Fin 5 else out.

Definition computeRSLLevel (inp : RSLLevelInput) (flags : RSLLevelFlags)
    (policy : RSLLevelPolicy) : RSLLevelResult :=
  let coherence := clampInt0to5 (coherence_rubric_0to5 inp) in
  let structure := clampInt0to5 (structure_rubric_0to5 inp) in
  let evaluation := clampInt0to5 (evaluation_rubric_0to5 inp) in
  let integration := clampInt0to5 (integration_rubric_0to5 inp) in
  let rubricMin :=
    Num.min (Num.min (Num.min coherence structure) evaluation) integration in
  let rubricMean := (coherence + structure + evaluation + integration) / Fin 4 in
  let g2 := adjustedGate (gate_L2_min policy) flags policy in
  let g3 := adjustedGate (gate_L3_min policy) flags policy in
  let g4 := adjustedGate (gate_L4_min policy) flags policy in
  let g5 := adjustedGate (gate_L5_min policy) flags policy in
  let g6 := adjustedGate (gate_L6_min policy) flags policy in
  let evOK := evidenceOK inp policy flags in
  let hasCounter := bool' (has_counterpoint inp) in
  let hasRefute := bool' (has_refutation inp) in
  let passL2 := rubricMin >=? g2 in
  let passL3 := rubricMin >=? g3 in
  let passL4 := (rubricMin >=? g4) && evOK in
  let passL5Base := (rubricMin >=? g5) && evOK in
  let passL5 :=
    if strict_mode flags then passL5Base && (hasCounter || hasRefute)
    else passL5Base in
  let passL6 :=
    allow_L6 flags && passL5 && (rubricMin >=? g6)
    && (integration >=? l6_integration_min policy) in
  let level := L1 in
  let level := if passL2 then L2 else level in
  let level := if passL3 then L3 else level in
  let level := if passL4 then L4 else level in
  let level := if passL5 then L5 else level in
  let level := if passL6 then L6 else level in
  {| level := level;
     meta := LEVEL_METADATA level;
     rubric_min := rubricMin;
     rubric_mean_0to5 := rubricMean;
     evidence_ok := evOK;
     gates := {| gate_L2 := passL2; gate_L3 := passL3; gate_L4 := passL4;
                 gate_L5 := passL5; gate_L6 := passL6 |} |}.

(** *** FRI *)

Record FRIResult : Type := {
  fri_score : num;
  fri_interpretation : string
}.

Definition clamp0to5 (x : num) : num :=
  let v := if Num.isFinite x then x else Fin 0 in
  Num.max (Fin 0) (Num.min (Fin 5) v).

Definition round2 (x : num) : num := Num.round (x * Fin 100) / Fin 100.

Definition friNote (fri : num) : string :=
  let x := if Num.isFinite fri then fri else Fin 0 in
  if x <=? (lit 0.79) then
    "Your reasoning structure is still taking shape. Ideas often appear separately, making connections harder to follow."
  else if x <=? (lit 1.59) then
    "Early signs of structure are beginning to appear. Some steps are present, but connections and checks are not yet consistent."
  else if x <=? (lit 2.39) then
    "A basic reasoning structure is forming. Key steps align, though stability can drop as complexity increases."
  else if x <=? (lit 3.19) then
    "Your reasoning structure works well overall. Most ideas connect, with occasional gaps in validation or monitoring."
  else if x <=? (lit 3.99) then
    "Your reasoning structure is stable in most situations. Connections and evaluations usually remain consistent."
  else
    "You can reason structurally even in complex situations. Your thinking stays stable and self-regulated as ideas scale.".

(** The composite score, the multiplier and their product before the clamp. *)
Definition friCRS (R3 R4 R5 : num) : num :=
  (lit 0.3) * clamp0to5 R3 + (lit 0.4) * clamp0to5 R4 + (lit 0.3) * clamp0to5 R5.

Definition friRM (R6 : num) : num :=
  (lit 0.85) + (clamp0to5 R6 / Fin 5) * (lit 0.3).

Definition computeFRI (R3 R4 R5 R6 : num) : FRIResult :=
  let CRS := friCRS R3 R4 R5 in
  let RM := friRM R6 in
  let FRI := clamp0to5 (CRS * RM) in
  let friRounded := round2 FRI in
  {| fri_score := friRounded; fri_interpretation := friNote friRounded |}.

Definition FRIResult_json (r : FRIResult) : value :=
  VObj [("rsl", VObj [("fri", VObj [("score", VNum (fri_score r));
                                    ("interpretation", VStr (fri_interpretation r))])])].

(** *** Cohort position *)

Definition round4 (x : num) : num := Num.round (x * Fin 1000) / Fin 1000.

Definition percentile0to1 (friValue : num) (cohortFriList : list value) : num :=
  match cohortFriList with
  | [] => (lit 0.5)
  | _ =>
      let v := if Num.isFinite friValue then friValue else Fin 0 in
      let lower :=
        fold_left
          (fun lower x =>
             let xx := match x with
                       | VNum n => if Num.isFinite n then n else Fin 0
                       | _ => Fin 0
                       end in
             if xx <? v then S lower else lower)
          cohortFriList 0%nat in
      round4 (Js.num_of_nat lower / Js.num_of_nat (List.length cohortFriList))
  end.

Definition topPercentLabel (percentile : num) : string :=
  let p := if Num.isFinite percentile then percentile else (lit 0.5) in
  let topPercent := Num.round ((Fin 1 - p) * Fin 100) in
  if topPercent <=? Fin 1 then "Top 1%"
  else "Top " ++ Js.numToString topPercent ++ "%".

Definition cohortInterpretationFromTopPercent (topPercentValue : num) : string :=
  let t := if Num.isFinite topPercentValue then topPercentValue else Fin 50 in
  if t >=? Fin 50 then
    "Core reasoning steps are emerging, with structure still developing compared to most peers."
  else if t >=? Fin 30 then
    "Developing structure, with several reasoning patterns beginning to align relative to comparable peers."
  else if t >=? Fin 20 then
    "Generally well-structured reasoning compared to most peers, with room for further stabilization."
  else if t >=? Fin 10 then
    "Consistently structured reasoning relative to comparable peers."
  else if t >=? Fin 5 then
    "Highly consistent reasoning structure compared to most peers, even as complexity increases."
  else
    "Exceptionally stable reasoning structure within the current comparison group.".

(** *** The orchestrator [deriveRsl] *)

Record RslRubric4 : Type := {
  rubric4_coherence : num;
  rubric4_structure : num;
  rubric4_evaluation : num;
  rubric4_integration : num
}.

Definition RslRubric4_json (r : RslRubric4) : value :=
  VObj [("coherence", VNum (rubric4_coherence r));
        ("structure", VNum (rubric4_structure r));
        ("evaluation", VNum (rubric4_evaluation r));
        ("integration", VNum (rubric4_integration r))].

(** [Object.assign(target, src)] *)
Definition assign (target src : value) : value :=
  fold_left (fun o kv => Js.set o (fst kv) (snd kv)) (Js.props src) target.

(** The local [deepMerge] of [deriveRsl], which returns a new object.
    [deriveRsl] calls it with an object as [a]; the copy of an array [a] is
    not modelled. *)
Fixpoint deepMerge (a b : value) {struct b} : value :=
  if negb (Js.is_object a) then b
  else
    match b with
    | VObj kvs =>
        fold_left
          (fun out kv =>
             let av := out.[fst kv] in
             if Js.is_plain av && Js.is_plain (snd kv)
             then Js.set out (fst kv) (deepMerge av (snd kv))
             else Js.set out (fst kv) (snd kv))
          kvs a
    | VArr xs =>
        (fix items (i : nat) (xs : list value) (out : value) {struct xs} : value :=
           match xs with
           | [] => out
           | x :: r =>
               let k := Js.string_of_nat i in
               let av := out.[k] in
               items (S i) r
                 (if Js.is_plain av && Js.is_plain x
                  then Js.set out k (deepMerge av x)
                  else Js.set out k x)
           end) 0%nat xs a
    | _ => a
    end.

Definition levelFlags : RSLLevelFlags :=
  {| strict_mode := false; evidence_required_for_L4plus := true; allow_L6 := true |}.

Definition levelPolicy : RSLLevelPolicy :=
  {| gate_L2_min := Fin 1;
     gate_L3_min := Fin 2;
     gate_L4_min := Fin 3;
     gate_L5_min := Fin 4;
     gate_L6_min := Fin 5;
     min_evidence_count_for_L4plus := Fin 2;
     min_evidence_link_rate_for_L4plus := (lit 0.3);
     strict_gate_bonus := Fin 0;
     l6_integration_min := Fin 5 |}.

Definition level_name (l : RSLLevelCode) : string :=
  match l with
  | L1 => "L1" | L2 => "L2" | L3 => "L3" | L4 => "L4" | L5 => "L5" | L6 => "L6"
  end.

Definition RSLLevelMeta_json (m : RSLLevelMeta) : value :=
  VObj [("level_short_name", VStr (level_short_name m));
        ("level_full_name", VStr (level_full_name m));
        ("level_description", VStr (level_description m))].

Section DeriveRsl.

(** The rubric derivation from raw counts returns a record of four numbers,
    and [computeSRI] takes its inputs as one object; neither decides what
    [deriveRsl] returns, and both are parameters here. *)
Variable computeRslRubric4FromRaw : value -> RslRubric4.
Variable computeSRI : value -> res value.

Definition deriveRsl (input : value) : res value :=
  let ai := unwrap input in
  let raw := rawOf ai in
  let rubric := ai.["rsl_rubric"] ?? ai.["rubric"] ?? ai.["rslRubric"] in
  coherence <-
    Js.toNumber (rubric.["coherence"] ?? rubric.["coherence_rubric_0to5"] ?? VNum (Fin 0)) ;;
  structure <-
    Js.toNumber (rubric.["structure"] ?? rubric.["structure_rubric_0to5"] ?? VNum (Fin 0)) ;;
  evaluation <-
    Js.toNumber (rubric.["evaluation"] ?? rubric.["evaluation_rubric_0to5"] ?? VNum (Fin 0)) ;;
  integration <-
    Js.toNumber (rubric.["integration"] ?? rubric.["integration_rubric_0to5"] ?? VNum (Fin 0)) ;;
  evidenceCount <-
    Js.toNumber (raw.["layer_0"].["evidence"] ?? raw.["layer_0"].["evidence_count"]
                   ?? VNum (Fin 0)) ;;
  let hasCounterpoint :=
    Js.truthy (raw.["layer_1"].["counterpoints"] ?? raw.["layer_1"].["has_counterpoint"]) in
  let hasRefutation :=
    Js.truthy (raw.["layer_1"].["refutations"] ?? raw.["layer_1"].["has_refutation"]) in
  let levelRes :=
    computeRSLLevel
      {| coherence_rubric_0to5 := coherence;
         structure_rubric_0to5 := structure;
         evaluation_rubric_0to5 := evaluation;
         integration_rubric_0to5 := integration;
         evidence_count := Some evidenceCount;
         evidence_link_rate_0to1 := None;
         has_counterpoint := Some hasCounterpoint;
         has_refutation := Some hasRefutation |}
      levelFlags levelPolicy in
  let friRes := FRIResult_json (computeFRI coherence structure evaluation integration) in
  let cohortList :=
    match ai.["cohort_fri_list"] with VArr xs => xs | _ => [] end in
  friScore <- Js.toNumber (friRes.["rsl"].["fri"].["score"] ?? VNum (Fin 0)) ;;
  let pct := percentile0to1 friScore cohortList in
  let topLabel := topPercentLabel pct in
  let topValue :=
    let n := Js.number_of_digits (Js.digits_only topLabel) in
    if Num.truthy n then n else Num.round ((Fin 1 - pct) * Fin 100) in
  let cohort :=
    VObj [("rsl", VObj [("charts", VObj [("cohort_positioning", VObj [
      ("current", VObj [("x", VNum pct); ("y", VNum friScore)]);
      ("percentile_0to1", VNum pct);
      ("top_percent_label", VStr topLabel);
      ("interpretation", VStr (cohortInterpretationFromTopPercent topValue))])])])] in
  let rubric4 :=
    if Js.truthy raw then RslRubric4_json (computeRslRubric4FromRaw raw) else VNull in
  let sriOut :=
    if Js.truthy rubric4 && Js.truthy rubric4.["rslVector"] then
      let rslVector := rubric4.["rslVector"] in
      let transitionJumpScore := rubric4.["transitionJumpScore"] ?? VNull in
      let metaImbalanceScore := rubric4.["metaImbalanceScore"] ?? VNull in
      match computeSRI (VObj [("rslVector", rslVector);
                              ("transitionJumpScore", transitionJumpScore);
                              ("metaImbalanceScore", metaImbalanceScore)]) with
      | Ok s =>
          VObj [("rsl", VObj [("sri", VObj [("score", s.["sri"]);
                                            ("interpretation", s.["notes"])])])]
      | _ => VNull
      end
    else VNull in
  let out :=
    VObj [("rsl", VObj [("level", VStr (level_name (level levelRes)));
                        ("level_meta", RSLLevelMeta_json (meta levelRes));
                        ("rubric", VObj [("coherence", VNum coherence);
                                         ("structure", VNum structure);
                                         ("evaluation", VNum evaluation);
                                         ("integration", VNum integration)])])] in
  let out := assign out friRes in
  let out := Js.set out "rsl" (deepMerge out.["rsl"] cohort.["rsl"]) in
  let out :=
    if Js.truthy rubric4 && Js.truthy rubric4.["rsl"].["rubric4"]
    then Js.set out "rsl" (deepMerge out.["rsl"] rubric4.["rsl"]) else out in
  let out :=
    if Js.truthy sriOut
    then Js.set out "rsl" (deepMerge out.["rsl"] sriOut.["rsl"]) else out in
  Ok out.

End DeriveRsl.

End Rsl.

(** ** CFF: indicators, observed patterns, final type (the module
    [derive/cff], whose text is the second half of the file [derive/rc.ts])

    The file was assembled from several sources and declares [clamp01] six
    times, [safeDiv] three times and [round2] twice.  The declaration of a
    function that runs is the last one of the file, for every call in the
    file.  For [clamp01] it is the one of line 2333, which maps a number
    that is not finite to 0 (the declaration of line 1981, next to
    [computeCFF6_v1], does not); for [safeDiv] it is the one of line
    1977. *)

Module Cff.

Local Open Scope string_scope.
Local Open Scope num_scope.

(** An optional field holding a number: [None] when it is absent or null. *)
Definition numField (o : value) (k : string) : res (option num) :=
  match o.[k] with
  | VNum n => Ok (Some n)
  | VUndef | VNull => Ok None
  | _ => Beyond
  end.

(** [x || d] on an optional number *)
Definition orElse (x : option num) (d : num) : num :=
  match x with
  | Some n => if Num.truthy n then n else d
  | None => d
  end.

(** *** The six indicators (Backend_7_CFF) *)

Record RawFeaturesV1 : Type := {
  units : option num;
  claims : option num;
  reasons : option num;
  evidence : option num;
  sub_claims : option num;
  warrants : option num;
  structure_type : option string;
  transitions : option num;
  transition_ok : option num;
  hedges : option num;
  loops : option num;
  revisions : option num;
  revision_depth_sum : option num;
  belief_change : bool;             (* the truthiness of the field *)
  evidence_types : option (list string);
  intent_markers : option num;
  drift_segments : option num;
  kpf_sim : option num;
  tps_h : option num
}.

Record CFF6 : Type := {
  AAS : num; CTF : num; RMD : num; RDX : num; EDS : num; IFD : num
}.

Definition safeDiv (a b : num) : num := a / Num.max (Fin 1) b.

Definition clamp01 (x : num) : num :=
  if negb (Num.isFinite x) then Fin 0
  else if x <? Fin 0 then Fin 0 else if x >? Fin 1 then Fin 1 else x.

Definition structureWeight (st : option string) : num :=
  let st := match st with Some s => s | None => "linear" end in
  if String.eqb st "linear" then (lit 0.3)
  else if String.eqb st "hierarchical" then (lit 0.6)
  else if String.eqb st "networked" then Fin 1
  else (lit 0.3).

(** The size of [new Set(xs)] for strings [xs]. *)
Definition set_size (xs : list string) : nat :=
  List.length (nodup string_dec xs).

Definition computeCFF6_v1 (raw : RawFeaturesV1) : CFF6 :=
  let U := Num.max (Fin 1) (Num.floor (orElse (units raw) (Fin 1))) in
  let C := Num.max (Fin 0) (orElse (claims raw) (Fin 0)) in
  let R := Num.max (Fin 0) (orElse (reasons raw) (Fin 0)) in
  let E := Num.max (Fin 0) (orElse (evidence raw) (Fin 0)) in
  let sub := Num.max (Fin 0) (orElse (sub_claims raw) (Fin 0)) in
  let W := Num.max (Fin 0) (orElse (warrants raw) (Fin 0)) in
  let st := match structure_type raw with Some s => Some s | None => Some "linear" end in
  let T := Num.max (Fin 0) (orElse (transitions raw) (Fin 0)) in
  let Tok := Num.max (Fin 0) (orElse (transition_ok raw) (Fin 0)) in
  let hedges_ := Num.max (Fin 0) (orElse (hedges raw) (Fin 0)) in
  let loops_ := Num.max (Fin 0) (orElse (loops raw) (Fin 0)) in
  let rev := Num.max (Fin 0) (orElse (revisions raw) (Fin 0)) in
  let revDepthSum := Num.max (Fin 0) (orElse (revision_depth_sum raw) (Fin 0)) in
  let beliefChange := belief_change raw in
  let intentMarkers := Num.max (Fin 0) (orElse (intent_markers raw) (Fin 0)) in
  let driftSeg := Num.max (Fin 0) (orElse (drift_segments raw) (Fin 0)) in
  let evTypes :=
    match evidence_types raw with Some xs => set_size xs | None => 0%nat end in
  (* 1) AAS *)
  let hierarchy_ratio := safeDiv sub C in
  let warrant_ratio := safeDiv W C in
  let structure_weight := structureWeight st in
  let AAS_raw := (lit 0.4) * hierarchy_ratio + (lit 0.4) * warrant_ratio + (lit 0.2) * structure_weight in
  let AAS := clamp01 AAS_raw in
  (* 2) CTF *)
  let transition_density := safeDiv T U in
  let valid_transition_ratio := safeDiv Tok T in
  let CTF_raw := (lit 0.6) * transition_density + (lit 0.4) * valid_transition_ratio in
  let CTF := clamp01 CTF_raw in
  (* 3) RMD *)
  let progress_rate := safeDiv R U in
  let friction_rate := safeDiv (hedges_ + loops_) U in
  let RMD_raw := progress_rate - friction_rate in
  let RMD := clamp01 ((lit 0.5) + RMD_raw) in
  (* 4) RDX *)
  let depth_avg := safeDiv revDepthSum rev in
  let belief_bonus := if beliefChange then (lit 0.2) else Fin 0 in
  let RDX_raw := (lit 0.7) * depth_avg + belief_bonus in
  let RDX := clamp01 RDX_raw in
  (* 5) EDS *)
  let type_diversity := safeDiv (Fin (inject_Z (Z.of_nat evTypes))) (Fin 4) in
  let evidence_density := safeDiv E C in
  let EDS_raw := (lit 0.6) * type_diversity + (lit 0.4) * evidence_density in
  let EDS := clamp01 EDS_raw in
  (* 6) IFD *)
  let intent_strength := if intentMarkers >? Fin 0 then Fin 1 else (lit 0.5) in
  let drift_rate := safeDiv driftSeg U in
  let IFD_raw := intent_strength - drift_rate in
  let IFD := clamp01 IFD_raw in
  {| AAS := AAS; CTF := CTF; RMD := RMD; RDX := RDX; EDS := EDS; IFD := IFD |}.

Definition CFF6_json (c : CFF6) : value :=
  VObj [("AAS", VNum (AAS c)); ("CTF", VNum (CTF c)); ("RMD", VNum (RMD c));
        ("RDX", VNum (RDX c)); ("EDS", VNum (EDS c)); ("IFD", VNum (IFD c))].

(** *** Observed patterns (Backend_5_Observed Reasoning Patterns) *)

Module Patterns.

Inductive ProfileCode : Type := RE | IE | EW | AR | SI | RR | HE | MD.

Record ProfileMeta : Type := {
  code : ProfileCode;
  label : string;
  description : string
}.

Definition OBSERVED_PROFILE_META (c : ProfileCode) : ProfileMeta :=
  match c with
  | RE =>
      {| code := RE;
         label := "Reflective Explorer";
         description :=
           "Reflective Explorer shows active self-revision and exploratory restructuring during reasoning. Thought progresses through reflection, reassessment, and adaptive refinement." |}
  | IE =>
      {| code := IE;
         label := "Intuitive Explorer";
         description :=
           "Intuitive Explorer advances reasoning through associative leaps and conceptual exploration. Structure emerges gradually rather than being predefined." |}
  | EW =>
      {| code := EW;
         label := "Evidence Weaver";
         description :=
           "Evidence Weaver emphasizes linking claims with supporting material. Reasoning strength lies in evidence connectivity rather than abstract inference." |}
  | AR =>
      {| code := AR;
         label := "Analytical Reasoner";
         description :=
           "Analytical Reasoner breaks a problem into explicit components and evaluates them through stepwise logic. Reasoning emphasizes clear structure, rule-based validation, and consistency across claims and supporting points." |}
  | SI =>
      {| code := SI;
         label := "Strategic Integrator";
         description :=
           "Strategic Integrator aligns multiple reasoning strands into a unified direction. Decision-making reflects coordination and long-term framing." |}
  | RR =>
      {| code := RR;
         label := "Reflective Regulator";
         description :=
           "Reflective Regulator actively monitors and controls reasoning boundaries. This type prioritizes balance, restraint, and intentional stopping points." |}
  | HE =>
      {| code := HE;
         label := "Human Expressionist";
         description :=
           "Human Expressionist expresses reasoning through narrative and contextual meaning. Communication clarity and human resonance are central." |}
  | MD =>
      {| code := MD;
         label := "Machine-Dominant";
         description :=
           "Machine-Dominant pattern reflects heavy dependence on automated or system-driven reasoning flow. Human agency signals are limited." |}
  end.

Record ObservedProfileScore : Type := {
  profile_meta : ProfileMeta;
  score : option num;
  pass_rule : bool;
  reason : option (list string)
}.

Record ObservedOptions : Type := {
  observed_threshold : option num;
  observed_min : option num;
  observed_max : option num
}.

Definition clamp01 (x : num) : num :=
  if negb (Num.isFinite x) then Fin 0
  else Num.min (Fin 1) (Num.max (Fin 0) x).

Definition weightedAvg (terms : list (option num * num)) : option num :=
  let WS :=
    fold_left
      (fun (acc : num * num) (t : option num * num) =>
         match fst t with
         | None => acc
         | Some v => (fst acc + snd t, snd acc + v * snd t)
         end)
      terms (Fin 0, Fin 0) in
  if fst WS <=? Fin 0 then None else Some (snd WS / fst WS).

Record CoreAxes : Type := {
  cAAS : option num;
  cCTF : option num;
  cRMD : option num;
  cRDX : option num;
  cEDS : option num;
  cIFD : option num;
  cKPF : option num;
  cTPS : option num;
  cAnalyticity : option num;
  cFlow : option num;
  cMetacogRaw : option num
}.

Definition scoreRE (core : CoreAxes) : option num :=
  weightedAvg [(cRDX core, (lit 0.45)); (cCTF core, (lit 0.30)); (cRMD core, (lit 0.25))].

Definition scoreIE (core : CoreAxes) : option num :=
  match cFlow core, cAnalyticity core with
  | Some flow, Some analyticity =>
      Some (clamp01 ((lit 0.60) * flow + (lit 0.40) * (Fin 1 - analyticity)))
  | _, _ => None
  end.

Definition scoreEW (core : CoreAxes) : option num :=
  weightedAvg [(cEDS core, (lit 0.55)); (cAAS core, (lit 0.45))].

Definition scoreAR (core : CoreAxes) : option num :=
  let base := weightedAvg [(cAAS core, (lit 0.65)); (cEDS core, (lit 0.35))] in
  match base, cCTF core with
  | None, None => None
  | _, _ =>
      let out :=
        match base with Some b => b | None => Fin 0 end
        - match cCTF core with None => Fin 0 | Some ctf => (lit 0.20) * ctf end in
      Some (clamp01 out)
  end.

Definition scoreSI (core : CoreAxes) : option num :=
  match cAnalyticity core, cFlow core, cMetacogRaw core with
  | Some a, Some f, Some m => Some (clamp01 (Num.min (Num.min a f) m))
  | _, _, _ => None
  end.

Definition scoreRR (core : CoreAxes) : option num :=
  weightedAvg
    [(cRDX core, (lit 0.60));
     (match cIFD core with None => None | Some ifd => Some (Fin 1 - ifd) end, (lit 0.40))].

Definition authenticity (core : CoreAxes) : option num :=
  match cKPF core, cTPS core with
  | None, None => None
  | Some kpf, Some tps => Some ((Fin 1 - kpf + tps) / Fin 2)
  | Some kpf, None => Some (Fin 1 - kpf)
  | None, Some tps => Some tps
  end.

Definition machineScore (core : CoreAxes) : option num :=
  match cKPF core, cTPS core with
  | None, None => None
  | Some kpf, Some tps => Some ((kpf + (Fin 1 - tps)) / Fin 2)
  | Some kpf, None => Some kpf
  | None, Some tps => Some (Fin 1 - tps)
  end.

Definition orZero (x : option num) : num :=
  match x with Some n => n | None => Fin 0 end.

Definition scoreHE (core : CoreAxes) : option num :=
  match authenticity core with
  | None => None
  | Some A =>
      Some (clamp01 ((lit 0.55) * A + (lit 0.25) * orZero (cCTF core) + (lit 0.20) * orZero (cRMD core)))
  end.

Definition scoreMD (core : CoreAxes) : option num :=
  match machineScore core with
  | None => None
  | Some M => Some (clamp01 M)
  end.

Definition passRule (code : ProfileCode) (core : CoreAxes) (score : option num)
    (TH : num) : bool * option (list string) :=
  match score with
  | None =>
      let reason :=
        match code with
        | HE | MD =>
            match cKPF core, cTPS core with
            | None, None =>
                ["KPF-Sim and TPS-H are not available, score is not computable"]
            | _, _ =>
                ["KPF-Sim or TPS-H available, but required inputs for score are missing"]
            end
        | _ => ["Required indicators missing, score is not computable"]
        end in
      (false, Some reason)
  | Some s =>
      let pass := s >=? TH in
      if pass then (true, None)
      else (false, Some ["score < threshold (" ++ Js.numToString TH ++ ")"])
  end.

Definition rawScore (core : CoreAxes) (c : ProfileCode) : option num :=
  match c with
  | RE => scoreRE core
  | IE => scoreIE core
  | EW => scoreEW core
  | AR => scoreAR core
  | SI => scoreSI core
  | RR => scoreRR core
  | HE => scoreHE core
  | MD => scoreMD core
  end.

Record ObservedPatternsOutV2 : Type := {
  selection_threshold : num;
  selection_min_count : num;
  selection_max_count : num;
  all_profiles : list ObservedProfileScore;
  profiles : list ObservedProfileScore
}.

Definition computeObservedPatternsV2 (core : CoreAxes) (opts : option ObservedOptions)
  : ObservedPatternsOutV2 :=
  let opt (f : ObservedOptions -> option num) (d : num) :=
    match opts with
    | Some o => match f o with Some n => n | None => d end
    | None => d
    end in
  let TH := opt observed_threshold (lit 0.62) in
  let MIN := opt observed_min (Fin 2) in
  let MAX := opt observed_max (Fin 3) in
  let order := [RE; IE; EW; AR; SI; RR; HE; MD] in
  let all_profiles :=
    map (fun code =>
           let s0 := rawScore core code in
           let s := match s0 with None => None | Some x => Some (clamp01 x) end in
           let pr := passRule code core s TH in
           {| profile_meta := OBSERVED_PROFILE_META code;
              score := s;
              pass_rule := fst pr;
              reason := snd pr |})
        order in
  let pool :=
    Js.sort (fun a b => orZero (score b) - orZero (score a))
      (filter (fun p => match score p with Some _ => true | None => false end)
         all_profiles) in
  let picked := filter (fun p => orZero (score p) >=? TH) pool in
  let picked :=
    if Js.num_of_nat (List.length picked) >? MAX then Js.slice0 picked MAX else picked in
  let picked :=
    if Js.num_of_nat (List.length picked) <? MIN
    then Js.slice0 pool (Num.min MIN (Js.num_of_nat (List.length pool)))
    else picked in
  {| selection_threshold := TH;
     selection_min_count := MIN;
     selection_max_count := MAX;
     all_profiles := all_profiles;
     profiles := picked |}.

Definition code_name (c : ProfileCode) : string :=
  match c with
  | RE => "RE" | IE => "IE" | EW => "EW" | AR => "AR"
  | SI => "SI" | RR => "RR" | HE => "HE" | MD => "MD"
  end.

Definition ObservedProfileScore_json (p : ObservedProfileScore) : value :=
  VObj [("code", VStr (code_name (code (profile_meta p))));
        ("label", VStr (label (profile_meta p)));
        ("description", VStr (description (profile_meta p)));
        ("score", match score p with Some s => VNum s | None => VNull end);
        ("pass_rule", VBool (pass_rule p));
        ("reason", match reason p with
                   | Some r => VArr (map VStr r)
                   | None => VUndef
                   end)].

Definition ObservedPatternsOutV2_json (o : ObservedPatternsOutV2) : value :=
  VObj [("layer", VStr "Cognitive Pattern Profile Layer");
        ("selection_rule",
         VObj [("threshold", VNum (selection_threshold o));
               ("min_count", VNum (selection_min_count o));
               ("max_count", VNum (selection_max_count o))]);
        ("all_profiles", VArr (map ObservedProfileScore_json (all_profiles o)));
        ("profiles", VArr (map ObservedProfileScore_json (profiles o)))].

End Patterns.

(** *** Final determination (Backend_6_Final Determination) *)

Module Final.

Inductive DetCode : Type :=
| T1 | T2 | T3 | T4 | T5 | T6
| Hx1 | Hx2 | Hx3 | Hx4
| Ax1 | Ax2 | Ax3 | Ax4.

Definition det_name (c : DetCode) : string :=
  match c with
  | T1 => "T1"
  | T2 => "T2"
  | T3 => "T3"
  | T4 => "T4"
  | T5 => "T5"
  | T6 => "T6"
  | Ax1 => "Ax-1"
  | Ax2 => "Ax-2"
  | Ax3 => "Ax-3"
  | Ax4 => "Ax-4"
  | Hx1 => "Hx-1"
  | Hx2 => "Hx-2"
  | Hx3 => "Hx-3"
  | Hx4 => "Hx-4"
  end.

Record TypeEntry : Type := {
  type_name : string;
  type_description : string
}.

Definition TYPE_REGISTRY (c : DetCode) : option TypeEntry :=
  match c with
  | T1 =>
      Some {| type_name := "Analytical Reasoner";
              type_description :=
                "T1. Analytical Reasoner approaches problems through structured decomposition and logical sequencing. Reasoning is driven by explicit analysis, rule-based evaluation, and clear separation of components. This pattern prioritizes correctness, internal consistency, and stepwise justification." |}
  | T2 =>
      Some {| type_name := "Reflective Thinker";
              type_description :=
                "T2. Reflective Thinker emphasizes self-monitoring and internal revision during reasoning. This pattern frequently revisits prior assumptions, adjusts interpretations, and refines conclusions through reflection. Reasoning quality is shaped by iterative reassessment rather than linear progression." |}
  | T3 =>
      Some {| type_name := "Intuitive Explorer";
              type_description :=
                "T3. Intuitive Explorer relies on associative thinking and exploratory inference. Reasoning advances through pattern recognition, conceptual leaps, and hypothesis generation rather than explicit structure. This pattern prioritizes discovery and possibility over immediate validation." |}
  | T4 =>
      Some {| type_name := "Strategic Integrator";
              type_description :=
                "T4. Strategic Integrator focuses on synthesizing multiple perspectives into a coherent direction. Reasoning involves alignment of goals, constraints, and long-term implications. This pattern emphasizes coordination, prioritization, and purposeful convergence." |}
  | T5 =>
      Some {| type_name := "Human Expressionist";
              type_description :=
                "T5. Human Expressionist centers reasoning around meaning, context, and human experience. Thought is shaped by narrative coherence, emotional nuance, and communicative clarity. This pattern prioritizes expressiveness and interpretive depth over formal structure." |}
  | T6 =>
      Some {| type_name := "Machine-Dominant";
              type_description :=
                "T6. Machine-Dominant pattern shows strong reliance on external systems or automated reasoning flows. Decision progression often mirrors templated logic or system-driven optimization. Human agency and self-directed revision signals remain limited." |}
  | Ax1 =>
      Some {| type_name := "Template Generator";
              type_description :=
                "Ax-1. Template Generator produces reasoning by following predefined structural patterns. Responses are consistent and organized but show limited adaptation beyond the template. Original restructuring signals are minimal." |}
  | Ax2 =>
      Some {| type_name := "Evidence Synthesizer";
              type_description :=
                "Ax-2. Evidence Synthesizer focuses on collecting and linking supporting information. Reasoning emphasizes aggregation and alignment of evidence rather than original inference. Conclusions emerge from evidence density rather than internal exploration." |}
  | Ax3 =>
      Some {| type_name := "Style Emulator";
              type_description :=
                "Ax-3. Style Emulator mirrors linguistic and structural patterns." |}
  | Ax4 =>
      Some {| type_name := "Reasoning Simulator";
              type_description :=
                "Ax-4. Reasoning Simulator reproduces the appearance of structured reasoning through iterative expansion and recombination. While transitions and revisions are present, they are driven by simulation rather than genuine internal intent formation." |}
  | Hx1 =>
      Some {| type_name := "Draft-Assist";
              type_description :=
                "Hx-1. Draft-Assist Type uses AI support primarily for initial idea formation. Human control increases in later stages through revision and refinement." |}
  | Hx2 =>
      Some {| type_name := "Structure-Assist";
              type_description :=
                "Hx-2. Structure-Assist Type relies on AI to organize and scaffold reasoning. Core ideas remain human-driven, while structural clarity is externally supported." |}
  | Hx3 =>
      Some {| type_name := "Evidence-Assist";
              type_description :=
                "Hx-3. Evidence-Assist Type leverages AI to gather or arrange supporting material. Human reasoning determines relevance and final judgment." |}
  | Hx4 =>
      Some {| type_name := "Reasoning-Assist";
              type_description :=
                "Hx-4. Reasoning-Assist Type involves AI participation in intermediate reasoning steps. Human oversight remains, but reasoning momentum is partially shared." |}
  end.

Definition INTERPRETATION_REGISTRY (c : DetCode) : option string :=
  match c with
  | Ax4 =>
      Some "Reasoning Simulator reflects a reasoning structure that appears coherent and well-formed, while transitions and revisions are driven by simulated control patterns rather than direct intent formation."
  | _ => None
  end.

Definition clamp01 (x : num) : num :=
  if negb (Num.isFinite x) then Fin 0
  else if x <? Fin 0 then Fin 0 else if x >? Fin 1 then Fin 1 else x.

Definition avg (a b : option num) : option num :=
  match a, b with
  | None, None => None
  | None, _ => b
  | _, None => a
  | Some x, Some y => Some ((x + y) / Fin 2)
  end.

(** [cff.indicators] is read as it comes: [indicators] is any value.
    Reading a property of [undefined] or of [null] raises a [TypeError]. *)
Definition getActiveScore (indicators : value) (code : string)
    (normalizeTpsH : bool) : res (option num) :=
  if Js.nullish indicators then Throw TypeError
  else
    let iv := indicators.[code] in
    Ok (if negb (Js.truthy iv) then None
        else
          match iv.["status"] with
          | VStr "Active" =>
              match iv.["score"] with
              | VNum x =>
                  if Num.isFinite x then
                    let x :=
                      if normalizeTpsH && String.eqb code "TPS-H"
                      then (if x >? (lit 1.01) then x / Fin 100 else x) else x in
                    Some (clamp01 x)
                  else None
              | _ => None
              end
          | _ => None
          end).

Definition confFromMargin (margin : num) : num :=
  let base := (lit 0.65) in
  let scale := (lit 0.7) in
  let capLow := (lit 0.55) in
  let capHigh := (lit 0.92) in
  let v := base + scale * margin in
  let v := if v <? capLow then capLow else v in
  let v := if v >? capHigh then capHigh else v in
  clamp01 v.

Definition round2 (x : num) : num := Num.round (x * Fin 100) / Fin 100.

Inductive T2Mode : Type := Regulation | MetacogRaw.

Record FinalOptions : Type := {
  t2_mode : option T2Mode;
  conservative_lock_ai_hybrid : option bool
}.

Inductive Track : Type := Human | Hybrid | AI.

Record Cand : Type := { prio : num; cand_code : DetCode; conf : num }.

Record CffFinalTypePublic : Type := {
  label : string;
  chip_label : string;
  confidence : num;
  interpretation : string
}.

Definition min3 (a b c : num) : num := Num.min (Num.min a b) c.
Definition min4 (a b c d : num) : num := Num.min (min3 a b c) d.

(** The eight scores that [computeFinalDeterminationCff] reads first. *)
Record ActiveScores : Type := {
  iAAS : option num;
  iCTF : option num;
  iRMD : option num;
  iRDX : option num;
  iEDS : option num;
  iIFD : option num;
  iKPF : option num;
  iTPS : option num
}.

Section Determination.

Variable scores : ActiveScores.
Variable opts : option FinalOptions.

Definition t2Mode : T2Mode :=
  match opts with
  | Some o => match t2_mode o with Some m => m | None => Regulation end
  | None => Regulation
  end.

Definition conservativeLock : bool :=
  match opts with
  | Some o => match conservative_lock_ai_hybrid o with Some b => b | None => false end
  | None => false
  end.

Definition Analyticity := avg (iAAS scores) (iEDS scores).
Definition Flow := avg (iCTF scores) (iRMD scores).
Definition MetacogRaw_ := avg (iRDX scores) (iIFD scores).
Definition Regulation_ :=
  avg (iRDX scores) (match (iIFD scores) with None => None | Some ifd => Some (Fin 1 - ifd) end).

Definition Authenticity : option num :=
  match (iKPF scores), (iTPS scores) with
  | Some kpf, Some tps => avg (Some (Fin 1 - kpf)) (Some tps)
  | Some kpf, None => Some (Fin 1 - kpf)
  | None, Some tps => Some tps
  | None, None => None
  end.

Definition MachineScore : option num :=
  match (iKPF scores), (iTPS scores) with
  | Some kpf, Some tps => avg (Some kpf) (Some (Fin 1 - tps))
  | Some kpf, None => Some kpf
  | None, Some tps => Some (Fin 1 - tps)
  | None, None => None
  end.

Definition internalTrack : Track :=
  match MachineScore with
  | None => if conservativeLock then Human else Human
  | Some m =>
      if conservativeLock then Human
      else if m >=? (lit 0.7) then AI
      else if m >=? (lit 0.4) then Hybrid
      else Human
  end.

Definition chooseHumanT : DetCode * num :=
  let cand : list Cand := [] in
  let cand :=
    match Analyticity, Flow, MetacogRaw_ with
    | Some a, Some f, Some m =>
        if (a >=? (lit 0.6)) && (f >=? (lit 0.6)) && (m >=? (lit 0.6)) then
          let margin := min3 (a - (lit 0.6)) (f - (lit 0.6)) (m - (lit 0.6)) in
          List.app cand [{| prio := Fin 4; cand_code := T4; conf := confFromMargin margin |}]
        else cand
    | _, _, _ => cand
    end in
  let axis := match t2Mode with Regulation => Regulation_ | MetacogRaw => MetacogRaw_ end in
  let cand :=
    match axis with
    | Some ax =>
        if ax >=? (lit 0.7) then
          let margin := ax - (lit 0.7) in
          List.app cand [{| prio := Fin 3; cand_code := T2; conf := confFromMargin margin |}]
        else cand
    | None => cand
    end in
  let cand :=
    match Analyticity, Flow with
    | Some a, Some f =>
        if (a >=? (lit 0.7)) && (f <? (lit 0.55)) then
          let margin := Num.min (a - (lit 0.7)) ((lit 0.55) - f) in
          List.app cand [{| prio := Fin 2; cand_code := T1; conf := confFromMargin margin |}]
        else cand
    | _, _ => cand
    end in
  let cand :=
    match Flow, Analyticity with
    | Some f, Some a =>
        if (f >=? (lit 0.7)) && (a <? (lit 0.55)) then
          let margin := Num.min (f - (lit 0.7)) ((lit 0.55) - a) in
          List.app cand [{| prio := Fin 1; cand_code := T3; conf := confFromMargin margin |}]
        else cand
    | _, _ => cand
    end in
  let cand :=
    Js.sort (fun a b =>
               let d := prio b - prio a in
               if Num.truthy d then d else conf b - conf a) cand in
  match cand with
  | [] => (T2, (lit 0.6))
  | c :: _ => (cand_code c, conf c)
  end.

Definition chooseAx : option (DetCode * num) :=
  let r1 :=
    match (iAAS scores), (iRDX scores), (iRMD scores) with
    | Some aas, Some rdx, Some rmd =>
        if (aas >=? (lit 0.8)) && (rdx <=? (lit 0.4)) && (rmd <=? (lit 0.45))
        then Some (Ax1, confFromMargin (min3 (aas - (lit 0.8)) ((lit 0.4) - rdx) ((lit 0.45) - rmd)))
        else None
    | _, _, _ => None
    end in
  let r2 :=
    match (iEDS scores), (iAAS scores), (iIFD scores) with
    | Some eds, Some aas, Some ifd =>
        if (eds >=? (lit 0.8)) && (aas >=? (lit 0.65)) && (ifd <=? (lit 0.4))
        then Some (Ax2, confFromMargin (min3 (eds - (lit 0.8)) (aas - (lit 0.65)) ((lit 0.4) - ifd)))
        else None
    | _, _, _ => None
    end in
  let r3 :=
    match Flow, MachineScore with
    | Some f, Some m =>
        if (f >=? (lit 0.65)) && (m >=? (lit 0.7))
        then Some (Ax3, confFromMargin (Num.min (f - (lit 0.65)) (m - (lit 0.7))))
        else None
    | _, _ => None
    end in
  let r4 :=
    match (iAAS scores), (iRDX scores), (iIFD scores) with
    | Some aas, Some rdx, Some ifd =>
        if (aas >=? (lit 0.75)) && (rdx <=? (lit 0.45)) && (ifd <=? (lit 0.35))
        then Some (Ax4, confFromMargin (min3 (aas - (lit 0.75)) ((lit 0.45) - rdx) ((lit 0.35) - ifd)))
        else None
    | _, _, _ => None
    end in
  match r1 with
  | Some r => Some r
  | None =>
      match r2 with
      | Some r => Some r
      | None => match r3 with Some r => Some r | None => r4 end
      end
  end.

Definition chooseHx : option (DetCode * num) :=
  match (iKPF scores) with
  | None => None
  | Some kpf =>
      let inBand := (kpf >=? (lit 0.25)) && (kpf <=? (lit 0.55)) in
      let r1 :=
        match (iRDX scores) with
        | Some rdx =>
            if (rdx >=? (lit 0.6)) && inBand
            then Some (Hx1, confFromMargin (min3 (rdx - (lit 0.6)) (kpf - (lit 0.25)) ((lit 0.55) - kpf)))
            else None
        | None => None
        end in
      let r2 :=
        match (iAAS scores), (iCTF scores) with
        | Some aas, Some ctf =>
            if (aas >=? (lit 0.6)) && (ctf >=? (lit 0.6)) && inBand
            then Some (Hx2, confFromMargin
                              (min4 (aas - (lit 0.6)) (ctf - (lit 0.6)) (kpf - (lit 0.25)) ((lit 0.55) - kpf)))
            else None
        | _, _ => None
        end in
      let r3 :=
        match (iEDS scores) with
        | Some eds =>
            if (eds >=? (lit 0.75)) && inBand
            then Some (Hx3, confFromMargin (min3 (eds - (lit 0.75)) (kpf - (lit 0.25)) ((lit 0.55) - kpf)))
            else None
        | None => None
        end in
      let r4 :=
        match (iAAS scores), (iRMD scores) with
        | Some aas, Some rmd =>
            if (aas >=? (lit 0.7)) && (rmd <=? (lit 0.45)) && (kpf >=? (lit 0.45))
            then Some (Hx4, confFromMargin (min3 (aas - (lit 0.7)) ((lit 0.45) - rmd) (kpf - (lit 0.45))))
            else None
        | _, _ => None
        end in
      match r1 with
      | Some r => Some r
      | None =>
          match r2 with
          | Some r => Some r
          | None => match r3 with Some r => Some r | None => r4 end
          end
      end
  end.

Definition chooseT5T6 : option (DetCode * num) :=
  match Authenticity, MachineScore with
  | Some a, Some m =>
      if (m >=? (lit 0.7)) || (a <=? (lit 0.4)) then
        Some (T6, confFromMargin (Num.max (m - (lit 0.7)) ((lit 0.4) - a)))
      else if a >=? (lit 0.75) then
        Some (T5, confFromMargin (a - (lit 0.75)))
      else None
  | _, _ => None
  end.

(** What [computeFinalDeterminationCff] does once the scores are read. *)
Definition determine : res CffFinalTypePublic :=
  let final :=
    match internalTrack with
    | Human => match chooseT5T6 with Some r => r | None => chooseHumanT end
    | Hybrid => match chooseHx with Some r => r | None => chooseHumanT end
    | AI => match chooseAx with Some r => r | None => chooseHumanT end
    end in
  let finalCode := fst final in
  let finalConf := snd final in
  match TYPE_REGISTRY finalCode with
  | None => Throw (Error ("Unknown final_code for registry: " ++ det_name finalCode))
  | Some reg =>
      let label := det_name finalCode ++ ". " ++ type_name reg in
      let chipLabel := type_name reg in
      let confidence := round2 (clamp01 finalConf) in
      let interpretation :=
        match INTERPRETATION_REGISTRY finalCode with
        | Some s => s
        | None =>
            type_name reg
              ++ " reflects the dominant reasoning pattern inferred from the current indicator configuration."
        end in
      Ok {| label := label;
            chip_label := chipLabel;
            confidence := confidence;
            interpretation := interpretation |}
  end.

End Determination.

Definition computeFinalDeterminationCff (indicators : value) (opts : option FinalOptions)
  : res CffFinalTypePublic :=
  AAS <- getActiveScore indicators "AAS" false ;;
  CTF <- getActiveScore indicators "CTF" false ;;
  RMD <- getActiveScore indicators "RMD" false ;;
  RDX <- getActiveScore indicators "RDX" false ;;
  EDS <- getActiveScore indicators "EDS" false ;;
  IFD <- getActiveScore indicators "IFD" false ;;
  KPF <- getActiveScore indicators "KPF-Sim" false ;;
  TPS <- getActiveScore indicators "TPS-H" true ;;
  determine
    {| iAAS := AAS; iCTF := CTF; iRMD := RMD; iRDX := RDX;
       iEDS := EDS; iIFD := IFD; iKPF := KPF; iTPS := TPS |}
    opts.

Definition CffOut_json (f : CffFinalTypePublic) : value :=
  VObj [("cff", VObj [("final_type",
    VObj [("label", VStr (label f));
          ("chip_label", VStr (chip_label f));
          ("confidence", VNum (confidence f));
          ("interpretation", VStr (interpretation f))])])].

End Final.

(** *** The orchestrator [deriveCff] *)

Definition strField (o : value) (k : string) : res (option string) :=
  match o.[k] with
  | VStr s => Ok (Some s)
  | VUndef | VNull => Ok None
  | _ => Beyond
  end.

Fixpoint strings_of (xs : list value) : option (list string) :=
  match xs with
  | [] => Some []
  | VStr s :: r =>
      match strings_of r with Some l => Some (s :: l) | None => None end
  | _ => None
  end.

(** [raw.evidence_types], as [new Set(...)] receives it: a falsy value is
    skipped, an array of strings is taken, and a truthy value that cannot be
    iterated makes [new Set] throw. *)
Definition evidenceTypesField (raw : value) : res (option (list string)) :=
  let v := raw.["evidence_types"] in
  if negb (Js.truthy v) then Ok None
  else
    match v with
    | VArr xs => match strings_of xs with Some l => Ok (Some l) | None => Beyond end
    | VStr _ => Beyond
    | _ => Throw TypeError
    end.

(** [raw as RawFeaturesV1] *)
Definition view_RawFeaturesV1 (raw : value) : res RawFeaturesV1 :=
  units <- numField raw "units" ;;
  claims <- numField raw "claims" ;;
  reasons <- numField raw "reasons" ;;
  evidence <- numField raw "evidence" ;;
  sub_claims <- numField raw "sub_claims" ;;
  warrants <- numField raw "warrants" ;;
  structure_type <- strField raw "structure_type" ;;
  transitions <- numField raw "transitions" ;;
  transition_ok <- numField raw "transition_ok" ;;
  hedges <- numField raw "hedges" ;;
  loops <- numField raw "loops" ;;
  revisions <- numField raw "revisions" ;;
  revision_depth_sum <- numField raw "revision_depth_sum" ;;
  intent_markers <- numField raw "intent_markers" ;;
  drift_segments <- numField raw "drift_segments" ;;
  kpf_sim <- numField raw "kpf_sim" ;;
  tps_h <- numField raw "tps_h" ;;
  evidence_types <- evidenceTypesField raw ;;
  Ok {| units := units; claims := claims; reasons := reasons; evidence := evidence;
        sub_claims := sub_claims; warrants := warrants;
        structure_type := structure_type;
        transitions := transitions; transition_ok := transition_ok;
        hedges := hedges; loops := loops;
        revisions := revisions; revision_depth_sum := revision_depth_sum;
        belief_change := Js.truthy raw.["belief_change"];
        evidence_types := evidence_types;
        intent_markers := intent_markers; drift_segments := drift_segments;
        kpf_sim := kpf_sim; tps_h := tps_h |}.

(** [raw as CoreAxes]: [deriveCff] hands the raw features to the pattern
    scorer, which reads its eleven axes from them. *)
Definition view_CoreAxes (raw : value) : res Patterns.CoreAxes :=
  aas <- numField raw "AAS" ;;
  ctf <- numField raw "CTF" ;;
  rmd <- numField raw "RMD" ;;
  rdx <- numField raw "RDX" ;;
  eds <- numField raw "EDS" ;;
  ifd <- numField raw "IFD" ;;
  kpf <- numField raw "KPF" ;;
  tps <- numField raw "TPS" ;;
  analyticity <- numField raw "Analyticity" ;;
  flow <- numField raw "Flow" ;;
  metacog <- numField raw "MetacogRaw" ;;
  Ok {| Patterns.cAAS := aas; Patterns.cCTF := ctf; Patterns.cRMD := rmd;
        Patterns.cRDX := rdx; Patterns.cEDS := eds; Patterns.cIFD := ifd;
        Patterns.cKPF := kpf; Patterns.cTPS := tps;
        Patterns.cAnalyticity := analyticity; Patterns.cFlow := flow;
        Patterns.cMetacogRaw := metacog |}.

Definition finalOptions : Final.FinalOptions :=
  {| Final.t2_mode := Some Final.Regulation;
     Final.conservative_lock_ai_hybrid := Some true |}.

Definition deriveCff (input : value) : res value :=
  let ai := unwrap input in
  let raw := rawOf ai in
  cff6 <-
    (if Js.truthy raw
     then r <- view_RawFeaturesV1 raw ;; Ok (CFF6_json (computeCFF6_v1 r))
     else Ok (VObj [("cff", VObj [("indicators", VObj [])])])) ;;
  patterns <-
    (if Js.truthy raw
     then c <- view_CoreAxes raw ;;
          Ok (Patterns.ObservedPatternsOutV2_json (Patterns.computeObservedPatternsV2 c None))
     else Ok (VObj [("cff", VObj [("observed_patterns", VArr [])])])) ;;
  finalType <-
    Final.computeFinalDeterminationCff
      (cff6.["cff"].["indicators"] ?? VObj []) (Some finalOptions) ;;
  Ok (deepMergeAll [cff6; patterns; Final.CffOut_json finalType]).

End Cff.

(** ** RC: signal library and the orchestrator [deriveRc] ([derive/rc.ts]) *)

Module Rc.

Local Open Scope string_scope.
Local Open Scope num_scope.

Inductive SignalGroup : Type :=
| REVISION | TRANSITION | COUNTER | EVIDENCE | NONAUTO | SPECIFICITY.

Record SignalTemplate : Type := {
  id : string;
  text : string;
  group : SignalGroup;
  priority : num
}.

(** The templates S1 to S18, in the order of the object literal. *)
Definition buildSignalLibraryV1_S1toS18 : list SignalTemplate :=
  [
    {| id := "S1";
       text := "Revision activity occurs at semantic decision boundaries.";
       group := REVISION;
       priority := Fin 10 |};
    {| id := "S2";
       text := "Argument order adjustments correspond to logical correction.";
       group := REVISION;
       priority := Fin 20 |};
    {| id := "S3";
       text := "Claim scope or conditions are refined through explicit revision.";
       group := REVISION;
       priority := Fin 30 |};
    {| id := "S4";
       text := "Prior assumptions are explicitly re-evaluated during reasoning progression.";
       group := REVISION;
       priority := Fin 40 |};
    {| id := "S5";
       text := "Consistency checks appear across structural transitions.";
       group := TRANSITION;
       priority := Fin 10 |};
    {| id := "S6";
       text := "Logical transitions between claims and supporting reasons are explicitly maintained.";
       group := TRANSITION;
       priority := Fin 20 |};
    {| id := "S7";
       text := "Structural continuity is preserved across multi-step reasoning transitions.";
       group := TRANSITION;
       priority := Fin 30 |};
    {| id := "S8";
       text := "Alternative viewpoints are introduced and structurally examined.";
       group := COUNTER;
       priority := Fin 10 |};
    {| id := "S9";
       text := "Counter-arguments are explicitly addressed through refutational reasoning.";
       group := COUNTER;
       priority := Fin 20 |};
    {| id := "S10";
       text := "Evidence is evaluated against potential contradictions rather than accepted at face value.";
       group := COUNTER;
       priority := Fin 30 |};
    {| id := "S11";
       text := "Multiple evidence types are integrated within the reasoning structure.";
       group := EVIDENCE;
       priority := Fin 10 |};
    {| id := "S12";
       text := "Evidence placement aligns with the logical role it serves within the argument.";
       group := EVIDENCE;
       priority := Fin 20 |};
    {| id := "S13";
       text := "Supporting evidence is selectively introduced at structurally relevant points.";
       group := EVIDENCE;
       priority := Fin 30 |};
    {| id := "S14";
       text := "No sustained repetitive propagation is observed across reasoning segments.";
       group := NONAUTO;
       priority := Fin 10 |};
    {| id := "S15";
       text := "Structural variation is maintained without reliance on template-like repetition.";
       group := NONAUTO;
       priority := Fin 20 |};
    {| id := "S16";
       text := "Reasoning progression avoids uniform continuation patterns across sections.";
       group := NONAUTO;
       priority := Fin 30 |};
    {| id := "S17";
       text := "Structural behavior reflects document-specific reasoning rather than generic composition patterns.";
       group := SPECIFICITY;
       priority := Fin 10 |};
    {| id := "S18";
       text := "Observed structural signals vary across sections in response to local reasoning demands.";
       group := SPECIFICITY;
       priority := Fin 20 |}
  ].

Definition group_name (g : SignalGroup) : string :=
  match g with
  | REVISION => "REVISION"
  | TRANSITION => "TRANSITION"
  | COUNTER => "COUNTER"
  | EVIDENCE => "EVIDENCE"
  | NONAUTO => "NONAUTO"
  | SPECIFICITY => "SPECIFICITY"
  end.

Definition SignalTemplate_json (t : SignalTemplate) : value :=
  VObj [("id", VStr (id t)); ("text", VStr (text t));
        ("group", VStr (group_name (group t))); ("priority", VNum (priority t))].

Definition library_json (lib : list SignalTemplate) : value :=
  VObj (map (fun t => (id t, SignalTemplate_json t)) lib).

(** [computePHumanFromCFV(cfv, model)] reads [model.z_clip] first: without a
    model it throws.  [deriveRc] calls it with one argument; the logistic
    model behind that first read, which needs [Math.exp], is left out. *)
Definition computePHumanFromCFV (cfv model : value) : res num :=
  if Js.nullish model then Throw TypeError else Beyond.

Record RCOut : Type := {
  summary : string;
  control_pattern : string;
  reliability_band : string;
  band_rationale : string;
  pattern_interpretation : string
}.

Definition RCOut_json (r : RCOut) : value :=
  VObj [("rc", VObj [("summary", VStr (summary r));
                     ("control_pattern", VStr (control_pattern r));
                     ("reliability_band", VStr (reliability_band r));
                     ("band_rationale", VStr (band_rationale r));
                     ("pattern_interpretation", VStr (pattern_interpretation r))])].

Record AgencyIndicators : Type := {
  structural_variance : num;
  human_rhythm_index : num;
  transition_flow : num;
  revision_depth : num
}.

Definition AgencyIndicators_json (a : AgencyIndicators) : value :=
  VObj [("structural_variance", VNum (structural_variance a));
        ("human_rhythm_index", VNum (human_rhythm_index a));
        ("transition_flow", VNum (transition_flow a));
        ("revision_depth", VNum (revision_depth a))].

Section DeriveRc.

(** The two kernels that read the raw features call [Math.sqrt] and
    [Math.log]; [deriveRc] uses them through the records they return, and
    they are parameters here.  The nearest-centroid rule inside
    [computeRCFromRaw] is embedded over binary64 floats in [Control]. *)
Variable computeRCFromRaw : value -> RCOut.
Variable computeAgencyIndicators : value -> res AgencyIndicators.

Definition deriveRc (input : value) : res value :=
  let ai := unwrap input in
  let raw := rawOf ai in
  let rcSummary :=
    if Js.truthy raw then RCOut_json (computeRCFromRaw raw)
    else VObj [("rc", VObj [])] in
  let lib := library_json buildSignalLibraryV1_S1toS18 in
  let observed := rcSummary.["rc"].["observed_structural_signals"] in
  let observedBlock :=
    if Js.truthy observed
    then VObj [("rc", VObj [("observed_structural_signals", observed);
                            ("observed_structural_signals_library", lib)])]
    else VObj [("rc", VObj [("observed_structural_signals_library", lib)])] in
  let cfv :=
    ai.["cff"].["cfv"] ?? ai.["cff"].["indicators"] ?? ai.["cff"].["indicators_vector"] in
  let dist :=
    if Js.truthy cfv then
      match computePHumanFromCFV cfv VUndef with
      | Ok p => Ok (VNum p)
      | Throw _ => Ok (VObj [("rc", VObj [])])
      | Beyond => Beyond
      end
    else Ok (VObj [("rc", VObj [])]) in
  dist <- dist ;;
  agency <-
    (if Js.truthy raw
     then a <- computeAgencyIndicators raw ;; Ok (AgencyIndicators_json a)
     else Ok (VObj [("rc", VObj [("structural_control_signals", VObj [])])])) ;;
  Ok (deepMergeAll [rcSummary; observedBlock; dist; agency]).

End DeriveRc.

End Rc.

(** ** RFS: cognitive style and job-group fit ([derive/rfs.ts]) *)

Module Rfs.

Local Open Scope string_scope.
Local Open Scope num_scope.

(** *** Cognitive style summary (Backend_12) *)

Record StyleInputs : Type := {
  aas : num; ctf : num; rmd : num; rdx : num; eds : num; ifd : num;
  rsl_control : num; rsl_validation : num; rsl_hypothesis : num; rsl_expansion : num
}.

Inductive StyleId : Type :=
| Style1 | Style2 | Style3 | Style4 | Style5 | Style6 | Style7 | Style8 | Style9.

Record RfsJson : Type := {
  primary_pattern : string;
  representative_phrase : string
}.

Definition clamp01 (x : num) : num :=
  if negb (Num.isFinite x) then Fin 0
  else if x <? Fin 0 then Fin 0 else if x >? Fin 1 then Fin 1 else x.

(** [safe01(x)] on a number [x] *)
Definition safe01 (x : num) : num :=
  let n := x in
  clamp01 (if Num.isFinite n then n else Fin 0).

Definition DEFAULT_PRIMARY_PATTERN (s : StyleId) : string :=
  match s with
  | Style1 => "Reflective Explorer"
  | Style2 => "Reflective Explorer"
  | Style3 => "Analytical Reasoner"
  | Style4 => "Intuitive Explorer"
  | Style5 => "Reflective Explorer"
  | Style6 => "Procedural Thinker"
  | Style7 => "Creative Explorer"
  | Style8 => "Associative Thinker"
  | Style9 => "Linear Responder"
  end.

Definition PHRASE_MAP (s : StyleId) : string :=
  match s with
  | Style1 => "structured and exploratory"
  | Style2 => "structured but exploratory"
  | Style3 => "highly structured and deliberate"
  | Style4 => "exploratory with emerging structure"
  | Style5 => "balanced and adaptive"
  | Style6 => "moderately structured and steady"
  | Style7 => "highly exploratory and fluid"
  | Style8 => "loosely structured with exploration"
  | Style9 => "unstructured and linear"
  end.

Definition computeStructureScore (m : StyleInputs) : num :=
  let s :=
    (lit 0.40) * safe01 (rdx m) + (lit 0.30) * safe01 (aas m) + (lit 0.20) * safe01 (eds m)
    + (lit 0.10) * (Fin 1 - safe01 (ifd m)) in
  clamp01 s.

Definition computeExplorationScore (m : StyleInputs) : num :=
  let e :=
    (lit 0.45) * safe01 (ctf m) + (lit 0.25) * safe01 (rmd m)
    + (lit 0.20) * safe01 (rsl_hypothesis m) + (lit 0.10) * safe01 (rsl_expansion m) in
  clamp01 e.

Definition classifyStyleId (structure exploration : num) : StyleId :=
  let S := clamp01 structure in
  let E := clamp01 exploration in
  if (S >=? (lit 0.67)) && (E >=? (lit 0.67)) then Style1
  else if (S >=? (lit 0.67)) && (E >=? (lit 0.45)) then Style2
  else if (S >=? (lit 0.67)) && (E <? (lit 0.45)) then Style3
  else if (S >=? (lit 0.45)) && (E >=? (lit 0.67)) then Style4
  else if (S >=? (lit 0.45)) && (E >=? (lit 0.45)) then Style5
  else if (S >=? (lit 0.45)) && (E <? (lit 0.45)) then Style6
  else if (S <? (lit 0.45)) && (E >=? (lit 0.67)) then Style7
  else if (S <? (lit 0.45)) && (E >=? (lit 0.45)) then Style8
  else Style9.

Definition computeRfs9Type (inputs : StyleInputs) : RfsJson :=
  let structure := computeStructureScore inputs in
  let exploration := computeExplorationScore inputs in
  let styleId := classifyStyleId structure exploration in
  {| primary_pattern := DEFAULT_PRIMARY_PATTERN styleId;
     representative_phrase := PHRASE_MAP styleId |}.

Record PayloadCff : Type := {
  p_aas : num; p_ctf : num; p_rmd : num; p_rdx : num; p_eds : num; p_ifd : num
}.

Record PayloadRsl : Type := {
  p_rsl_control : option num;
  p_rsl_validation : option num;
  p_rsl_hypothesis : option num;
  p_rsl_expansion : option num
}.

Record CognitiveRoleFitPayload : Type := {
  p_cff : PayloadCff;
  p_rsl : option PayloadRsl
}.

Definition computeRfsFromPayload (payload : CognitiveRoleFitPayload) : RfsJson :=
  let rsl (f : PayloadRsl -> option num) : num :=
    match p_rsl payload with
    | Some r => match f r with Some n => n | None => Fin 0 end
    | None => Fin 0
    end in
  computeRfs9Type
    {| aas := safe01 (p_aas (p_cff payload));
       ctf := safe01 (p_ctf (p_cff payload));
       rmd := safe01 (p_rmd (p_cff payload));
       rdx := safe01 (p_rdx (p_cff payload));
       eds := safe01 (p_eds (p_cff payload));
       ifd := safe01 (p_ifd (p_cff payload));
       rsl_control := safe01 (rsl p_rsl_control);
       rsl_validation := safe01 (rsl p_rsl_validation);
       rsl_hypothesis := safe01 (rsl p_rsl_hypothesis);
       rsl_expansion := safe01 (rsl p_rsl_expansion) |}.

Definition RfsJson_json (r : RfsJson) : value :=
  VObj [("rfs", VObj [("primary_pattern", VStr (primary_pattern r));
                      ("representative_phrase", VStr (representative_phrase r))])].

(** *** Job role fit, top three groups (Backend_13) *)

Record NeuprintAxes : Type := {
  analyticity : num;
  flow : num;
  metacognition : num;
  authenticity : num
}.

Record MinRequirements : Type := {
  arc_level : num;
  min_analyticity : option num;
  min_flow : option num;
  min_metacognition : option num;
  min_authenticity : option num
}.

Record RoleConfig : Type := {
  role_code : string;
  job_id : string;
  onet_code : string;
  oecd_core_skills : list string;
  neuprint_axes_weights : NeuprintAxes;
  min_requirements : MinRequirements
}.

Record JobGroup : Type := mkJob {
  group_id : nat;
  group_name : string;
  jg_job_id : string;
  job_name : string
}.

Record RoleFitInput : Type := {
  axes : NeuprintAxes;
  user_arc_level : num
}.

Record RfsGroupItem : Type := {
  gi_group_name : string;
  percent : num;
  roles : list string;
  recommended_role : string
}.

Record RfsGroupTop3Json : Type := {
  summary_lines : list string;
  top_groups : list RfsGroupItem;
  recommended_roles_top3 : list string;
  recommended_roles_line : string;
  pattern_interpretation : string
}.

Definition isFinite01 (x : num) : bool :=
  Num.isFinite x && (x >=? Fin 0) && (x <=? Fin 1).

Definition axes_list (a : NeuprintAxes) : list (string * num) :=
  [("analyticity", analyticity a); ("flow", flow a);
   ("metacognition", metacognition a); ("authenticity", authenticity a)].

Fixpoint assert_each (label : string) (kvs : list (string * num)) : res unit :=
  match kvs with
  | [] => Ok tt
  | (k, v) :: r =>
      if negb (isFinite01 v)
      then Throw (Error (label ++ "." ++ k ++ " must be in [0,1]. Got: "
                           ++ Js.numToString v))
      else assert_each label r
  end.

Definition assertAxes01 (a : NeuprintAxes) (label : string) : res unit :=
  assert_each label (axes_list a).

Definition validateWeights (weights : NeuprintAxes) : res unit :=
  _ <- assertAxes01 weights "neuprint_axes_weights" ;;
  let sum :=
    analyticity weights + flow weights + metacognition weights + authenticity weights in
  let tol := (lit 0.000001) in
  if Num.abs (sum - Fin 1) >? tol
  then Throw (Error ("neuprint_axes_weights must sum to 1.0. Got sum=" ++ Js.toFixed6 sum))
  else Ok tt.

Definition GROUP_ROLE_TEMPLATES (gid : nat) : option string :=
  match gid with
  | 1 =>
      Some "Strong in conceptual structuring and strategic direction setting, this profile is well suited for designing large-scale frameworks and guiding decision alignment across complex constraints."
  | 2 =>
      Some "Demonstrates data-oriented reasoning with strong pattern extraction and hypothesis testing capacity, making it effective for analytical modeling and evidence-driven problem solving."
  | 3 =>
      Some "Shows strength in system architecture and technical integration thinking, enabling efficient translation of requirements into structured, scalable solutions."
  | 4 =>
      Some "Excels in problem framing and value-oriented design, combining user perspective with iterative experimentation to refine innovative solutions."
  | 5 =>
      Some "Strong in knowledge structuring and explanatory reasoning, supporting effective learning design, conceptual clarity, and instructional organization."
  | 6 =>
      Some "Demonstrates contextual interpretation and interpersonal sensitivity, enabling adaptive responses to human behavior and emotionally grounded decision processes."
  | 7 =>
      Some "Shows integrative decision-making ability across multiple priorities, supporting leadership roles that require coordination, resource alignment, and long-term direction setting."
  | 8 =>
      Some "Strong in persuasive communication and audience-oriented reasoning, enabling effective message framing, influence strategies, and engagement optimization."
  | 9 =>
      Some "Demonstrates expressive structuring ability, translating abstract ideas into concrete forms and experiences through visual and narrative organization."
  | 10 =>
      Some "Exhibits evidence-based judgment and risk-aware reasoning, supporting decision making in environments requiring accuracy, safety, and procedural reliability."
  | 11 =>
      Some "Strong in rule-based reasoning and logical consistency evaluation, enabling precise interpretation of requirements, regulations, and structured argumentation."
  | 12 =>
      Some "Shows process optimization and operational stability thinking, supporting efficient workflow design, quality management, and error prevention."
  | 13 =>
      Some "Demonstrates quantitative judgment and probabilistic reasoning, enabling structured evaluation of risk, return, and financial decision scenarios."
  | 14 =>
      Some "Strong in organizational dynamics interpretation and human system design, supporting talent development, cultural alignment, and team effectiveness."
  | 15 =>
      Some "Shows procedural structuring and automation-oriented reasoning, enabling efficient decomposition of tasks into repeatable and monitorable workflows."
  | _ => None
  end%nat.

Definition buildRoleFitInterpretation (gid : nat) (gname rec_role : string) : string :=
  match GROUP_ROLE_TEMPLATES gid with
  | None =>
      "Role fit is most aligned with " ++ gname ++ ", with strongest match for "
        ++ rec_role ++ "."
  | Some s => s
  end.

Definition JOB_GROUPS : list JobGroup :=
  [
    mkJob 1 "Strategy·Analysis·Policy" "strategy_analyst" "Strategy Analyst";
    mkJob 1 "Strategy·Analysis·Policy" "management_analyst" "Management Analyst";
    mkJob 1 "Strategy·Analysis·Policy" "policy_analyst" "Policy Analyst";
    mkJob 1 "Strategy·Analysis·Policy" "economic_researcher" "Economic Researcher";
    mkJob 1 "Strategy·Analysis·Policy" "financial_analyst" "Financial Analyst";
    mkJob 1 "Strategy·Analysis·Policy" "risk_analyst" "Risk Analyst";
    mkJob 1 "Strategy·Analysis·Policy" "compliance_officer" "Compliance Officer";
    mkJob 1 "Strategy·Analysis·Policy" "internal_auditor" "Internal Auditor";
    mkJob 2 "Data·AI·Intelligence" "data_analyst" "Data Analyst";
    mkJob 2 "Data·AI·Intelligence" "data_scientist" "Data Scientist";
    mkJob 2 "Data·AI·Intelligence" "business_intelligence_analyst" "Business Intelligence Analyst";
    mkJob 2 "Data·AI·Intelligence" "machine_learning_analyst" "Machine Learning Analyst";
    mkJob 2 "Data·AI·Intelligence" "statistician" "Statistician";
    mkJob 2 "Data·AI·Intelligence" "operations_research_analyst" "Operations Research Analyst";
    mkJob 2 "Data·AI·Intelligence" "information_security_analyst" "Information Security Analyst";
    mkJob 3 "Engineering·Technology·Architecture" "software_engineer" "Software Engineer";
    mkJob 3 "Engineering·Technology·Architecture" "systems_architect" "Systems Architect";
    mkJob 3 "Engineering·Technology·Architecture" "cloud_engineer" "Cloud Engineer";
    mkJob 3 "Engineering·Technology·Architecture" "devops_engineer" "DevOps Engineer";
    mkJob 3 "Engineering·Technology·Architecture" "network_architect" "Network Architect";
    mkJob 3 "Engineering·Technology·Architecture" "qa_engineer" "QA Engineer";
    mkJob 3 "Engineering·Technology·Architecture" "safety_systems_engineer" "Safety Systems Engineer";
    mkJob 4 "Product·Service·Innovation" "product_manager" "Product Manager";
    mkJob 4 "Product·Service·Innovation" "service_designer" "Service Designer";
    mkJob 4 "Product·Service·Innovation" "ux_planner" "UX Planner";
    mkJob 4 "Product·Service·Innovation" "business_developer" "Business Developer";
    mkJob 4 "Product·Service·Innovation" "innovation_manager" "Innovation Manager";
    mkJob 4 "Product·Service·Innovation" "r_and_d_planner" "R&D Planner";
    mkJob 4 "Product·Service·Innovation" "new_venture_strategist" "New Venture Strategist";
    mkJob 5 "Education·Research·Training" "teacher" "Teacher";
    mkJob 5 "Education·Research·Training" "professor" "Professor";
    mkJob 5 "Education·Research·Training" "instructional_designer" "Instructional Designer";
    mkJob 5 "Education·Research·Training" "education_consultant" "Education Consultant";
    mkJob 5 "Education·Research·Training" "research_scientist" "Research Scientist";
    mkJob 5 "Education·Research·Training" "research_coordinator" "Research Coordinator";
    mkJob 5 "Education·Research·Training" "academic_advisor" "Academic Advisor";
    mkJob 6 "Psychology·Counseling·Social Care" "counselor" "Counselor";
    mkJob 6 "Psychology·Counseling·Social Care" "clinical_psychologist" "Clinical Psychologist";
    mkJob 6 "Psychology·Counseling·Social Care" "school_psychologist" "School Psychologist";
    mkJob 6 "Psychology·Counseling·Social Care" "social_worker" "Social Worker";
    mkJob 6 "Psychology·Counseling·Social Care" "behavioral_therapist" "Behavioral Therapist";
    mkJob 6 "Psychology·Counseling·Social Care" "rehabilitation_specialist" "Rehabilitation Specialist";
    mkJob 7 "Leadership·Executive·Public Governance" "ceo_coo_cso" "CEO / COO / CSO";
    mkJob 7 "Leadership·Executive·Public Governance" "public_policy_director" "Public Policy Director";
    mkJob 7 "Leadership·Executive·Public Governance" "government_administrator" "Government Administrator";
    mkJob 7 "Leadership·Executive·Public Governance" "program_director" "Program Director";
    mkJob 7 "Leadership·Executive·Public Governance" "public_strategy_lead" "Public Strategy Lead";
    mkJob 8 "Marketing·Sales·Communication" "marketing_strategist" "Marketing Strategist";
    mkJob 8 "Marketing·Sales·Communication" "brand_manager" "Brand Manager";
    mkJob 8 "Marketing·Sales·Communication" "sales_director" "Sales Director";
    mkJob 8 "Marketing·Sales·Communication" "pr_manager" "PR Manager";
    mkJob 8 "Marketing·Sales·Communication" "communication_manager" "Communication Manager";
    mkJob 8 "Marketing·Sales·Communication" "media_planner" "Media Planner";
    mkJob 8 "Marketing·Sales·Communication" "digital_marketer" "Digital Marketer";
    mkJob 9 "Design·Content·Media" "ux_ui_designer" "UX/UI Designer";
    mkJob 9 "Design·Content·Media" "graphic_designer" "Graphic Designer";
    mkJob 9 "Design·Content·Media" "video_producer" "Video Producer";
    mkJob 9 "Design·Content·Media" "content_strategist" "Content Strategist";
    mkJob 9 "Design·Content·Media" "creative_director" "Creative Director";
    mkJob 9 "Design·Content·Media" "editor" "Editor";
    mkJob 9 "Design·Content·Media" "multimedia_artist" "Multimedia Artist";
    mkJob 10 "Healthcare·Life Science" "physician" "Physician";
    mkJob 10 "Healthcare·Life Science" "nurse" "Nurse";
    mkJob 10 "Healthcare·Life Science" "medical_researcher" "Medical Researcher";
    mkJob 10 "Healthcare·Life Science" "clinical_data_manager" "Clinical Data Manager";
    mkJob 10 "Healthcare·Life Science" "biomedical_scientist" "Biomedical Scientist";
    mkJob 10 "Healthcare·Life Science" "public_health_analyst" "Public Health Analyst";
    mkJob 11 "Law·Compliance·Ethics" "lawyer" "Lawyer";
    mkJob 11 "Law·Compliance·Ethics" "legal_researcher" "Legal Researcher";
    mkJob 11 "Law·Compliance·Ethics" "compliance_manager" "Compliance Manager";
    mkJob 11 "Law·Compliance·Ethics" "ethics_officer" "Ethics Officer";
    mkJob 11 "Law·Compliance·Ethics" "regulatory_affairs_specialist" "Regulatory Affairs Specialist";
    mkJob 11 "Law·Compliance·Ethics" "contract_specialist" "Contract Specialist";
    mkJob 12 "Operations·Quality·Safety·Logistics" "operations_manager" "Operations Manager";
    mkJob 12 "Operations·Quality·Safety·Logistics" "quality_manager" "Quality Manager";
    mkJob 12 "Operations·Quality·Safety·Logistics" "safety_engineer" "Safety Engineer";
    mkJob 12 "Operations·Quality·Safety·Logistics" "process_analyst" "Process Analyst";
    mkJob 12 "Operations·Quality·Safety·Logistics" "supply_chain_analyst" "Supply Chain Analyst";
    mkJob 12 "Operations·Quality·Safety·Logistics" "logistics_planner" "Logistics Planner";
    mkJob 13 "Finance·Investment·Insurance" "investment_analyst" "Investment Analyst";
    mkJob 13 "Finance·Investment·Insurance" "portfolio_manager" "Portfolio Manager";
    mkJob 13 "Finance·Investment·Insurance" "credit_analyst" "Credit Analyst";
    mkJob 13 "Finance·Investment·Insurance" "actuary" "Actuary";
    mkJob 13 "Finance·Investment·Insurance" "insurance_underwriter" "Insurance Underwriter";
    mkJob 13 "Finance·Investment·Insurance" "treasury_manager" "Treasury Manager";
    mkJob 14 "Culture·HR·Organization" "hr_manager" "HR Manager";
    mkJob 14 "Culture·HR·Organization" "talent_manager" "Talent Manager";
    mkJob 14 "Culture·HR·Organization" "organizational_development_manager" "Organizational Development Manager";
    mkJob 14 "Culture·HR·Organization" "culture_manager" "Culture Manager";
    mkJob 14 "Culture·HR·Organization" "recruiter" "Recruiter";
    mkJob 14 "Culture·HR·Organization" "learning_and_development_specialist" "Learning & Development Specialist";
    mkJob 15 "Automation·Digital Agent" "rpa_agent" "RPA Agent";
    mkJob 15 "Automation·Digital Agent" "chatbot_operator" "Chatbot Operator";
    mkJob 15 "Automation·Digital Agent" "automated_qa_bot" "Automated QA Bot";
    mkJob 15 "Automation·Digital Agent" "report_generation_agent" "Report Generation Agent";
    mkJob 15 "Automation·Digital Agent" "monitoring_ai" "Monitoring AI"
  ]%nat.

(** [JOB_INDEX]: a plain object with one own property for each [job_id] of
    [JOB_GROUPS], holding the last entry with that id. *)
Definition JOB_INDEX (id : string) : option JobGroup :=
  find (fun j => String.eqb (jg_job_id j) id) (rev JOB_GROUPS).

(** The names that every plain object inherits from [Object.prototype]. *)
Definition prototype_names : list string :=
  ["constructor"; "__proto__"; "hasOwnProperty"; "isPrototypeOf";
   "propertyIsEnumerable"; "toLocaleString"; "toString"; "valueOf";
   "__defineGetter__"; "__defineSetter__"; "__lookupGetter__"; "__lookupSetter__"].

Definition is_prototype_name (k : string) : bool :=
  existsb (String.eqb k) prototype_names.

(** What [JOB_INDEX[id]] finds: a job of the table, or a member inherited
    from [Object.prototype], which is a function or an object (so it is
    truthy) and has no [group_name] and no [job_name]; or nothing. *)
Inductive Found : Type :=
| Job (j : JobGroup)
| Member.

Definition lookup_job (id : string) : option Found :=
  match JOB_INDEX id with
  | Some j => Some (Job j)
  | None => if is_prototype_name id then Some Member else None
  end.

Definition found_group_name (f : Found) : option string :=
  match f with Job j => Some (group_name j) | Member => None end.

Definition found_job_name (f : Found) : option string :=
  match f with Job j => Some (job_name j) | Member => None end.

Definition computeArcBoost (userArc minArc : num) : num :=
  if negb (Num.isFinite userArc) || negb (Num.isFinite minArc) then Fin 0
  else if userArc <? minArc then Fin 0
  else
    let delta := userArc - minArc in
    let boost := Num.min (lit 0.04) ((lit 0.02) + (lit 0.01) * Num.max (Fin 0) (delta - Fin 1)) in
    clamp01 boost.

Definition below (x : num) (req : option num) : bool :=
  match req with Some r => x <? r | None => false end.

Definition checkMinRequirements (input : RoleFitInput) (cfg : RoleConfig) : bool :=
  let req := min_requirements cfg in
  let a := axes input in
  if user_arc_level input <? arc_level req then false
  else if below (analyticity a) (min_analyticity req) then false
  else if below (flow a) (min_flow req) then false
  else if below (metacognition a) (min_metacognition req) then false
  else if below (authenticity a) (min_authenticity req) then false
  else true.

Definition scoreRoleFit01 (input : RoleFitInput) (cfg : RoleConfig) : res num :=
  _ <- assertAxes01 (axes input) "input.axes" ;;
  _ <- validateWeights (neuprint_axes_weights cfg) ;;
  let w := neuprint_axes_weights cfg in
  let a := axes input in
  let base :=
    analyticity a * analyticity w + flow a * flow w
    + metacognition a * metacognition w + authenticity a * authenticity w in
  let boost := computeArcBoost (user_arc_level input) (arc_level (min_requirements cfg)) in
  Ok (clamp01 (base + boost)).

Definition rolesInGroup (groupName : string) : list string :=
  map job_name (filter (fun j => String.eqb (group_name j) groupName) JOB_GROUPS).

(** One scored role.  [group_name] and [job_name] are [undefined] ([None])
    when the job found is an inherited member. *)
Record RoleScored : Type := {
  rs_cfg : RoleConfig;
  rs_group_name : option string;
  rs_job_name : option string;
  rs_ok : bool;
  rs_score : num
}.

(** [r.group_name] used as a property name: [undefined] names the
    property "undefined". *)
Definition group_key (r : RoleScored) : string :=
  match rs_group_name r with Some g => g | None => "undefined" end.

(** [groupMax] and [groupBestRole], two objects with the same keys, kept as
    one association list in insertion order. *)
Fixpoint group_update (gs : list (string * (num * option string))) (r : RoleScored)
  : list (string * (num * option string)) :=
  match gs with
  | [] => [(group_key r, (rs_score r, rs_job_name r))]
  | (g, (prev, best)) :: rest =>
      if String.eqb g (group_key r)
      then (if rs_score r >? prev
            then (g, (rs_score r, rs_job_name r)) :: rest
            else (g, (prev, best)) :: rest)
      else (g, (prev, best)) :: group_update rest r
  end.

Section JobGroupTop3.

(** [String.prototype.localeCompare] depends on the locale of the host. *)
Variable localeCompare : string -> string -> num.

Definition scoreRole (input : RoleFitInput) (cfg : RoleConfig) : res RoleScored :=
  match lookup_job (job_id cfg) with
  | None =>
      Throw (Error ("RoleConfig.job_id not found in JOB_INDEX: " ++ job_id cfg))
  | Some job =>
      let ok := checkMinRequirements input cfg in
      score <- scoreRoleFit01 input cfg ;;
      Ok {| rs_cfg := cfg;
            rs_group_name := found_group_name job;
            rs_job_name := found_job_name job;
            rs_ok := ok;
            rs_score := score |}
  end.

Definition computeRfsJobGroupTop3 (input : RoleFitInput) (roleConfigs : list RoleConfig)
    (strictMinFilter : option bool) : res RfsGroupTop3Json :=
  let strict := match strictMinFilter with Some b => b | None => true end in
  roleScored <- mapM (scoreRole input) roleConfigs ;;
  let pool := if strict then filter rs_ok roleScored else roleScored in
  let finalPool := match pool with [] => roleScored | _ => pool end in
  let groupMax := fold_left group_update finalPool [] in
  let groups := map (fun g => (fst g, clamp01 (fst (snd g)))) groupMax in
  let groups :=
    Js.sort (fun a b =>
               if negb (Num.eqb (snd b) (snd a)) then snd b - snd a
               else localeCompare (fst a) (fst b)) groups in
  let top3 := firstn 3 groups in
  let summary_lines :=
    map (fun g => fst g ++ ": " ++ Js.numToString (Num.round (snd g * Fin 100)) ++ "%")
        top3 in
  let top_groups :=
    map (fun g =>
           let percent := Num.round (snd g * Fin 100) in
           let roles := rolesInGroup (fst g) in
           let recommended_role :=
             match Js.assoc_of groupMax (fst g) with
             | Some (_, Some best) => best
             | _ => match roles with r :: _ => r | [] => fst g end
             end in
           {| gi_group_name := fst g;
              percent := percent;
              roles := roles;
              recommended_role := recommended_role |})
        top3 in
  let recommended_roles_top3 := map recommended_role top_groups in
  let recommended_roles_line :=
    "Recommended roles include: " ++ String.concat ", " recommended_roles_top3 ++ "." in
  let top1GroupId :=
    match top_groups with
    | g :: _ =>
        match find (fun j => String.eqb (group_name j) (gi_group_name g)) JOB_GROUPS with
        | Some j => group_id j
        | None => 0%nat
        end
    | [] => 0%nat
    end in
  let pattern_interpretation :=
    match top_groups with
    | g :: _ =>
        if Nat.eqb top1GroupId 0 then EmptyString
        else buildRoleFitInterpretation top1GroupId (gi_group_name g) (recommended_role g)
    | [] => EmptyString
    end in
  Ok {| summary_lines := (summary_lines ++ [recommended_roles_line])%list;
        top_groups := top_groups;
        recommended_roles_top3 := recommended_roles_top3;
        recommended_roles_line := recommended_roles_line;
        pattern_interpretation := pattern_interpretation |}.

End JobGroupTop3.

(** *** The orchestrator [deriveRfs] *)

(** A value used as a property name. *)
Definition property_key (v : value) : res string :=
  match v with
  | VStr s => Ok s
  | VUndef => Ok "undefined"
  | VNull => Ok "null"
  | VBool b => Ok (if b then "true" else "false")
  | VNum n => Ok (Js.numToString n)
  | VArr _ | VObj _ => Beyond
  end.

(** [computeRfsJobGroupTop3(input, roleConfigs, ...)] when [input] has no
    [axes] and [cfg] is the first role configuration: the call throws while
    it scores [cfg], at the lookup of the job or, when something is found,
    at the first read of [cfg.min_requirements.arc_level] or of an axis of
    [input.axes].  [deriveRfs] passes the style summary as [input], whose
    two fields are strings. *)
Definition computeRfsJobGroupTop3_no_axes (input cfg : value) : res value :=
  if negb (Js.nullish input.["axes"]) then Beyond
  else if Js.nullish cfg then Throw TypeError
  else
    key <- property_key cfg.["job_id"] ;;
    match lookup_job key with
    | None => Throw (Error ("RoleConfig.job_id not found in JOB_INDEX: " ++ key))
    | Some _ => Throw TypeError
    end.

Definition deriveRfs (input : value) : res value :=
  let ai := unwrap input in
  let indicators :=
    input.["cff"].["indicators"] ?? ai.["cff"].["indicators"] ?? VObj [] in
  aas <- Js.toNumber (indicators.["AAS"] ?? indicators.["aas"] ?? VNum (Fin 0)) ;;
  ctf <- Js.toNumber (indicators.["CTF"] ?? indicators.["ctf"] ?? VNum (Fin 0)) ;;
  rmd <- Js.toNumber (indicators.["RMD"] ?? indicators.["rmd"] ?? VNum (Fin 0)) ;;
  rdx <- Js.toNumber (indicators.["RDX"] ?? indicators.["rdx"] ?? VNum (Fin 0)) ;;
  eds <- Js.toNumber (indicators.["EDS"] ?? indicators.["eds"] ?? VNum (Fin 0)) ;;
  ifd <- Js.toNumber (indicators.["IFD"] ?? indicators.["ifd"] ?? VNum (Fin 0)) ;;
  let payload :=
    {| p_cff := {| p_aas := aas; p_ctf := ctf; p_rmd := rmd;
                   p_rdx := rdx; p_eds := eds; p_ifd := ifd |};
       p_rsl := None |} in
  let style := RfsJson_json (computeRfsFromPayload payload) in
  let roleConfigs := match ai.["role_configs"] with VArr xs => xs | _ => [] end in
  match roleConfigs with
  | [] => Ok style
  | cfg :: _ =>
      roleFit <-
        computeRfsJobGroupTop3_no_axes (style.["rfs"] ?? (ai.["rfs"] ?? VObj [])) cfg ;;
      if Js.truthy roleFit
      then Ok (deepMergeAll [style; VObj [("rfs", roleFit)]])
      else Ok style
  end.

End Rfs.

(** ** The orchestrator [derive] ([lib/server/derive.ts]) *)

Section Derive.

Variable computeRslRubric4FromRaw : value -> Rsl.RslRubric4.
Variable computeSRI : value -> res value.
Variable computeRCFromRaw : value -> Rc.RCOut.
Variable computeAgencyIndicators : value -> res Rc.AgencyIndicators.

Definition derive (input : value) : res value :=
  a <- Rsl.deriveRsl computeRslRubric4FromRaw computeSRI input ;;
  b <- Cff.deriveCff input ;;
  c <- Rc.deriveRc computeRCFromRaw computeAgencyIndicators (Js.spread [input; b]) ;;
  d <- Rfs.deriveRfs (Js.spread [input; b; a]) ;;
  Ok (deepMergeAll [a; b; c; d]).

End Derive.

(** ** The request handler ([app/api/analyze/route.ts])

    The handler is not part of the core.  It is embedded to show where the
    clock and the random numbers of the program are read. *)

Module Route.

Local Open Scope string_scope.

(** What one request reads from its host: the clock, once in [buildMeta]
    and once more in [generateVerificationIdV1], [Math.random()] and the
    environment. *)
Record Host : Type := {
  iso_now : string;
  utc_full_year : nat;
  utc_month : nat;
  utc_date : nat;
  random : Q;
  NP_VERIFY_URL : option string
}.

(** [s.padStart(n, "0")] *)
Definition padStart0 (n : nat) (s : string) : string :=
  string_of_list_ascii (repeat "0"%char (n - String.length s)) ++ s.

Definition generateVerificationIdV1 (h : Host) : string :=
  let yyyy := Js.string_of_nat (utc_full_year h) in
  let mm := padStart0 2 (Js.string_of_nat (utc_month h + 1)) in
  let dd := padStart0 2 (Js.string_of_nat (utc_date h)) in
  let seq :=
    padStart0 4 (Js.numToString (Num.floor (Fin (random h) * Fin 10000))) in
  "NP-" ++ yyyy ++ "-" ++ mm ++ dd ++ "-" ++ seq.

Definition buildMeta (h : Host) (envelope : value) : value :=
  VObj [("input_language", envelope.["meta"].["input_language"] ?? VStr "EN");
        ("generated_at_utc", VStr (iso_now h));
        ("verify_url",
         VStr (match NP_VERIFY_URL h with
               | Some u => u
               | None => "https://neuprint.ai/verify"
               end));
        ("verification_id", VStr (generateVerificationIdV1 h))].

Section Handler.

Variable computeRslRubric4FromRaw : value -> Rsl.RslRubric4.
Variable computeSRI : value -> res value.
Variable computeRCFromRaw : value -> Rc.RCOut.
Variable computeAgencyIndicators : value -> res Rc.AgencyIndicators.

(** The fixture that the handler imports is a JSON module of the
    application; here it is any value. *)
Variable fixture : value.

(** The report that [POST] hands to [NextResponse.json]. *)
Definition POST (h : Host) : res value :=
  let envelope := fixture in
  if Js.nullish envelope then Throw TypeError
  else
    derived <-
      derive computeRslRubric4FromRaw computeSRI computeRCFromRaw
        computeAgencyIndicators envelope.["analysis_input"] ;;
    let narrativeRsl := envelope.["narrative_text"].["rsl"] in
    let summary :=
      VObj [("one_line",
             narrativeRsl.["summary"].["one_line"]
               ?? derived.["rsl"].["summary"].["one_line"] ?? VStr EmptyString);
            ("paragraph",
             narrativeRsl.["summary"].["paragraph"]
               ?? derived.["rsl"].["summary"].["paragraph"] ?? VStr EmptyString)] in
    let dimensions :=
      if Js.isArray narrativeRsl.["dimensions"] then narrativeRsl.["dimensions"]
      else derived.["rsl"].["dimensions"] ?? VArr [] in
    let rsl :=
      Js.set (Js.set (Js.spread [derived.["rsl"]]) "summary" summary)
        "dimensions" dimensions in
    Ok (Js.set (Js.spread [VObj [("meta", buildMeta h envelope)]; derived]) "rsl" rsl).

End Handler.

End Route.

(** ** RC: the selection of observed structural signals ([derive/rc.ts]) *)

Module Signals.

Import Rc.

Local Open Scope string_scope.
Local Open Scope num_scope.

Inductive Band : Type := HIGH | MEDIUM | LOW.

Inductive InsufficientPolicy : Type := shorten.

Record SelectObservedSignalsOptions : Type := {
  displayLines : option num;
  insufficientPolicy : option InsufficientPolicy
}.

Record SelectObservedSignalsResult : Type := {
  lines : list string
}.

Definition group_eqb (a b : SignalGroup) : bool :=
  match a, b with
  | REVISION, REVISION | TRANSITION, TRANSITION | COUNTER, COUNTER
  | EVIDENCE, EVIDENCE | NONAUTO, NONAUTO | SPECIFICITY, SPECIFICITY => true
  | _, _ => false
  end.

(** [lib[id]]: the template under the key [id] of the library, whose keys
    are the ids of its templates. *)
Definition lib_get (lib : list SignalTemplate) (k : string) : option SignalTemplate :=
  find (fun t => String.eqb (id t) k) lib.

(** The templates of the active ids, in the order of the set; an unknown id
    is skipped.  An id that names a member of [Object.prototype] is found in
    the library, a plain object, though it is no template: it has no group,
    its text is [undefined], and its priority makes the comparator of the
    final sort return NaN, so that the order of the lines is up to the
    host.  The embedding stops there. *)
Fixpoint candidates_of (lib : list SignalTemplate) (activeIds : list string)
  : res (list SignalTemplate) :=
  match activeIds with
  | [] => Ok []
  | i :: rest =>
      if Rfs.is_prototype_name i then Beyond
      else
        cs <- candidates_of lib rest ;;
        Ok (match lib_get lib i with
            | Some t => t :: cs
            | None => cs
            end)
  end.

(** The candidate of [group] with the lowest priority number, the first of
    them when several have it. *)
Definition pickBest (candidates : list SignalTemplate) (group0 : SignalGroup)
  : option SignalTemplate :=
  fold_left
    (fun best t =>
       if negb (group_eqb (group t) group0) then best
       else
         match best with
         | None => Some t
         | Some b => if priority t <? priority b then Some t else best
         end)
    candidates None.

Definition is_selected (selected : list SignalTemplate) (t : SignalTemplate) : bool :=
  existsb (fun x => String.eqb (id x) (id t)) selected.

(** One pass over a list of groups, left as soon as enough lines are
    selected. *)
Fixpoint pick_groups (displayLines0 : num) (candidates : list SignalTemplate)
    (groups : list SignalGroup) (selected : list SignalTemplate)
  : list SignalTemplate :=
  match groups with
  | [] => selected
  | g :: rest =>
      if Js.num_of_nat (List.length selected) >=? displayLines0 then selected
      else
        let selected :=
          match pickBest candidates g with
          | Some t => if negb (is_selected selected t) then (selected ++ [t])%list else selected
          | None => selected
          end in
        pick_groups displayLines0 candidates rest selected
  end.

(** The final fill, left as soon as enough lines are selected. *)
Fixpoint fill (displayLines0 : num) (remaining : list SignalTemplate)
    (selected : list SignalTemplate) : list SignalTemplate :=
  match remaining with
  | [] => selected
  | t :: rest =>
      if Js.num_of_nat (List.length selected) >=? displayLines0 then selected
      else fill displayLines0 rest (selected ++ [t])%list
  end.

Definition coreGroupOrder : list SignalGroup := [REVISION; TRANSITION; COUNTER; NONAUTO].

Definition fillGroupOrder : list SignalGroup := [EVIDENCE; SPECIFICITY].

Definition selectObservedSignals (activeIds : list string) (band : Band)
    (opts : SelectObservedSignalsOptions) : res SelectObservedSignalsResult :=
  let displayLines0 := match displayLines opts with Some n => n | None => Fin 4 end in
  let lib := buildSignalLibraryV1_S1toS18 in
  candidates <- candidates_of lib activeIds ;;
  let selected := pick_groups displayLines0 candidates coreGroupOrder [] in
  let selected := pick_groups displayLines0 candidates fillGroupOrder selected in
  let selected :=
    if Js.num_of_nat (List.length selected) <? displayLines0 then
      let remaining :=
        Js.sort (fun a b => priority a - priority b)
          (filter (fun t => negb (is_selected selected t)) candidates) in
      fill displayLines0 remaining selected
    else selected in
  Ok {| lines := Js.slice0 (map text selected) displayLines0 |}.

(** [toRcJson]: the keys "1" to "4", an absent line being the empty
    string. *)
Definition toRcJson (result : SelectObservedSignalsResult) : value :=
  let evidence := lines result in
  let pick (i : nat) : value := VStr (nth i evidence EmptyString) in
  VObj [("rc",
         VObj [("observed_structural_signals",
                VObj [("1", pick 0%nat); ("2", pick 1%nat);
                      ("3", pick 2%nat); ("4", pick 3%nat)])])].

End Signals.

(** ** RC: the reasoning control distribution ([derive/rc.ts]) *)

Module Distribution.

Local Open Scope string_scope.
Local Open Scope num_scope.

Inductive Determination : Type := Human | Hybrid | AI.

Inductive CFVKey : Type :=
| k_aas | k_ctf | k_rmd | k_rdx | k_eds | k_hi | k_tps_hist | k_ifd.

Record CFV : Type := {
  aas : num; ctf : num; rmd : num; rdx : num;
  eds : num; hi : num; tps_hist : num; ifd : num
}.

Definition cfv_get (cfv : CFV) (k : CFVKey) : num :=
  match k with
  | k_aas => aas cfv | k_ctf => ctf cfv | k_rmd => rmd cfv | k_rdx => rdx cfv
  | k_eds => eds cfv | k_hi => hi cfv | k_tps_hist => tps_hist cfv | k_ifd => ifd cfv
  end.

Record LogisticModel : Type := {
  beta0 : num;
  betas : CFVKey -> option num;
  z_clip : option num
}.

Record RcInferenceInput : Type := {
  cfv : CFV;
  model : LogisticModel
}.

Record RcDistribution : Type := {
  d_Human : string;
  d_Hybrid : string;
  d_AI : string;
  final_determination : Determination;
  determination_sentence : string
}.

Definition clamp01 (x : num) : num :=
  let v := if Num.isFinite x then x else Fin 0 in
  if v <? Fin 0 then Fin 0
  else if v >? Fin 1 then Fin 1
  else v.

Definition pct (x01 : num) : string :=
  Js.numToString (Num.round (clamp01 x01 * Fin 100)) ++ "%".

Record Triple : Type := { t_a : num; t_b : num; t_c : num }.

Definition normalize3 (a b c : num) : Triple :=
  let a := clamp01 a in
  let b := clamp01 b in
  let c := clamp01 c in
  let s := a + b + c in
  if s <=? Fin 0 then {| t_a := Fin 1; t_b := Fin 0; t_c := Fin 0 |}
  else {| t_a := a / s; t_b := b / s; t_c := c / s |}.

Definition getDeterminationSentence (det : Determination) : string :=
  match det with
  | Human =>
      "The combined signal profile supports classification as human-controlled reasoning."
  | Hybrid =>
      "The combined signal profile indicates mixed control dynamics across structural decision boundaries, consistent with hybrid reasoning control."
  | AI =>
      "The combined signal profile supports classification as AI-assisted or AI-dominant reasoning control across structural decision boundaries."
  end.

Definition TH_rdx_low : num := lit 0.40.
Definition TH_hi_mid : num := lit 0.55.
Definition TH_aas_human_like : num := lit 0.60.
Definition TH_eds_ai_like : num := lit 0.60.

Section Logistic.

(** [Math.exp] *)
Variable exp : num -> num.

Definition sigmoid (z : num) : num :=
  let zz := if Num.isFinite z then z else Fin 0 in
  let zc := Num.max (Fin (-20)) (Num.min (Fin 20) zz) in
  Fin 1 / (Fin 1 + exp (Num.neg zc)).

Definition keys : list CFVKey :=
  [k_aas; k_ctf; k_rmd; k_rdx; k_eds; k_hi; k_tps_hist; k_ifd].

Definition computePHumanFromCFV (cfv0 : CFV) (model0 : LogisticModel) : num :=
  let zClip :=
    match z_clip model0 with
    | Some c => if Num.isFinite c then c else Fin 20
    | None => Fin 20
    end in
  let z := if Num.isFinite (beta0 model0) then beta0 model0 else Fin 0 in
  let z :=
    fold_left
      (fun z k =>
         let b :=
           match betas model0 k with
           | Some b => if Num.isFinite b then b else Fin 0
           | None => Fin 0
           end in
         let f := clamp01 (cfv_get cfv0 k) in
         z + b * f)
      keys z in
  let zc := Num.max (Num.neg zClip) (Num.min zClip z) in
  clamp01 (sigmoid zc).

End Logistic.

Definition determineLabelFromProbs (cfv0 : CFV) (pHuman01 : num) : Determination :=
  let pH := clamp01 pHuman01 in
  let pA := clamp01 (Fin 1 - pH) in
  let band :=
    if pH >=? lit 0.75 then Human
    else if pH >=? lit 0.45 then Hybrid
    else AI in
  match band with
  | Hybrid =>
      let hybridCond :=
        (pH >=? lit 0.35) && (pA >=? lit 0.35)
        && (clamp01 (rdx cfv0) <? TH_rdx_low)
        && (clamp01 (hi cfv0) >=? TH_hi_mid)
        && (clamp01 (aas cfv0) >=? TH_aas_human_like)
        && (clamp01 (eds cfv0) >=? TH_eds_ai_like) in
      if negb hybridCond then (if pH >=? pA then Human else AI)
      else band
  | _ => band
  end.

Section Builder.

Variable exp : num -> num.

Definition buildReasoningControlDistribution (input : RcInferenceInput)
  : RcDistribution :=
  let cfv0 := cfv input in
  let pH := computePHumanFromCFV exp cfv0 (model input) in
  let pA := clamp01 (Fin 1 - pH) in
  let final := determineLabelFromProbs cfv0 pH in
  let '(human, hybrid, ai) :=
    match final with
    | Hybrid =>
        let hybrid := clamp01 (Fin 2 * Num.min pH pA) in
        let human := clamp01 (pH - hybrid / Fin 2) in
        let ai := clamp01 (pA - hybrid / Fin 2) in
        (human, hybrid, ai)
    | Human =>
        let hybrid := clamp01 (Num.min pH pA) in
        let human := clamp01 (pH - hybrid) in
        let ai := clamp01 (pA - hybrid) in
        (human, hybrid, ai)
    | AI =>
        let hybrid := clamp01 (Num.min pH pA) in
        let ai := clamp01 (pA - hybrid) in
        let human := clamp01 (pH - hybrid) in
        (human, hybrid, ai)
    end in
  let n := normalize3 human hybrid ai in
  {| d_Human := pct (t_a n);
     d_Hybrid := pct (t_b n);
     d_AI := pct (t_c n);
     final_determination := final;
     determination_sentence := getDeterminationSentence final |}.

End Builder.

End Distribution.

(** ** RC: helpers of the structural control signals ([derive/rc.ts]) *)

Module Agency.

Local Open Scope num_scope.

(** [safeNum(x, fallback)] on a number [x] *)
Definition safeNum (x fallback : num) : num :=
  if Num.isFinite x then x else fallback.

Definition sum (arr : list num) : num :=
  fold_left (fun s v => s + safeNum v (Fin 0)) arr (Fin 0).

Definition mean (arr : list num) : num :=
  match arr with
  | [] => Fin 0
  | _ => sum arr / Js.num_of_nat (List.length arr)
  end.

Record Range : Type := {
  start : num;
  end_ : num;
  len : num
}.

(** The body of the loop of [segmentRanges] at index [i]. *)
Definition range_at (u k i : num) : Range :=
  let start0 := Num.floor ((i * u) / k) in
  let end0 := Num.floor (((i + Fin 1) * u) / k) in
  let len0 := Num.max (Fin 0) (end0 - start0) in
  {| start := start0; end_ := end0; len := len0 |}.

(** [segmentRanges(units, K)]: the loop runs over the whole numbers [i]
    below [k]; with [k] NaN it does not run, with [k] infinite it does not
    end. *)
Definition segmentRanges (units K : num) : res (list Range) :=
  let u := Num.max (Fin 1) (Num.floor units) in
  let k := Num.max (Fin 1) (Num.floor K) in
  match k with
  | NaN | NInf => Ok []
  | PInf => Beyond
  | Fin q =>
      Ok (map (fun i => range_at u k (Js.num_of_nat i))
              (seq 0 (Z.to_nat (Qceiling q))))
  end.

(** [computeAvgChainLengthFromPerUnitTransitions]: the mean length of the
    runs of units with a transition, 1 when there is no run.  The loop keeps
    the runs found and the length of the current run. *)
Definition chain_step (st : list num * num) (x : bool) : list num * num :=
  let '(runs, cur) := st in
  if x then (runs, cur + Fin 1)
  else if cur >? Fin 0 then ((runs ++ [cur])%list, Fin 0)
  else (runs, cur).

Definition computeAvgChainLengthFromPerUnitTransitions (perUnitTransitions : option (list num))
  : num :=
  match perUnitTransitions with
  | None | Some [] => Fin 1
  | Some vs =>
      let xs := map (fun v => safeNum v (Fin 0) >? Fin 0) vs in
      let '(runs, cur) := fold_left chain_step xs ([], Fin 0) in
      let runs := if cur >? Fin 0 then (runs ++ [cur])%list else runs in
      match runs with
      | [] => Fin 1
      | _ => mean runs
      end
  end.

End Agency.

(** ** RSL: the cohort response (Backend_3_Cohort, in [derive/rfs.ts]) *)

Module Cohort.

Local Open Scope num_scope.

Record RslCohort : Type := {
  percentile_0to1 : num;
  top_percent_label : string;
  interpretation : string
}.

Definition computeRslCohortResponse (friValue : num) (cohortFriList : list value)
  : RslCohort :=
  let percentile := Rsl.percentile0to1 friValue cohortFriList in
  let label := Rsl.topPercentLabel percentile in
  let topPercentValue := Num.round ((Fin 1 - percentile) * Fin 100) in
  let interpretation0 := Rsl.cohortInterpretationFromTopPercent topPercentValue in
  {| percentile_0to1 := percentile;
     top_percent_label := label;
     interpretation := interpretation0 |}.

Definition RslCohort_json (c : RslCohort) : value :=
  VObj [("rsl",
         VObj [("cohort",
                VObj [("percentile_0to1", VNum (percentile_0to1 c));
                      ("top_percent_label", VStr (top_percent_label c));
                      ("interpretation", VStr (interpretation c))])])]%string.

End Cohort.

(** ** RC: the nearest centroid ([derive/rc.ts], Backend_8), in binary64

    [inferRCFromADR] compares distances that [Math.sqrt] returns: which
    centroid wins is decided by the rounding of doubles, so the numbers
    here are doubles. *)

Module Control.

Local Open Scope string_scope.
Local Open Scope float_scope.

Record ControlVector : Type := { vA : float; vD : float; vR : float }.

Inductive ControlPattern : Type :=
| deep_reflective_human
| moderate_reflective_human
| moderate_procedural_human
| shallow_procedural_human
| moderate_reflective_hybrid
| shallow_procedural_hybrid
| shallow_procedural_ai
| moderate_procedural_ai
| deep_procedural_ai.

Inductive ReliabilityBand : Type := HIGH | MEDIUM | LOW.

Record ControlPatternMeta : Type := {
  pattern_description : string;
  meta_pattern_interpretation : string;
  meta_band_rationale : string
}.

Definition pattern_name (p : ControlPattern) : string :=
  match p with
  | deep_reflective_human => "deep_reflective_human"
  | moderate_reflective_human => "moderate_reflective_human"
  | moderate_procedural_human => "moderate_procedural_human"
  | shallow_procedural_human => "shallow_procedural_human"
  | moderate_reflective_hybrid => "moderate_reflective_hybrid"
  | shallow_procedural_hybrid => "shallow_procedural_hybrid"
  | shallow_procedural_ai => "shallow_procedural_ai"
  | moderate_procedural_ai => "moderate_procedural_ai"
  | deep_procedural_ai => "deep_procedural_ai"
  end.

Definition CONTROL_PATTERN_META (p : ControlPattern) : ControlPatternMeta :=
  match p with
  | deep_reflective_human =>
      {| pattern_description :=
           "Human-led reasoning with sustained reflective control and stable structural revision. The current position is centered within the human reasoning cluster.";
         meta_pattern_interpretation :=
           "A high human proportion indicates stable human-led control at structural decision boundaries across the task.";
         meta_band_rationale :=
           "Reasoning decisions originate from explicit human-driven revision and counter-evaluative judgment rather than automated continuation flow." |}
  | moderate_reflective_human =>
      {| pattern_description :=
           "Human-led reasoning with localized reflective adjustment and generally stable structure. The current position remains within the human cluster with moderate dispersion.";
         meta_pattern_interpretation :=
           "A high human proportion indicates largely human-led control, with reflective adjustment appearing in localized segments.";
         meta_band_rationale :=
           "Reasoning decisions include limited human revision but do not extend to full structural reconfiguration." |}
  | moderate_procedural_human =>
      {| pattern_description :=
           "Human-authored reasoning following a stable procedural structure. The current position lies within the human cluster but closer to the procedural boundary.";
         meta_pattern_interpretation :=
           "A high human proportion indicates human-led control under a procedural sequence, with limited reflective intervention.";
         meta_band_rationale :=
           "Reasoning decisions follow a predefined structural sequence with minimal reflective intervention." |}
  | shallow_procedural_human =>
      {| pattern_description :=
           "Human-generated reasoning with shallow procedural progression and limited structural depth. The current position is weakly anchored within the human reasoning cluster.";
         meta_pattern_interpretation :=
           "A high human proportion indicates human-led control, though structural decisions tend to follow shallow continuation patterns.";
         meta_band_rationale :=
           "Reasoning decisions rely on surface-level continuation rather than deliberate structural control." |}
  | moderate_reflective_hybrid =>
      {| pattern_description :=
           "Mixed-agency reasoning with partial human reflection and assisted structural development. The current position spans the boundary between human and hybrid clusters.";
         meta_pattern_interpretation :=
           "A mixed distribution indicates shared control, where human intent is present but transitions partially reflect assisted continuation.";
         meta_band_rationale :=
           "Reasoning decisions reflect human intent but are partially influenced by assisted continuation patterns." |}
  | shallow_procedural_hybrid =>
      {| pattern_description :=
           "Hybrid reasoning with procedural structure and limited reflective control. The current position trends toward the hybrid procedural region.";
         meta_pattern_interpretation :=
           "A mixed distribution indicates assisted procedural flow, with limited human-led structural revision at decision boundaries.";
         meta_band_rationale :=
           "Reasoning decisions follow assisted procedural flow with minimal human structural revision." |}
  | shallow_procedural_ai =>
      {| pattern_description :=
           "AI-dominant reasoning with shallow procedural expansion. The current position is located near the automated cluster perimeter.";
         meta_pattern_interpretation :=
           "A low human proportion indicates control signals are dominated by automated continuation rather than human-led structural decisions.";
         meta_band_rationale :=
           "Reasoning decisions primarily arise from automated continuation without observable human control signals." |}
  | moderate_procedural_ai =>
      {| pattern_description :=
           "AI-generated reasoning with stable but non-reflective procedural structure. The current position is centered within the automated reasoning cluster.";
         meta_pattern_interpretation :=
           "A low human proportion indicates stable automated continuation patterns with minimal evidence of human-originated structural control.";
         meta_band_rationale :=
           "Reasoning decisions follow internally consistent continuation patterns without human-originated revision." |}
  | deep_procedural_ai =>
      {| pattern_description :=
           "AI-generated reasoning exhibiting high structural complexity without reflective control. The current position is deeply embedded within the automated procedural cluster.";
         meta_pattern_interpretation :=
           "A low human proportion indicates layered procedural expansion without consistent reflective control signals originating from the individual.";
         meta_band_rationale :=
           "Reasoning decisions reflect layered procedural expansion rather than intentional evaluative judgment." |}
  end.

Definition CENTROIDS (p : ControlPattern) : ControlVector :=
  match p with
  | deep_reflective_human => {| vA := 0.85; vD := 0.8; vR := 0.8 |}
  | moderate_reflective_human => {| vA := 0.8; vD := 0.55; vR := 0.6 |}
  | moderate_procedural_human => {| vA := 0.75; vD := 0.55; vR := 0.25 |}
  | shallow_procedural_human => {| vA := 0.7; vD := 0.3; vR := 0.2 |}
  | moderate_reflective_hybrid => {| vA := 0.55; vD := 0.55; vR := 0.55 |}
  | shallow_procedural_hybrid => {| vA := 0.5; vD := 0.3; vR := 0.2 |}
  | shallow_procedural_ai => {| vA := 0.2; vD := 0.3; vR := 0.15 |}
  | moderate_procedural_ai => {| vA := 0.15; vD := 0.55; vR := 0.15 |}
  | deep_procedural_ai => {| vA := 0.1; vD := 0.8; vR := 0.1 |}
  end.

(** [Object.keys(CENTROIDS)] *)
Definition patterns : list ControlPattern :=
  [deep_reflective_human; moderate_reflective_human; moderate_procedural_human;
   shallow_procedural_human; moderate_reflective_hybrid; shallow_procedural_hybrid;
   shallow_procedural_ai; moderate_procedural_ai; deep_procedural_ai].

(** [typeof x === "number" && isFinite(x)] on a number *)
Definition isFiniteNumber (x : float) : bool := F64.isFinite x.

(** [clamp01] is declared six times in [rc.ts]; the declaration that runs
    is the last one (line 2333), for every call in the file. *)
Definition clamp01 (x : float) : float :=
  if negb (F64.isFinite x) then 0
  else if x <? 0 then 0 else if 1 <? x then 1 else x.

Definition euclidean (a b : ControlVector) : float :=
  let dA := vA a - vA b in
  let dD := vD a - vD b in
  let dR := vR a - vR b in
  sqrt (dA * dA + dD * dD + dR * dR).

Definition bandFromDistance (d : float) : ReliabilityBand :=
  if d <? 0.12 then HIGH else if d <? 0.22 then MEDIUM else LOW.

Definition upper (c : ascii) : ascii :=
  let n := nat_of_ascii c in
  if (97 <=? n)%nat && (n <=? 122)%nat then ascii_of_nat (n - 32) else c.

(** [p.split("_").map(capitalise).join(" ")], one character at a time:
    [start] says that a word starts here. *)
Fixpoint title_case (start : bool) (s : string) : string :=
  match s with
  | EmptyString => EmptyString
  | String c r =>
      if Ascii.eqb c "_" then String " " (title_case true r)
      else String (if start then upper c else c) (title_case false r)
  end.

Definition formatControlPatternLabel (p : ControlPattern) : string :=
  title_case true (pattern_name p).

Definition band_name (b : ReliabilityBand) : string :=
  match b with HIGH => "HIGH" | MEDIUM => "MEDIUM" | LOW => "LOW" end.

(** [clamp01(isFiniteNumber(x) ? x : 0.5)] *)
Definition axis01 (x : float) : float :=
  clamp01 (if isFiniteNumber x then x else 0.5).

Definition normalise (vIn : ControlVector) : ControlVector :=
  {| vA := axis01 (vA vIn); vD := axis01 (vD vIn); vR := axis01 (vR vIn) |}.

(** The loop over the centroids: the state is [(best, bestDist)]. *)
Definition step (v : ControlVector) (st : ControlPattern * float) (p : ControlPattern)
  : ControlPattern * float :=
  let d := euclidean v (CENTROIDS p) in
  if d <? snd st then (p, d) else st.

Definition nearest (v : ControlVector) : ControlPattern * float :=
  fold_left (step v) patterns (moderate_reflective_human, infinity).

Definition inferRCFromADR (vIn : ControlVector) : Rc.RCOut :=
  let v := normalise vIn in
  let best := fst (nearest v) in
  let bestDist := snd (nearest v) in
  let meta := CONTROL_PATTERN_META best in
  let rb := bandFromDistance bestDist in
  {| Rc.summary := pattern_description meta;
     Rc.control_pattern := formatControlPatternLabel best;
     Rc.reliability_band := band_name rb;
     Rc.band_rationale := meta_band_rationale meta;
     Rc.pattern_interpretation := meta_pattern_interpretation meta |}.

(** The centroids as the source writes them, in decimal. *)
Definition CENTROIDS_decimal (p : ControlPattern) : Q * Q * Q :=
  match p with
  | deep_reflective_human => (0.85, 0.8, 0.8)
  | moderate_reflective_human => (0.8, 0.55, 0.6)
  | moderate_procedural_human => (0.75, 0.55, 0.25)
  | shallow_procedural_human => (0.7, 0.3, 0.2)
  | moderate_reflective_hybrid => (0.55, 0.55, 0.55)
  | shallow_procedural_hybrid => (0.5, 0.3, 0.2)
  | shallow_procedural_ai => (0.2, 0.3, 0.15)
  | moderate_procedural_ai => (0.15, 0.55, 0.15)
  | deep_procedural_ai => (0.1, 0.8, 0.1)
  end%Q.

End Control.

(** ** The normalised entropy (Backend_4_SRI, in [derive/rfs.ts]), over the
    reals

    [entropy01] calls [Math.log], which the language leaves to the engine:
    it is embedded over the real numbers, where a JavaScript number is a
    real number, an infinity or NaN, and the arithmetic is exact.  What is
    proved of it holds of the code up to the rounding of doubles, and as
    long as the sum of the counts does not overflow. *)

Module Reals_kernels.

Local Open Scope R_scope.

Inductive rnum : Type :=
| RNaN
| RPInf
| RNInf
| RFin (x : R).

Definition Rltb (x y : R) : bool := if Rlt_dec x y then true else false.
Definition Rleb (x y : R) : bool := if Rle_dec x y then true else false.

Definition clamp01 (x : R) : R :=
  if Rltb x 0 then 0 else if Rltb 1 x then 1 else x.

(** [Number.isFinite(v) && v > 0 ? v : 0] *)
Definition positive_part (v : rnum) : R :=
  match v with
  | RFin x => if Rltb 0 x then x else 0
  | _ => 0
  end.

Definition entropy01 (counts : list rnum) : R :=
  let xs := map positive_part counts in
  let s := fold_left Rplus xs 0 in
  if Rleb s 0 then 0
  else
    let ps := filter (fun p => Rltb 0 p) (map (fun v => v / s) xs) in
    let h := - fold_left (fun acc p => acc + p * ln p) ps 0 in
    let hMax := ln (INR (match List.length ps with O => 1 | n => n end)) in
    if Rleb hMax 0 then 0
    else clamp01 (h / hMax).

End Reals_kernels.

(** ** Three computations in binary64

    The exact arithmetic of the embedding and the doubles of the code part
    where a result is rounded to a whole number and the value to round lies
    halfway, or where a sum is compared with a bound it meets.  The three
    computations of the core where that happens are written here over the
    doubles, to be run. *)

Module Doubles.

Local Open Scope float_scope.

(** [computeFRI] (Backend_2_FRI, in [derive/rfs.ts]) *)
Definition clamp0to5 (x : float) : float :=
  let v := if F64.isFinite x then x else 0 in
  F64.max 0 (F64.min 5 v).

Definition round2 (x : float) : float := F64.round (x * 100) / 100.

Definition friCRS (R3 R4 R5 : float) : float :=
  0.3 * clamp0to5 R3 + 0.4 * clamp0to5 R4 + 0.3 * clamp0to5 R5.

Definition friRM (R6 : float) : float := 0.85 + (clamp0to5 R6 / 5) * 0.3.

(** The score that [computeFRI] returns. *)
Definition computeFRI (R3 R4 R5 R6 : float) : float :=
  let CRS := friCRS R3 R4 R5 in
  let RM := friRM R6 in
  let FRI := clamp0to5 (CRS * RM) in
  round2 FRI.

(** The number that [topPercentLabel] and [computeRslCohortResponse] round
    (Backend_3_Cohort, in [derive/rfs.ts]) *)
Definition topPercent (percentile : float) : float :=
  let p := if F64.isFinite percentile then percentile else 0.5 in
  F64.round ((1 - p) * 100).

(** The test of [validateWeights] on the sum of the weights
    (Backend_13, in [derive/rfs.ts]) *)
Definition off_sum (analyticity flow metacognition authenticity : float) : bool :=
  let sum := analyticity + flow + metacognition + authenticity in
  let tol := 1e-6 in
  tol <? abs (sum - 1.0).

End Doubles.

(** * Properties *)

Unset Implicit Arguments.

(** ** Arithmetic of [num] *)

Section NumFacts.

Local Open Scope Q_scope.

Lemma Qltb_true (a b : Q) : Num.Qltb a b = true <-> a < b.
Proof.
  unfold Num.Qltb. rewrite negb_true_iff.
  split; intro H.
  - apply Qnot_le_lt. intro L. apply Qle_bool_iff in L. congruence.
  - destruct (Qle_bool b a) eqn:E; [|reflexivity].
    apply Qle_bool_iff in E. exfalso. apply (Qlt_not_le _ _ H E).
Qed.

Lemma Qltb_false (a b : Q) : Num.Qltb a b = false <-> b <= a.
Proof.
  unfold Num.Qltb. rewrite negb_false_iff. apply Qle_bool_iff.
Qed.

Lemma Qeqb_true (a b : Q) : Qeq_bool a b = true <-> a == b.
Proof. apply Qeq_bool_iff. Qed.

Lemma Qeqb_false (a b : Q) : Qeq_bool a b = false <-> ~ a == b.
Proof.
  split; intro H.
  - intro E. apply Qeq_bool_iff in E. congruence.
  - destruct (Qeq_bool a b) eqn:E; [|reflexivity].
    apply Qeq_bool_iff in E. contradiction.
Qed.

Lemma ltb_Fin (a b : Q) : Num.ltb (Fin a) (Fin b) = true <-> a < b.
Proof. apply Qltb_true. Qed.

Lemma ltb_Fin_false (a b : Q) : Num.ltb (Fin a) (Fin b) = false <-> b <= a.
Proof. apply Qltb_false. Qed.

Lemma leb_Fin (a b : Q) : Num.leb (Fin a) (Fin b) = true <-> a <= b.
Proof.
  unfold Num.leb. simpl. rewrite orb_true_iff, Qltb_true, Qeqb_true.
  split; [intros [H|H]; qlra | intro H].
  destruct (Qlt_le_dec a b); [left; assumption | right; qlra].
Qed.

Lemma leb_Fin_false (a b : Q) : Num.leb (Fin a) (Fin b) = false <-> b < a.
Proof.
  split; intro H.
  - apply Qnot_le_lt. intro L. apply leb_Fin in L. congruence.
  - destruct (Num.leb (Fin a) (Fin b)) eqn:E; [|reflexivity].
    apply leb_Fin in E. qlra.
Qed.

End NumFacts.

(** Case analysis on every comparison of rationals in the goal, each case
    with the order fact it stands for. *)
Ltac q_cases :=
  repeat match goal with
    | |- context [Num.Qltb ?a ?b] =>
        let E := fresh "E" in
        destruct (Num.Qltb a b) eqn:E;
        [apply Qltb_true in E | apply Qltb_false in E]
    | |- context [Qeq_bool ?a ?b] =>
        let E := fresh "E" in
        destruct (Qeq_bool a b) eqn:E;
        [apply Qeqb_true in E | apply Qeqb_false in E]
    | |- context [Qle_bool ?a ?b] =>
        let E := fresh "E" in
        destruct (Qle_bool a b) eqn:E;
        [apply Qle_bool_iff in E
        | assert (b < a)%Q by (apply Qltb_true; unfold Num.Qltb; rewrite E; reflexivity);
          clear E]
    end.

Ltac q_red := repeat rewrite Qred_correct in *.

(** [fin_eq x q]: the number [x] is finite and equal to the rational [q]. *)
Definition fin_eq (x : num) (q : Q) : Prop :=
  match x with
  | Fin y => (y == q)%Q
  | _ => False
  end.

(** Exposes the rationals under [x] and [y] once both are known to be
    finite. *)
Ltac fin_unfold :=
  unfold fin_eq, Num.add, Num.neg, Num.mul, Num.div, Num.round, Num.floor,
    Num.ltb, Num.leb, Num.eqb, Num.isFinite, lit in *.
Ltac fin_open1 x := destruct x; try contradiction; fin_unfold.
Ltac fin_open x y := destruct x, y; try contradiction; fin_unfold.

Section FinEq1.

Local Open Scope Q_scope.

Variables (x : num) (a : Q).
Hypothesis Hx : fin_eq x a.

Lemma fin_eq_isFinite : Num.isFinite x = true.
Proof. fin_open1 x. reflexivity. Qed.

Lemma fin_eq_exists : exists q, x = Fin q /\ q == a.
Proof. fin_open1 x. eauto. Qed.

Lemma fin_eq_compat (c : Q) : a == c -> fin_eq x c.
Proof. fin_open1 x. intro E. rewrite <- E. assumption. Qed.

Lemma fin_eq_neg : fin_eq (Num.neg x) (- a).
Proof. fin_open1 x. rewrite Qred_correct, Hx. reflexivity. Qed.

Lemma fin_eq_round : fin_eq (Num.round x) (inject_Z (Qfloor (a + (1 # 2)))).
Proof.
  fin_open1 x.
  assert (E : Qfloor (q + (1 # 2)) = Qfloor (a + (1 # 2))).
  { apply Qfloor_comp. rewrite Hx. reflexivity. }
  rewrite E. reflexivity.
Qed.

Lemma fin_eq_floor : fin_eq (Num.floor x) (inject_Z (Qfloor a)).
Proof. fin_open1 x. rewrite (Qfloor_comp _ _ Hx). reflexivity. Qed.

End FinEq1.

Arguments fin_eq_isFinite [x a] Hx.
Arguments fin_eq_exists [x a] Hx.
Arguments fin_eq_compat [x a] Hx [c] _.
Arguments fin_eq_neg [x a] Hx.
Arguments fin_eq_round [x a] Hx.
Arguments fin_eq_floor [x a] Hx.

Section FinEq2.

Local Open Scope Q_scope.

Variables (x y : num) (a b : Q).
Hypothesis Hx : fin_eq x a.
Hypothesis Hy : fin_eq y b.

Lemma fin_eq_add : fin_eq (Num.add x y) (a + b).
Proof. fin_open x y. rewrite Qred_correct, Hx, Hy. reflexivity. Qed.

Lemma fin_eq_mul : fin_eq (Num.mul x y) (a * b).
Proof. fin_open x y. rewrite Qred_correct, Hx, Hy. reflexivity. Qed.

Lemma fin_eq_div : ~ b == 0 -> fin_eq (Num.div x y) (a / b).
Proof.
  intro Hb. fin_open x y.
  assert (E : Qeq_bool q0 0 = false).
  { apply Qeqb_false. rewrite Hy. assumption. }
  rewrite E. rewrite Qred_correct, Hx, Hy. reflexivity.
Qed.

Lemma fin_eq_ltb : Num.ltb x y = true <-> a < b.
Proof. fin_open x y. rewrite Qltb_true, Hx, Hy. tauto. Qed.

Lemma fin_eq_ltb_false : Num.ltb x y = false <-> b <= a.
Proof. fin_open x y. rewrite Qltb_false, Hx, Hy. tauto. Qed.

Lemma fin_eq_leb : Num.leb x y = true <-> a <= b.
Proof.
  destruct x, y; try contradiction. unfold fin_eq in *.
  rewrite leb_Fin, Hx, Hy. tauto.
Qed.

Lemma fin_eq_leb_false : Num.leb x y = false <-> b < a.
Proof.
  destruct x, y; try contradiction. unfold fin_eq in *.
  rewrite leb_Fin_false, Hx, Hy. tauto.
Qed.

End FinEq2.

Arguments fin_eq_add [x y a b] Hx Hy.
Arguments fin_eq_mul [x y a b] Hx Hy.
Arguments fin_eq_div [x y a b] Hx Hy _.
Arguments fin_eq_ltb [x y a b] Hx Hy.
Arguments fin_eq_ltb_false [x y a b] Hx Hy.
Arguments fin_eq_leb [x y a b] Hx Hy.
Arguments fin_eq_leb_false [x y a b] Hx Hy.

Lemma fin_eq_sub (x y : num) (a b : Q) :
  fin_eq x a -> fin_eq y b -> fin_eq (Num.sub x y) (a - b)%Q.
Proof.
  intros Hx Hy. unfold Num.sub, Qminus.
  apply fin_eq_add; [assumption | apply fin_eq_neg; assumption].
Qed.

Lemma fin_eq_lit (q : Q) : fin_eq (lit q) q.
Proof. unfold fin_eq, lit. apply Qred_correct. Qed.

Lemma fin_eq_Fin (q : Q) : fin_eq (Fin q) q.
Proof. unfold fin_eq. reflexivity. Qed.

Lemma Qle_bool_compat (p q a b : Q) :
  (p == a)%Q -> (q == b)%Q -> Qle_bool p q = Qle_bool a b.
Proof.
  intros Hp Hq.
  destruct (Qle_bool p q) eqn:E1, (Qle_bool a b) eqn:E2; try reflexivity.
  - apply Qle_bool_iff in E1. rewrite Hp, Hq in E1.
    apply Qle_bool_iff in E1. congruence.
  - apply Qle_bool_iff in E2. rewrite <- Hp, <- Hq in E2.
    apply Qle_bool_iff in E2. congruence.
Qed.

Lemma fin_eq_max (x y : num) (a b : Q) :
  fin_eq x a -> fin_eq y b ->
  fin_eq (Num.max x y) (if Qle_bool b a then a else b).
Proof.
  intros Hx Hy. destruct x as [| | |p], y as [| | |q]; try contradiction.
  unfold fin_eq, Num.max, Num.ltb, Num.Qltb in *.
  rewrite (Qle_bool_compat _ _ _ _ Hy Hx). destruct (Qle_bool b a); assumption.
Qed.

Lemma fin_eq_min (x y : num) (a b : Q) :
  fin_eq x a -> fin_eq y b ->
  fin_eq (Num.min x y) (if Qle_bool a b then a else b).
Proof.
  intros Hx Hy. destruct x as [| | |p], y as [| | |q]; try contradiction.
  unfold fin_eq, Num.min, Num.ltb, Num.Qltb in *.
  rewrite (Qle_bool_compat _ _ _ _ Hx Hy). destruct (Qle_bool a b); assumption.
Qed.

Create HintDb fin discriminated.
#[export] Hint Resolve fin_eq_add fin_eq_sub fin_eq_mul fin_eq_neg fin_eq_round
  fin_eq_floor fin_eq_lit fin_eq_Fin fin_eq_max fin_eq_min : fin.
(** ** C9: the FRI formula *)

Section FRI.

Local Open Scope Q_scope.

(** The formula of the specification, on rationals: [CRS * RM] clamped to
    [0, 5]. *)
Definition CRS_spec (r3 r4 r5 : Q) : Q := 0.3 * r3 + 0.4 * r4 + 0.3 * r5.
Definition RM_spec (r6 : Q) : Q := 0.85 + (r6 / 5) * 0.3.
Definition clamp_spec (x lo hi : Q) : Q :=
  if Qle_bool x lo then lo else if Qle_bool hi x then hi else x.
Definition round2_spec (x : Q) : Q := inject_Z (Qfloor (x * 100 + (1 # 2))) / 100.
Definition FRI_spec (r3 r4 r5 r6 : Q) : Q :=
  clamp_spec (CRS_spec r3 r4 r5 * RM_spec r6) 0 5.

Lemma clamp0to5_fin (x : num) (a : Q) :
  fin_eq x a -> fin_eq (Rsl.clamp0to5 x) (clamp_spec a 0 5).
Proof.
  intro H. unfold Rsl.clamp0to5. rewrite (fin_eq_isFinite H).
  eapply fin_eq_compat.
  - apply fin_eq_max; [apply fin_eq_Fin | apply fin_eq_min; [apply fin_eq_Fin | exact H]].
  - unfold clamp_spec. q_cases; try reflexivity; qlra.
Qed.

Lemma clamp0to5_id (x : num) (a : Q) :
  fin_eq x a -> 0 <= a <= 5 -> fin_eq (Rsl.clamp0to5 x) a.
Proof.
  intros H [H0 H5]. eapply fin_eq_compat; [apply clamp0to5_fin; exact H|].
  unfold clamp_spec. q_cases; try reflexivity; qlra.
Qed.

Lemma round2_fin (x : num) (a : Q) :
  fin_eq x a -> fin_eq (Rsl.round2 x) (round2_spec a).
Proof.
  intro H. unfold Rsl.round2, round2_spec.
  apply fin_eq_div; [|apply fin_eq_Fin|discriminate].
  apply fin_eq_round, fin_eq_mul; [exact H|apply fin_eq_Fin].
Qed.

(** Rounding to two decimals moves a number by half a hundredth at most. *)
Lemma round2_spec_near (a : Q) : Qabs (round2_spec a - a) <= 1 # 200.
Proof.
  unfold round2_spec.
  pose proof (Qfloor_le (a * 100 + (1 # 2))) as L.
  pose proof (Qlt_floor (a * 100 + (1 # 2))) as U.
  rewrite inject_Z_plus in U. change (inject_Z 1) with 1 in U.
  set (k := inject_Z (Qfloor (a * 100 + (1 # 2)))) in *.
  apply Qabs_Qle_condition. unfold Qdiv. change (/ 100) with (1 # 100).
  split; qlra.
Qed.

Lemma computeFRI_fin (r3 r4 r5 r6 : Q) :
  0 <= r3 <= 5 -> 0 <= r4 <= 5 -> 0 <= r5 <= 5 -> 0 <= r6 <= 5 ->
  fin_eq (Rsl.fri_score (Rsl.computeFRI (Fin r3) (Fin r4) (Fin r5) (Fin r6)))
    (round2_spec (FRI_spec r3 r4 r5 r6)).
Proof.
  intros H3 H4 H5 H6.
  unfold Rsl.computeFRI, Rsl.fri_score, FRI_spec.
  apply round2_fin, clamp0to5_fin, fin_eq_mul.
  - unfold Rsl.friCRS, CRS_spec.
    repeat apply fin_eq_add; apply fin_eq_mul;
      solve [apply fin_eq_lit | apply clamp0to5_id; [apply fin_eq_Fin | assumption]].
  - unfold Rsl.friRM, RM_spec.
    apply fin_eq_add; [apply fin_eq_lit|].
    apply fin_eq_mul; [|apply fin_eq_lit].
    apply fin_eq_div; [|apply fin_eq_Fin|discriminate].
    apply clamp0to5_id; [apply fin_eq_Fin | assumption].
Qed.

(** C9. For rubric values in [0, 5], the score of [computeFRI] is
    [CRS * RM] clamped to [0, 5] and rounded to two decimals, with
    [CRS = 0.3 R3 + 0.4 R4 + 0.3 R5] and [RM = 0.85 + (R6 / 5) * 0.3]: a
    whole number of hundredths that is within half a hundredth of the
    clamped product.  (The bound leaves 1e-9 to the rounding of doubles:
    where the product lies halfway between two hundredths, as 0.765 does at
    (0, 0, 3, 0), the doubles decide which of the two is returned.)  And
    [computeFRI(5,5,5,5)] has [CRS = 5], [RM = 1.15], the product 5.75
    before the clamp and the score 5. *)
Theorem computeFRI_formula (r3 r4 r5 r6 : Q) :
  0 <= r3 <= 5 -> 0 <= r4 <= 5 -> 0 <= r5 <= 5 -> 0 <= r6 <= 5 ->
  (exists x k,
      Rsl.fri_score (Rsl.computeFRI (Fin r3) (Fin r4) (Fin r5) (Fin r6)) = Fin x
      /\ x == inject_Z k / 100
      /\ Qabs (x - clamp_spec (CRS_spec r3 r4 r5 * RM_spec r6) 0 5)
         <= (1 # 200) + (1 # 1000000000))
  /\ Rsl.friCRS (Fin 5) (Fin 5) (Fin 5) = Fin 5
  /\ Rsl.friRM (Fin 5) = lit 1.15
  /\ Num.mul (Rsl.friCRS (Fin 5) (Fin 5) (Fin 5)) (Rsl.friRM (Fin 5)) = lit 5.75
  /\ Rsl.fri_score (Rsl.computeFRI (Fin 5) (Fin 5) (Fin 5) (Fin 5)) = Fin 5.
Proof.
  intros H3 H4 H5 H6.
  split; [|repeat split; vm_compute; reflexivity].
  pose proof (computeFRI_fin r3 r4 r5 r6 H3 H4 H5 H6) as F.
  destruct (Rsl.fri_score _) as [| | |x]; try contradiction.
  unfold fin_eq in F.
  exists x, (Qfloor (FRI_spec r3 r4 r5 r6 * 100 + (1 # 2))).
  split; [reflexivity|]. split; [exact F|].
  fold (FRI_spec r3 r4 r5 r6).
  pose proof (round2_spec_near (FRI_spec r3 r4 r5 r6)) as N.
  rewrite F. qlra.
Qed.

Lemma computeFRI_formula_witness :
  (exists x k,
      Rsl.fri_score (Rsl.computeFRI (Fin 3) (Fin 4) (Fin 2) (Fin 5)) = Fin x
      /\ x == inject_Z k / 100
      /\ Qabs (x - clamp_spec (CRS_spec 3 4 2 * RM_spec 5) 0 5)
         <= (1 # 200) + (1 # 1000000000))
  /\ Rsl.friCRS (Fin 5) (Fin 5) (Fin 5) = Fin 5
  /\ Rsl.friRM (Fin 5) = lit 1.15
  /\ Num.mul (Rsl.friCRS (Fin 5) (Fin 5) (Fin 5)) (Rsl.friRM (Fin 5)) = lit 5.75
  /\ Rsl.fri_score (Rsl.computeFRI (Fin 5) (Fin 5) (Fin 5) (Fin 5)) = Fin 5.
Proof.
  apply (computeFRI_formula 3 4 2 5); split; discriminate.
Defined.

(** In the doubles of the code: at (0, 0, 3, 0) the product is
    0.7649999999999999 and not 0.765, and the score is 0.76, where the exact
    arithmetic of the embedding gives 0.77; at (5, 5, 5, 5) the doubles give
    the numbers of the specification. *)
Lemma computeFRI_in_doubles :
  (Doubles.friCRS 0 0 3 * Doubles.friRM 0 = 0.7649999999999999
   /\ Doubles.computeFRI 0 0 3 0 = 0.76
   /\ Doubles.friCRS 5 5 5 = 5
   /\ Doubles.friRM 5 = 1.15
   /\ Doubles.friCRS 5 5 5 * Doubles.friRM 5 = 5.75
   /\ Doubles.computeFRI 5 5 5 5 = 5)%float
  /\ Rsl.fri_score (Rsl.computeFRI (Fin 0) (Fin 0) (Fin 3) (Fin 0)) = lit 0.77.
Proof. repeat split; vm_compute; reflexivity. Qed.

End FRI.

(** ** C6: the level is monotone in every rubric dimension *)

Section LevelMonotone.

Local Open Scope Q_scope.

Import Rsl.

Inductive Dimension : Type := Coherence | Structure | Evaluation | Integration.

Definition get_dim (d : Dimension) (inp : RSLLevelInput) : num :=
  match d with
  | Coherence => coherence_rubric_0to5 inp
  | Structure => structure_rubric_0to5 inp
  | Evaluation => evaluation_rubric_0to5 inp
  | Integration => integration_rubric_0to5 inp
  end.

(** The input [inp] with the dimension [d] replaced by [x], everything else
    held fixed. *)
Definition set_dim (d : Dimension) (x : num) (inp : RSLLevelInput) : RSLLevelInput :=
  {| coherence_rubric_0to5 :=
       match d with Coherence => x | _ => coherence_rubric_0to5 inp end;
     structure_rubric_0to5 :=
       match d with Structure => x | _ => structure_rubric_0to5 inp end;
     evaluation_rubric_0to5 :=
       match d with Evaluation => x | _ => evaluation_rubric_0to5 inp end;
     integration_rubric_0to5 :=
       match d with Integration => x | _ => integration_rubric_0to5 inp end;
     evidence_count := evidence_count inp;
     evidence_link_rate_0to1 := evidence_link_rate_0to1 inp;
     has_counterpoint := has_counterpoint inp;
     has_refutation := has_refutation inp |}.

(** L1 < L2 < L3 < L4 < L5 < L6 *)
Definition rank (l : RSLLevelCode) : nat :=
  match l with
  | L1 => 1 | L2 => 2 | L3 => 3 | L4 => 4 | L5 => 5 | L6 => 6
  end%nat.

(** The ladder of [computeRSLLevel]: the last gate passed decides. *)
Definition ladder (g : RSLGates) : RSLLevelCode :=
  let level := L1 in
  let level := if gate_L2 g then L2 else level in
  let level := if gate_L3 g then L3 else level in
  let level := if gate_L4 g then L4 else level in
  let level := if gate_L5 g then L5 else level in
  let level := if gate_L6 g then L6 else level in
  level.

Lemma level_ladder inp flags policy :
  level (computeRSLLevel inp flags policy) = ladder (gates (computeRSLLevel inp flags policy)).
Proof. reflexivity. Qed.

Lemma ladder_monotone (g g' : RSLGates) :
  (gate_L2 g = true -> gate_L2 g' = true) ->
  (gate_L3 g = true -> gate_L3 g' = true) ->
  (gate_L4 g = true -> gate_L4 g' = true) ->
  (gate_L5 g = true -> gate_L5 g' = true) ->
  (gate_L6 g = true -> gate_L6 g' = true) ->
  (rank (ladder g) <= rank (ladder g'))%nat.
Proof.
  destruct g as [a2 a3 a4 a5 a6], g' as [b2 b3 b4 b5 b6]. unfold ladder. simpl.
  intros H2 H3 H4 H5 H6.
  destruct a6; [rewrite H6 by reflexivity; simpl; lia|].
  destruct a5; [rewrite H5 by reflexivity; destruct b6; simpl; lia|].
  destruct a4; [rewrite H4 by reflexivity; destruct b6, b5; simpl; lia|].
  destruct a3; [rewrite H3 by reflexivity; destruct b6, b5, b4; simpl; lia|].
  destruct a2; [rewrite H2 by reflexivity; destruct b6, b5, b4, b3; simpl; lia|].
  destruct b6, b5, b4, b3, b2; simpl; lia.
Qed.

(** [clampInt0to5] lands in [0, 5] and is monotone as long as the larger
    argument is not [+Infinity]. *)
Lemma clampInt0to5_range (x : num) :
  exists q, clampInt0to5 x = Fin q /\ 0 <= q <= 5.
Proof.
  unfold clampInt0to5, Num.isFinite, Num.round, Num.gtb, Num.ltb, negb.
  destruct x as [| | |a];
    try (exists 0; split; [reflexivity | split; discriminate]).
  set (r := inject_Z (Qfloor (a + (1 # 2)))).
  q_cases; eexists; (split; [reflexivity|]); qlra.
Qed.

Lemma clampInt0to5_Fin_monotone (a b : Q) :
  a <= b ->
  exists p q, clampInt0to5 (Fin a) = Fin p /\ clampInt0to5 (Fin b) = Fin q /\ p <= q.
Proof.
  intro H. unfold clampInt0to5, Num.isFinite, Num.round, Num.gtb, Num.ltb, negb.
  assert (F : inject_Z (Qfloor (a + (1 # 2))) <= inject_Z (Qfloor (b + (1 # 2)))).
  { rewrite <- Zle_Qle. apply Qfloor_resp_le. qlra. }
  set (r := inject_Z (Qfloor (a + (1 # 2)))) in *.
  set (r' := inject_Z (Qfloor (b + (1 # 2)))) in *.
  q_cases; do 2 eexists; (split; [reflexivity|split; [reflexivity|]]); qlra.
Qed.

Lemma clampInt0to5_monotone (x x' : num) :
  Num.ltb x x' = true -> x' <> PInf ->
  exists p q, clampInt0to5 x = Fin p /\ clampInt0to5 x' = Fin q /\ p <= q.
Proof.
  intros H Hinf.
  destruct x as [| | |a], x' as [| | |b]; simpl in H; try discriminate; try congruence.
  - destruct (clampInt0to5_range (Fin b)) as [q [E [H0 _]]].
    exists 0, q. split; [reflexivity|]. split; assumption.
  - apply Qltb_true in H. apply clampInt0to5_Fin_monotone. qlra.
Qed.

Lemma clampInt0to5_refl (x : num) :
  exists p q, clampInt0to5 x = Fin p /\ clampInt0to5 x = Fin q /\ p <= q.
Proof.
  destruct (clampInt0to5_range x) as [q [E _]].
  exists q, q. repeat split; try assumption. qlra.
Qed.

Lemma min_Fin_monotone (a b a' b' : Q) :
  a <= a' -> b <= b' ->
  exists m m', Num.min (Fin a) (Fin b) = Fin m /\ Num.min (Fin a') (Fin b') = Fin m'
               /\ m <= m'.
Proof.
  intros Ha Hb. unfold Num.min, Num.ltb.
  q_cases; do 2 eexists; (split; [reflexivity|split; [reflexivity|]]); qlra.
Qed.

(** [m >= g] stays true when the finite [m] grows, whatever [g] is. *)
Lemma geb_monotone (g : num) (m m' : Q) :
  m <= m' -> Num.geb (Fin m) g = true -> Num.geb (Fin m') g = true.
Proof.
  intro H. unfold Num.geb.
  destruct g as [| | |q]; try (unfold Num.leb, Num.ltb, Num.eqb; simpl; congruence).
  rewrite !leb_Fin. intro. qlra.
Qed.

Lemma set_dim_clamped (d : Dimension) (x' : num) (inp : RSLLevelInput) :
  Num.ltb (get_dim d inp) x' = true -> x' <> PInf ->
  forall d', exists p q,
    clampInt0to5 (get_dim d' inp) = Fin p
    /\ clampInt0to5 (get_dim d' (set_dim d x' inp)) = Fin q /\ p <= q.
Proof.
  intros H Hinf d'.
  destruct d, d'; simpl in *;
    solve [apply clampInt0to5_monotone; assumption | apply clampInt0to5_refl].
Qed.

(** C6, as amended.  Raising one rubric dimension to a value other than
    [+Infinity], all other inputs fixed, never lowers the level. *)
Theorem computeRSLLevel_monotone
    (inp : RSLLevelInput) (flags : RSLLevelFlags) (policy : RSLLevelPolicy)
    (d : Dimension) (x' : num) :
  Num.ltb (get_dim d inp) x' = true ->
  x' <> PInf ->
  (rank (level (computeRSLLevel inp flags policy))
   <= rank (level (computeRSLLevel (set_dim d x' inp) flags policy)))%nat.
Proof.
  intros H Hinf.
  pose proof (set_dim_clamped d x' inp H Hinf) as M.
  destruct (M Coherence) as [c [c' [Ec [Ec' Lc]]]].
  destruct (M Structure) as [s [s' [Es [Es' Ls]]]].
  destruct (M Evaluation) as [e [e' [Ee [Ee' Le]]]].
  destruct (M Integration) as [i [i' [Ei [Ei' Li]]]].
  unfold get_dim in *.
  rewrite !level_ladder.
  assert (EV : evidenceOK (set_dim d x' inp) policy flags = evidenceOK inp policy flags)
    by reflexivity.
  destruct (min_Fin_monotone c s c' s' Lc Ls) as [m1 [m1' [E1 [E1' L1]]]].
  destruct (min_Fin_monotone m1 e m1' e' L1 Le) as [m2 [m2' [E2 [E2' L2]]]].
  destruct (min_Fin_monotone m2 i m2' i' L2 Li) as [m [m' [E3 [E3' L3]]]].
  apply ladder_monotone; unfold computeRSLLevel; cbn [gates gate_L2 gate_L3 gate_L4 gate_L5 gate_L6];
    rewrite ?EV; cbn [has_counterpoint has_refutation set_dim];
    rewrite Ec, Es, Ee, Ei, Ec', Es', Ee', Ei', E1, E2, E3, E1', E2', E3';
    repeat rewrite andb_true_iff;
    repeat match goal with
      | |- context [if ?b then _ else _] => destruct b
      end;
    repeat rewrite andb_true_iff;
    intuition (eauto using geb_monotone).
Qed.

Definition sample_input : RSLLevelInput :=
  {| coherence_rubric_0to5 := Fin 5;
     structure_rubric_0to5 := Fin 5;
     evaluation_rubric_0to5 := Fin 5;
     integration_rubric_0to5 := Fin 5;
     evidence_count := Some (Fin 2);
     evidence_link_rate_0to1 := Some (lit 0.3);
     has_counterpoint := Some false;
     has_refutation := Some false |}.

Lemma computeRSLLevel_monotone_witness :
  (rank (level (computeRSLLevel (set_dim Structure (Fin 1) sample_input) levelFlags levelPolicy))
   <= rank (level (computeRSLLevel
                     (set_dim Structure (Fin 4) (set_dim Structure (Fin 1) sample_input))
                     levelFlags levelPolicy)))%nat.
Proof.
  apply (computeRSLLevel_monotone (set_dim Structure (Fin 1) sample_input)
           levelFlags levelPolicy Structure (Fin 4)).
  - reflexivity.
  - discriminate.
Defined.

(** C6 as stated fails: raising the coherence from 5 to [+Infinity] takes
    the level from L6 down to L1, because [clampInt0to5] sends a value that
    is not finite to 0. *)
Lemma computeRSLLevel_not_monotone_at_infinity :
  Num.ltb (get_dim Coherence sample_input) PInf = true
  /\ level (computeRSLLevel sample_input levelFlags levelPolicy) = L6
  /\ level (computeRSLLevel (set_dim Coherence PInf sample_input) levelFlags levelPolicy) = L1.
Proof. repeat split. Qed.

End LevelMonotone.

(** ** C3: the deep merge *)

Section DeepMerge.

Local Open Scope string_scope.

(** A plain object as [JSON.parse] builds it: the keys of every object in
    it are distinct and none is [__proto__] (a key that JavaScript routes
    to the prototype and that the embedding does not model). *)
Fixpoint distinct (ks : list string) : bool :=
  match ks with
  | [] => true
  | k :: r => negb (existsb (String.eqb k) r) && distinct r
  end.

Fixpoint wf (v : value) : bool :=
  match v with
  | VObj kvs =>
      distinct (map fst kvs)
      && negb (existsb (String.eqb "__proto__") (map fst kvs))
      && forallb (fun kv => wf (snd kv)) kvs
  | VArr xs => forallb wf xs
  | _ => true
  end.

Lemma assoc_set_same (kvs : list (string * value)) (k : string) (v : value) :
  Js.assoc (Js.assoc_set kvs k v) k = Some v.
Proof.
  induction kvs as [|[k' v'] r IH]; simpl.
  - rewrite String.eqb_refl. reflexivity.
  - destruct (String.eqb k' k) eqn:E; simpl; rewrite E; [reflexivity | exact IH].
Qed.

Lemma assoc_set_other (kvs : list (string * value)) (k k' : string) (v : value) :
  k <> k' -> Js.assoc (Js.assoc_set kvs k v) k' = Js.assoc kvs k'.
Proof.
  intro N. induction kvs as [|[k0 v0] r IH]; simpl.
  - destruct (String.eqb k k') eqn:E; [apply String.eqb_eq in E; contradiction | reflexivity].
  - destruct (String.eqb k0 k) eqn:E; simpl.
    + apply String.eqb_eq in E. subst k0.
      destruct (String.eqb k k') eqn:E'; [apply String.eqb_eq in E'; contradiction | reflexivity].
    + destruct (String.eqb k0 k'); [reflexivity | exact IH].
Qed.

Lemma get_set_same (kvs : list (string * value)) (k : string) (v : value) :
  (Js.set (VObj kvs) k v).[k] = v.
Proof. simpl. rewrite assoc_set_same. reflexivity. Qed.

Lemma get_set_other (kvs : list (string * value)) (k k' : string) (v : value) :
  k <> k' -> (Js.set (VObj kvs) k v).[k'] = (VObj kvs).[k'].
Proof. intro N. simpl. rewrite assoc_set_other by assumption. reflexivity. Qed.

Lemma assoc_none_existsb (kvs : list (string * value)) (k : string) :
  existsb (String.eqb k) (map fst kvs) = false -> Js.assoc kvs k = None.
Proof.
  induction kvs as [|[k' v'] r IH]; simpl; [reflexivity|].
  rewrite orb_false_iff. intros [E H]. rewrite String.eqb_sym, E. apply IH, H.
Qed.

Lemma merge_key_obj (kvs : list (string * value)) k sv rec :
  exists kvs', merge_key (VObj kvs) k sv rec = VObj kvs'.
Proof. unfold merge_key. destruct (_ && _); simpl; eauto. Qed.

Lemma merge_key_same (kvs : list (string * value)) k sv rec :
  (merge_key (VObj kvs) k sv rec).[k] =
  if Js.is_plain (VObj kvs).[k] && Js.is_plain sv then rec (VObj kvs).[k] else sv.
Proof.
  unfold merge_key. destruct (_ && _); apply get_set_same.
Qed.

Lemma merge_key_other (kvs : list (string * value)) k k' sv rec :
  k <> k' -> (merge_key (VObj kvs) k sv rec).[k'] = (VObj kvs).[k'].
Proof.
  intro N. unfold merge_key. destruct (_ && _); apply get_set_other; assumption.
Qed.

(** One pass of [deepMergeInto] over the entries [kvs] of the source. *)
Definition merge_entries (kvs : list (string * value)) (t : value) : value :=
  fold_left
    (fun t kv => merge_key t (fst kv) (snd kv) (fun tv => deepMergeInto tv (snd kv)))
    kvs t.

Lemma deepMergeInto_obj (t : value) (kvs : list (string * value)) :
  deepMergeInto t (VObj kvs) = merge_entries kvs t.
Proof. reflexivity. Qed.

Lemma merge_entries_get (kvs : list (string * value)) :
  distinct (map fst kvs) = true ->
  forall (tkvs : list (string * value)) (k : string),
    (merge_entries kvs (VObj tkvs)).[k] =
    match Js.assoc kvs k with
    | Some sv =>
        if Js.is_plain (VObj tkvs).[k] && Js.is_plain sv
        then deepMergeInto (VObj tkvs).[k] sv else sv
    | None => (VObj tkvs).[k]
    end.
Proof.
  induction kvs as [|[k0 v0] r IH]; intros D tkvs k; [reflexivity|].
  simpl in D. apply andb_true_iff in D. destruct D as [D0 D].
  apply negb_true_iff in D0.
  unfold merge_entries. simpl fold_left.
  destruct (merge_key_obj tkvs k0 v0 (fun tv => deepMergeInto tv v0)) as [t' Et].
  rewrite Et. fold (merge_entries r (VObj t')). rewrite (IH D).
  simpl Js.assoc. destruct (String.eqb k0 k) eqn:E.
  - apply String.eqb_eq in E. subst k0.
    rewrite (assoc_none_existsb _ _ D0). rewrite <- Et. apply merge_key_same.
  - assert (N : k0 <> k) by (intro; subst; rewrite String.eqb_refl in E; discriminate).
    rewrite <- Et. rewrite !(merge_key_other _ _ _ _ _ N). reflexivity.
Qed.

Lemma assoc_set_fresh (kvs : list (string * value)) (k : string) (v : value) :
  existsb (String.eqb k) (map fst kvs) = false ->
  Js.assoc_set kvs k v = (kvs ++ [(k, v)])%list.
Proof.
  induction kvs as [|[k' v'] r IH]; simpl; [reflexivity|].
  rewrite orb_false_iff. intros [E H]. rewrite String.eqb_sym, E, (IH H). reflexivity.
Qed.

Lemma existsb_app_false (k : string) (l1 l2 : list string) :
  existsb (String.eqb k) l1 = false -> existsb (String.eqb k) l2 = false ->
  existsb (String.eqb k) (l1 ++ l2) = false.
Proof. intros H1 H2. rewrite existsb_app, H1, H2. reflexivity. Qed.

(** Merging an object with distinct keys into an object that has none of
    them appends its entries. *)
Lemma merge_entries_fresh (kvs : list (string * value)) :
  distinct (map fst kvs) = true ->
  forall acc : list (string * value),
    (forall k, In k (map fst kvs) -> existsb (String.eqb k) (map fst acc) = false) ->
    merge_entries kvs (VObj acc) = VObj (acc ++ kvs).
Proof.
  induction kvs as [|[k0 v0] r IH]; intros D acc F.
  - simpl. rewrite app_nil_r. reflexivity.
  - simpl in D. apply andb_true_iff in D. destruct D as [D0 D].
    apply negb_true_iff in D0.
    unfold merge_entries. simpl fold_left. unfold merge_key at 2.
    assert (A : Js.assoc acc k0 = None).
    { apply assoc_none_existsb, F. left. reflexivity. }
    simpl Js.get. rewrite A. simpl.
    rewrite assoc_set_fresh by (apply F; left; reflexivity).
    fold (merge_entries r (VObj (acc ++ [(k0, v0)]))).
    rewrite (IH D).
    + rewrite <- app_assoc. reflexivity.
    + intros k Hk. rewrite map_app. apply existsb_app_false.
      * apply F. right. assumption.
      * simpl. rewrite orb_false_r.
        destruct (String.eqb k k0) eqn:E; [|reflexivity].
        apply String.eqb_eq in E. subst k.
        exfalso. clear - D0 Hk. induction (map fst r) as [|x l IHl]; simpl in *.
        -- contradiction.
        -- apply orb_false_iff in D0. destruct D0 as [E1 E2].
           destruct Hk as [->|Hk]; [rewrite String.eqb_refl in E1; discriminate|].
           apply IHl; assumption.
Qed.

Lemma deepMergeInto_empty (v : value) :
  Js.is_plain v = true -> wf v = true -> deepMergeInto (VObj []) v = v.
Proof.
  destruct v as [| | | | | |kvs]; try discriminate. intros _ W.
  simpl in W. apply andb_true_iff in W. destruct W as [W _].
  apply andb_true_iff in W. destruct W as [D _].
  rewrite deepMergeInto_obj, merge_entries_fresh; [reflexivity | assumption |].
  intros; reflexivity.
Qed.

Lemma wf_get (kvs : list (string * value)) (k : string) :
  wf (VObj kvs) = true -> wf (VObj kvs).[k] = true.
Proof.
  intro W. simpl in W. apply andb_true_iff in W. destruct W as [_ W].
  simpl. induction kvs as [|[k' v'] r IH]; simpl in *; [reflexivity|].
  apply andb_true_iff in W. destruct W as [W1 W2].
  destruct (String.eqb k' k); [assumption | apply IH, W2].
Qed.

(** C3. For plain objects [a] and [b], the merge of [a] then [b] holds at
    every key [k]: the value of [a] when [b] has no such key; the merge of
    the two values when both are plain objects (the recursion); and
    otherwise, that is when the value in [b] is an array or a scalar or the
    value in [a] is not a plain object, the value of [b] as it is. *)
Theorem deepMerge_by_key (a b : value) (k : string) :
  Js.is_plain a = true -> wf a = true ->
  Js.is_plain b = true -> wf b = true ->
  (deepMergeAll [a; b]).[k] =
  if Js.has b k then
    if Js.is_plain a.[k] && Js.is_plain b.[k]
    then deepMergeAll [a.[k]; b.[k]]
    else b.[k]
  else a.[k].
Proof.
  intros Pa Wa Pb Wb.
  unfold deepMergeAll. simpl fold_left.
  rewrite (deepMergeInto_empty a Pa Wa).
  destruct a as [| | | | | |akvs]; try discriminate.
  destruct b as [| | | | | |bkvs]; try discriminate.
  rewrite deepMergeInto_obj, merge_entries_get.
  - unfold Js.has. simpl Js.props. simpl (Js.get (VObj bkvs) k).
    destruct (Js.assoc bkvs k) as [sv|] eqn:E; [|reflexivity].
    destruct (Js.is_plain (VObj akvs).[k] && Js.is_plain sv) eqn:P; [|reflexivity].
    apply andb_true_iff in P. destruct P as [P1 P2].
    rewrite (deepMergeInto_empty _ P1 (wf_get akvs k Wa)). reflexivity.
  - simpl in Wb. apply andb_true_iff in Wb. destruct Wb as [Wb _].
    apply andb_true_iff in Wb. destruct Wb as [D _]. exact D.
Qed.

Definition merge_left : value :=
  VObj [("rsl", VObj [("fri", VNum (Fin 1)); ("tags", VArr [VStr "a"; VStr "b"])]);
        ("cff", VStr "x")].

Definition merge_right : value :=
  VObj [("rsl", VObj [("tags", VArr [VStr "c"]); ("level", VStr "L2")]);
        ("rc", VNull)].

Lemma deepMerge_by_key_witness :
  (deepMergeAll [merge_left; merge_right]).["rsl"] =
  if Js.has merge_right "rsl" then
    if Js.is_plain merge_left.["rsl"] && Js.is_plain merge_right.["rsl"]
    then deepMergeAll [merge_left.["rsl"]; merge_right.["rsl"]]
    else merge_right.["rsl"]
  else merge_left.["rsl"].
Proof.
  apply (deepMerge_by_key merge_left merge_right "rsl"); reflexivity.
Defined.







End DeepMerge.

(** ** C2: the final type that [deriveCff] returns *)

Section DeriveCff.

Local Open Scope string_scope.






















End DeriveCff.

(** ** C4, C1: the orchestrators *)

Section Alike.

Local Open Scope string_scope.

(** Two reports are alike when they have the same keys in the same order
    and the same value under every key but [meta]. *)
Definition alike (l1 l2 : list (string * value)) : Prop :=
  Forall2 (fun x y => fst x = fst y /\ (fst x <> "meta" -> snd x = snd y)) l1 l2.

Definition same_but_meta (a b : value) : Prop :=
  Js.keys a = Js.keys b /\ forall k, k <> "meta" -> a.[k] = b.[k].

(** Two outcomes of the handler agree when both are reports that are the
    same but for [meta], or both are the same exception. *)
Definition agree (r1 r2 : res value) : Prop :=
  match r1, r2 with
  | Ok a, Ok b => same_but_meta a b
  | Throw e1, Throw e2 => e1 = e2
  | Beyond, Beyond => True
  | _, _ => False
  end.

Lemma alike_set (l1 l2 : list (string * value)) (k : string) (v : value) :
  alike l1 l2 -> alike (Js.assoc_set l1 k v) (Js.assoc_set l2 k v).
Proof.
  induction 1 as [|[k1 v1] [k2 v2] r1 r2 [K V] T IH]; cbn [Js.assoc_set].
  - constructor; [split; reflexivity | constructor].
  - cbn [fst snd] in K, V. subst k2.
    destruct (String.eqb k1 k).
    + constructor; [split; reflexivity | exact T].
    + constructor; [split; [reflexivity | exact V] | exact IH].
Qed.

Lemma alike_fold (kvs : list (string * value)) (l1 l2 : list (string * value)) :
  alike l1 l2 ->
  exists l1' l2',
    fold_left (fun o kv => Js.set o (fst kv) (snd kv)) kvs (VObj l1) = VObj l1'
    /\ fold_left (fun o kv => Js.set o (fst kv) (snd kv)) kvs (VObj l2) = VObj l2'
    /\ alike l1' l2'.
Proof.
  revert l1 l2. induction kvs as [|[k v] r IH]; intros l1 l2 A.
  - exists l1, l2. repeat split; assumption.
  - cbn [fold_left Js.set fst snd]. apply IH, alike_set, A.
Qed.

Lemma alike_same_but_meta (l1 l2 : list (string * value)) :
  alike l1 l2 -> same_but_meta (VObj l1) (VObj l2).
Proof.
  intro A. split.
  - unfold Js.keys. cbn [Js.props].
    induction A as [|x y r1 r2 [K _] _ IH]; [reflexivity|].
    cbn [map]. rewrite K, IH. reflexivity.
  - intros k N. unfold Js.get.
    induction A as [|[k1 v1] [k2 v2] r1 r2 [K V] _ IH]; [reflexivity|].
    cbn [fst snd] in K, V. subst k2. cbn [Js.assoc].
    destruct (String.eqb k1 k) eqn:E; [|exact IH].
    apply String.eqb_eq in E. subst k1. rewrite (V N). reflexivity.
Qed.

End Alike.

Section Orchestrators.

Local Open Scope string_scope.

Variable computeRslRubric4FromRaw : value -> Rsl.RslRubric4.
Variable computeSRI : value -> res value.
Variable computeRCFromRaw : value -> Rc.RCOut.
Variable computeAgencyIndicators : value -> res Rc.AgencyIndicators.

Let deriveRsl := Rsl.deriveRsl computeRslRubric4FromRaw computeSRI.
Let deriveRc := Rc.deriveRc computeRCFromRaw computeAgencyIndicators.
Let derive' :=
  derive computeRslRubric4FromRaw computeSRI computeRCFromRaw computeAgencyIndicators.
Let POST' :=
  Route.POST computeRslRubric4FromRaw computeSRI computeRCFromRaw computeAgencyIndicators.

(** What each orchestrator returns on [{}]. *)
Definition rc_of_empty : value :=
  VObj [("rc",
         VObj [("observed_structural_signals_library",
                Rc.library_json Rc.buildSignalLibraryV1_S1toS18);
               ("structural_control_signals", VObj [])])].

Definition cff_of_empty : value :=
  VObj [("cff",
         VObj [("indicators", VObj []);
               ("observed_patterns", VArr []);
               ("final_type",
                VObj [("label", VStr "T2. Reflective Thinker");
                      ("chip_label", VStr "Reflective Thinker");
                      ("confidence", VNum (lit 0.6));
                      ("interpretation",
                       VStr "Reflective Thinker reflects the dominant reasoning pattern inferred from the current indicator configuration.")])])].

Definition rsl_of_empty : value :=
  VObj [("rsl",
         VObj [("fri",
                VObj [("score", VNum (Fin 0));
                      ("interpretation", VStr (Rsl.friNote (Fin 0)))]);
               ("charts",
                VObj [("cohort_positioning",
                       VObj [("current", VObj [("x", VNum (lit 0.5)); ("y", VNum (Fin 0))]);
                             ("percentile_0to1", VNum (lit 0.5));
                             ("top_percent_label", VStr "Top 50%");
                             ("interpretation",
                              VStr (Rsl.cohortInterpretationFromTopPercent (Fin 50)))])])])].

Definition rfs_of_empty : value :=
  VObj [("rfs",
         VObj [("primary_pattern", VStr "Linear Responder");
               ("representative_phrase", VStr "unstructured and linear")])].

(** C4 fails on the code.  On the empty input [{}] none of [deriveRc],
    [deriveCff], [deriveRsl], [deriveRfs] throws, and [deriveRc],
    [deriveCff] and [deriveRfs] return their section with default leaves:
    the constant signal library and an empty record of control signals;
    empty indicators, no observed pattern and the fallback final type; the
    style of all-zero indicators.  But the object of [deriveRsl] does not
    match its shape: its [rsl] section holds the index (score 0) and the
    cohort position (percentile 0.5) and nothing else.  The level, its meta
    and the rubric that [deriveRsl] puts there first are lost when
    [Object.assign(out, friRes)] replaces the whole section. *)
Theorem derive_modules_on_empty_input :
  (exists rc,
      deriveRc (VObj []) = Ok rc
      /\ Js.keys rc = ["rc"]
      /\ Js.keys rc.["rc"]
         = ["observed_structural_signals_library"; "structural_control_signals"]
      /\ rc.["rc"].["observed_structural_signals_library"]
         = Rc.library_json Rc.buildSignalLibraryV1_S1toS18
      /\ rc.["rc"].["structural_control_signals"] = VObj [])
  /\ (exists cff,
         Cff.deriveCff (VObj []) = Ok cff
         /\ Js.keys cff = ["cff"]
         /\ Js.keys cff.["cff"] = ["indicators"; "observed_patterns"; "final_type"]
         /\ cff.["cff"].["indicators"] = VObj []
         /\ cff.["cff"].["observed_patterns"] = VArr []
         /\ Js.keys cff.["cff"].["final_type"]
            = ["label"; "chip_label"; "confidence"; "interpretation"]
         /\ cff.["cff"].["final_type"].["label"] = VStr "T2. Reflective Thinker"
         /\ cff.["cff"].["final_type"].["confidence"] = VNum (lit 0.6))
  /\ (exists rsl,
         deriveRsl (VObj []) = Ok rsl
         /\ Js.keys rsl = ["rsl"]
         /\ Js.keys rsl.["rsl"] = ["fri"; "charts"]
         /\ Js.has rsl.["rsl"] "level" = false
         /\ Js.has rsl.["rsl"] "level_meta" = false
         /\ Js.has rsl.["rsl"] "rubric" = false
         /\ rsl.["rsl"].["fri"].["score"] = VNum (Fin 0)
         /\ rsl.["rsl"].["charts"].["cohort_positioning"].["percentile_0to1"]
            = VNum (lit 0.5)
         /\ rsl.["rsl"].["charts"].["cohort_positioning"].["top_percent_label"]
            = VStr "Top 50%")
  /\ (exists rfs,
         Rfs.deriveRfs (VObj []) = Ok rfs
         /\ Js.keys rfs = ["rfs"]
         /\ Js.keys rfs.["rfs"] = ["primary_pattern"; "representative_phrase"]
         /\ rfs.["rfs"].["primary_pattern"] = VStr "Linear Responder"
         /\ rfs.["rfs"].["representative_phrase"] = VStr "unstructured and linear").
Proof.
  split; [exists rc_of_empty | split; [exists cff_of_empty
         | split; [exists rsl_of_empty | exists rfs_of_empty]]];
    repeat split; vm_compute; reflexivity.
Qed.

(** With a rubric in the input the level and the rubric are lost all the
    same: the [rsl] section of [deriveRsl] never has them. *)
Definition rubric_only : value :=
  VObj [("rsl_rubric",
         VObj [("coherence", VNum (Fin 5)); ("structure", VNum (Fin 5));
               ("evaluation", VNum (Fin 5)); ("integration", VNum (Fin 5))])].

Lemma deriveRsl_loses_level :
  match deriveRsl rubric_only with
  | Ok rsl =>
      Js.keys rsl.["rsl"] = ["fri"; "charts"]
      /\ rsl.["rsl"].["fri"].["score"] = VNum (Fin 5)
  | _ => False
  end.
Proof. vm_compute. split; reflexivity. Qed.

Definition raw_only : value := VObj [("raw_features", VObj [])].

(** The report of [{}]: the four sections, merged in the order of [derive]. *)
Definition report_of_empty : value :=
  deepMergeAll [rsl_of_empty; cff_of_empty; rc_of_empty; rfs_of_empty].

(** What [deriveCff] returns on [{ raw_features: {} }]. *)
Definition cff_of_raw_only : value :=
  Eval vm_compute in
    match Cff.deriveCff raw_only with Ok b => b | _ => VUndef end.

(** C1 fails on the code.  On [{}] the report has the four keys, but its
    [rsl] section holds only [fri] and [charts]: the level, its meta and the
    rubric that [deriveRsl] builds are overwritten by its
    [Object.assign(out, friRes)].  As soon as raw features are present,
    [deriveCff] returns the six indicators and the pattern record at the top
    level, and its [cff] section holds the final type alone. *)
Theorem derive_report_shape :
  (exists r,
      derive' (VObj []) = Ok r
      /\ Js.keys r = ["rsl"; "cff"; "rc"; "rfs"]
      /\ Js.keys r.["rsl"] = ["fri"; "charts"]
      /\ Js.has r.["rsl"] "level" = false
      /\ Js.has r.["rsl"] "rubric" = false)
  /\ (exists b,
         Cff.deriveCff raw_only = Ok b
         /\ Js.keys b =
            ["AAS"; "CTF"; "RMD"; "RDX"; "EDS"; "IFD";
             "layer"; "selection_rule"; "all_profiles"; "profiles"; "cff"]
         /\ Js.keys b.["cff"] = ["final_type"]).
Proof.
  split; [exists report_of_empty | exists cff_of_raw_only];
    repeat split; vm_compute; reflexivity.
Qed.

(** The handler reads its host in [meta] alone. *)
Lemma POST_agree (fixture : value) (h1 h2 : Route.Host) :
  agree (POST' fixture h1) (POST' fixture h2).
Proof.
  unfold POST', Route.POST. cbv zeta.
  destruct (Js.nullish fixture); [reflexivity|].
  destruct (derive _ _ _ _ _) as [derived|e|]; cbn [bind agree]; try reflexivity.
  set (rsl := Js.set (Js.set _ "summary" _) "dimensions" _).
  unfold Js.spread. cbn [flat_map Js.props app fold_left Js.set fst snd Js.assoc_set].
  destruct (alike_fold (Js.props derived ++ [])
              [("meta", Route.buildMeta h1 fixture)]
              [("meta", Route.buildMeta h2 fixture)]) as [l1 [l2 [E1 [E2 A]]]].
  { constructor; [|constructor]. split; [reflexivity | intro N; contradiction]. }
  rewrite E1, E2. cbn [Js.set].
  apply alike_same_but_meta, alike_set, A.
Qed.

End Orchestrators.

(** Constant kernels, to run the orchestrators on examples. *)
Definition const_rubric4 (_ : value) : Rsl.RslRubric4 :=
  {| Rsl.rubric4_coherence := Fin 0; Rsl.rubric4_structure := Fin 0;
     Rsl.rubric4_evaluation := Fin 0; Rsl.rubric4_integration := Fin 0 |}.

Definition const_sri (_ : value) : res value := Ok (VObj []).

Definition const_rc (_ : value) : Rc.RCOut :=
  {| Rc.summary := EmptyString; Rc.control_pattern := EmptyString; Rc.reliability_band := "LOW";
     Rc.band_rationale := EmptyString; Rc.pattern_interpretation := EmptyString |}.

Definition const_agency (_ : value) : res Rc.AgencyIndicators :=
  Ok {| Rc.structural_variance := Fin 0; Rc.human_rhythm_index := Fin 0;
        Rc.transition_flow := Fin 0; Rc.revision_depth := Fin 0 |}.

Definition derive_const : value -> res value :=
  derive const_rubric4 const_sri const_rc const_agency.

Section Requests.

Local Open Scope string_scope.

Definition raw_only_fixture : value := VObj [("analysis_input", raw_only)].

Definition morning : Route.Host :=
  {| Route.iso_now := "2026-02-19T08:00:00.000Z";
     Route.utc_full_year := 2026; Route.utc_month := 1; Route.utc_date := 19;
     Route.random := 1 # 8; Route.NP_VERIFY_URL := None |}.

Definition evening : Route.Host :=
  {| Route.iso_now := "2026-02-19T20:30:00.000Z";
     Route.utc_full_year := 2026; Route.utc_month := 1; Route.utc_date := 19;
     Route.random := 3 # 4; Route.NP_VERIFY_URL := None |}.

(** Two requests with the same fixture, served at different times. *)
Lemma POST_agree_example :
  agree
    (Route.POST const_rubric4 const_sri const_rc const_agency raw_only_fixture morning)
    (Route.POST const_rubric4 const_sri const_rc const_agency raw_only_fixture evening).
Proof. apply POST_agree. Qed.

(** They do return different verification ids. *)
Lemma verification_ids_differ :
  Route.generateVerificationIdV1 morning = "NP-2026-0219-1250"
  /\ Route.generateVerificationIdV1 evening = "NP-2026-0219-7500".
Proof. split; vm_compute; reflexivity. Qed.

End Requests.

(** ** C5: where role scoring throws *)

Section RoleScoring.

Local Open Scope string_scope.
Local Open Scope Q_scope.

Import Rfs.

(** A finite number in [0, 1]; four of them; weights whose sum is within
    [tol] of 1. *)
Definition in01 (x : num) : Prop := exists q, x = Fin q /\ 0 <= q <= 1.

Definition axes_in01 (a : NeuprintAxes) : Prop :=
  in01 (analyticity a) /\ in01 (flow a) /\ in01 (metacognition a) /\ in01 (authenticity a).

Definition sum_within (tol : Q) (w : NeuprintAxes) : Prop :=
  exists q1 q2 q3 q4,
    analyticity w = Fin q1 /\ flow w = Fin q2 /\ metacognition w = Fin q3
    /\ authenticity w = Fin q4
    /\ Qabs (q1 + q2 + q3 + q4 - 1) <= tol.

Definition sums_to_one (w : NeuprintAxes) : Prop := sum_within (1 # 1000000) w.

(** The code adds the weights and compares with [1e-6] in double precision:
    the sum it tests is within [1e-15] of the true one.  The statements
    leave a margin of [1e-9] on either side of the tolerance. *)
Definition margin : Q := 1 # 1000000000.


Definition throws {A : Type} (r : res A) : Prop := exists e, r = Throw e.

Lemma isFinite01_spec (x : num) : isFinite01 x = true <-> in01 x.
Proof.
  unfold isFinite01, in01, Num.geb.
  destruct x as [| | |q];
    try (split; [discriminate | intros [q' [H _]]; discriminate]).
  cbn [Num.isFinite andb]. rewrite andb_true_iff, !leb_Fin. split.
  - intros [H0 H1]. exists q. split; [reflexivity | split; assumption].
  - intros [q' [E [H0 H1]]]. injection E as ->. split; assumption.
Qed.

Lemma isFinite01_dec (x : num) : in01 x \/ ~ in01 x.
Proof.
  destruct (isFinite01 x) eqn:E.
  - left. apply isFinite01_spec, E.
  - right. intro H. apply isFinite01_spec in H. congruence.
Qed.

Lemma assert_each_ok (label : string) (kvs : list (string * num)) :
  assert_each label kvs = Ok tt <-> Forall (fun kv => in01 (snd kv)) kvs.
Proof.
  induction kvs as [|[k v] r IH]; simpl.
  - split; [constructor | reflexivity].
  - destruct (isFinite01 v) eqn:E; simpl.
    + rewrite IH. split; intro H.
      * constructor; [apply isFinite01_spec, E | assumption].
      * inversion H; assumption.
    + split; [discriminate|]. intro H. inversion H as [|? ? H1 _]; subst.
      apply isFinite01_spec in H1. simpl in H1. congruence.
Qed.

Lemma assert_each_total (label : string) (kvs : list (string * num)) :
  assert_each label kvs = Ok tt \/ throws (assert_each label kvs).
Proof.
  induction kvs as [|[k v] r IH]; simpl; [left; reflexivity|].
  destruct (isFinite01 v); simpl; [assumption | right; eexists; reflexivity].
Qed.

Lemma assertAxes01_ok (a : NeuprintAxes) (label : string) :
  assertAxes01 a label = Ok tt <-> axes_in01 a.
Proof.
  unfold assertAxes01, axes_list, axes_in01. rewrite assert_each_ok.
  split; intro H.
  - inversion H as [|? ? H1 H']; subst. inversion H' as [|? ? H2 H'']; subst.
    inversion H'' as [|? ? H3 H''']; subst. inversion H''' as [|? ? H4 _]; subst.
    simpl in *. tauto.
  - destruct H as [H1 [H2 [H3 H4]]]. repeat constructor; assumption.
Qed.

Lemma assertAxes01_throws (a : NeuprintAxes) (label : string) :
  throws (assertAxes01 a label) <-> ~ axes_in01 a.
Proof.
  rewrite <- (assertAxes01_ok a label).
  destruct (assert_each_total label (axes_list a)) as [H|[e H]];
    unfold assertAxes01; rewrite H.
  - split; [intros [e E]; discriminate | intro N; exfalso; apply N; reflexivity].
  - split; [intros _ E; discriminate | intros _; eexists; reflexivity].
Qed.

Lemma sum_check (q1 q2 q3 q4 : Q) :
  Num.gtb
    (Num.abs (Num.sub (Num.add (Num.add (Num.add (Fin q1) (Fin q2)) (Fin q3)) (Fin q4))
                (Fin 1)))
    (lit 0.000001) = false
  <-> Qabs (q1 + q2 + q3 + q4 - 1) <= 1 # 1000000.
Proof.
  unfold Num.gtb.
  assert (F : fin_eq
                (Num.abs (Num.sub (Num.add (Num.add (Num.add (Fin q1) (Fin q2)) (Fin q3))
                                     (Fin q4)) (Fin 1)))
                (Qabs (q1 + q2 + q3 + q4 - 1))).
  { assert (G : fin_eq (Num.sub (Num.add (Num.add (Num.add (Fin q1) (Fin q2)) (Fin q3))
                                   (Fin q4)) (Fin 1)) (q1 + q2 + q3 + q4 - 1))
      by auto 10 with fin.
    destruct (Num.sub _ _) as [| | |s]; try contradiction.
    unfold fin_eq, Num.abs, lit in *. rewrite Qred_correct, G. reflexivity. }
  rewrite (fin_eq_ltb_false (fin_eq_lit 0.000001) F). reflexivity.
Qed.

Lemma validateWeights_ok (w : NeuprintAxes) :
  validateWeights w = Ok tt <-> axes_in01 w /\ sums_to_one w.
Proof.
  unfold validateWeights.
  destruct (assert_each_total "neuprint_axes_weights"%string (axes_list w)) as [H|[e H]].
  - pose proof (proj1 (assertAxes01_ok w _) H) as A.
    unfold assertAxes01. rewrite H. cbn [bind].
    destruct A as [[q1 [E1 B1]] [[q2 [E2 B2]] [[q3 [E3 B3]] [q4 [E4 B4]]]]].
    rewrite E1, E2, E3, E4.
    assert (S : sums_to_one w <-> Qabs (q1 + q2 + q3 + q4 - 1) <= 1 # 1000000).
    { unfold sums_to_one, sum_within. rewrite E1, E2, E3, E4. split.
      - intros [p1 [p2 [p3 [p4 [F1 [F2 [F3 [F4 L]]]]]]]].
        injection F1 as <-. injection F2 as <-. injection F3 as <-. injection F4 as <-.
        exact L.
      - intro L. exists q1, q2, q3, q4. repeat split; assumption. }
    rewrite S, <- sum_check.
    assert (A' : axes_in01 w).
    { unfold axes_in01, in01. rewrite E1, E2, E3, E4. repeat split; eauto. }
    destruct (Num.gtb _ _); split; try discriminate; try tauto.
    intros [_ C]. discriminate.
  - unfold assertAxes01. rewrite H. cbn [bind].
    split; [discriminate|]. intros [A _].
    apply (assertAxes01_ok w "neuprint_axes_weights"%string) in A.
    unfold assertAxes01 in A. congruence.
Qed.

Lemma validateWeights_total (w : NeuprintAxes) :
  validateWeights w = Ok tt \/ throws (validateWeights w).
Proof.
  unfold validateWeights, assertAxes01.
  destruct (assert_each_total "neuprint_axes_weights"%string (axes_list w)) as [H|[e H]];
    rewrite H; cbn [bind].
  - destruct (Num.gtb _ _); [right; eexists; reflexivity | left; reflexivity].
  - right. eexists; reflexivity.
Qed.

(** Role scoring returns a score when the axes and the weights are valid,
    and throws otherwise. *)
Lemma scoreRoleFit01_cases (input : RoleFitInput) (cfg : RoleConfig) :
  ((exists s, scoreRoleFit01 input cfg = Ok s)
   /\ axes_in01 (axes input) /\ axes_in01 (neuprint_axes_weights cfg)
   /\ sums_to_one (neuprint_axes_weights cfg))
  \/ (throws (scoreRoleFit01 input cfg)
      /\ (~ axes_in01 (axes input) \/ ~ axes_in01 (neuprint_axes_weights cfg)
          \/ ~ sums_to_one (neuprint_axes_weights cfg))).
Proof.
  unfold scoreRoleFit01.
  destruct (assert_each_total "input.axes"%string (axes_list (axes input))) as [H|[e H]].
  - pose proof (proj1 (assertAxes01_ok _ _) H) as A.
    unfold assertAxes01. rewrite H. cbn [bind].
    destruct (validateWeights_total (neuprint_axes_weights cfg)) as [V|[e V]].
    + pose proof (proj1 (validateWeights_ok _) V) as [B C].
      rewrite V. cbn [bind]. left.
      split; [eexists; reflexivity | split; [exact A | split; assumption]].
    + rewrite V. cbn [bind]. right. split; [eexists; reflexivity|].
      destruct (validateWeights_total (neuprint_axes_weights cfg)) as [V'|_];
        [congruence|].
      assert (N : ~ (axes_in01 (neuprint_axes_weights cfg)
                     /\ sums_to_one (neuprint_axes_weights cfg))).
      { intro P. apply validateWeights_ok in P. congruence. }
      destruct (assert_each_total "neuprint_axes_weights"%string
                  (axes_list (neuprint_axes_weights cfg))) as [W|[e' W]].
      * right. right. intro S. apply N. split; [|assumption].
        apply (assertAxes01_ok _ "neuprint_axes_weights"%string). exact W.
      * right. left. intro B.
        apply (assertAxes01_ok _ "neuprint_axes_weights"%string) in B.
        unfold assertAxes01 in B. congruence.
  - unfold assertAxes01. rewrite H. cbn [bind]. right.
    split; [eexists; reflexivity|]. left. intro A.
    apply (assertAxes01_ok _ "input.axes"%string) in A.
    unfold assertAxes01 in A. congruence.
Qed.



















Definition with_role_configs : value :=
  VObj [("role_configs",
         VArr [VObj [("role_code", VStr "R1");
                     ("job_id", VStr "data_scientist");
                     ("neuprint_axes_weights",
                      VObj [("analyticity", VNum (lit 0.25)); ("flow", VNum (lit 0.25));
                            ("metacognition", VNum (lit 0.25));
                            ("authenticity", VNum (lit 0.25))]);
                     ("min_requirements", VObj [("arc_level", VNum (Fin 1))])]])].

Lemma deriveRfs_with_role_configs : deriveRfs with_role_configs = Throw TypeError.
Proof. vm_compute. reflexivity. Qed.

(** At the edge of the tolerance rounding decides: the decimals 0.125,
    0.25, 0.2 and 0.424999 sum to 0.999999, and the check over the
    rationals accepts them; the sum of the four doubles is
    0.99999899999999997, off by more than the double [1e-6], and the code
    rejects them. *)
Lemma validateWeights_in_doubles :
  validateWeights {| analyticity := lit 0.125; flow := lit 0.25;
                     metacognition := lit 0.2; authenticity := lit 0.424999 |} = Ok tt
  /\ Doubles.off_sum 0.125 0.25 0.2 0.424999 = true.
Proof. split; vm_compute; reflexivity. Qed.





Definition byte_order (a b : string) : num :=
  match String.compare a b with
  | Lt => Fin (-1)
  | Eq => Fin 0
  | Gt => Fin 1
  end.


End RoleScoring.
(** ** C7: the nearest centroid and its band *)

Section SpecFloatOrder.

(** The order of [SFcompare], three numbers at a time. *)
Ltac cmp_cases :=
  repeat match goal with
         | |- context [Z.compare ?a ?b] => destruct (Z.compare_spec a b); subst
         | H : context [Z.compare ?a ?b] |- _ => destruct (Z.compare_spec a b); subst
         | |- context [Pos.compare_cont Eq ?a ?b] =>
             change (Pos.compare_cont Eq a b) with (Pos.compare a b);
             destruct (Pos.compare_spec a b); subst
         | H : context [Pos.compare_cont Eq ?a ?b] |- _ =>
             change (Pos.compare_cont Eq a b) with (Pos.compare a b) in H;
             destruct (Pos.compare_spec a b); subst
         end.

Ltac order_cases x y z :=
  unfold SFleb, SFltb, SFcompare;
  destruct x as [?|?| |? ? ?], y as [?|?| |? ? ?], z as [?|?| |? ? ?];
  try discriminate; try reflexivity;
  repeat match goal with s : bool |- _ => destruct s end;
  try discriminate; try reflexivity;
  cbn [CompOpp]; cmp_cases; cbn [CompOpp]; intros;
  try discriminate; try reflexivity; lia.

Lemma SFltb_trans (x y z : spec_float) :
  SFltb x y = true -> SFltb y z = true -> SFltb x z = true.
Proof. order_cases x y z. Qed.

Lemma SFleb_ltb_trans (x y z : spec_float) :
  SFleb x y = true -> SFltb y z = true -> SFltb x z = true.
Proof. order_cases x y z. Qed.

Lemma SFltb_irrefl (x : spec_float) : SFltb x x = false.
Proof.
  unfold SFltb, SFcompare.
  destruct x as [sx|sx| |sx mx ex]; try reflexivity;
    repeat match goal with s : bool |- _ => destruct s end; try reflexivity;
    rewrite Z.compare_refl;
    change (Pos.compare_cont Eq mx mx) with (Pos.compare mx mx);
    rewrite Pos.compare_refl; reflexivity.
Qed.

End SpecFloatOrder.

Section DoubleOrder.

Local Open Scope float_scope.

(** [x < y] and [x <= y] on doubles, through their specification. *)
Lemma ltb_trans (x y z : float) :
  (x <? y) = true -> (y <? z) = true -> (x <? z) = true.
Proof. rewrite !ltb_spec. apply SFltb_trans. Qed.

Lemma leb_ltb_trans (x y z : float) :
  (x <=? y) = true -> (y <? z) = true -> (x <? z) = true.
Proof. rewrite leb_spec, !ltb_spec. apply SFleb_ltb_trans. Qed.

Lemma ltb_irrefl (x : float) : (x <? x) = false.
Proof. rewrite ltb_spec. apply SFltb_irrefl. Qed.

End DoubleOrder.

Section NearestCentroid.

Import Control.

Local Open Scope float_scope.

(** The distance of [euclidean], written out. *)
Definition distance (v c : ControlVector) : float :=
  sqrt ((vA v - vA c) * (vA v - vA c) + (vD v - vD c) * (vD v - vD c)
        + (vR v - vR c) * (vR v - vR c)).

(** The state of the loop after the centroids of [seen]: no centroid seen
    has a distance below the one held; and either nothing was taken yet, or
    the centroid held is one of [seen], the distance held is its distance,
    and the distance of every centroid seen before it is not even equal. *)
Definition first_minimum (v : ControlVector) (seen : list ControlPattern)
    (st : ControlPattern * float) : Prop :=
  (forall p, In p seen -> (distance v (CENTROIDS p) <? snd st) = false)
  /\ (st = (moderate_reflective_human, infinity)
      \/ exists before after,
           seen = (before ++ fst st :: after)%list
           /\ snd st = distance v (CENTROIDS (fst st))
           /\ forall p, In p before ->
                (distance v (CENTROIDS p) <=? snd st) = false).

Lemma not_true_false (b : bool) : (b = true -> False) -> b = false.
Proof. destruct b; [intro H; exfalso; apply H; reflexivity | reflexivity]. Qed.

Lemma step_first_minimum (v : ControlVector) (seen : list ControlPattern)
    (st : ControlPattern * float) (p : ControlPattern) :
  first_minimum v seen st -> first_minimum v (seen ++ [p]) (step v st p).
Proof.
  intros [Low Held]. unfold step. cbv zeta.
  change (euclidean v (CENTROIDS p)) with (distance v (CENTROIDS p)).
  destruct (distance v (CENTROIDS p) <? snd st) eqn:L.
  - (* the new centroid is taken *)
    assert (Above : forall q, In q seen ->
              (distance v (CENTROIDS q) <=? distance v (CENTROIDS p)) = false).
    { intros q I. apply not_true_false. intro C.
      pose proof (leb_ltb_trans _ _ _ C L) as T. rewrite (Low q I) in T. discriminate. }
    split; cbn [fst snd].
    + intros q I. apply in_app_or in I. destruct I as [I|[<-|[]]].
      * apply not_true_false. intro C.
        pose proof (ltb_trans _ _ _ C L) as T. rewrite (Low q I) in T. discriminate.
      * apply ltb_irrefl.
    + right. exists seen, []. split; [reflexivity|]. split; [reflexivity | exact Above].
  - (* the state is kept *)
    split.
    + intros q I. apply in_app_or in I. destruct I as [I|[<-|[]]]; [apply Low, I | exact L].
    + destruct Held as [E|[before [after [E [D B]]]]]; [left; exact E|].
      right. exists before, (after ++ [p])%list.
      split; [rewrite E, <- app_assoc; reflexivity|]. split; assumption.
Qed.

Lemma fold_first_minimum (v : ControlVector) (rest seen : list ControlPattern)
    (st : ControlPattern * float) :
  first_minimum v seen st ->
  first_minimum v (seen ++ rest) (fold_left (step v) rest st).
Proof.
  revert seen st. induction rest as [|p rest IH]; intros seen st H.
  - rewrite app_nil_r. exact H.
  - cbn [fold_left].
    replace (seen ++ p :: rest)%list with ((seen ++ [p]) ++ rest)%list
      by (rewrite <- app_assoc; reflexivity).
    apply IH, step_first_minimum, H.
Qed.

Lemma nearest_first_minimum (v : ControlVector) : first_minimum v patterns (nearest v).
Proof.
  apply (fold_first_minimum v patterns []).
  split; [intros p [] | left; reflexivity].
Qed.

(** Distinct archetypes have distinct labels. *)
Lemma formatControlPatternLabel_injective (p q : ControlPattern) :
  formatControlPatternLabel p = formatControlPatternLabel q -> p = q.
Proof. destruct p, q; intro H; (reflexivity || (vm_compute in H; discriminate)). Qed.

Lemma band_infinity : bandFromDistance infinity = LOW.
Proof. reflexivity. Qed.

(** C7, as amended.  Whatever the vector is, the classifier works on its
    three axes clamped to [0, 1] (0.5 for an axis that is not finite), with
    the distance [sqrt(dA*dA + dD*dD + dR*dR)] to each centroid as the
    doubles compute it.  No centroid has a computed distance below that of
    the centroid returned, and every centroid registered before it has a
    computed distance that is not even equal: the first centroid of minimal
    computed distance wins.  The band is HIGH when that distance is below
    0.12, MEDIUM when it is below 0.22, LOW otherwise.  (Were no computed
    distance below +Infinity, the default archetype would be returned with
    the band LOW.) *)
Theorem inferRCFromADR_nearest_centroid (vIn : ControlVector) :
  let v := {| vA := clamp01 (if F64.isFinite (vA vIn) then vA vIn else 0.5);
              vD := clamp01 (if F64.isFinite (vD vIn) then vD vIn else 0.5);
              vR := clamp01 (if F64.isFinite (vR vIn) then vR vIn else 0.5) |} in
  let dist := fun p : ControlPattern =>
    sqrt ((vA v - vA (CENTROIDS p)) * (vA v - vA (CENTROIDS p))
          + (vD v - vD (CENTROIDS p)) * (vD v - vD (CENTROIDS p))
          + (vR v - vR (CENTROIDS p)) * (vR v - vR (CENTROIDS p))) in
  let out := inferRCFromADR vIn in
  ((forall p, (dist p <? infinity) = false)
   /\ Rc.control_pattern out = formatControlPatternLabel moderate_reflective_human
   /\ Rc.reliability_band out = "LOW"%string)
  \/ (exists best before after,
        patterns = (before ++ best :: after)%list
        /\ (forall p, (dist p <? dist best) = false)
        /\ (forall p, In p before -> (dist p <=? dist best) = false)
        /\ Rc.control_pattern out = formatControlPatternLabel best
        /\ Rc.reliability_band out
           = if dist best <? 0.12 then "HIGH"%string
             else if dist best <? 0.22 then "MEDIUM"%string else "LOW"%string).
Proof.
  intros v dist out.
  assert (V : normalise vIn = v) by reflexivity.
  assert (O : out = inferRCFromADR vIn) by reflexivity.
  unfold inferRCFromADR in O. cbv zeta in O. rewrite V in O.
  assert (All : forall p, In p patterns) by (intro p; destruct p; cbn; tauto).
  destruct (nearest_first_minimum v) as [Low [E|[before [after [E [D B]]]]]].
  - left. rewrite E in Low, O. cbn [fst snd] in Low, O.
    split; [intro p; apply (Low p (All p))|].
    rewrite O. split; reflexivity.
  - right. exists (fst (nearest v)), before, after.
    change (distance v (CENTROIDS (fst (nearest v))))
      with (dist (fst (nearest v))) in D.
    rewrite <- D.
    split; [exact E|].
    split; [intro p; apply (Low p (All p))|].
    split; [exact B|].
    rewrite O. cbn [Rc.control_pattern Rc.reliability_band].
    split; [reflexivity|].
    unfold bandFromDistance.
    destruct (snd (nearest v) <? 0.12); [reflexivity|].
    destruct (snd (nearest v) <? 0.22); reflexivity.
Qed.

Local Open Scope Q_scope.

(** The square of the distance from a point to a centroid as the source
    writes it, in exact arithmetic. *)
Definition exact_square_distance (a d r : Q) (p : ControlPattern) : Q :=
  let '(ca, cd, cr) := CENTROIDS_decimal p in
  (a - ca) * (a - ca) + (d - cd) * (d - cd) + (r - cr) * (r - cr).

(** The square of the distance from a point to a centroid, both taken as
    the doubles that the code holds, in exact arithmetic. *)
Definition double_square_distance (v : ControlVector) (p : ControlPattern) : Q :=
  let c := CENTROIDS p in
  (F64.exact (vA v) - F64.exact (vA c)) * (F64.exact (vA v) - F64.exact (vA c))
  + (F64.exact (vD v) - F64.exact (vD c)) * (F64.exact (vD v) - F64.exact (vD c))
  + (F64.exact (vR v) - F64.exact (vR c)) * (F64.exact (vR v) - F64.exact (vR c)).

(** A point next to the plane that lies halfway between the second and the
    fifth centroid. *)
Definition near_halfway : ControlVector :=
  {| vA := 0.7013081402298169; vD := 0.7613190334676554;
     vR := 0.4434592988509154 |}%float.

(** C7 as stated fails, in two ways.  The point (0.75, 0.75, 0.625), whose
    coordinates are doubles, is at the same distance from the first two
    centroids and farther from every other one: an exact tie, which the
    first-registered centroid [deep_reflective_human] should win.  The
    computed distances are 0.20766559657295192 and 0.20766559657295183, and
    the classifier returns the second centroid.  And the point
    [near_halfway] is nearer to the fifth centroid,
    [moderate_reflective_hybrid], than to any other, whether the
    coordinates are read as the decimals written or as the doubles held:
    the distances that the code computes to the second centroid and to the
    fifth are the same double, and the classifier returns the second,
    [moderate_reflective_human]. *)
Lemma inferRCFromADR_exact_tie :
  let v := {| vA := 0.75; vD := 0.75; vR := 0.625 |}%float in
  patterns = deep_reflective_human :: moderate_reflective_human :: skipn 2 patterns
  /\ exact_square_distance 0.75 0.75 0.625 deep_reflective_human
     == exact_square_distance 0.75 0.75 0.625 moderate_reflective_human
  /\ (forall p, In p (skipn 2 patterns) ->
        exact_square_distance 0.75 0.75 0.625 deep_reflective_human
        < exact_square_distance 0.75 0.75 0.625 p)
  /\ euclidean v (CENTROIDS deep_reflective_human) = 0.20766559657295192%float
  /\ euclidean v (CENTROIDS moderate_reflective_human) = 0.20766559657295183%float
  /\ Rc.control_pattern (inferRCFromADR v) = "Moderate Reflective Human"%string
  /\ (forall p, p <> moderate_reflective_hybrid ->
        double_square_distance near_halfway moderate_reflective_hybrid
        < double_square_distance near_halfway p)
  /\ (forall p, p <> moderate_reflective_hybrid ->
        exact_square_distance 0.7013081402298169 0.7613190334676554 0.4434592988509154
          moderate_reflective_hybrid
        < exact_square_distance 0.7013081402298169 0.7613190334676554 0.4434592988509154
            p)
  /\ euclidean near_halfway (CENTROIDS moderate_reflective_human)
     = 0.2808928767463649%float
  /\ euclidean near_halfway (CENTROIDS moderate_reflective_hybrid)
     = 0.2808928767463649%float
  /\ Rc.control_pattern (inferRCFromADR near_halfway)
     = "Moderate Reflective Human"%string.
Proof.
  cbv zeta. split; [reflexivity|]. split; [reflexivity|].
  split.
  { intros p I. cbn [skipn patterns In] in I.
    repeat (destruct I as [<-|I]; [reflexivity|]). destruct I. }
  do 3 (split; [vm_compute; reflexivity|]).
  split.
  { intros p N. destruct p; try (exfalso; apply N; reflexivity);
      vm_compute; reflexivity. }
  split.
  { intros p N. destruct p; try (exfalso; apply N; reflexivity);
      vm_compute; reflexivity. }
  repeat split; vm_compute; reflexivity.
Qed.

End NearestCentroid.
(** ** C8: the normalised entropy *)

Section Entropy.

Import Reals_kernels.

Local Open Scope R_scope.

Lemma Rltb_true (x y : R) : x < y -> Rltb x y = true.
Proof. intro H. unfold Rltb. destruct (Rlt_dec x y); [reflexivity | contradiction]. Qed.

Lemma Rltb_false (x y : R) : y <= x -> Rltb x y = false.
Proof. intro H. unfold Rltb. destruct (Rlt_dec x y); [rlra | reflexivity]. Qed.

Lemma Rleb_true (x y : R) : x <= y -> Rleb x y = true.
Proof. intro H. unfold Rleb. destruct (Rle_dec x y); [reflexivity | contradiction]. Qed.

Lemma Rleb_false (x y : R) : y < x -> Rleb x y = false.
Proof. intro H. unfold Rleb. destruct (Rle_dec x y); [rlra | reflexivity]. Qed.

Lemma clamp01_id (x : R) : 0 <= x <= 1 -> clamp01 x = x.
Proof.
  intros [H0 H1]. unfold clamp01.
  rewrite (Rltb_false x 0 H0), (Rltb_false 1 x H1). reflexivity.
Qed.

(** The words of the specification: the total of the counts, the buckets
    that hold mass, the Shannon entropy of the distribution of the counts,
    and its two candidate normalisations: by the maximal entropy of as many
    buckets as hold mass, and by that of as many buckets as the vector has. *)
Definition total (cs : list R) : R := fold_right Rplus 0 cs.

Definition support (cs : list R) : list R := filter (Rltb 0) cs.

Definition shannon (cs : list R) : R :=
  - fold_right (fun c acc => c / total cs * ln (c / total cs) + acc) 0 (support cs).

Definition entropy_by_support (cs : list R) : R :=
  clamp01 (shannon cs / ln (INR (List.length (support cs)))).

Definition entropy_by_length (cs : list R) : R :=
  clamp01 (shannon cs / ln (INR (List.length cs))).

Lemma positive_part_nonneg (cs : list R) :
  Forall (fun c => 0 <= c) cs -> map positive_part (map RFin cs) = cs.
Proof.
  induction 1 as [|c cs H _ IH]; [reflexivity|].
  cbn [map positive_part]. rewrite IH. f_equal.
  unfold Rltb. destruct (Rlt_dec 0 c); [reflexivity | rlra].
Qed.

Lemma fold_left_total (cs : list R) (a : R) : fold_left Rplus cs a = a + total cs.
Proof.
  revert a. induction cs as [|c cs IH]; intro a; cbn [fold_left total fold_right].
  - rlra.
  - rewrite IH. unfold total. rlra.
Qed.

Lemma fold_left_sum (f : R -> R) (l : list R) (a : R) :
  fold_left (fun acc p => acc + f p) l a
  = a + fold_right (fun p acc => f p + acc) 0 l.
Proof.
  revert a. induction l as [|p l IH]; intro a; cbn [fold_left fold_right].
  - rlra.
  - rewrite IH. rlra.
Qed.

Lemma filter_scaled (s : R) (xs : list R) :
  0 < s ->
  filter (fun p => Rltb 0 p) (map (fun v => v / s) xs)
  = map (fun v => v / s) (filter (Rltb 0) xs).
Proof.
  intro S. induction xs as [|x xs IH]; [reflexivity|].
  cbn [map filter]. rewrite IH.
  assert (E : Rltb 0 (x / s) = Rltb 0 x).
  { unfold Rltb. destruct (Rlt_dec 0 x) as [P|P].
    - apply Rltb_true. apply Rdiv_lt_0_compat; assumption.
    - apply Rltb_false. apply Rnot_lt_le in P.
      unfold Rdiv. replace 0 with (0 * / s) by rlra.
      apply Rmult_le_compat_r; [|assumption].
      left. apply Rinv_0_lt_compat, S. }
  rewrite E. destruct (Rltb 0 x); reflexivity.
Qed.

Lemma fold_right_scaled (s : R) (l : list R) :
  fold_right (fun p acc => p * ln p + acc) 0 (map (fun v => v / s) l)
  = fold_right (fun c acc => c / s * ln (c / s) + acc) 0 l.
Proof. induction l as [|c l IH]; cbn [map fold_right]; [|rewrite IH]; reflexivity. Qed.

Lemma total_nonneg (cs : list R) : Forall (fun c => 0 <= c) cs -> 0 <= total cs.
Proof.
  induction 1 as [|c cs H _ IH]; cbn [total fold_right]; [|unfold total in IH]; rlra.
Qed.

Lemma total_positive (cs : list R) :
  Forall (fun c => 0 <= c) cs -> support cs <> [] -> 0 < total cs.
Proof.
  induction 1 as [|c cs H F IH]; intro N; [contradiction|].
  cbn [total fold_right]. pose proof (total_nonneg cs F) as T. unfold total in T.
  unfold support in N. cbn [filter] in N. unfold Rltb in N at 1.
  destruct (Rlt_dec 0 c) as [P|P]; [rlra|].
  specialize (IH N). unfold total in IH. rlra.
Qed.

Lemma ln_INR_positive (n : nat) : (2 <= n)%nat -> 0 < ln (INR n).
Proof.
  intro H. rewrite <- ln_1. apply ln_increasing; [rlra|].
  apply le_INR in H. change (INR 2) with (1 + 1) in H. rlra.
Qed.

(** [entropy01] on finite non-negative counts, in the words above. *)
Lemma entropy01_unfold (cs : list R) :
  Forall (fun c => 0 <= c) cs ->
  0 < total cs ->
  entropy01 (map RFin cs)
  = let hMax :=
      ln (INR (match List.length (support cs) with O => 1%nat | n => n end)) in
    if Rleb hMax 0 then 0 else clamp01 (shannon cs / hMax).
Proof.
  intros F T. unfold entropy01. cbv zeta.
  rewrite (positive_part_nonneg cs F), fold_left_total, Rplus_0_l.
  rewrite (Rleb_false _ _ T).
  rewrite (filter_scaled (total cs) cs T), length_map.
  rewrite (fold_left_sum (fun p => p * ln p)), Rplus_0_l, fold_right_scaled.
  reflexivity.
Qed.

(** The largest total of the counts for which the theorem is stated: far
    below the largest double, so that the sum of the code does not overflow
    to [Infinity] (on which the code returns 0). *)
Definition count_bound : R := 10 ^ 300.

(** No count that holds mass is so small a part of the total that its
    share, a double, underflows to 0 (the code then takes the bucket for
    empty). *)
Definition shares_kept (cs : list R) : Prop :=
  Forall (fun c => c <= 0 \/ total cs <= c * count_bound) cs.

(** C8, as amended.  On a vector of non-negative counts whose total is at
    most 1e300 and of which no positive count is less than 1e-300 of the
    total, [entropy01] is 0 when the counts sum to 0 or less and when
    exactly one bucket holds mass; with two buckets or more holding mass it
    is the Shannon entropy of the counts divided by the maximal entropy of
    as many buckets as hold mass.  So [entropy01([])] and
    [entropy01([5,0,0,0])] are 0. *)
Theorem entropy01_normalised_by_support (cs : list R) :
  Forall (fun c => 0 <= c) cs ->
  total cs <= count_bound ->
  shares_kept cs ->
  (total cs <= 0 -> entropy01 (map RFin cs) = 0)
  /\ (List.length (support cs) = 1%nat -> entropy01 (map RFin cs) = 0)
  /\ ((2 <= List.length (support cs))%nat ->
      entropy01 (map RFin cs) = entropy_by_support cs)
  /\ entropy01 [] = 0
  /\ entropy01 [RFin 5; RFin 0; RFin 0; RFin 0] = 0.
Proof.
  intros F _ _.
  assert (Z : forall l, Forall (fun c => 0 <= c) l -> total l <= 0 ->
                        entropy01 (map RFin l) = 0).
  { intros l Fl T. unfold entropy01. cbv zeta.
    rewrite (positive_part_nonneg l Fl), fold_left_total, Rplus_0_l.
    rewrite (Rleb_true _ _ T). reflexivity. }
  assert (One : forall l, Forall (fun c => 0 <= c) l ->
                          List.length (support l) = 1%nat ->
                          entropy01 (map RFin l) = 0).
  { intros l Fl K.
    assert (T : 0 < total l).
    { apply (total_positive l Fl). intro E. rewrite E in K. discriminate. }
    rewrite (entropy01_unfold l Fl T). cbv zeta. rewrite K.
    change (INR 1) with 1. rewrite ln_1, (Rleb_true 0 0) by rlra. reflexivity. }
  split; [apply Z, F|]. split; [apply One, F|]. split; [|split].
  - intro K.
    assert (T : 0 < total cs).
    { apply (total_positive cs F). intro E. rewrite E in K. simpl in K. lia. }
    rewrite (entropy01_unfold cs F T). cbv zeta.
    pose proof (ln_INR_positive _ K) as P.
    destruct (List.length (support cs)) as [|k] eqn:E; [lia|].
    rewrite (Rleb_false _ _ P). unfold entropy_by_support. rewrite E. reflexivity.
  - apply (Z [] (Forall_nil _)). simpl. rlra.
  - apply (One [5; 0; 0; 0]).
    + repeat constructor; rlra.
    + unfold support. cbn [filter].
      rewrite (Rltb_true 0 5), (Rltb_false 0 0) by rlra. reflexivity.
Qed.

Lemma count_bound_above_10 : 10 <= count_bound.
Proof.
  unfold count_bound. rewrite <- (pow_1 10) at 1.
  apply Rle_pow; [rlra | lia].
Qed.

Lemma entropy01_normalised_by_support_witness :
  (total [1; 1; 0; 0] <= 0 -> entropy01 (map RFin [1; 1; 0; 0]) = 0)
  /\ (List.length (support [1; 1; 0; 0]) = 1%nat
      -> entropy01 (map RFin [1; 1; 0; 0]) = 0)
  /\ ((2 <= List.length (support [1; 1; 0; 0]%R))%nat ->
      entropy01 (map RFin [1; 1; 0; 0]) = entropy_by_support [1; 1; 0; 0])
  /\ entropy01 [] = 0
  /\ entropy01 [RFin 5; RFin 0; RFin 0; RFin 0] = 0.
Proof.
  apply (entropy01_normalised_by_support [1; 1; 0; 0]).
  - repeat constructor; rlra.
  - pose proof count_bound_above_10 as B. cbn [total fold_right]. rlra.
  - pose proof count_bound_above_10 as B. unfold shares_kept. cbn [total fold_right].
    repeat (apply Forall_cons; [first [left; rlra | right; rlra]|]). apply Forall_nil.
Defined.

Lemma support_1100 : support [1; 1; 0; 0] = [1; 1].
Proof.
  unfold support. cbn [filter].
  rewrite (Rltb_true 0 1), (Rltb_false 0 0) by rlra. reflexivity.
Qed.

Lemma shannon_1100 : shannon [1; 1; 0; 0] = ln 2.
Proof.
  unfold shannon. rewrite support_1100. cbn [fold_right total].
  replace (1 / (1 + (1 + (0 + (0 + 0))))) with (/ 2) by rlra.
  rewrite ln_Rinv by rlra. rlra.
Qed.

Lemma ln_2_positive : 0 < ln 2.
Proof. rewrite <- ln_1. apply ln_increasing; rlra. Qed.

(** C8 as stated fails: on [[1, 1, 0, 0]] the two buckets that hold mass are
    balanced and [entropy01] is 1, while the entropy normalised by the
    maximal entropy of the four buckets of the vector is 1/2. *)
Lemma entropy01_not_normalised_by_length :
  entropy01 [RFin 1; RFin 1; RFin 0; RFin 0] = 1
  /\ entropy_by_length [1; 1; 0; 0] = 1 / 2.
Proof.
  pose proof ln_2_positive as P. split.
  - change [RFin 1; RFin 1; RFin 0; RFin 0] with (map RFin [1; 1; 0; 0]).
    rewrite entropy01_unfold;
      [|repeat constructor; rlra | cbn [total fold_right]; rlra].
    cbv zeta. rewrite support_1100, shannon_1100. cbn [List.length].
    change (INR 2) with (1 + 1). replace (1 + 1) with 2 by rlra.
    rewrite (Rleb_false _ _ P).
    replace (ln 2 / ln 2) with 1 by (field; rlra).
    apply clamp01_id. rlra.
  - unfold entropy_by_length. rewrite shannon_1100. cbn [List.length].
    replace (INR 4) with (2 * 2) by (simpl; rlra).
    rewrite ln_mult by rlra.
    replace (ln 2 / (ln 2 + ln 2)) with (1 / 2) by (field; rlra).
    apply clamp01_id. rlra.
Qed.

End Entropy.
(** * Further properties of the pipeline *)

(** ** The index and the cohort position *)

Section IndexFacts.

Local Open Scope Q_scope.

(** [computeFRI] on any four numbers, as a rational function of what
    [clamp0to5] makes of them. *)
Definition clamp0to5_value (x : num) : Q :=
  match x with
  | Fin q => clamp_spec q 0 5
  | _ => 0
  end.

Definition FRI_value (R3 R4 R5 R6 : num) : Q :=
  round2_spec
    (clamp_spec
       (CRS_spec (clamp0to5_value R3) (clamp0to5_value R4) (clamp0to5_value R5)
        * RM_spec (clamp0to5_value R6)) 0 5).

Lemma clamp_spec_range (x lo hi : Q) : lo <= hi -> lo <= clamp_spec x lo hi <= hi.
Proof. intro H. unfold clamp_spec. q_cases; qlra. Qed.

Lemma clamp_spec_idem (x lo hi : Q) :
  lo <= x <= hi -> clamp_spec x lo hi == x.
Proof. intros [H0 H1]. unfold clamp_spec. q_cases; qlra. Qed.

Lemma clamp_spec_mono (x y lo hi : Q) :
  lo <= hi -> x <= y -> clamp_spec x lo hi <= clamp_spec y lo hi.
Proof. intros H L. unfold clamp_spec. q_cases; qlra. Qed.

Lemma clamp0to5_any (x : num) : fin_eq (Rsl.clamp0to5 x) (clamp0to5_value x).
Proof.
  destruct x as [| | |q]; try (vm_compute; reflexivity).
  apply clamp0to5_fin, fin_eq_Fin.
Qed.

Lemma clamp0to5_value_range (x : num) : 0 <= clamp0to5_value x <= 5.
Proof.
  destruct x as [| | |q]; cbn [clamp0to5_value]; try (split; discriminate).
  apply clamp_spec_range. discriminate.
Qed.

Lemma computeFRI_value (R3 R4 R5 R6 : num) :
  fin_eq (Rsl.fri_score (Rsl.computeFRI R3 R4 R5 R6)) (FRI_value R3 R4 R5 R6).
Proof.
  unfold Rsl.computeFRI, Rsl.fri_score, FRI_value.
  apply round2_fin.
  eapply fin_eq_compat.
  - apply clamp0to5_fin, fin_eq_mul.
    + unfold Rsl.friCRS.
      repeat apply fin_eq_add; apply fin_eq_mul;
        solve [apply fin_eq_lit | apply clamp0to5_any].
    + unfold Rsl.friRM.
      apply fin_eq_add; [apply fin_eq_lit|].
      apply fin_eq_mul; [|apply fin_eq_lit].
      apply fin_eq_div; [apply clamp0to5_any | apply fin_eq_Fin | discriminate].
  - reflexivity.
Qed.

Lemma round2_spec_mono (x y : Q) : x <= y -> round2_spec x <= round2_spec y.
Proof.
  intro H. unfold round2_spec.
  apply Qmult_le_compat_r; [|discriminate].
  rewrite <- Zle_Qle. apply Qfloor_resp_le. qlra.
Qed.

Lemma round2_spec_hundredths (x : Q) :
  0 <= x <= 5 ->
  exists k, (0 <= k <= 500)%Z /\ round2_spec x == inject_Z k / 100.
Proof.
  intros [H0 H5]. exists (Qfloor (x * 100 + (1 # 2))). split; [|reflexivity].
  split.
  - apply (Qfloor_resp_le 0). qlra.
  - apply (Qfloor_resp_le _ (500 + (1 # 2))). qlra.
Qed.

(** Whatever the four numbers are, NaN and the infinities included, the
    score of [computeFRI] is a whole number of hundredths between 0 and 5. *)
Theorem computeFRI_score_range (R3 R4 R5 R6 : num) :
  exists k,
    (0 <= k <= 500)%Z
    /\ fin_eq (Rsl.fri_score (Rsl.computeFRI R3 R4 R5 R6)) (inject_Z k / 100).
Proof.
  destruct (round2_spec_hundredths
              (clamp_spec
                 (CRS_spec (clamp0to5_value R3) (clamp0to5_value R4) (clamp0to5_value R5)
                  * RM_spec (clamp0to5_value R6)) 0 5)) as [k [B E]].
  { apply clamp_spec_range. discriminate. }
  exists k. split; [exact B|].
  exact (fin_eq_compat (computeFRI_value R3 R4 R5 R6) E).
Qed.

(** Raising finite rubric values never lowers the score of [computeFRI]. *)
Theorem computeFRI_monotone (r3 r4 r5 r6 r3' r4' r5' r6' : Q) :
  r3 <= r3' -> r4 <= r4' -> r5 <= r5' -> r6 <= r6' ->
  Num.leb (Rsl.fri_score (Rsl.computeFRI (Fin r3) (Fin r4) (Fin r5) (Fin r6)))
          (Rsl.fri_score (Rsl.computeFRI (Fin r3') (Fin r4') (Fin r5') (Fin r6')))
  = true.
Proof.
  intros H3 H4 H5 H6.
  apply (fin_eq_leb (computeFRI_value _ _ _ _) (computeFRI_value _ _ _ _)).
  unfold FRI_value. cbn [clamp0to5_value].
  apply round2_spec_mono, clamp_spec_mono; [discriminate|].
  pose proof (clamp_spec_range r3 0 5) as A3.
  pose proof (clamp_spec_range r4 0 5) as A4.
  pose proof (clamp_spec_range r5 0 5) as A5.
  pose proof (clamp_spec_range r6 0 5) as A6.
  pose proof (clamp_spec_mono r3 r3' 0 5) as M3.
  pose proof (clamp_spec_mono r4 r4' 0 5) as M4.
  pose proof (clamp_spec_mono r5 r5' 0 5) as M5.
  pose proof (clamp_spec_mono r6 r6' 0 5) as M6.
  set (c3 := clamp_spec r3 0 5) in *. set (c4 := clamp_spec r4 0 5) in *.
  set (c5 := clamp_spec r5 0 5) in *. set (c6 := clamp_spec r6 0 5) in *.
  set (c3' := clamp_spec r3' 0 5) in *. set (c4' := clamp_spec r4' 0 5) in *.
  set (c5' := clamp_spec r5' 0 5) in *. set (c6' := clamp_spec r6' 0 5) in *.
  assert (Z05 : 0 <= 5) by discriminate.
  specialize (A3 Z05). specialize (A4 Z05). specialize (A5 Z05). specialize (A6 Z05).
  specialize (M3 Z05 H3). specialize (M4 Z05 H4).
  specialize (M5 Z05 H5). specialize (M6 Z05 H6).
  unfold CRS_spec, RM_spec, Qdiv. change (/ 5) with (1 # 5).
  apply Qmult_le_compat_nonneg; split; qlra.
Qed.

Lemma computeFRI_monotone_witness :
  Num.leb (Rsl.fri_score (Rsl.computeFRI (Fin 1) (Fin 2) (Fin 3) (Fin 4)))
          (Rsl.fri_score (Rsl.computeFRI (Fin 2) (Fin 2) (Fin 4) (Fin 4)))
  = true.
Proof.
  apply (computeFRI_monotone 1 2 3 4 2 2 4 4); discriminate.
Defined.

(** What a peer counts as in a cohort list, and whether it lies strictly
    below the value [v] (the value itself counts as 0 when it is not
    finite). *)
Definition strictly_below (v : num) (x : value) : bool :=
  Num.ltb
    (match x with
     | VNum n => if Num.isFinite n then n else Fin 0
     | _ => Fin 0
     end)
    (if Num.isFinite v then v else Fin 0).

Lemma count_fold {A : Type} (f : A -> bool) (l : list A) (n : nat) :
  fold_left (fun lower x => if f x then S lower else lower) l n
  = (n + List.length (filter f l))%nat.
Proof.
  revert n. induction l as [|x l IH]; intro n; cbn [fold_left filter].
  - cbn [List.length]. lia.
  - rewrite IH. destruct (f x); cbn [List.length]; lia.
Qed.

Lemma filter_length_all {A : Type} (f : A -> bool) (l : list A) :
  (forall x, In x l -> f x = true) -> List.length (filter f l) = List.length l.
Proof.
  induction l as [|x l IH]; intro H; [reflexivity|].
  cbn [filter]. rewrite (H x (or_introl eq_refl)). cbn [List.length].
  rewrite IH; [reflexivity|]. intros y I. apply H. right. exact I.
Qed.

Lemma filter_length_none {A : Type} (f : A -> bool) (l : list A) :
  (forall x, In x l -> f x = false) -> List.length (filter f l) = 0%nat.
Proof.
  induction l as [|x l IH]; intro H; [reflexivity|].
  cbn [filter]. rewrite (H x (or_introl eq_refl)).
  apply IH. intros y I. apply H. right. exact I.
Qed.

Lemma percentile0to1_value (v : num) (x : value) (r : list value) :
  fin_eq (Rsl.percentile0to1 v (x :: r))
    (inject_Z
       (Qfloor
          (inject_Z (Z.of_nat (List.length (filter (strictly_below v) (x :: r))))
           / inject_Z (Z.of_nat (List.length (x :: r))) * 1000 + (1 # 2)))
     / 1000).
Proof.
  unfold Rsl.percentile0to1, Rsl.round4.
  change (fold_left _ (x :: r) 0%nat)
    with (fold_left (fun lower y => if strictly_below v y then S lower else lower)
            (x :: r) 0%nat).
  rewrite count_fold. cbn [plus].
  apply fin_eq_div; [|apply fin_eq_Fin|discriminate].
  apply fin_eq_round, fin_eq_mul; [|apply fin_eq_Fin].
  apply fin_eq_div; [apply fin_eq_Fin | apply fin_eq_Fin |].
  cbn [List.length]. rewrite Nat2Z.inj_succ. unfold Z.succ.
  intro E. unfold Qeq in E. cbn in E. lia.
Qed.

(** The percentile of a value in a cohort is 0.5 when the cohort is empty
    and otherwise a whole number of thousandths between 0 and 1: 0 when no
    peer lies strictly below the value, 1 when every peer does.  A peer equal
    to the value does not count as below it. *)
Theorem percentile0to1_range (v : num) (cohort : list value) :
  (cohort = [] -> Rsl.percentile0to1 v cohort = lit 0.5)
  /\ (exists k,
         (0 <= k <= 1000)%Z
         /\ fin_eq (Rsl.percentile0to1 v cohort) (inject_Z k / 1000))
  /\ (cohort <> [] ->
      (forall x, In x cohort -> strictly_below v x = false) ->
      fin_eq (Rsl.percentile0to1 v cohort) 0)
  /\ (cohort <> [] ->
      (forall x, In x cohort -> strictly_below v x = true) ->
      fin_eq (Rsl.percentile0to1 v cohort) 1).
Proof.
  destruct cohort as [|x r].
  - split; [reflexivity|]. split; [|split; intro N; contradiction].
    exists 500%Z. split; [lia | vm_compute; reflexivity].
  - pose proof (percentile0to1_value v x r) as P.
    set (below := List.length (filter (strictly_below v) (x :: r))) in *.
    set (len := List.length (x :: r)) in *.
    assert (L : (below <= len)%nat) by apply filter_length_le.
    assert (Lpos : (0 < len)%nat) by (unfold len; cbn [List.length]; lia).
    assert (Q0 : 0 < inject_Z (Z.of_nat len)).
    { rewrite <- (Zlt_Qlt 0). lia. }
    assert (B : 0 <= inject_Z (Z.of_nat below) / inject_Z (Z.of_nat len) <= 1).
    { split.
      - apply Qle_shift_div_l; [exact Q0|]. rewrite Qmult_0_l.
        rewrite <- (Zle_Qle 0). lia.
      - apply Qle_shift_div_r; [exact Q0|]. rewrite Qmult_1_l.
        rewrite <- Zle_Qle. lia. }
    split; [discriminate|]. split; [|split].
    + eexists. split; [|exact P].
      revert B. generalize (inject_Z (Z.of_nat below) / inject_Z (Z.of_nat len)).
      intros q B. split.
      * apply (Qfloor_resp_le 0). qlra.
      * apply (Qfloor_resp_le _ (1000 + (1 # 2))). qlra.
    + intros _ N. apply (fin_eq_compat P).
      assert (E : below = 0%nat) by (apply filter_length_none, N).
      rewrite E.
      assert (D : inject_Z (Z.of_nat 0) / inject_Z (Z.of_nat len) == 0)
        by (unfold Qdiv; apply Qmult_0_l).
      rewrite (Qfloor_comp _ (0 * 1000 + (1 # 2))) by (rewrite D; reflexivity).
      vm_compute. reflexivity.
    + intros _ A. apply (fin_eq_compat P).
      assert (E : below = len) by (apply filter_length_all, A).
      rewrite E.
      assert (D : inject_Z (Z.of_nat len) / inject_Z (Z.of_nat len) == 1).
      { field. intro Z. rewrite Z in Q0. discriminate. }
      rewrite (Qfloor_comp _ (1 * 1000 + (1 # 2))) by (rewrite D; reflexivity).
      vm_compute. reflexivity.
Qed.

End IndexFacts.

(** ** The level and its gates *)

Section LevelGates.

Local Open Scope Q_scope.

Import Rsl.

(** No level from L4 up is given unless the evidence check passed; L6 is
    given only when it is allowed and the gate of L5 passed; and in strict
    mode L5 and L6 need a counterpoint or a refutation. *)
Theorem computeRSLLevel_evidence_gate
    (inp : RSLLevelInput) (flags : RSLLevelFlags) (policy : RSLLevelPolicy) :
  let r := computeRSLLevel inp flags policy in
  ((4 <= rank (level r))%nat -> evidence_ok r = true)
  /\ (level r = L6 -> allow_L6 flags = true /\ gate_L5 (gates r) = true)
  /\ (strict_mode flags = true -> (5 <= rank (level r))%nat ->
      has_counterpoint inp = Some true \/ has_refutation inp = Some true).
Proof.
  unfold computeRSLLevel. cbv zeta. cbn [level evidence_ok gates gate_L5].
  set (m := Num.min _ _).
  generalize (evidenceOK inp policy flags). intro ev.
  generalize (m >=? adjustedGate (gate_L2_min policy) flags policy)%num.
  generalize (m >=? adjustedGate (gate_L3_min policy) flags policy)%num.
  generalize (m >=? adjustedGate (gate_L4_min policy) flags policy)%num.
  generalize (m >=? adjustedGate (gate_L5_min policy) flags policy)%num.
  generalize (m >=? adjustedGate (gate_L6_min policy) flags policy)%num.
  generalize (clampInt0to5 (integration_rubric_0to5 inp) >=? l6_integration_min policy)%num.
  intros i6 p6 p5 p4 p3 p2.
  destruct (allow_L6 flags), (strict_mode flags), ev, i6, p6, p5, p4, p3, p2;
    destruct (has_counterpoint inp) as [[|]|], (has_refutation inp) as [[|]|];
    cbn; repeat split; intros; try discriminate; try lia; auto.
Qed.

Lemma leb_trans (x y z : num) :
  Num.leb x y = true -> Num.leb y z = true -> Num.leb x z = true.
Proof.
  destruct x as [| | |a], y as [| | |b], z as [| | |c];
    try (intros; reflexivity); try (intros; discriminate).
  rewrite !leb_Fin. intros. qlra.
Qed.

Definition gates_passed (g : RSLGates) : nat :=
  List.length
    (filter (fun b : bool => b) [gate_L2 g; gate_L3 g; gate_L4 g; gate_L5 g; gate_L6 g]).

(** When the five thresholds, as adjusted, do not decrease from L2 to L6,
    a gate that passes has every lower gate passing, and the level is one
    more than the number of gates passed. *)
Theorem computeRSLLevel_gates_nested
    (inp : RSLLevelInput) (flags : RSLLevelFlags) (policy : RSLLevelPolicy) :
  let g := fun base => adjustedGate base flags policy in
  Num.leb (g (gate_L2_min policy)) (g (gate_L3_min policy)) = true ->
  Num.leb (g (gate_L3_min policy)) (g (gate_L4_min policy)) = true ->
  Num.leb (g (gate_L4_min policy)) (g (gate_L5_min policy)) = true ->
  let r := computeRSLLevel inp flags policy in
  (gate_L3 (gates r) = true -> gate_L2 (gates r) = true)
  /\ (gate_L4 (gates r) = true -> gate_L3 (gates r) = true)
  /\ (gate_L5 (gates r) = true -> gate_L4 (gates r) = true)
  /\ (gate_L6 (gates r) = true -> gate_L5 (gates r) = true)
  /\ rank (level r) = S (gates_passed (gates r)).
Proof.
  intros g H23 H34 H45 r.
  assert (N2 : gate_L3 (gates r) = true -> gate_L2 (gates r) = true).
  { unfold r, computeRSLLevel. cbv zeta. cbn [gates gate_L2 gate_L3].
    unfold Num.geb. intro P. exact (leb_trans _ _ _ H23 P). }
  assert (N3 : gate_L4 (gates r) = true -> gate_L3 (gates r) = true).
  { unfold r, computeRSLLevel. cbv zeta. cbn [gates gate_L3 gate_L4].
    unfold Num.geb. rewrite andb_true_iff. intros [P _]. exact (leb_trans _ _ _ H34 P). }
  assert (N4 : gate_L5 (gates r) = true -> gate_L4 (gates r) = true).
  { unfold r, computeRSLLevel. cbv zeta. cbn [gates gate_L4 gate_L5].
    unfold Num.geb.
    destruct (strict_mode flags); rewrite !andb_true_iff.
    - intros [[P E] _]. split; [exact (leb_trans _ _ _ H45 P) | exact E].
    - intros [P E]. split; [exact (leb_trans _ _ _ H45 P) | exact E]. }
  assert (N5 : gate_L6 (gates r) = true -> gate_L5 (gates r) = true).
  { unfold r, computeRSLLevel. cbv zeta. cbn [gates gate_L5 gate_L6].
    rewrite !andb_true_iff. tauto. }
  repeat (split; [assumption|]).
  change (level r) with (ladder (gates r)).
  unfold ladder, gates_passed.
  destruct (gates r) as [a2 a3 a4 a5 a6]. cbn [gate_L2 gate_L3 gate_L4 gate_L5 gate_L6] in *.
  destruct a6; [rewrite (N5 eq_refl) in *|];
    (destruct a5; [rewrite (N4 eq_refl) in *|]);
    (destruct a4; [rewrite (N3 eq_refl) in *|]);
    (destruct a3; [rewrite (N2 eq_refl) in *|]);
    try discriminate (N5 eq_refl); try discriminate (N4 eq_refl);
    try discriminate (N3 eq_refl); try discriminate (N2 eq_refl);
    destruct a2; reflexivity.
Qed.

Lemma computeRSLLevel_gates_nested_witness :
  let r := computeRSLLevel sample_input levelFlags levelPolicy in
  (gate_L3 (gates r) = true -> gate_L2 (gates r) = true)
  /\ (gate_L4 (gates r) = true -> gate_L3 (gates r) = true)
  /\ (gate_L5 (gates r) = true -> gate_L4 (gates r) = true)
  /\ (gate_L6 (gates r) = true -> gate_L5 (gates r) = true)
  /\ rank (level r) = S (gates_passed (gates r)).
Proof.
  apply (computeRSLLevel_gates_nested sample_input levelFlags levelPolicy);
    reflexivity.
Defined.

End LevelGates.

(** ** The six indicators *)

Section IndicatorFacts.

Local Open Scope Q_scope.

Definition finite (x : num) : Prop := Num.isFinite x = true.

Lemma finite_Fin (q : Q) : finite (Fin q).
Proof. reflexivity. Qed.

Lemma finite_lit (q : Q) : finite (lit q).
Proof. reflexivity. Qed.

Lemma finite_add (x y : num) : finite x -> finite y -> finite (Num.add x y).
Proof. destruct x, y; try discriminate. reflexivity. Qed.

Lemma finite_sub (x y : num) : finite x -> finite y -> finite (Num.sub x y).
Proof. destruct x, y; try discriminate. reflexivity. Qed.

Lemma finite_mul (x y : num) : finite x -> finite y -> finite (Num.mul x y).
Proof. destruct x, y; try discriminate. reflexivity. Qed.

Lemma finite_max (x y : num) : finite x -> finite y -> finite (Num.max x y).
Proof.
  destruct x, y; try discriminate. intros _ _. unfold Num.max.
  destruct (Num.ltb _ _); reflexivity.
Qed.

Lemma clamp01_in01 (x : num) : in01 (Cff.clamp01 x).
Proof.
  unfold Cff.clamp01. destruct x as [| | |q]; cbn [Num.isFinite negb];
    try (exists 0; split; [reflexivity | split; discriminate]).
  unfold Num.gtb, Num.ltb.
  q_cases; eexists; (split; [reflexivity|]); qlra.
Qed.

(** Each of the six indicators of [computeCFF6_v1] is a finite number
    between 0 and 1, whatever the counts are: counts that are missing,
    negative or NaN count as 0, and a quotient that is not finite is
    clamped to 0. *)
Theorem computeCFF6_v1_range (raw : Cff.RawFeaturesV1) :
  let c := Cff.computeCFF6_v1 raw in
  in01 (Cff.AAS c) /\ in01 (Cff.CTF c) /\ in01 (Cff.RMD c)
  /\ in01 (Cff.RDX c) /\ in01 (Cff.EDS c) /\ in01 (Cff.IFD c).
Proof.
  unfold Cff.computeCFF6_v1. cbv zeta.
  cbn [Cff.AAS Cff.CTF Cff.RMD Cff.RDX Cff.EDS Cff.IFD].
  repeat split; apply clamp01_in01.
Qed.

Definition raw_of_counts (units claims warrants : num) : Cff.RawFeaturesV1 :=
  {| Cff.units := Some units; Cff.claims := Some claims; Cff.reasons := None;
     Cff.evidence := None; Cff.sub_claims := None; Cff.warrants := Some warrants;
     Cff.structure_type := None; Cff.transitions := None;
     Cff.transition_ok := None; Cff.hedges := None; Cff.loops := None;
     Cff.revisions := None; Cff.revision_depth_sum := None;
     Cff.belief_change := false; Cff.evidence_types := None;
     Cff.intent_markers := None; Cff.drift_segments := None;
     Cff.kpf_sim := None; Cff.tps_h := None |}.

(** With infinitely many warrants for infinitely many claims the quotient
    of the first indicator is NaN, and the indicator is 0. *)
Lemma computeCFF6_v1_infinite_counts :
  Cff.AAS (Cff.computeCFF6_v1 (raw_of_counts (Fin 10) PInf PInf)) = Fin 0.
Proof. reflexivity. Qed.

End IndicatorFacts.

(** ** Sorting and slicing *)

From Stdlib Require Import Sorted Permutation.

Section SortFacts.

Local Open Scope Q_scope.

Variable A : Type.
Variable cmp : A -> A -> num.

Lemma insert_sorted_perm (x : A) (ys : list A) :
  Permutation (x :: ys) (Js.insert_sorted cmp x ys).
Proof.
  induction ys as [|y r IH]; cbn [Js.insert_sorted]; [reflexivity|].
  destruct (Num.ltb (Fin 0) (cmp x y)); [|reflexivity].
  rewrite perm_swap. apply perm_skip, IH.
Qed.

Lemma sort_perm (xs : list A) : Permutation xs (Js.sort cmp xs).
Proof.
  unfold Js.sort. induction xs as [|x r IH]; cbn [fold_right]; [reflexivity|].
  rewrite <- insert_sorted_perm. apply perm_skip, IH.
Qed.

Lemma sort_length (xs : list A) : List.length (Js.sort cmp xs) = List.length xs.
Proof. symmetry. apply Permutation_length, sort_perm. Qed.

Lemma sort_In (xs : list A) (x : A) : In x (Js.sort cmp xs) <-> In x xs.
Proof.
  split; apply Permutation_in; [symmetry|]; apply sort_perm.
Qed.

(** The comparison orders the elements that satisfy [ok] by a rational
    key: [cmp x y] is positive only when the key of [y] is not the larger,
    and is not positive only when the key of [x] is not the larger.  Equal
    keys may be ordered either way. *)
Variable key : A -> Q.
Variable ok : A -> Prop.
Hypothesis cmp_pos :
  forall x y, ok x -> ok y -> Num.ltb (Fin 0) (cmp x y) = true -> key y <= key x.
Hypothesis cmp_nonpos :
  forall x y, ok x -> ok y -> Num.ltb (Fin 0) (cmp x y) = false -> key x <= key y.

Definition by_key (a b : A) : Prop := key a <= key b.

Lemma insert_sorted_sorted (x : A) (ys : list A) :
  ok x -> Forall ok ys ->
  StronglySorted by_key ys -> StronglySorted by_key (Js.insert_sorted cmp x ys).
Proof.
  intros Hx Hys S. induction S as [|y r S IH F]; cbn [Js.insert_sorted].
  - constructor; constructor.
  - apply Forall_cons_iff in Hys. destruct Hys as [Hy Hr].
    destruct (Num.ltb (Fin 0) (cmp x y)) eqn:E.
    + apply (cmp_pos x y Hx Hy) in E.
      constructor; [apply IH, Hr|].
      apply (Permutation_Forall (insert_sorted_perm x r)).
      constructor; [exact E | exact F].
    + apply (cmp_nonpos x y Hx Hy) in E.
      constructor; [constructor; assumption|].
      constructor; [exact E|].
      apply (Forall_impl _ (P := by_key y)); [|exact F].
      intros z Z. unfold by_key in *. qlra.
Qed.

Lemma sort_ok (xs : list A) : Forall ok xs -> Forall ok (Js.sort cmp xs).
Proof. apply Permutation_Forall, sort_perm. Qed.

Lemma sort_sorted (xs : list A) :
  Forall ok xs -> StronglySorted by_key (Js.sort cmp xs).
Proof.
  induction xs as [|x r IH]; intro H; [constructor|].
  apply Forall_cons_iff in H. destruct H as [Hx Hr].
  change (Js.sort cmp (x :: r)) with (Js.insert_sorted cmp x (Js.sort cmp r)).
  apply insert_sorted_sorted; [exact Hx | apply sort_ok, Hr | apply IH, Hr].
Qed.

(** In a list sorted by key, the elements that pass a test which the
    smaller keys pass first form a prefix. *)
Lemma filter_prefix (f : A -> bool) (l : list A) :
  (forall a b, ok a -> ok b -> key a <= key b -> f b = true -> f a = true) ->
  Forall ok l ->
  StronglySorted by_key l ->
  filter f l = firstn (List.length (filter f l)) l.
Proof.
  intros M O S. induction S as [|x r S IH F]; [reflexivity|].
  apply Forall_cons_iff in O. destruct O as [Ox Or].
  cbn [filter]. destruct (f x) eqn:E.
  - cbn [List.length firstn]. f_equal. exact (IH Or).
  - assert (N : filter f r = []).
    { apply length_zero_iff_nil, filter_length_none.
      intros z I. destruct (f z) eqn:Z; [|reflexivity].
      rewrite Forall_forall in F, Or.
      rewrite (M x z Ox (Or z I) (F z I) Z) in E. discriminate. }
    rewrite N. reflexivity.
Qed.

Lemma sorted_weaken (R : A -> A -> Prop) (l : list A) :
  (forall a b, by_key a b -> R a b) ->
  StronglySorted by_key l -> StronglySorted R l.
Proof.
  intros W S. induction S as [|x r S IH F]; constructor; [exact IH|].
  apply (Forall_impl _ (P := by_key x)); [intros z Z; apply W, Z | exact F].
Qed.

End SortFacts.

Section SliceFacts.

Local Open Scope Q_scope.

Lemma slice0_nat {A : Type} (xs : list A) (n : nat) :
  Js.slice0 xs (Js.num_of_nat n) = firstn n xs.
Proof.
  unfold Js.slice0, Js.num_of_nat.
  assert (E : Num.Qltb (inject_Z (Z.of_nat n)) 0 = false).
  { apply Qltb_false. rewrite <- (Zle_Qle 0). lia. }
  rewrite E, Qfloor_Z.
  destruct (Z.ltb_spec (Z.of_nat n) 0) as [L|L]; [lia|].
  rewrite Nat2Z.id. reflexivity.
Qed.

Lemma num_of_nat_ltb (m n : nat) :
  Num.ltb (Js.num_of_nat m) (Js.num_of_nat n) = Nat.ltb m n.
Proof.
  unfold Js.num_of_nat, Num.ltb.
  destruct (Nat.ltb_spec m n) as [L|L].
  - apply Qltb_true. rewrite <- Zlt_Qlt. lia.
  - apply Qltb_false. rewrite <- Zle_Qle. lia.
Qed.

Lemma num_of_nat_min (m n : nat) :
  Num.min (Js.num_of_nat m) (Js.num_of_nat n) = Js.num_of_nat (Nat.min m n).
Proof.
  unfold Num.min. change (Num.ltb (Js.num_of_nat n) (Js.num_of_nat m))
    with (Num.ltb (Js.num_of_nat n) (Js.num_of_nat m)).
  cbn [Js.num_of_nat]. fold (Js.num_of_nat n). fold (Js.num_of_nat m).
  rewrite num_of_nat_ltb.
  destruct (Nat.ltb_spec n m) as [L|L];
    [rewrite Nat.min_r by lia | rewrite Nat.min_l by lia]; reflexivity.
Qed.

End SliceFacts.

(** ** The observed patterns *)

Section PatternFacts.

Local Open Scope Q_scope.

Import Cff.Patterns.

Definition computable (p : ObservedProfileScore) : bool :=
  match score p with Some _ => true | None => false end.

(** The score of a profile as a rational (0 where there is none). *)
Definition score_of (p : ObservedProfileScore) : Q :=
  match score p with Some (Fin q) => q | _ => 0 end.

(** A profile whose score, if it has one, is a finite number. *)
Definition scored (p : ObservedProfileScore) : Prop :=
  match score p with Some (Fin _) | None => True | _ => False end.

(** The computable profiles, best score first. *)
Definition ranking (out : ObservedPatternsOutV2) : list ObservedProfileScore :=
  Js.sort (fun a b => Num.sub (orZero (score b)) (orZero (score a)))
    (filter computable (all_profiles out)).

Lemma clamp01_finite (x : num) : exists q, clamp01 x = Fin q /\ 0 <= q <= 1.
Proof.
  unfold clamp01. destruct x as [| | |a]; cbn [Num.isFinite negb];
    try (exists 0; split; [reflexivity | split; discriminate]).
  unfold Num.min, Num.max, Num.ltb.
  q_cases; eexists; (split; [reflexivity|]); qlra.
Qed.

Lemma all_profiles_scored (core : CoreAxes) (opts : option ObservedOptions) :
  Forall scored (all_profiles (computeObservedPatternsV2 core opts)).
Proof.
  unfold computeObservedPatternsV2. cbv zeta. cbn [all_profiles].
  apply Forall_map, Forall_forall. intros c _. unfold scored. cbn [score].
  destruct (rawScore core c) as [x|]; [|exact I].
  destruct (clamp01_finite x) as [q [-> _]]. exact I.
Qed.

Lemma by_score (x y : ObservedProfileScore) :
  scored x /\ computable x = true -> scored y /\ computable y = true ->
  Num.ltb (Fin 0) (Num.sub (orZero (score y)) (orZero (score x))) = true
  <-> - score_of y < - score_of x.
Proof.
  unfold scored, computable, score_of, orZero.
  destruct (score x) as [[| | |a]|], (score y) as [[| | |b]|];
    intros [Sx Cx] [Sy Cy]; try contradiction; try discriminate.
  rewrite (fin_eq_ltb (fin_eq_Fin 0) (fin_eq_sub _ _ _ _ (fin_eq_Fin b) (fin_eq_Fin a))).
  split; intro; qlra.
Qed.

(** With the default options [computeObservedPatternsV2] selects the [k]
    best computable profiles, best first, where [k] is at most 3 and at
    least 2 when two profiles are computable; with fewer computable profiles
    it selects them all. *)
Theorem computeObservedPatternsV2_selection (core : CoreAxes) :
  let out := computeObservedPatternsV2 core None in
  (exists k,
      profiles out = firstn k (ranking out)
      /\ (k <= 3)%nat
      /\ (Nat.min 2 (List.length (ranking out)) <= k)%nat)
  /\ StronglySorted (fun a b => score_of b <= score_of a) (ranking out)
  /\ Permutation (ranking out) (filter computable (all_profiles out)).
Proof.
  intro out.
  set (ok := fun p : ObservedProfileScore => scored p /\ computable p = true).
  assert (OK : Forall ok (filter computable (all_profiles out))).
  { apply Forall_forall. intros p I. apply filter_In in I. destruct I as [I C].
    split; [|exact C].
    pose proof (all_profiles_scored core None) as S.
    rewrite Forall_forall in S. apply S, I. }
  assert (S : StronglySorted (by_key _ (fun p => - score_of p)) (ranking out)).
  { unfold ranking.
    apply (sort_sorted _ _ (fun p => - score_of p) ok); [| |exact OK].
    - intros x y Hx Hy E. apply (by_score x y Hx Hy) in E. qlra.
    - intros x y Hx Hy E. apply Qnot_lt_le. intro C.
      apply (by_score x y Hx Hy) in C. congruence. }
  assert (OKr : Forall ok (ranking out)).
  { unfold ranking. apply sort_ok, OK. }
  split; [|split].
  - set (pool := ranking out) in *.
    set (above := fun p : ObservedProfileScore =>
                    Num.geb (orZero (score p)) (lit 0.62)).
    assert (P : filter above pool = firstn (List.length (filter above pool)) pool).
    { apply (filter_prefix _ (fun p => - score_of p) ok); [|exact OKr|exact S].
      intros a b [Sa Ca] [Sb Cb] L. unfold above, Num.geb.
      unfold scored, computable, score_of in *.
      destruct (score a) as [[| | |qa]|], (score b) as [[| | |qb]|];
        try contradiction; try discriminate. cbn [orZero].
      rewrite !(fin_eq_leb (fin_eq_lit 0.62) (fin_eq_Fin _)). intro. qlra. }
    assert (E : profiles out
                = let picked := filter above pool in
                  let picked :=
                    if Num.gtb (Js.num_of_nat (List.length picked)) (Js.num_of_nat 3)
                    then Js.slice0 picked (Js.num_of_nat 3) else picked in
                  if Num.ltb (Js.num_of_nat (List.length picked)) (Js.num_of_nat 2)
                  then Js.slice0 pool
                         (Num.min (Js.num_of_nat 2) (Js.num_of_nat (List.length pool)))
                  else picked) by reflexivity.
    rewrite E. cbv zeta. clear E.
    set (n := List.length (filter above pool)) in *.
    assert (Ln : (n <= List.length pool)%nat) by apply filter_length_le.
    unfold Num.gtb. rewrite !num_of_nat_ltb, num_of_nat_min, !slice0_nat.
    rewrite P, firstn_firstn.
    destruct (Nat.ltb_spec 3 n) as [G|G].
    + rewrite length_firstn.
      destruct (Nat.ltb_spec (Nat.min (Nat.min 3 n) (List.length pool)) 2) as [C|C];
        [lia|].
      exists (Nat.min 3 n). repeat split; lia.
    + rewrite length_firstn.
      destruct (Nat.ltb_spec (Nat.min n (List.length pool)) 2) as [C|C].
      * exists (Nat.min 2 (List.length pool)). repeat split; lia.
      * exists n. repeat split; lia.
  - apply (sorted_weaken _ (fun p => - score_of p)); [|exact S].
    intros a b L. unfold by_key in L. qlra.
  - symmetry. apply sort_perm.
Qed.

End PatternFacts.

(** ** The final determination *)

Section FinalFacts.

Local Open Scope Q_scope.
Local Open Scope string_scope.

Import Cff.Final.

Lemma finite_min (x y : num) : finite x -> finite y -> finite (Num.min x y).
Proof.
  destruct x, y; try discriminate. intros _ _. unfold Num.min.
  destruct (Num.ltb _ _); reflexivity.
Qed.

Lemma finite_half (x : num) : finite x -> finite (Num.div x (Fin 2)).
Proof. destruct x; try discriminate. reflexivity. Qed.

Lemma finite_hundredth (x : num) : finite x -> finite (Num.div x (Fin 100)).
Proof. destruct x; try discriminate. reflexivity. Qed.

Lemma final_clamp01_finite (x : num) : finite (clamp01 x).
Proof.
  unfold clamp01. destruct x as [| | |q]; try reflexivity.
  cbn [Num.isFinite negb]. unfold Num.gtb.
  destruct (Num.ltb (Fin q) (Fin 0)); [reflexivity|].
  destruct (Num.ltb (Fin 1) (Fin q)); reflexivity.
Qed.

(** An optional number that is finite when it is there. *)
Definition opt_finite (o : option num) : Prop :=
  match o with Some x => finite x | None => True end.

(** The score of an indicator, when the indicators can be read. *)
Definition active (indicators : value) (code : string) (normalizeTpsH : bool)
  : option num :=
  match getActiveScore indicators code normalizeTpsH with
  | Ok s => s
  | _ => None
  end.

Definition scores_of (indicators : value) : ActiveScores :=
  {| iAAS := active indicators "AAS" false;
     iCTF := active indicators "CTF" false;
     iRMD := active indicators "RMD" false;
     iRDX := active indicators "RDX" false;
     iEDS := active indicators "EDS" false;
     iIFD := active indicators "IFD" false;
     iKPF := active indicators "KPF-Sim" false;
     iTPS := active indicators "TPS-H" true |}.

Definition scores_finite (s : ActiveScores) : Prop :=
  opt_finite (iAAS s) /\ opt_finite (iCTF s) /\ opt_finite (iRMD s)
  /\ opt_finite (iRDX s) /\ opt_finite (iEDS s) /\ opt_finite (iIFD s)
  /\ opt_finite (iKPF s) /\ opt_finite (iTPS s).

Lemma getActiveScore_nullish (indicators : value) (code : string) (n : bool) :
  Js.nullish indicators = true -> getActiveScore indicators code n = Throw TypeError.
Proof. unfold getActiveScore. intros ->. reflexivity. Qed.

Lemma getActiveScore_active (indicators : value) (code : string) (n : bool) :
  Js.nullish indicators = false ->
  getActiveScore indicators code n = Ok (active indicators code n).
Proof. unfold active, getActiveScore. intros ->. reflexivity. Qed.

Lemma active_finite (indicators : value) (code : string) (n : bool) :
  opt_finite (active indicators code n).
Proof.
  unfold active, getActiveScore.
  destruct (Js.nullish indicators); [exact I|].
  destruct (negb (Js.truthy _)); [exact I|].
  destruct (_.["status"]) as [| | | |s| |]; try exact I.
  destruct s as [|c s]; [exact I|].
  repeat match goal with
         | |- opt_finite (match ?s with EmptyString => _ | String _ _ => _ end) =>
             destruct s; try exact I
         | |- opt_finite (match ?a with Ascii _ _ _ _ _ _ _ _ => _ end) =>
             destruct a
         | |- opt_finite (if ?b then _ else _) => destruct b; try exact I
         end.
  all: destruct (_.["score"]) as [| | |x| | |]; try exact I.
  all: destruct (Num.isFinite x); [|exact I].
  all: apply final_clamp01_finite.
Qed.

Lemma scores_of_finite (indicators : value) : scores_finite (scores_of indicators).
Proof. repeat split; apply active_finite. Qed.

(** [computeFinalDeterminationCff] raises a [TypeError] when the indicators
    are [undefined] or [null], and otherwise determines the type from the
    eight scores it reads. *)
Lemma computeFinalDeterminationCff_nullish (indicators : value)
    (opts : option FinalOptions) :
  Js.nullish indicators = true ->
  computeFinalDeterminationCff indicators opts = Throw TypeError.
Proof.
  intro N. unfold computeFinalDeterminationCff.
  rewrite (getActiveScore_nullish _ _ _ N). reflexivity.
Qed.

Lemma computeFinalDeterminationCff_scores (indicators : value)
    (opts : option FinalOptions) :
  Js.nullish indicators = false ->
  computeFinalDeterminationCff indicators opts = determine (scores_of indicators) opts.
Proof.
  intro N. unfold computeFinalDeterminationCff.
  rewrite !(getActiveScore_active _ _ _ N). reflexivity.
Qed.

Lemma avg_finite (a b : option num) :
  opt_finite a -> opt_finite b -> opt_finite (avg a b).
Proof.
  destruct a as [x|], b as [y|]; cbn; intros Ha Hb; try assumption.
  apply finite_half, finite_add; assumption.
Qed.

Lemma one_minus_finite (x : num) : finite x -> finite (Num.sub (Fin 1) x).
Proof. apply finite_sub. reflexivity. Qed.

(** A confidence: a finite number between 0.55 and 0.92. *)
Definition conf_ok (c : num) : Prop := exists q, c = Fin q /\ 0.55 <= q <= 0.92.

Lemma confFromMargin_range (m : num) : finite m -> conf_ok (confFromMargin m).
Proof.
  destruct m as [| | |a]; try discriminate. intros _.
  unfold conf_ok, confFromMargin, clamp01. cbv zeta.
  unfold Num.add, Num.mul, Num.gtb, Num.ltb, Num.isFinite, negb, lit.
  q_cases; q_red; eexists; (split; [reflexivity|]); q_red; qlra.
Qed.

Ltac fin_tac :=
  unfold min3, min4;
  repeat first
    [ assumption | exact I | apply finite_lit | apply finite_Fin
    | apply finite_sub | apply finite_min | apply finite_max
    | apply finite_add | apply finite_half ].

(** What a rule returns: a code among [codes] with a confidence. *)
Definition rule_ok (codes : list DetCode) (r : DetCode * num) : Prop :=
  In (fst r) codes /\ conf_ok (snd r).

Definition opt_rule_ok (codes : list DetCode) (r : option (DetCode * num)) : Prop :=
  match r with Some x => rule_ok codes x | None => True end.

Section Axes.

Variable scores : ActiveScores.
Hypothesis SF : scores_finite scores.

Ltac scores_tac :=
  pose proof SF as [HA [HC [HM [HX [HE [HI [HK HT]]]]]]].

Lemma Analyticity_finite : opt_finite (Analyticity scores).
Proof. scores_tac. apply avg_finite; assumption. Qed.

Lemma Flow_finite : opt_finite (Flow scores).
Proof. scores_tac. apply avg_finite; assumption. Qed.

Lemma MetacogRaw_finite : opt_finite (MetacogRaw_ scores).
Proof. scores_tac. apply avg_finite; assumption. Qed.

Lemma Regulation_finite : opt_finite (Regulation_ scores).
Proof.
  scores_tac. apply avg_finite; [assumption|].
  destruct (iIFD scores); [apply one_minus_finite, HI | exact I].
Qed.

Lemma Authenticity_finite : opt_finite (Authenticity scores).
Proof.
  unfold Authenticity. scores_tac.
  destruct (iKPF scores), (iTPS scores); cbn [avg opt_finite] in *; fin_tac.
Qed.

Lemma MachineScore_finite : opt_finite (MachineScore scores).
Proof.
  unfold MachineScore. scores_tac.
  destruct (iKPF scores), (iTPS scores); cbn [avg opt_finite] in *; fin_tac.
Qed.

Ltac split_rules :=
  repeat match goal with
         | |- context [match ?o with Some _ => _ | None => _ end] =>
             match type of o with
             | option num => destruct o
             end
         | |- context [if ?b then _ else _] => destruct b
         end.

Ltac rule_tac :=
  cbn [opt_rule_ok rule_ok fst snd opt_finite] in *;
  try exact I;
  try (split; [cbn [In]; tauto | apply confFromMargin_range; fin_tac]).

Lemma chooseT5T6_ok : opt_rule_ok [T5; T6] (chooseT5T6 scores).
Proof.
  unfold chooseT5T6.
  pose proof Authenticity_finite as A. pose proof MachineScore_finite as M.
  destruct (Authenticity scores), (MachineScore scores);
    split_rules; rule_tac.
Qed.

Lemma chooseAx_ok : opt_rule_ok [Ax1; Ax2; Ax3; Ax4] (chooseAx scores).
Proof.
  unfold chooseAx. cbv zeta. scores_tac.
  pose proof Flow_finite as F. pose proof MachineScore_finite as M.
  destruct (iAAS scores), (iRDX scores), (iRMD scores),
    (iEDS scores), (iIFD scores), (Flow scores),
    (MachineScore scores);
    split_rules; rule_tac.
Qed.

Lemma chooseHx_ok : opt_rule_ok [Hx1; Hx2; Hx3; Hx4] (chooseHx scores).
Proof.
  unfold chooseHx. cbv zeta. scores_tac.
  destruct (iKPF scores); [|exact I].
  destruct (iAAS scores), (iRDX scores), (iRMD scores),
    (iEDS scores), (iCTF scores);
    split_rules; rule_tac.
Qed.

(** The four steps that add a candidate to the list of [chooseHumanT]. *)
Definition step_T4 (cand : list Cand) : list Cand :=
  match Analyticity scores, Flow scores, MetacogRaw_ scores with
  | Some a, Some f, Some m =>
      if (a >=? (lit 0.6)) && (f >=? (lit 0.6)) && (m >=? (lit 0.6)) then
        let margin := min3 (a - (lit 0.6)) (f - (lit 0.6)) (m - (lit 0.6)) in
        List.app cand [{| prio := Fin 4; cand_code := T4; conf := confFromMargin margin |}]
      else cand
  | _, _, _ => cand
  end%num.

Definition step_T2 (opts : option FinalOptions) (cand : list Cand) : list Cand :=
  match (match t2Mode opts with
         | Regulation => Regulation_ scores
         | MetacogRaw => MetacogRaw_ scores
         end) with
  | Some ax =>
      if ax >=? (lit 0.7) then
        let margin := ax - (lit 0.7) in
        List.app cand [{| prio := Fin 3; cand_code := T2; conf := confFromMargin margin |}]
      else cand
  | None => cand
  end%num.

Definition step_T1 (cand : list Cand) : list Cand :=
  match Analyticity scores, Flow scores with
  | Some a, Some f =>
      if (a >=? (lit 0.7)) && (f <? (lit 0.55)) then
        let margin := Num.min (a - (lit 0.7)) ((lit 0.55) - f) in
        List.app cand [{| prio := Fin 2; cand_code := T1; conf := confFromMargin margin |}]
      else cand
  | _, _ => cand
  end%num.

Definition step_T3 (cand : list Cand) : list Cand :=
  match Flow scores, Analyticity scores with
  | Some f, Some a =>
      if (f >=? (lit 0.7)) && (a <? (lit 0.55)) then
        let margin := Num.min (f - (lit 0.7)) ((lit 0.55) - a) in
        List.app cand [{| prio := Fin 1; cand_code := T3; conf := confFromMargin margin |}]
      else cand
  | _, _ => cand
  end%num.

Definition by_priority (a b : Cand) : num :=
  let d := Num.sub (prio b) (prio a) in
  if Num.truthy d then d else Num.sub (conf b) (conf a).

Lemma chooseHumanT_steps (opts : option FinalOptions) :
  chooseHumanT scores opts
  = match Js.sort by_priority (step_T3 (step_T1 (step_T2 opts (step_T4 [])))) with
    | [] => (T2, lit 0.6)
    | c :: _ => (cand_code c, conf c)
    end.
Proof. reflexivity. Qed.

Definition cand_ok (c : Cand) : Prop :=
  rule_ok [T1; T2; T3; T4] (cand_code c, conf c).

Ltac add_tac :=
  apply (proj2 (Forall_app _ _ _));
  (split;
   [ assumption
   | apply Forall_cons;
     [ split; [cbn; tauto | cbn [opt_finite] in *; apply confFromMargin_range; fin_tac]
     | apply Forall_nil ] ]).

Ltac step_tac := intro; split_rules; try assumption; cbv zeta; add_tac.

Lemma step_T4_ok (cand : list Cand) : Forall cand_ok cand -> Forall cand_ok (step_T4 cand).
Proof.
  unfold step_T4.
  pose proof Analyticity_finite as A. pose proof Flow_finite as F.
  pose proof MetacogRaw_finite as M.
  destruct (Analyticity scores), (Flow scores), (MetacogRaw_ scores);
    step_tac.
Qed.

Lemma step_T2_ok (opts : option FinalOptions) (cand : list Cand) :
  Forall cand_ok cand -> Forall cand_ok (step_T2 opts cand).
Proof.
  unfold step_T2.
  pose proof MetacogRaw_finite as M. pose proof Regulation_finite as R.
  destruct (t2Mode opts);
    [destruct (Regulation_ scores) | destruct (MetacogRaw_ scores)];
    step_tac.
Qed.

Lemma step_T1_ok (cand : list Cand) : Forall cand_ok cand -> Forall cand_ok (step_T1 cand).
Proof.
  unfold step_T1.
  pose proof Analyticity_finite as A. pose proof Flow_finite as F.
  destruct (Analyticity scores), (Flow scores); step_tac.
Qed.

Lemma step_T3_ok (cand : list Cand) : Forall cand_ok cand -> Forall cand_ok (step_T3 cand).
Proof.
  unfold step_T3.
  pose proof Analyticity_finite as A. pose proof Flow_finite as F.
  destruct (Analyticity scores), (Flow scores); step_tac.
Qed.

Lemma chooseHumanT_ok (opts : option FinalOptions) :
  rule_ok [T1; T2; T3; T4] (chooseHumanT scores opts).
Proof.
  rewrite chooseHumanT_steps.
  assert (C : Forall cand_ok (step_T3 (step_T1 (step_T2 opts (step_T4 []))))).
  { apply step_T3_ok, step_T1_ok, step_T2_ok, step_T4_ok. constructor. }
  destruct (Js.sort by_priority _) as [|c r] eqn:E.
  - split; [cbn; tauto|]. exists (Qred 0.6). split; [reflexivity|].
    rewrite Qred_correct. split; discriminate.
  - rewrite Forall_forall in C. apply C.
    apply (sort_In _ by_priority). rewrite E. left. reflexivity.
Qed.

End Axes.

(** The code and the confidence that [computeFinalDeterminationCff] settles
    on from the scores, before it looks the code up in the registry. *)
Definition final_choice (scores : ActiveScores) (opts : option FinalOptions)
  : DetCode * num :=
  match internalTrack scores opts with
  | Human =>
      match chooseT5T6 scores with
      | Some r => r
      | None => chooseHumanT scores opts
      end
  | Hybrid =>
      match chooseHx scores with
      | Some r => r
      | None => chooseHumanT scores opts
      end
  | AI =>
      match chooseAx scores with
      | Some r => r
      | None => chooseHumanT scores opts
      end
  end.

Definition human_codes : list DetCode := [T1; T2; T3; T4; T5; T6].

Lemma rule_ok_incl (l l' : list DetCode) (r : DetCode * num) :
  incl l l' -> rule_ok l r -> rule_ok l' r.
Proof. intros I [C K]. split; [apply I, C | exact K]. Qed.

Lemma internalTrack_locked (scores : ActiveScores) (opts : option FinalOptions) :
  conservativeLock opts = true \/ MachineScore scores = None ->
  internalTrack scores opts = Human.
Proof.
  unfold internalTrack. intros [L|M].
  - rewrite L. destruct (MachineScore scores); reflexivity.
  - rewrite M. destruct (conservativeLock opts); reflexivity.
Qed.

Lemma final_choice_human (scores : ActiveScores) (opts : option FinalOptions) :
  scores_finite scores ->
  internalTrack scores opts = Human ->
  rule_ok human_codes (final_choice scores opts).
Proof.
  intros SF H. unfold final_choice. rewrite H.
  pose proof (chooseT5T6_ok scores SF) as A.
  pose proof (chooseHumanT_ok scores SF opts) as B.
  destruct (chooseT5T6 scores) as [r|].
  - apply (rule_ok_incl [T5; T6]); [|exact A].
    intros c [<-|[<-|[]]]; cbn; tauto.
  - apply (rule_ok_incl [T1; T2; T3; T4]); [|exact B].
    intros c [<-|[<-|[<-|[<-|[]]]]]; cbn; tauto.
Qed.

Lemma final_choice_conf (scores : ActiveScores) (opts : option FinalOptions) :
  scores_finite scores -> conf_ok (snd (final_choice scores opts)).
Proof.
  intro SF. unfold final_choice.
  pose proof (chooseT5T6_ok scores SF) as A.
  pose proof (chooseHx_ok scores SF) as B.
  pose proof (chooseAx_ok scores SF) as C.
  pose proof (chooseHumanT_ok scores SF opts) as [_ D].
  destruct (internalTrack scores opts);
    [destruct (chooseT5T6 scores) | destruct (chooseHx scores)
     | destruct (chooseAx scores)];
    cbn [opt_rule_ok] in *; try assumption;
    match goal with H : rule_ok _ _ |- _ => exact (proj2 H) end.
Qed.

Lemma published (scores : ActiveScores) (opts : option FinalOptions) :
  exists reg,
    TYPE_REGISTRY (fst (final_choice scores opts)) = Some reg
    /\ exists f,
         determine scores opts = Ok f
         /\ label f = det_name (fst (final_choice scores opts)) ++ ". " ++ type_name reg
         /\ chip_label f = type_name reg
         /\ confidence f = round2 (clamp01 (snd (final_choice scores opts))).
Proof.
  change (determine scores opts)
    with (let final := final_choice scores opts in
          match TYPE_REGISTRY (fst final) with
          | None =>
              Throw (Error ("Unknown final_code for registry: " ++ det_name (fst final)))
          | Some reg =>
              Ok {| label := det_name (fst final) ++ ". " ++ type_name reg;
                    chip_label := type_name reg;
                    confidence := round2 (clamp01 (snd final));
                    interpretation :=
                      match INTERPRETATION_REGISTRY (fst final) with
                      | Some s => s
                      | None =>
                          type_name reg
                            ++ " reflects the dominant reasoning pattern inferred from the current indicator configuration."
                      end |}
          end).
  cbv zeta.
  destruct (fst (final_choice scores opts));
    (eexists; split; [reflexivity|]; eexists; repeat split).
Qed.

Lemma published_confidence (c : num) :
  conf_ok c ->
  exists k, (55 <= k <= 92)%Z /\ fin_eq (round2 (clamp01 c)) (inject_Z k / 100).
Proof.
  intros [q [-> [L H]]].
  assert (E : clamp01 (Fin q) = Fin q).
  { unfold clamp01, Num.gtb, Num.ltb. cbn [Num.isFinite negb].
    q_cases; try reflexivity; exfalso; qlra. }
  rewrite E. unfold round2.
  exists (Qfloor (q * 100 + (1 # 2))). split.
  - split.
    + apply (Qfloor_resp_le 55). qlra.
    + apply (Qfloor_resp_le _ (92 + (1 # 2))). qlra.
  - apply fin_eq_div; [|apply fin_eq_Fin|discriminate].
    apply fin_eq_round, fin_eq_mul; apply fin_eq_Fin.
Qed.

(** [computeFinalDeterminationCff] raises a [TypeError] when the indicators
    are [undefined] or [null]; whatever else the indicators and the options
    are, it returns a type, and its confidence is a whole number of
    hundredths between 0.55 and 0.92. *)
Theorem final_determination_confidence
    (indicators : value) (opts : option FinalOptions) :
  (Js.nullish indicators = true ->
   computeFinalDeterminationCff indicators opts = Throw TypeError)
  /\ (Js.nullish indicators = false ->
      exists f k,
        computeFinalDeterminationCff indicators opts = Ok f
        /\ (55 <= k <= 92)%Z
        /\ fin_eq (confidence f) (inject_Z k / 100)).
Proof.
  split; [apply computeFinalDeterminationCff_nullish|].
  intro N. rewrite (computeFinalDeterminationCff_scores _ _ N).
  destruct (published (scores_of indicators) opts) as [reg [_ [f [E [_ [_ C]]]]]].
  destruct (published_confidence _
              (final_choice_conf (scores_of indicators) opts (scores_of_finite indicators)))
    as [k [B F]].
  exists f, k. rewrite C. repeat split; assumption || apply B.
Qed.

(** When the indicators are an object (neither [undefined] nor [null]):
    under the conservative lock, and whenever neither KPF-Sim nor TPS-H is
    active, the type returned is one of T1 to T6: no hybrid or AI type is
    reported. *)
Theorem final_determination_locked
    (indicators : value) (opts : option FinalOptions) :
  Js.nullish indicators = false ->
  conservativeLock opts = true \/ MachineScore (scores_of indicators) = None ->
  exists f c reg,
    computeFinalDeterminationCff indicators opts = Ok f
    /\ In c human_codes
    /\ TYPE_REGISTRY c = Some reg
    /\ label f = det_name c ++ ". " ++ type_name reg
    /\ chip_label f = type_name reg.
Proof.
  intros N L. rewrite (computeFinalDeterminationCff_scores _ _ N).
  destruct (published (scores_of indicators) opts) as [reg [R [f [E [La [Ch _]]]]]].
  exists f, (fst (final_choice (scores_of indicators) opts)), reg.
  repeat split; try assumption.
  apply (final_choice_human _ opts (scores_of_finite indicators)
           (internalTrack_locked _ _ L)).
Qed.

Definition locked : option FinalOptions :=
  Some {| t2_mode := Some Regulation; conservative_lock_ai_hybrid := Some true |}.

(** Indicators that would put an unlocked determination on the AI track. *)
Definition machine_like : value :=
  VObj [("KPF-Sim", VObj [("status", VStr "Active"); ("score", VNum (lit 0.9))]);
        ("TPS-H", VObj [("status", VStr "Active"); ("score", VNum (lit 0.1))]);
        ("CTF", VObj [("status", VStr "Active"); ("score", VNum (lit 0.8))]);
        ("RMD", VObj [("status", VStr "Active"); ("score", VNum (lit 0.8))])].

Lemma final_determination_locked_witness :
  exists f c reg,
    computeFinalDeterminationCff machine_like locked = Ok f
    /\ In c human_codes
    /\ TYPE_REGISTRY c = Some reg
    /\ label f = det_name c ++ ". " ++ type_name reg
    /\ chip_label f = type_name reg.
Proof.
  apply (final_determination_locked machine_like locked).
  - reflexivity.
  - left. reflexivity.
Defined.

End FinalFacts.

(** ** Role fit: the boost, the lookup and the ranking *)

Section RoleFitFacts.

Local Open Scope Q_scope.
Local Open Scope string_scope.

Import Rfs.

Lemma rfs_clamp01_in01 (x : num) : in01 (clamp01 x).
Proof.
  unfold in01, clamp01, Num.gtb, Num.ltb.
  destruct x as [| | |q]; cbn [Num.isFinite negb];
    try (exists 0; split; [reflexivity | split; discriminate]).
  q_cases; eexists; (split; [reflexivity|]); qlra.
Qed.

(** Both levels are finite and the user's level is not below the minimum. *)
Definition arc_reached (userArc minArc : num) : bool :=
  Num.isFinite userArc && Num.isFinite minArc && negb (Num.ltb userArc minArc).

(** The arc boost is a finite number between 0 and 0.04.  It is 0 when one
    of the two levels is not finite or the user's level is below the
    minimum, and at least 0.02 otherwise. *)
Theorem computeArcBoost_range (userArc minArc : num) :
  exists b,
    computeArcBoost userArc minArc = Fin b
    /\ 0 <= b <= 0.04
    /\ (arc_reached userArc minArc = false -> b == 0)
    /\ (arc_reached userArc minArc = true -> 0.02 <= b).
Proof.
  unfold computeArcBoost, arc_reached.
  destruct userArc as [| | |u], minArc as [| | |m]; cbn [Num.isFinite negb orb andb];
    try (exists 0; repeat split; try discriminate; intros; reflexivity).
  unfold clamp01, Num.min, Num.max, Num.sub, Num.add, Num.mul, Num.neg, Num.gtb,
    Num.ltb, Num.isFinite, negb, lit.
  q_cases; q_red; eexists; (split; [reflexivity|]); q_red;
    repeat split; intros; try discriminate; try reflexivity; try qlra.
Qed.

Lemma mapM_Ok {A B : Type} (f : A -> res B) (xs : list A) (ys : list B) :
  mapM f xs = Ok ys -> Forall2 (fun x y => f x = Ok y) xs ys.
Proof.
  revert ys. induction xs as [|x r IH]; intros ys H; cbn [mapM] in H.
  - injection H as <-. constructor.
  - destruct (f x) as [y| |] eqn:E; cbn [bind] in H; try discriminate.
    destruct (mapM f r) as [ys'| |]; cbn [bind] in H; try discriminate.
    injection H as <-. constructor; [exact E | apply IH; reflexivity].
Qed.

Lemma scoreRoleFit01_in01 (input : RoleFitInput) (cfg : RoleConfig) (s : num) :
  scoreRoleFit01 input cfg = Ok s -> in01 s.
Proof.
  unfold scoreRoleFit01.
  destruct (assertAxes01 _ _); cbn [bind]; try discriminate.
  destruct (validateWeights _); cbn [bind]; try discriminate.
  cbv zeta. intro H. injection H as <-. apply rfs_clamp01_in01.
Qed.

(** A job of the table, by the names of its group and of its role. *)
Definition job_of (group : string) (role : option string) : Prop :=
  exists job,
    In job JOB_GROUPS /\ group_name job = group /\ role = Some (job_name job).

(** The role configurations that name no member that objects inherit: what
    [JOB_INDEX] finds for them is a job of the table. *)
Definition own_jobs (roleConfigs : list RoleConfig) : Prop :=
  forall cfg, In cfg roleConfigs -> is_prototype_name (job_id cfg) = false.

Definition scored_role (r : RoleScored) : Prop :=
  in01 (rs_score r) /\ job_of (group_key r) (rs_job_name r).

Definition scored_group (e : string * (num * option string)) : Prop :=
  in01 (fst (snd e)) /\ job_of (fst e) (snd (snd e)).

Section Ranking.

Variable localeCompare : string -> string -> num.

Lemma scoreRole_scored (input : RoleFitInput) (cfg : RoleConfig) (r : RoleScored) :
  is_prototype_name (job_id cfg) = false ->
  scoreRole input cfg = Ok r -> scored_role r.
Proof.
  unfold scoreRole, lookup_job. intros ->.
  destruct (JOB_INDEX (job_id cfg)) as [job|] eqn:J; [|discriminate].
  destruct (scoreRoleFit01 input cfg) as [s| |] eqn:S; cbn [bind]; try discriminate.
  intro H. injection H as <-. split; unfold group_key;
    cbn [rs_score rs_group_name rs_job_name found_group_name found_job_name].
  - exact (scoreRoleFit01_in01 input cfg s S).
  - exists job. split; [|split; reflexivity].
    apply find_some in J. destruct J as [I _]. apply in_rev, I.
Qed.

Lemma mapM_scored (input : RoleFitInput) (roleConfigs : list RoleConfig)
    (rs : list RoleScored) :
  own_jobs roleConfigs -> mapM (scoreRole input) roleConfigs = Ok rs ->
  Forall scored_role rs.
Proof.
  intros O M. apply mapM_Ok in M.
  induction M as [|c r cs rs' E _ IH]; constructor.
  - apply (scoreRole_scored input c r); [apply O; left; reflexivity | exact E].
  - apply IH. intros cfg I. apply O. right. exact I.
Qed.

Lemma group_update_scored (gs : list (string * (num * option string))) (r : RoleScored) :
  Forall scored_group gs -> scored_role r -> Forall scored_group (group_update gs r).
Proof.
  intros G R. induction G as [|[g [prev best]] rest E G IH]; cbn [group_update].
  - constructor; [exact R | constructor].
  - destruct (String.eqb g (group_key r)) eqn:N.
    + apply String.eqb_eq in N.
      destruct (Num.gtb (rs_score r) prev).
      * constructor; [|exact G]. destruct R as [R1 R2].
        split; cbn [fst snd]; [exact R1 | rewrite N; exact R2].
      * constructor; assumption.
    + constructor; assumption.
Qed.

Lemma group_update_nonempty (gs : list (string * (num * option string))) (r : RoleScored) :
  group_update gs r <> [].
Proof.
  destruct gs as [|[g [prev best]] rest]; cbn [group_update]; [discriminate|].
  destruct (String.eqb _ _); [destruct (Num.gtb _ _)|]; discriminate.
Qed.

Lemma groups_scored (pool : list RoleScored) (gs : list (string * (num * option string))) :
  Forall scored_role pool -> Forall scored_group gs ->
  Forall scored_group (fold_left group_update pool gs).
Proof.
  intro P. revert gs. induction P as [|r rest R P IH]; intros gs G; cbn [fold_left].
  - exact G.
  - apply IH, group_update_scored; assumption.
Qed.

Lemma groups_nonempty (pool : list RoleScored) (gs : list (string * (num * option string))) :
  pool <> [] \/ gs <> [] -> fold_left group_update pool gs <> [].
Proof.
  revert gs. induction pool as [|r rest IH]; intros gs [N|N]; cbn [fold_left];
    try contradiction; try exact N.
  - apply IH. right. apply group_update_nonempty.
  - apply IH. right. apply group_update_nonempty.
Qed.

Lemma group_update_keys (gs : list (string * (num * option string))) (r : RoleScored)
    (k : string) :
  In k (map fst (group_update gs r)) <-> In k (map fst gs) \/ k = group_key r.
Proof.
  induction gs as [|[g [prev best]] rest IH]; cbn [group_update map fst In].
  - intuition.
  - destruct (String.eqb g (group_key r)) eqn:N.
    + apply String.eqb_eq in N.
      destruct (Num.gtb _ _); cbn [map fst In]; intuition congruence.
    + cbn [map fst In]. rewrite IH. tauto.
Qed.

Lemma group_update_NoDup (gs : list (string * (num * option string))) (r : RoleScored) :
  NoDup (map fst gs) -> NoDup (map fst (group_update gs r)).
Proof.
  induction gs as [|[g [prev best]] rest IH]; cbn [group_update map fst]; intro N.
  - constructor; [intros [] | constructor].
  - inversion N as [|? ? N1 N2]; subst.
    destruct (String.eqb g (group_key r)) eqn:E.
    + destruct (Num.gtb _ _); cbn [map fst]; constructor; assumption.
    + cbn [map fst]. constructor; [|apply IH, N2].
      intro I. apply group_update_keys in I. destruct I as [I | I].
      * exact (N1 I).
      * apply String.eqb_neq in E. exact (E I).
Qed.

Lemma groups_NoDup (pool : list RoleScored) (gs : list (string * (num * option string))) :
  NoDup (map fst gs) -> NoDup (map fst (fold_left group_update pool gs)).
Proof.
  revert gs. induction pool as [|r rest IH]; intros gs N; cbn [fold_left].
  - exact N.
  - apply IH, group_update_NoDup, N.
Qed.

Lemma assoc_of_In {A : Type} (gs : list (string * A)) (k : string) :
  In k (map fst gs) -> exists v, Js.assoc_of gs k = Some v /\ In (k, v) gs.
Proof.
  induction gs as [|[g v] rest IH]; cbn [map fst In Js.assoc_of]; [intros []|].
  intro I. destruct (String.eqb g k) eqn:E.
  - apply String.eqb_eq in E. subst g. exists v. split; [reflexivity | left; reflexivity].
  - destruct I as [I | I]; [apply String.eqb_neq in E; contradiction|].
    destruct (IH I) as [w [W1 W2]]. exists w. split; [exact W1 | right; exact W2].
Qed.

Lemma job_of_rolesInGroup (group role : string) :
  job_of group (Some role) -> In role (rolesInGroup group).
Proof.
  intros [job [I [G R]]]. unfold rolesInGroup. injection R as ->.
  apply in_map, filter_In. split; [exact I | apply String.eqb_eq, G].
Qed.

(** The pool the groups are built from: the roles whose minimum
    requirements are met, or all of them when the filter is off or leaves
    nothing. *)
Definition candidate_pool (strictMinFilter : option bool) (roleScored : list RoleScored)
  : list RoleScored :=
  let strict := match strictMinFilter with Some b => b | None => true end in
  let pool := if strict then filter rs_ok roleScored else roleScored in
  match pool with [] => roleScored | _ => pool end.

Definition group_order (a b : string * num) : num :=
  if negb (Num.eqb (snd b) (snd a)) then snd b - snd a
  else localeCompare (fst a) (fst b).

Definition ranked_groups (groupMax : list (string * (num * option string)))
  : list (string * num) :=
  Js.sort group_order (map (fun g => (fst g, clamp01 (fst (snd g)))) groupMax).

Definition group_item (groupMax : list (string * (num * option string))) (g : string * num)
  : RfsGroupItem :=
  {| gi_group_name := fst g;
     percent := Num.round (snd g * Fin 100);
     roles := rolesInGroup (fst g);
     recommended_role :=
       match Js.assoc_of groupMax (fst g) with
       | Some (_, Some best) => best
       | _ => match rolesInGroup (fst g) with r :: _ => r | [] => fst g end
       end |}.

Lemma top_groups_eq (input : RoleFitInput) (roleConfigs : list RoleConfig)
    (strictMinFilter : option bool) (out : RfsGroupTop3Json) :
  computeRfsJobGroupTop3 localeCompare input roleConfigs strictMinFilter = Ok out ->
  exists roleScored,
    mapM (scoreRole input) roleConfigs = Ok roleScored
    /\ top_groups out =
       let groupMax := fold_left group_update (candidate_pool strictMinFilter roleScored) [] in
       map (group_item groupMax) (firstn 3 (ranked_groups groupMax)).
Proof.
  unfold computeRfsJobGroupTop3.
  destruct (mapM (scoreRole input) roleConfigs) as [rs| |]; cbn [bind]; try discriminate.
  intro H. injection H as <-. exists rs. split; reflexivity.
Qed.

Lemma candidate_pool_incl (strictMinFilter : option bool) (rs : list RoleScored) :
  incl (candidate_pool strictMinFilter rs) rs.
Proof.
  unfold candidate_pool. cbv zeta.
  destruct (match strictMinFilter with Some b => b | None => true end).
  - destruct (filter rs_ok rs) eqn:E; [apply incl_refl|].
    rewrite <- E. intros x I. apply filter_In in I. apply I.
  - destruct rs; apply incl_refl.
Qed.

Lemma candidate_pool_nonempty (strictMinFilter : option bool) (rs : list RoleScored) :
  rs <> [] -> candidate_pool strictMinFilter rs <> [].
Proof.
  unfold candidate_pool. cbv zeta. intro N.
  destruct (match strictMinFilter with Some b => b | None => true end).
  - destruct (filter rs_ok rs); [exact N | discriminate].
  - destruct rs; [exact N | discriminate].
Qed.

Definition ranked_key (g : string * num) : Q :=
  match snd g with Fin q => - q | _ => 0 end.

Lemma group_order_pos (x y : string * num) :
  in01 (snd x) -> in01 (snd y) ->
  Num.ltb (Fin 0) (group_order x y) = true -> ranked_key y <= ranked_key x.
Proof.
  intros [p [P _]] [q [Q0 _]]. unfold group_order, ranked_key. rewrite P, Q0.
  destruct (Num.eqb (Fin q) (Fin p)) eqn:E; cbn [negb].
  - intros _. cbn [Num.eqb] in E. apply Qeqb_true in E. qlra.
  - unfold Num.sub, Num.add, Num.neg, lit. cbn [Num.ltb]. rewrite Qltb_true. q_red. qlra.
Qed.

Lemma group_order_nonpos (x y : string * num) :
  in01 (snd x) -> in01 (snd y) ->
  Num.ltb (Fin 0) (group_order x y) = false -> ranked_key x <= ranked_key y.
Proof.
  intros [p [P _]] [q [Q0 _]]. unfold group_order, ranked_key. rewrite P, Q0.
  destruct (Num.eqb (Fin q) (Fin p)) eqn:E; cbn [negb].
  - intros _. cbn [Num.eqb] in E. apply Qeqb_true in E. qlra.
  - unfold Num.sub, Num.add, Num.neg, lit. cbn [Num.ltb]. rewrite Qltb_false. q_red. qlra.
Qed.

Lemma percent_range (s : num) :
  in01 s -> exists k, (0 <= k <= 100)%Z /\ Num.round (s * Fin 100) = Fin (inject_Z k).
Proof.
  intros [q [-> [L U]]]. cbn [Num.mul Num.round]. unfold lit.
  eexists. split; [|reflexivity]. split.
  - apply (Qfloor_resp_le 0). q_red. qlra.
  - assert (F : (Qfloor (Qred (q * 100) + (1 # 2)) <= Qfloor (inject_Z 100 + (1 # 2)))%Z).
    { apply Qfloor_resp_le. q_red. change (inject_Z 100) with 100. qlra. }
    exact F.
Qed.

Lemma percent_mono (s t : num) :
  in01 s -> in01 t -> Num.leb s t = true ->
  Num.leb (Num.round (s * Fin 100)) (Num.round (t * Fin 100)) = true.
Proof.
  intros [p [-> _]] [q [-> _]]. rewrite leb_Fin. intro L.
  apply (proj2 (fin_eq_leb
                  (fin_eq_round (fin_eq_mul (fin_eq_Fin p) (fin_eq_Fin 100)))
                  (fin_eq_round (fin_eq_mul (fin_eq_Fin q) (fin_eq_Fin 100))))).
  rewrite <- Zle_Qle. apply Qfloor_resp_le. qlra.
Qed.

Lemma firstn_incl {A : Type} (n : nat) (l : list A) (x : A) :
  In x (firstn n l) -> In x l.
Proof.
  intro I. rewrite <- (firstn_skipn n l). apply in_or_app. left. exact I.
Qed.

Lemma sorted_firstn {A : Type} (R : A -> A -> Prop) (n : nat) (l : list A) :
  StronglySorted R l -> StronglySorted R (firstn n l).
Proof.
  revert n. induction l as [|x r IH]; intros [|n] S; cbn [firstn]; try constructor.
  - apply IH. inversion S; assumption.
  - inversion S as [|? ? _ F]; subst.
    apply Forall_forall. intros y I. apply firstn_incl in I.
    revert y I. apply Forall_forall. exact F.
Qed.

Lemma sorted_map {A B : Type} (R : B -> B -> Prop) (f : A -> B) (l : list A) :
  StronglySorted (fun a b => R (f a) (f b)) l -> StronglySorted R (map f l).
Proof.
  induction 1 as [|x r S IH F]; cbn [map]; constructor; [exact IH|].
  apply Forall_map. exact F.
Qed.

Lemma NoDup_firstn {A : Type} (n : nat) (l : list A) : NoDup l -> NoDup (firstn n l).
Proof.
  intro N. rewrite <- (firstn_skipn n l) in N. apply NoDup_app_remove_r in N. exact N.
Qed.

Definition ranked_ok (groupMax : list (string * (num * option string))) (g : string * num)
  : Prop :=
  in01 (snd g) /\ In (fst g) (map fst groupMax).

Lemma ranked_groups_ok (groupMax : list (string * (num * option string))) :
  Forall (ranked_ok groupMax) (ranked_groups groupMax).
Proof.
  unfold ranked_groups. apply (Permutation_Forall (sort_perm _ group_order _)).
  apply Forall_map, Forall_forall. intros e I. split; cbn [fst snd].
  - apply rfs_clamp01_in01.
  - apply in_map, I.
Qed.

Lemma ranked_groups_sorted (groupMax : list (string * (num * option string))) :
  StronglySorted (fun a b => ranked_key a <= ranked_key b) (ranked_groups groupMax).
Proof.
  unfold ranked_groups.
  apply (sort_sorted _ group_order ranked_key (fun g => in01 (snd g))).
  - intros x y. apply group_order_pos.
  - intros x y. apply group_order_nonpos.
  - apply Forall_map, Forall_forall. intros e _. apply rfs_clamp01_in01.
Qed.

Lemma ranked_groups_keys (groupMax : list (string * (num * option string))) :
  Permutation (map fst (ranked_groups groupMax)) (map fst groupMax).
Proof.
  unfold ranked_groups. etransitivity.
  - apply Permutation_map, Permutation_sym, sort_perm.
  - rewrite map_map. cbn [fst]. apply Permutation_refl.
Qed.

(** What one entry of the ranking shows. *)
Definition ranked_item (g : RfsGroupItem) : Prop :=
  (exists k, (0 <= k <= 100)%Z /\ percent g = Fin (inject_Z k))
  /\ roles g = rolesInGroup (gi_group_name g)
  /\ In (recommended_role g) (roles g).

(** When no role configuration names a member that objects inherit (such
    as "constructor"), the ranking of job groups has at most three entries
    and at least one when a role configuration was given; its groups are
    distinct; each entry
    carries a whole percentage between 0 and 100, the roles of its group in
    the job table and a recommended role that is one of them; and the
    percentages do not increase down the list. *)
Theorem computeRfsJobGroupTop3_ranking (input : RoleFitInput)
    (roleConfigs : list RoleConfig) (strictMinFilter : option bool)
    (out : RfsGroupTop3Json) :
  own_jobs roleConfigs ->
  computeRfsJobGroupTop3 localeCompare input roleConfigs strictMinFilter = Ok out ->
  (List.length (top_groups out) <= 3)%nat
  /\ (roleConfigs <> [] -> top_groups out <> [])
  /\ NoDup (map gi_group_name (top_groups out))
  /\ Forall ranked_item (top_groups out)
  /\ StronglySorted (fun a b => Num.leb (percent b) (percent a) = true) (top_groups out).
Proof.
  intros OJ H.
  destruct (top_groups_eq input roleConfigs strictMinFilter out H) as [rs [M ->]].
  cbv zeta. set (pool := candidate_pool strictMinFilter rs).
  set (groupMax := fold_left group_update pool []).
  assert (RS : Forall scored_role rs) by exact (mapM_scored _ _ _ OJ M).
  assert (PS : Forall scored_role pool).
  { apply Forall_forall. intros r I. apply candidate_pool_incl in I.
    revert r I. apply Forall_forall, RS. }
  assert (GS : Forall scored_group groupMax).
  { apply groups_scored; [exact PS | constructor]. }
  assert (GN : NoDup (map fst groupMax)).
  { apply groups_NoDup. constructor. }
  split; [|split; [|split; [|split]]].
  - rewrite length_map. apply firstn_le_length.
  - intros N E. apply map_eq_nil in E.
    assert (PN : pool <> []).
    { apply candidate_pool_nonempty. intro Z. subst rs.
      destruct roleConfigs as [|c cs]; [contradiction|].
      cbn [mapM] in M. destruct (scoreRole input c); cbn [bind] in M; try discriminate.
      destruct (mapM (scoreRole input) cs); cbn [bind] in M; discriminate. }
    assert (GE : groupMax <> []) by (apply groups_nonempty; left; exact PN).
    assert (L : List.length (ranked_groups groupMax) = List.length groupMax).
    { unfold ranked_groups. rewrite sort_length, length_map. reflexivity. }
    destruct (ranked_groups groupMax) as [|g r]; [|discriminate].
    destruct groupMax; [contradiction | discriminate].
  - rewrite map_map. cbn [group_item gi_group_name].
    rewrite <- (map_map fst (fun k => k)), map_id, <- firstn_map.
    apply NoDup_firstn.
    apply (Permutation_NoDup (Permutation_sym (ranked_groups_keys groupMax))), GN.
  - apply Forall_map, Forall_forall. intros g I. apply firstn_incl in I.
    pose proof (ranked_groups_ok groupMax) as O.
    rewrite Forall_forall in O. destruct (O g I) as [S K].
    unfold ranked_item. cbn [group_item percent roles gi_group_name recommended_role].
    split; [exact (percent_range (snd g) S) | split; [reflexivity|]].
    destruct (assoc_of_In groupMax (fst g) K) as [v [-> V]].
    rewrite Forall_forall in GS. destruct (GS _ V) as [_ J]. cbn [fst snd] in J.
    apply job_of_rolesInGroup. destruct v as [sc best]. cbn [snd] in J.
    destruct J as [job [Ij [Gj ->]]]. exists job. repeat split; assumption.
  - apply sorted_map, sorted_firstn.
    pose proof (ranked_groups_ok groupMax) as O.
    pose proof (ranked_groups_sorted groupMax) as S.
    induction S as [|x r S IH F]; constructor.
    + apply IH. inversion O; assumption.
    + inversion O as [|? ? [Ox _] Or]; subst.
      rewrite Forall_forall in F, Or. apply Forall_forall. intros y I.
      destruct (Or y I) as [Oy _]. specialize (F y I).
      cbn [group_item percent]. apply percent_mono; [exact Oy | exact Ox |].
      destruct Ox as [p [P _]], Oy as [q [Q0 _]].
      unfold ranked_key in F. rewrite P, Q0 in F |- *. apply leb_Fin. qlra.
Qed.

Lemma rfs_clamp01_id (s : num) : in01 s -> clamp01 s = s.
Proof.
  intros [q [-> [L U]]]. unfold clamp01, Num.gtb. cbn [Num.isFinite negb Num.ltb].
  q_cases; try reflexivity; exfalso; qlra.
Qed.

(** The entry of a group holds a role of the pool with the highest score of
    that group. *)
Definition group_best (pool : list RoleScored) (e : string * (num * option string)) : Prop :=
  (exists r, In r pool /\ group_key r = fst e
             /\ rs_score r = fst (snd e) /\ rs_job_name r = snd (snd e))
  /\ (forall r, In r pool -> group_key r = fst e ->
                Num.leb (rs_score r) (fst (snd e)) = true).

Lemma group_best_more (pool : list RoleScored) (r : RoleScored)
    (e : string * (num * option string)) :
  group_key r <> fst e -> group_best pool e -> group_best (pool ++ [r]) e.
Proof.
  intros N [[r0 [I0 B0]] M]. split.
  - exists r0. split; [apply in_or_app; left; exact I0 | exact B0].
  - intros r' I G. apply in_app_or in I. destruct I as [I | [<- | []]].
    + exact (M r' I G).
    + contradiction.
Qed.

Lemma group_update_best (pool : list RoleScored) (r : RoleScored)
    (gs : list (string * (num * option string))) :
  scored_role r -> Forall scored_role pool ->
  Forall (group_best pool) gs -> NoDup (map fst gs) ->
  (forall r', In r' pool -> group_key r' = group_key r ->
              In (group_key r) (map fst gs)) ->
  Forall (group_best (pool ++ [r])) (group_update gs r).
Proof.
  intros [[q [Q0 _]] _] PS. induction gs as [|[g [prev best]] rest IH];
    intros B N C; cbn [group_update].
  - constructor; [|constructor]. split; cbn [fst snd].
    + exists r. split; [apply in_or_app; right; left; reflexivity | tauto].
    + intros r' I G. apply in_app_or in I. destruct I as [I | [<- | []]].
      * destruct (C r' I G).
      * rewrite Q0. apply leb_Fin. qlra.
  - inversion B as [|? ? B1 B2]; subst. inversion N as [|? ? N1 N2]; subst.
    destruct (String.eqb g (group_key r)) eqn:E.
    + apply String.eqb_eq in E. subst g.
      assert (R : Forall (group_best (pool ++ [r])) rest).
      { apply Forall_forall. intros e I. apply group_best_more.
        - intro Z. apply N1. rewrite Z. apply in_map, I.
        - rewrite Forall_forall in B2. exact (B2 e I). }
      destruct B1 as [[r0 [I0 [G0 [S0 J0]]]] M]. cbn [fst snd] in G0, S0, J0, M.
      rewrite Forall_forall in PS. destruct (PS r0 I0) as [[p [P0 _]] _].
      rewrite S0 in P0.
      destruct (Num.gtb (rs_score r) prev) eqn:T; constructor; try exact R.
      * split; cbn [fst snd].
        -- exists r. split; [apply in_or_app; right; left; reflexivity | tauto].
        -- intros r' I G. apply in_app_or in I. destruct I as [I | [<- | []]].
           ++ apply (leb_trans _ prev); [exact (M r' I G)|].
              unfold Num.gtb in T. rewrite Q0, P0 in T |- *.
              apply ltb_Fin in T. apply leb_Fin. qlra.
           ++ rewrite Q0. apply leb_Fin. qlra.
      * split; cbn [fst snd].
        -- exists r0. split; [apply in_or_app; left; exact I0 | tauto].
        -- intros r' I G. apply in_app_or in I. destruct I as [I | [<- | []]].
           ++ exact (M r' I G).
           ++ unfold Num.gtb in T. rewrite Q0, P0 in T |- *.
              apply ltb_Fin_false in T. apply leb_Fin, T.
    + apply String.eqb_neq in E. constructor.
      * apply group_best_more; [intro Z; apply E; symmetry; exact Z | exact B1].
      * apply IH; [exact B2 | exact N2 |].
        intros r' I G. destruct (C r' I G) as [Z | Z]; [contradiction | exact Z].
Qed.

Lemma groups_best (pool : list RoleScored) :
  Forall scored_role pool ->
  let groupMax := fold_left group_update pool [] in
  Forall (group_best pool) groupMax
  /\ (forall r, In r pool -> In (group_key r) (map fst groupMax)).
Proof.
  cbv zeta. induction pool as [|r pool IH] using rev_ind; intro PS.
  - split; [constructor | intros r []].
  - apply Forall_app in PS. destruct PS as [PS R]. inversion R as [|? ? R1 _]; subst.
    destruct (IH PS) as [B C]. rewrite fold_left_app. cbn [fold_left]. split.
    + apply group_update_best; try assumption.
      * apply groups_NoDup. constructor.
      * intros r' I <-. exact (C r' I).
    + intros r' I. apply group_update_keys. apply in_app_or in I.
      destruct I as [I | [<- | []]]; [left; exact (C r' I) | right; reflexivity].
Qed.

Lemma sorted_app_inv {A : Type} (R : A -> A -> Prop) (l1 l2 : list A) :
  StronglySorted R (l1 ++ l2) -> forall a b, In a l1 -> In b l2 -> R a b.
Proof.
  induction l1 as [|x r IH]; cbn [app]; intros S a b Ia Ib; [destruct Ia|].
  inversion S as [|? ? S' F]; subst. destruct Ia as [<- | Ia].
  - rewrite Forall_forall in F. apply F, in_or_app. right. exact Ib.
  - exact (IH S' a b Ia Ib).
Qed.

(** What an entry of the ranking says about the pool of scored roles: its
    recommended role is a role of the pool in that group, no role of the
    pool in that group scores higher, and the percentage is that score in
    percent, rounded. *)
Definition best_of_group (pool : list RoleScored) (g : RfsGroupItem) : Prop :=
  exists r,
    In r pool
    /\ group_key r = gi_group_name g
    /\ rs_job_name r = Some (recommended_role g)
    /\ percent g = Num.round (rs_score r * Fin 100)
    /\ (forall r', In r' pool -> group_key r' = gi_group_name g ->
                   Num.leb (rs_score r') (rs_score r) = true).

(** When no role configuration names a member that objects inherit, each
    entry of the ranking recommends a best-scoring role of its group, and
    the ranking leaves no better group out: a scored role of the pool
    either has its group in the ranking, or the ranking is full and none of
    its entries has a lower percentage than that role. *)
Theorem computeRfsJobGroupTop3_best (input : RoleFitInput)
    (roleConfigs : list RoleConfig) (strictMinFilter : option bool)
    (out : RfsGroupTop3Json) :
  own_jobs roleConfigs ->
  computeRfsJobGroupTop3 localeCompare input roleConfigs strictMinFilter = Ok out ->
  exists roleScored,
    mapM (scoreRole input) roleConfigs = Ok roleScored
    /\ Forall (best_of_group (candidate_pool strictMinFilter roleScored)) (top_groups out)
    /\ (forall r,
          In r (candidate_pool strictMinFilter roleScored) ->
          In (group_key r) (map gi_group_name (top_groups out))
          \/ (List.length (top_groups out) = 3%nat
              /\ Forall (fun g => Num.leb (Num.round (rs_score r * Fin 100)) (percent g)
                                  = true)
                        (top_groups out))).
Proof.
  intros OJ H.
  destruct (top_groups_eq input roleConfigs strictMinFilter out H) as [rs [M ->]].
  exists rs. split; [exact M|].
  cbv zeta. set (pool := candidate_pool strictMinFilter rs).
  set (groupMax := fold_left group_update pool []).
  assert (RS : Forall scored_role rs) by exact (mapM_scored _ _ _ OJ M).
  assert (PS : Forall scored_role pool).
  { apply Forall_forall. intros r I. apply candidate_pool_incl in I.
    revert r I. apply Forall_forall, RS. }
  destruct (groups_best pool PS) as [B C]. fold groupMax in B, C.
  assert (GN : NoDup (map fst groupMax)) by (apply groups_NoDup; constructor).
  assert (E : forall g, In g (ranked_groups groupMax) ->
                exists e, In e groupMax /\ fst e = fst g /\ snd g = fst (snd e)
                          /\ Js.assoc_of groupMax (fst g) = Some (snd e)).
  { intros g I. unfold ranked_groups in I. apply sort_In, in_map_iff in I.
    destruct I as [e [<- I]]. cbn [fst snd]. exists e. split; [exact I|].
    split; [reflexivity|]. split.
    - apply rfs_clamp01_id. rewrite Forall_forall in B.
      destruct (B e I) as [[r0 [I0 [_ [S0 _]]]] _]. rewrite <- S0.
      rewrite Forall_forall in PS. apply (PS r0 I0).
    - destruct (assoc_of_In groupMax (fst e) (in_map fst _ _ I)) as [v [V1 V2]].
      rewrite V1. f_equal.
      destruct e as [k w]. cbn [fst snd] in *.
      clear - GN I V2. induction groupMax as [|[k' w'] rest IH]; [destruct I|].
      cbn [map fst] in GN. inversion GN as [|? ? N1 N2]; subst.
      destruct I as [I | I], V2 as [V | V]; try congruence.
      + exfalso. apply N1. injection I as -> _. exact (in_map fst _ _ V).
      + exfalso. apply N1. injection V as -> _. exact (in_map fst _ _ I).
      + exact (IH N2 I V). }
  split.
  - apply Forall_map, Forall_forall. intros g I. apply firstn_incl in I.
    destruct (E g I) as [e [Ie [K [S A]]]].
    rewrite Forall_forall in B. destruct (B e Ie) as [[r0 [I0 [G0 [S0 J0]]]] Mx].
    exists r0. cbn [group_item gi_group_name percent recommended_role]. rewrite A.
    split; [exact I0|]. split; [congruence|]. split.
    { rewrite Forall_forall in PS. destruct (PS r0 I0) as [_ [job [_ [_ Jb]]]].
      destruct e as [k [sc best]]. cbn [fst snd] in *.
      rewrite <- J0, Jb. reflexivity. }
    split; [rewrite S, S0; reflexivity|].
    intros r' I' G'. rewrite S0. apply Mx; congruence.
  - intros r I.
    destruct (proj1 (in_map_iff fst groupMax (group_key r)) (C r I)) as [e [K Ie]].
    rewrite Forall_forall in B. destruct (B e Ie) as [[r0 [I0 [G0 [S0 J0]]]] Mx].
    set (g := (fst e, clamp01 (fst (snd e)))).
    assert (Ig : In g (ranked_groups groupMax)).
    { unfold ranked_groups. apply sort_In.
      exact (in_map (fun g => (fst g, clamp01 (fst (snd g)))) _ _ Ie). }
    rewrite <- (firstn_skipn 3 (ranked_groups groupMax)) in Ig.
    apply in_app_or in Ig. destruct Ig as [Ig | Ig].
    + left. rewrite map_map. cbn [group_item gi_group_name].
      rewrite <- K. exact (in_map fst _ _ Ig).
    + right. split.
      * rewrite length_map, firstn_length_le; [reflexivity|].
        destruct (Nat.le_gt_cases 3 (List.length (ranked_groups groupMax))) as [L | L];
          [exact L|].
        rewrite skipn_all2 in Ig; [destruct Ig | apply Nat.lt_le_incl, L].
      * apply Forall_map, Forall_forall. intros t It. cbn [group_item percent].
        pose proof (ranked_groups_sorted groupMax) as S.
        rewrite <- (firstn_skipn 3 (ranked_groups groupMax)) in S.
        pose proof (sorted_app_inv _ _ _ S t g It Ig) as O.
        pose proof (ranked_groups_ok groupMax) as RO. rewrite Forall_forall in RO.
        destruct (RO t (firstn_incl _ _ _ It)) as [Ot _].
        rewrite Forall_forall in PS.
        destruct (PS r I) as [Or _]. destruct (PS r0 I0) as [Or0 _].
        apply (leb_trans _ (Num.round (rs_score r0 * Fin 100))).
        -- apply percent_mono; [exact Or | exact Or0 |].
           rewrite S0. apply Mx; [exact I | symmetry; exact K].
        -- apply percent_mono; [exact Or0 | exact Ot |].
           unfold ranked_key, g in O. cbn [snd] in O.
           rewrite <- S0, (rfs_clamp01_id _ Or0) in O.
           destruct Or0 as [p [P _]], Ot as [q [Q0 _]].
           rewrite P, Q0 in O |- *. apply leb_Fin. qlra.
Qed.

(** ** Role fit: the interpretation of the ranking *)

Lemma interpretation_eq (input : RoleFitInput) (roleConfigs : list RoleConfig)
    (strictMinFilter : option bool) (out : RfsGroupTop3Json) :
  computeRfsJobGroupTop3 localeCompare input roleConfigs strictMinFilter = Ok out ->
  pattern_interpretation out =
  match top_groups out with
  | g :: _ =>
      let gid :=
        match find (fun j => String.eqb (group_name j) (gi_group_name g)) JOB_GROUPS with
        | Some j => group_id j
        | None => 0%nat
        end in
      if Nat.eqb gid 0 then EmptyString
      else buildRoleFitInterpretation gid (gi_group_name g) (recommended_role g)
  | [] => EmptyString
  end.
Proof.
  unfold computeRfsJobGroupTop3.
  destruct (mapM (scoreRole input) roleConfigs) as [rs| |]; cbn [bind]; try discriminate.
  intro H. injection H as <-. cbv zeta. cbn [pattern_interpretation top_groups].
  match goal with
  | |- context [match ?l with [] => _ | _ :: _ => _ end] => destruct l
  end; reflexivity.
Qed.

Lemma top_groups_empty (input : RoleFitInput) (strictMinFilter : option bool)
    (out : RfsGroupTop3Json) :
  computeRfsJobGroupTop3 localeCompare input [] strictMinFilter = Ok out ->
  top_groups out = [].
Proof.
  intro H. destruct (top_groups_eq input [] strictMinFilter out H) as [rs [M ->]].
  cbn [mapM] in M. injection M as <-. destruct strictMinFilter as [[|]|]; reflexivity.
Qed.

Lemma top_groups_in_table (input : RoleFitInput) (roleConfigs : list RoleConfig)
    (strictMinFilter : option bool) (out : RfsGroupTop3Json) :
  own_jobs roleConfigs ->
  computeRfsJobGroupTop3 localeCompare input roleConfigs strictMinFilter = Ok out ->
  (roleConfigs <> [] -> top_groups out <> [])
  /\ Forall (fun g => exists j, In j JOB_GROUPS /\ group_name j = gi_group_name g)
            (top_groups out).
Proof.
  intros OJ H.
  destruct (top_groups_eq input roleConfigs strictMinFilter out H) as [rs [M ->]].
  cbv zeta. set (pool := candidate_pool strictMinFilter rs).
  set (groupMax := fold_left group_update pool []).
  assert (RS : Forall scored_role rs) by exact (mapM_scored _ _ _ OJ M).
  assert (PS : Forall scored_role pool).
  { apply Forall_forall. intros r I. apply candidate_pool_incl in I.
    revert r I. apply Forall_forall, RS. }
  assert (GS : Forall scored_group groupMax).
  { apply groups_scored; [exact PS | constructor]. }
  split.
  - intros N E. apply map_eq_nil in E.
    assert (PN : pool <> []).
    { apply candidate_pool_nonempty. intro Z. subst rs.
      destruct roleConfigs as [|c cs]; [contradiction|].
      cbn [mapM] in M. destruct (scoreRole input c); cbn [bind] in M; try discriminate.
      destruct (mapM (scoreRole input) cs); cbn [bind] in M; discriminate. }
    assert (GE : groupMax <> []) by (apply groups_nonempty; left; exact PN).
    assert (L : List.length (ranked_groups groupMax) = List.length groupMax).
    { unfold ranked_groups. rewrite sort_length, length_map. reflexivity. }
    destruct (ranked_groups groupMax) as [|g r]; [|discriminate].
    destruct groupMax; [contradiction | discriminate].
  - apply Forall_map, Forall_forall. intros g I. apply firstn_incl in I.
    pose proof (ranked_groups_ok groupMax) as O.
    rewrite Forall_forall in O. destruct (O g I) as [_ K].
    cbn [group_item gi_group_name].
    apply in_map_iff in K. destruct K as [e [E Ie]].
    rewrite Forall_forall in GS. destruct (GS e Ie) as [_ [j [Ij [Gj _]]]].
    exists j. split; [exact Ij | congruence].
Qed.

Definition has_template (j : JobGroup) : bool :=
  negb (Nat.eqb (group_id j) 0)
  && match GROUP_ROLE_TEMPLATES (group_id j) with Some _ => true | None => false end.

Lemma table_templates : forallb has_template JOB_GROUPS = true.
Proof. vm_compute. reflexivity. Qed.

(** When no role configuration names a member that objects inherit, the
    interpretation that goes with a ranking is the text of the template of
    its first group, one of the fifteen of the table: the generic
    sentence kept for a group without a template is never returned.  Without
    role configurations the ranking and the interpretation are empty. *)
Theorem computeRfsJobGroupTop3_interpretation (input : RoleFitInput)
    (roleConfigs : list RoleConfig) (strictMinFilter : option bool)
    (out : RfsGroupTop3Json) :
  own_jobs roleConfigs ->
  computeRfsJobGroupTop3 localeCompare input roleConfigs strictMinFilter = Ok out ->
  (roleConfigs = [] -> top_groups out = [] /\ pattern_interpretation out = EmptyString)
  /\ (roleConfigs <> [] ->
      exists g rest j text,
        top_groups out = g :: rest
        /\ In j JOB_GROUPS
        /\ group_name j = gi_group_name g
        /\ GROUP_ROLE_TEMPLATES (group_id j) = Some text
        /\ pattern_interpretation out = text).
Proof.
  intros OJ H.
  pose proof (interpretation_eq input roleConfigs strictMinFilter out H) as E.
  split.
  - intro N. subst roleConfigs.
    pose proof (top_groups_empty input strictMinFilter out H) as T.
    rewrite T in E. split; assumption.
  - intro N.
    destruct (top_groups_in_table input roleConfigs strictMinFilter out OJ H) as [NE F].
    specialize (NE N). destruct (top_groups out) as [|g rest]; [contradiction|].
    inversion F as [|? ? [j0 [I0 G0]] _]; subst. cbv zeta in E.
    destruct (find (fun j => String.eqb (group_name j) (gi_group_name g)) JOB_GROUPS)
      as [j|] eqn:Fj.
    + apply find_some in Fj. destruct Fj as [Ij Gj]. apply String.eqb_eq in Gj.
      pose proof (proj1 (forallb_forall _ _) table_templates j Ij) as T.
      unfold has_template in T. apply andb_true_iff in T. destruct T as [T1 T2].
      apply negb_true_iff in T1. rewrite T1 in E. unfold buildRoleFitInterpretation in E.
      destruct (GROUP_ROLE_TEMPLATES (group_id j)) as [text|] eqn:GT; [|discriminate].
      exists g, rest, j, text. repeat split; try assumption; reflexivity.
    + pose proof (find_none _ _ Fj j0 I0) as X. cbn beta in X.
      rewrite G0, String.eqb_refl in X. discriminate.
Qed.

End Ranking.

(** A user, and five role configurations over four groups of the table. *)
Definition mixed_user : RoleFitInput :=
  {| axes := {| analyticity := lit 0.9; flow := lit 0.4;
                metacognition := lit 0.6; authenticity := lit 0.5 |};
     user_arc_level := Fin 3 |}.

Definition role_with (job : string) (a f m h : Q) : RoleConfig :=
  {| role_code := "R1"; job_id := job; onet_code := "00-0000.00";
     oecd_core_skills := [];
     neuprint_axes_weights :=
       {| analyticity := lit a; flow := lit f;
          metacognition := lit m; authenticity := lit h |};
     min_requirements :=
       {| arc_level := Fin 1; min_analyticity := None; min_flow := None;
          min_metacognition := None; min_authenticity := None |} |}.

Definition sample_roles : list RoleConfig :=
  [role_with "teacher" 0.1 0.7 0.1 0.1;
   role_with "data_analyst" 0.25 0.25 0.25 0.25;
   role_with "lawyer" 0.1 0.1 0.7 0.1;
   role_with "data_scientist" 0.7 0.1 0.1 0.1;
   role_with "strategy_analyst" 0.4 0.2 0.2 0.2].

Definition sample_ranking : RfsGroupTop3Json :=
  Eval vm_compute in
    match computeRfsJobGroupTop3 byte_order mixed_user sample_roles None with
    | Ok out => out
    | _ => {| summary_lines := []; top_groups := []; recommended_roles_top3 := [];
              recommended_roles_line := EmptyString;
              pattern_interpretation := EmptyString |}
    end.

Lemma computeRfsJobGroupTop3_ranking_witness :
  computeRfsJobGroupTop3 byte_order mixed_user sample_roles None = Ok sample_ranking
  /\ (List.length (top_groups sample_ranking) <= 3)%nat
  /\ (sample_roles <> [] -> top_groups sample_ranking <> [])
  /\ NoDup (map gi_group_name (top_groups sample_ranking))
  /\ Forall ranked_item (top_groups sample_ranking)
  /\ StronglySorted (fun a b => Num.leb (percent b) (percent a) = true)
                    (top_groups sample_ranking).
Proof.
  split; [vm_compute; reflexivity|].
  apply (computeRfsJobGroupTop3_ranking byte_order mixed_user sample_roles None).
  - intros cfg I. repeat (destruct I as [<-|I]; [reflexivity|]). destruct I.
  - vm_compute. reflexivity.
Defined.

Lemma computeRfsJobGroupTop3_best_witness :
  computeRfsJobGroupTop3 byte_order mixed_user sample_roles None = Ok sample_ranking
  /\ exists roleScored,
       mapM (scoreRole mixed_user) sample_roles = Ok roleScored
       /\ Forall (best_of_group (candidate_pool None roleScored))
                 (top_groups sample_ranking)
       /\ (forall r,
             In r (candidate_pool None roleScored) ->
             In (group_key r) (map gi_group_name (top_groups sample_ranking))
             \/ (List.length (top_groups sample_ranking) = 3%nat
                 /\ Forall (fun g => Num.leb (Num.round (rs_score r * Fin 100)) (percent g)
                                     = true)
                           (top_groups sample_ranking))).
Proof.
  split; [vm_compute; reflexivity|].
  apply (computeRfsJobGroupTop3_best byte_order mixed_user sample_roles None).
  - intros cfg I. repeat (destruct I as [<-|I]; [reflexivity|]). destruct I.
  - vm_compute. reflexivity.
Defined.

Lemma computeRfsJobGroupTop3_interpretation_witness :
  computeRfsJobGroupTop3 byte_order mixed_user sample_roles None = Ok sample_ranking
  /\ (sample_roles = [] ->
      top_groups sample_ranking = [] /\ pattern_interpretation sample_ranking = EmptyString)
  /\ (sample_roles <> [] ->
      exists g rest j text,
        top_groups sample_ranking = g :: rest
        /\ In j JOB_GROUPS
        /\ group_name j = gi_group_name g
        /\ GROUP_ROLE_TEMPLATES (group_id j) = Some text
        /\ pattern_interpretation sample_ranking = text).
Proof.
  split; [vm_compute; reflexivity|].
  apply (computeRfsJobGroupTop3_interpretation byte_order mixed_user sample_roles None).
  - intros cfg I. repeat (destruct I as [<-|I]; [reflexivity|]). destruct I.
  - vm_compute. reflexivity.
Defined.

(** A role configuration whose [job_id] is "constructor" is scored, since
    [JOB_INDEX] finds the member that every object inherits: its group is
    "undefined", a group without roles, the role recommended is
    "undefined" and there is no interpretation. *)
Lemma computeRfsJobGroupTop3_inherited_job :
  match computeRfsJobGroupTop3 byte_order mixed_user
          [role_with "constructor" 0.25 0.25 0.25 0.25] None with
  | Ok out =>
      map gi_group_name (top_groups out) = ["undefined"]
      /\ map roles (top_groups out) = [[]]
      /\ map recommended_role (top_groups out) = ["undefined"]
      /\ pattern_interpretation out = EmptyString
  | _ => False
  end.
Proof. vm_compute. repeat split. Qed.

(** ** Role fit: a better user never scores lower *)

Lemma computeArcBoost_value (q r : Q) :
  exists b,
    computeArcBoost (Fin q) (Fin r) = Fin b
    /\ ((q < r /\ b == 0)
        \/ (r <= q /\ q - r <= 1 /\ b == 0.02)
        \/ (1 <= q - r <= 3 /\ b == 0.02 + 0.01 * (q - r - 1))
        \/ (3 <= q - r /\ b == 0.04)).
Proof.
  unfold computeArcBoost. cbn [Num.isFinite negb orb].
  unfold clamp01, Num.min, Num.max, Num.sub, Num.add, Num.mul, Num.neg, Num.gtb,
    Num.ltb, Num.isFinite, negb, lit.
  q_cases; q_red; eexists; (split; [reflexivity|]); q_red;
    first [ left; split; [assumption | reflexivity]
          | left; split; qlra
          | right; left; repeat split; qlra
          | right; right; left; repeat split; qlra
          | right; right; right; split; qlra ].
Qed.

Lemma computeArcBoost_mono (x x' m : num) :
  Num.leb x x' = true -> Num.isFinite x' = true ->
  exists b b',
    computeArcBoost x m = Fin b /\ computeArcBoost x' m = Fin b' /\ 0 <= b /\ b <= b'.
Proof.
  intros L F. destruct x' as [| | |q']; try discriminate. clear F.
  destruct m as [| | |r];
    try (exists 0, 0; split; [destruct x; reflexivity|]; split; [reflexivity|];
         split; discriminate).
  destruct (computeArcBoost_value q' r) as [b' [E' V']].
  destruct x as [| | |q]; try discriminate L.
  - exists 0, b'. split; [reflexivity|]. split; [exact E'|].
    destruct V' as [[? ?]|[[? [? ?]]|[[[? ?] ?]|[? ?]]]]; split; qlra.
  - apply leb_Fin in L.
    destruct (computeArcBoost_value q r) as [b [E V]].
    exists b, b'. split; [exact E|]. split; [exact E'|].
    destruct V as [[? ?]|[[? [? ?]]|[[[? ?] ?]|[? ?]]]],
             V' as [[? ?]|[[? [? ?]]|[[[? ?] ?]|[? ?]]]]; split; qlra.
Qed.

Lemma rfs_clamp01_mono (x y : num) (a b : Q) :
  fin_eq x a -> fin_eq y b -> a <= b -> Num.leb (clamp01 x) (clamp01 y) = true.
Proof.
  intros Fx Fy L. destruct x as [| | |p], y as [| | |q]; try contradiction.
  unfold fin_eq in *. unfold clamp01, Num.gtb. cbn [Num.isFinite negb Num.ltb].
  q_cases; apply leb_Fin; qlra.
Qed.

Lemma scoreRoleFit01_value (input : RoleFitInput) (cfg : RoleConfig) (s : num) :
  scoreRoleFit01 input cfg = Ok s ->
  axes_in01 (axes input) /\ axes_in01 (neuprint_axes_weights cfg)
  /\ s = clamp01
           (Num.add
              (Num.add
                 (Num.add
                    (Num.add
                       (Num.mul (analyticity (axes input))
                          (analyticity (neuprint_axes_weights cfg)))
                       (Num.mul (flow (axes input)) (flow (neuprint_axes_weights cfg))))
                    (Num.mul (metacognition (axes input))
                       (metacognition (neuprint_axes_weights cfg))))
                 (Num.mul (authenticity (axes input))
                    (authenticity (neuprint_axes_weights cfg))))
              (computeArcBoost (user_arc_level input) (arc_level (min_requirements cfg)))).
Proof.
  intro H. destruct (scoreRoleFit01_cases input cfg) as [[_ [A [W _]]] | [[e T] _]];
    [|rewrite H in T; discriminate].
  split; [exact A|]. split; [exact W|].
  unfold scoreRoleFit01 in H.
  destruct (assertAxes01 _ _); cbn [bind] in H; try discriminate.
  destruct (validateWeights _); cbn [bind] in H; try discriminate.
  cbv zeta in H. injection H as <-. reflexivity.
Qed.

(** Role scoring is monotone in the user: with the same role
    configuration, a user whose four axes and whose level are at least
    those of another, the level being finite, never gets the lower score. *)
Theorem scoreRoleFit01_monotone (u u' : RoleFitInput) (cfg : RoleConfig) (s s' : num) :
  Num.leb (analyticity (axes u)) (analyticity (axes u')) = true ->
  Num.leb (flow (axes u)) (flow (axes u')) = true ->
  Num.leb (metacognition (axes u)) (metacognition (axes u')) = true ->
  Num.leb (authenticity (axes u)) (authenticity (axes u')) = true ->
  Num.leb (user_arc_level u) (user_arc_level u') = true ->
  Num.isFinite (user_arc_level u') = true ->
  scoreRoleFit01 u cfg = Ok s ->
  scoreRoleFit01 u' cfg = Ok s' ->
  Num.leb s s' = true.
Proof.
  intros L1 L2 L3 L4 LA FA H H'.
  destruct (scoreRoleFit01_value u cfg s H) as [A [W ->]].
  destruct (scoreRoleFit01_value u' cfg s' H') as [A' [_ ->]].
  destruct (computeArcBoost_mono _ _ (arc_level (min_requirements cfg)) LA FA)
    as [b [b' [-> [-> [B0 B1]]]]].
  destruct A as [[a1 [E1 R1]] [[a2 [E2 R2]] [[a3 [E3 R3]] [a4 [E4 R4]]]]].
  destruct A' as [[c1 [G1 S1]] [[c2 [G2 S2]] [[c3 [G3 S3]] [c4 [G4 S4]]]]].
  destruct W as [[w1 [V1 T1]] [[w2 [V2 T2]] [[w3 [V3 T3]] [w4 [V4 T4]]]]].
  rewrite E1, G1 in L1. rewrite E2, G2 in L2. rewrite E3, G3 in L3. rewrite E4, G4 in L4.
  apply leb_Fin in L1, L2, L3, L4.
  rewrite E1, E2, E3, E4, G1, G2, G3, G4, V1, V2, V3, V4.
  apply (rfs_clamp01_mono _ _ (a1 * w1 + a2 * w2 + a3 * w3 + a4 * w4 + b)
           (c1 * w1 + c2 * w2 + c3 * w3 + c4 * w4 + b')).
  - repeat apply fin_eq_add; try apply fin_eq_mul; apply fin_eq_Fin.
  - repeat apply fin_eq_add; try apply fin_eq_mul; apply fin_eq_Fin.
  - assert (P1 : a1 * w1 <= c1 * w1) by (apply Qmult_le_compat_r; [exact L1 | apply T1]).
    assert (P2 : a2 * w2 <= c2 * w2) by (apply Qmult_le_compat_r; [exact L2 | apply T2]).
    assert (P3 : a3 * w3 <= c3 * w3) by (apply Qmult_le_compat_r; [exact L3 | apply T3]).
    assert (P4 : a4 * w4 <= c4 * w4) by (apply Qmult_le_compat_r; [exact L4 | apply T4]).
    qlra.
Qed.

(** A user above [mixed_user] on every axis and in level. *)
Definition better_user : RoleFitInput :=
  {| axes := {| analyticity := lit 0.95; flow := lit 0.4;
                metacognition := lit 0.7; authenticity := lit 0.5 |};
     user_arc_level := Fin 5 |}.

Lemma scoreRoleFit01_monotone_witness :
  scoreRoleFit01 mixed_user (role_with "lawyer" 0.1 0.1 0.7 0.1) = Ok (lit 0.63)
  /\ scoreRoleFit01 better_user (role_with "lawyer" 0.1 0.1 0.7 0.1) = Ok (lit 0.715)
  /\ Num.leb (lit 0.63) (lit 0.715) = true.
Proof.
  split; [vm_compute; reflexivity|]. split; [vm_compute; reflexivity|].
  apply (scoreRoleFit01_monotone mixed_user better_user
           (role_with "lawyer" 0.1 0.1 0.7 0.1));
    vm_compute; reflexivity.
Defined.

End RoleFitFacts.

(** ** Observed structural signals: what is selected and what is exported *)

Section SignalFacts.

Local Open Scope Q_scope.
Local Open Scope string_scope.

Import Rc Signals.

(** An active id that the library knows. *)
Definition known_id (i : string) : bool :=
  existsb (fun t => String.eqb (id t) i) buildSignalLibraryV1_S1toS18.

Definition candidates (activeIds : list string) : list SignalTemplate :=
  flat_map
    (fun i => match lib_get buildSignalLibraryV1_S1toS18 i with
              | Some t => [t]
              | None => []
              end)
    activeIds.

Lemma NoDup_map_on {A B : Type} (f : A -> B) (l : list A) :
  (forall x y, In x l -> In y l -> f x = f y -> x = y) ->
  NoDup l -> NoDup (map f l).
Proof.
  intros J N. induction N as [|x r X N IH]; cbn [map]; constructor.
  - intro I. apply in_map_iff in I. destruct I as [y [E Iy]].
    apply X. rewrite (J x y); [exact Iy | left; reflexivity | right; exact Iy | symmetry; exact E].
  - apply IH. intros a b Ia Ib. apply J; right; assumption.
Qed.

Lemma NoDup_map_same {A B : Type} (f : A -> B) (l : list A) (x y : A) :
  NoDup (map f l) -> In x l -> In y l -> f x = f y -> x = y.
Proof.
  induction l as [|c r IH]; cbn [map]; intros N Ix Iy E; [destruct Ix|].
  inversion N as [|? ? N1 N2]; subst.
  destruct Ix as [-> | Ix], Iy as [-> | Iy]; try reflexivity.
  - exfalso. apply N1. rewrite E. apply in_map, Iy.
  - exfalso. apply N1. rewrite <- E. apply in_map, Ix.
  - exact (IH N2 Ix Iy E).
Qed.

Fixpoint distinctb (l : list string) : bool :=
  match l with
  | [] => true
  | x :: r => negb (existsb (String.eqb x) r) && distinctb r
  end.

Lemma distinctb_NoDup (l : list string) : distinctb l = true -> NoDup l.
Proof.
  induction l as [|x r IH]; cbn [distinctb]; intro H; constructor;
    apply andb_true_iff in H; destruct H as [H1 H2].
  - intro I. apply negb_true_iff in H1.
    assert (E : existsb (String.eqb x) r = true).
    { apply existsb_exists. exists x. split; [exact I | apply String.eqb_refl]. }
    congruence.
  - exact (IH H2).
Qed.

Lemma lib_ids_NoDup : NoDup (map id buildSignalLibraryV1_S1toS18).
Proof. apply distinctb_NoDup. vm_compute. reflexivity. Qed.

Lemma lib_texts_NoDup : NoDup (map text buildSignalLibraryV1_S1toS18).
Proof. apply distinctb_NoDup. vm_compute. reflexivity. Qed.

Definition finite_priority (t : SignalTemplate) : Prop := exists q, priority t = Fin q.

Lemma lib_priorities : Forall finite_priority buildSignalLibraryV1_S1toS18.
Proof. repeat constructor; eexists; reflexivity. Qed.

Lemma lib_texts_nonempty :
  Forall (fun t => String.eqb (text t) EmptyString = false) buildSignalLibraryV1_S1toS18.
Proof. repeat constructor. Qed.

Lemma lib_get_Some (i : string) (t : SignalTemplate) :
  lib_get buildSignalLibraryV1_S1toS18 i = Some t ->
  In t buildSignalLibraryV1_S1toS18 /\ id t = i.
Proof.
  unfold lib_get. intro H. apply find_some in H. destruct H as [I E].
  split; [exact I | apply String.eqb_eq, E].
Qed.

Lemma candidates_of_cons (lib : list SignalTemplate) (i : string) (rest : list string) :
  candidates_of lib (i :: rest) =
  if Rfs.is_prototype_name i then Beyond
  else
    bind (candidates_of lib rest)
      (fun cs => Ok (match lib_get lib i with Some t => t :: cs | None => cs end)).
Proof. reflexivity. Qed.

Lemma candidates_cons (i : string) (rest : list string) :
  candidates (i :: rest) =
  match lib_get buildSignalLibraryV1_S1toS18 i with
  | Some t => t :: candidates rest
  | None => candidates rest
  end.
Proof.
  unfold candidates. cbn [flat_map].
  destruct (lib_get buildSignalLibraryV1_S1toS18 i); reflexivity.
Qed.

Lemma candidates_of_Ok (activeIds : list string) (cs : list SignalTemplate) :
  candidates_of buildSignalLibraryV1_S1toS18 activeIds = Ok cs -> cs = candidates activeIds.
Proof.
  revert cs. induction activeIds as [|i rest IH]; intros cs H.
  - injection H as <-. reflexivity.
  - rewrite candidates_of_cons in H. rewrite candidates_cons.
    destruct (Rfs.is_prototype_name i); [discriminate|].
    destruct (candidates_of _ rest) as [cs'| |]; cbn [bind] in H; try discriminate.
    injection H as <-. rewrite (IH cs' eq_refl). reflexivity.
Qed.

(** The active ids among which none names a member that objects inherit:
    on them the selection returns. *)
Definition own_ids (activeIds : list string) : Prop :=
  forall i, In i activeIds -> Rfs.is_prototype_name i = false.

Lemma candidates_of_own (activeIds : list string) :
  own_ids activeIds ->
  candidates_of buildSignalLibraryV1_S1toS18 activeIds = Ok (candidates activeIds).
Proof.
  induction activeIds as [|i rest IH]; intro O; [reflexivity|].
  rewrite candidates_of_cons, candidates_cons, (O i (or_introl eq_refl)).
  rewrite IH; [|intros j I; apply O; right; exact I]. cbn [bind].
  destruct (lib_get _ i); reflexivity.
Qed.

Lemma selectObservedSignals_returns (activeIds : list string) (band : Band)
    (opts : SelectObservedSignalsOptions) :
  own_ids activeIds -> exists r, selectObservedSignals activeIds band opts = Ok r.
Proof.
  intro O. unfold selectObservedSignals. cbv zeta.
  rewrite (candidates_of_own activeIds O). cbn [bind]. eexists. reflexivity.
Qed.

Lemma candidates_ids (activeIds : list string) :
  map id (candidates activeIds) = filter known_id activeIds.
Proof.
  induction activeIds as [|i rest IH]; [reflexivity|].
  rewrite candidates_cons. cbn [filter].
  destruct (lib_get _ i) as [t|] eqn:E.
  - destruct (lib_get_Some i t E) as [I <-].
    assert (K : known_id (id t) = true).
    { apply existsb_exists. exists t. split; [exact I | apply String.eqb_refl]. }
    rewrite K. cbn [map]. rewrite IH. reflexivity.
  - assert (K : known_id i = false).
    { unfold known_id. destruct (existsb _ _) eqn:X; [|reflexivity].
      apply existsb_exists in X. destruct X as [t [I T]].
      unfold lib_get in E. rewrite (find_none _ _ E t I) in T. discriminate. }
    rewrite K. exact IH.
Qed.

Lemma candidates_in_lib (activeIds : list string) (t : SignalTemplate) :
  In t (candidates activeIds) ->
  In t buildSignalLibraryV1_S1toS18 /\ In (id t) activeIds.
Proof.
  unfold candidates. intro I. apply in_flat_map in I. destruct I as [i [Ii It]].
  destruct (lib_get _ i) as [t'|] eqn:E; [|destruct It].
  destruct It as [<- | []]. destruct (lib_get_Some i t' E) as [L <-].
  split; assumption.
Qed.

Lemma in_lib_candidates (activeIds : list string) (t : SignalTemplate) :
  In t buildSignalLibraryV1_S1toS18 -> In (id t) activeIds -> In t (candidates activeIds).
Proof.
  intros L I. unfold candidates. apply in_flat_map. exists (id t). split; [exact I|].
  destruct (lib_get _ (id t)) as [t'|] eqn:E.
  - destruct (lib_get_Some _ t' E) as [L' E']. left.
    symmetry. exact (NoDup_map_same id _ t t' lib_ids_NoDup L L' (eq_sym E')).
  - unfold lib_get in E. pose proof (find_none _ _ E t L) as F. cbn beta in F.
    rewrite String.eqb_refl in F. discriminate.
Qed.

Lemma candidates_finite (activeIds : list string) :
  Forall finite_priority (candidates activeIds).
Proof.
  apply Forall_forall. intros t I. apply candidates_in_lib in I. destruct I as [L _].
  revert t L. apply Forall_forall, lib_priorities.
Qed.

Lemma group_eqb_eq (a b : SignalGroup) : group_eqb a b = true <-> a = b.
Proof. destruct a, b; cbn; split; intro H; try reflexivity; discriminate. Qed.

(** The best candidate of a group: none has a lower priority number. *)
Definition best_in (cs : list SignalTemplate) (g : SignalGroup) (b : SignalTemplate)
  : Prop :=
  In b cs /\ group b = g
  /\ (forall t, In t cs -> group t = g -> Num.leb (priority b) (priority t) = true).

Lemma pickBest_spec (cs : list SignalTemplate) (g : SignalGroup) :
  Forall finite_priority cs ->
  match pickBest cs g with
  | Some b => best_in cs g b
  | None => forall t, In t cs -> group t <> g
  end.
Proof.
  unfold pickBest. induction cs as [|t cs IH] using rev_ind; intro F.
  - cbn. intros t [].
  - apply Forall_app in F. destruct F as [F Ft]. inversion Ft as [|? ? [q Q0] _]; subst.
    rewrite fold_left_app. cbn [fold_left]. specialize (IH F).
    destruct (group_eqb (group t) g) eqn:G; cbn [negb].
    + apply group_eqb_eq in G.
      destruct (fold_left _ cs None) as [b|].
      * destruct IH as [Ib [Gb Mb]].
        assert (Fb : finite_priority b).
        { rewrite Forall_forall in F. exact (F b Ib). }
        destruct Fb as [p P0]. rewrite Q0, P0.
        destruct (Num.ltb (Fin q) (Fin p)) eqn:T.
        -- apply ltb_Fin in T. split; [apply in_or_app; right; left; reflexivity|].
           split; [exact G|]. intros t' I' G'. apply in_app_or in I'.
           destruct I' as [I' | [<- | []]].
           ++ apply (leb_trans _ (priority b)); [|exact (Mb t' I' G')].
              rewrite Q0, P0. apply leb_Fin. qlra.
           ++ rewrite Q0. apply leb_Fin. qlra.
        -- apply ltb_Fin_false in T. split; [apply in_or_app; left; exact Ib|].
           split; [exact Gb|]. intros t' I' G'. apply in_app_or in I'.
           destruct I' as [I' | [<- | []]].
           ++ exact (Mb t' I' G').
           ++ rewrite Q0, P0. apply leb_Fin, T.
      * split; [apply in_or_app; right; left; reflexivity|]. split; [exact G|].
        intros t' I' G'. apply in_app_or in I'. destruct I' as [I' | [<- | []]].
        -- destruct (IH t' I' G').
        -- rewrite Q0. apply leb_Fin. qlra.
    + assert (N : group t <> g).
      { intro E. apply group_eqb_eq in E. congruence. }
      destruct (fold_left _ cs None) as [b|].
      * destruct IH as [Ib [Gb Mb]]. split; [apply in_or_app; left; exact Ib|].
        split; [exact Gb|]. intros t' I' G'. apply in_app_or in I'.
        destruct I' as [I' | [<- | []]]; [exact (Mb t' I' G') | contradiction].
      * intros t' I'. apply in_app_or in I'.
        destruct I' as [I' | [<- | []]]; [exact (IH t' I') | exact N].
Qed.

(** What is selected so far: candidates, no id twice. *)
Definition sel_ok (cs selected : list SignalTemplate) : Prop :=
  incl selected cs /\ NoDup (map id selected).

Lemma is_selected_false (selected : list SignalTemplate) (t : SignalTemplate) :
  is_selected selected t = false <-> ~ In (id t) (map id selected).
Proof.
  unfold is_selected. split.
  - intros H I. apply in_map_iff in I. destruct I as [x [E I]].
    assert (X : existsb (fun x => String.eqb (id x) (id t)) selected = true).
    { apply existsb_exists. exists x. split; [exact I | apply String.eqb_eq, E]. }
    congruence.
  - intro N. destruct (existsb _ _) eqn:X; [|reflexivity].
    apply existsb_exists in X. destruct X as [x [I E]]. apply String.eqb_eq in E.
    exfalso. apply N. rewrite <- E. apply in_map, I.
Qed.

Lemma sel_ok_push (cs selected : list SignalTemplate) (t : SignalTemplate) :
  sel_ok cs selected -> In t cs -> is_selected selected t = false ->
  sel_ok cs (selected ++ [t]).
Proof.
  intros [I N] It S. split.
  - intros x Ix. apply in_app_or in Ix. destruct Ix as [Ix | [<- | []]]; auto.
  - rewrite map_app. cbn [map]. apply NoDup_app; [exact N | | ].
    + constructor; [intros [] | constructor].
    + intros x Ix [<- | []]. apply is_selected_false in S. exact (S Ix).
Qed.

Definition pick_step (cs selected : list SignalTemplate) (g : SignalGroup)
  : list SignalTemplate :=
  match pickBest cs g with
  | Some t => if negb (is_selected selected t) then selected ++ [t] else selected
  | None => selected
  end.

Lemma pick_groups_cons (d : num) (cs : list SignalTemplate) (g : SignalGroup)
    (rest : list SignalGroup) (selected : list SignalTemplate) :
  pick_groups d cs (g :: rest) selected =
  if Num.geb (Js.num_of_nat (List.length selected)) d then selected
  else pick_groups d cs rest (pick_step cs selected g).
Proof. reflexivity. Qed.

Lemma pick_step_ok (cs selected : list SignalTemplate) (g : SignalGroup) :
  Forall finite_priority cs -> sel_ok cs selected -> sel_ok cs (pick_step cs selected g).
Proof.
  intros F S. unfold pick_step. pose proof (pickBest_spec cs g F) as P.
  destruct (pickBest cs g) as [t|]; [|exact S].
  destruct (is_selected selected t) eqn:E; cbn [negb]; [exact S|].
  apply sel_ok_push; [exact S | apply P | exact E].
Qed.

Lemma pick_step_incl (cs selected : list SignalTemplate) (g : SignalGroup) :
  incl selected (pick_step cs selected g).
Proof.
  unfold pick_step. destruct (pickBest cs g) as [t|]; [|apply incl_refl].
  destruct (negb _); [apply incl_appl|]; apply incl_refl.
Qed.

Lemma pick_step_length (cs selected : list SignalTemplate) (g : SignalGroup) :
  (List.length (pick_step cs selected g) <= S (List.length selected))%nat.
Proof.
  unfold pick_step. destruct (pickBest cs g) as [t|]; [|lia].
  destruct (negb _); [rewrite length_app; cbn [List.length]|]; lia.
Qed.

Lemma pick_groups_ok (d : num) (cs : list SignalTemplate) (gs : list SignalGroup)
    (selected : list SignalTemplate) :
  Forall finite_priority cs -> sel_ok cs selected ->
  sel_ok cs (pick_groups d cs gs selected).
Proof.
  intro F. revert selected. induction gs as [|g rest IH]; intros selected S; [exact S|].
  rewrite pick_groups_cons. destruct (Num.geb _ _); [exact S|].
  apply IH, pick_step_ok; assumption.
Qed.

Lemma pick_groups_incl (d : num) (cs : list SignalTemplate) (gs : list SignalGroup)
    (selected : list SignalTemplate) :
  incl selected (pick_groups d cs gs selected).
Proof.
  revert selected. induction gs as [|g rest IH]; intro selected; [apply incl_refl|].
  rewrite pick_groups_cons. destruct (Num.geb _ _); [apply incl_refl|].
  apply (incl_tran (pick_step_incl cs selected g)), IH.
Qed.

Lemma nat_geb (n d : nat) :
  Num.geb (Js.num_of_nat n) (Js.num_of_nat d) = Nat.leb d n.
Proof.
  unfold Num.geb, Js.num_of_nat. destruct (Nat.leb_spec d n) as [L|L].
  - apply leb_Fin. rewrite <- Zle_Qle. lia.
  - apply leb_Fin_false. rewrite <- Zlt_Qlt. lia.
Qed.

Lemma pick_groups_length (d : nat) (cs : list SignalTemplate) (gs : list SignalGroup)
    (selected : list SignalTemplate) :
  (List.length selected <= d)%nat ->
  (List.length (pick_groups (Js.num_of_nat d) cs gs selected) <= d)%nat.
Proof.
  revert selected. induction gs as [|g rest IH]; intros selected L; [exact L|].
  rewrite pick_groups_cons, nat_geb. destruct (Nat.leb_spec d (List.length selected)) as [G|G];
    [exact L|].
  apply IH. pose proof (pick_step_length cs selected g). lia.
Qed.

(** While there is room for every group still to come, the best candidate of
    each group is selected. *)
Lemma pick_groups_best (d : nat) (cs : list SignalTemplate) (gs : list SignalGroup)
    (selected : list SignalTemplate) (g : SignalGroup) (b : SignalTemplate) :
  Forall finite_priority cs -> NoDup (map id cs) -> sel_ok cs selected ->
  (List.length selected + List.length gs <= d)%nat ->
  In g gs -> pickBest cs g = Some b ->
  In b (pick_groups (Js.num_of_nat d) cs gs selected).
Proof.
  intros F N. revert selected. induction gs as [|g' rest IH]; intros selected S L I P;
    [destruct I|].
  cbn [List.length] in L. rewrite pick_groups_cons, nat_geb.
  destruct (Nat.leb_spec d (List.length selected)) as [G|G]; [lia|].
  destruct I as [-> | I].
  - apply pick_groups_incl. unfold pick_step. rewrite P.
    destruct (is_selected selected b) eqn:E; cbn [negb].
    + unfold is_selected in E. apply existsb_exists in E. destruct E as [x [Ix E]].
      apply String.eqb_eq in E. destruct S as [Sc _].
      pose proof (pickBest_spec cs g F) as B. rewrite P in B. destruct B as [Ib _].
      assert (X : x = b) by exact (NoDup_map_same id cs x b N (Sc x Ix) Ib E).
      rewrite <- X. exact Ix.
    + apply in_or_app. right. left. reflexivity.
  - apply IH; [apply pick_step_ok; assumption | | exact I | exact P].
    pose proof (pick_step_length cs selected g'). lia.
Qed.

Lemma fill_incl (d : num) (remaining selected : list SignalTemplate) :
  incl selected (fill d remaining selected).
Proof.
  revert selected. induction remaining as [|t rest IH]; intro selected; [apply incl_refl|].
  cbn [fill]. destruct (Num.geb _ _); [apply incl_refl|].
  apply (incl_tran (incl_appl [t] (incl_refl selected))), IH.
Qed.

Lemma fill_ok (d : num) (cs remaining selected : list SignalTemplate) :
  incl remaining cs -> NoDup (map id remaining) ->
  (forall t, In t remaining -> is_selected selected t = false) ->
  sel_ok cs selected -> sel_ok cs (fill d remaining selected).
Proof.
  revert selected. induction remaining as [|t rest IH]; intros selected I N D S; [exact S|].
  cbn [fill]. destruct (Num.geb _ _); [exact S|].
  cbn [map] in N. inversion N as [|? ? N1 N2]; subst.
  apply IH.
  - intros x Ix. apply I. right. exact Ix.
  - exact N2.
  - intros x Ix. apply is_selected_false. rewrite map_app. cbn [map]. intro X.
    apply in_app_or in X. destruct X as [X | [X | []]].
    + pose proof (D x (or_intror Ix)) as Dx. apply is_selected_false in Dx. exact (Dx X).
    + apply N1. rewrite X. apply in_map, Ix.
  - apply sel_ok_push; [exact S | apply I; left; reflexivity | apply D; left; reflexivity].
Qed.

Lemma fill_length (d : nat) (remaining selected : list SignalTemplate) :
  (List.length selected <= d)%nat ->
  List.length (fill (Js.num_of_nat d) remaining selected)
  = Nat.min d (List.length selected + List.length remaining).
Proof.
  revert selected. induction remaining as [|t rest IH]; intros selected L; cbn [fill].
  - cbn [List.length]. lia.
  - rewrite nat_geb. destruct (Nat.leb_spec d (List.length selected)) as [G|G].
    + cbn [List.length]. lia.
    + rewrite IH; rewrite length_app; cbn [List.length]; lia.
Qed.

Lemma slice0_firstn {A : Type} (xs : list A) (e : num) :
  exists k, Js.slice0 xs e = firstn k xs.
Proof.
  unfold Js.slice0. destruct e as [| | |q].
  - exists 0%nat. reflexivity.
  - exists (List.length xs). symmetry. apply firstn_all.
  - exists 0%nat. reflexivity.
  - cbv zeta. destruct (_ <? 0)%Z; eexists; reflexivity.
Qed.

(** The templates selected, before their texts are taken and cut. *)
Definition selection (d : num) (cs : list SignalTemplate) : list SignalTemplate :=
  let selected := pick_groups d cs coreGroupOrder [] in
  let selected := pick_groups d cs fillGroupOrder selected in
  if Num.ltb (Js.num_of_nat (List.length selected)) d then
    fill d
      (Js.sort (fun a b => Num.sub (priority a) (priority b))
         (filter (fun t => negb (is_selected selected t)) cs))
      selected
  else selected.

Definition wanted (opts : SelectObservedSignalsOptions) : num :=
  match displayLines opts with Some n => n | None => Fin 4 end.

Lemma selectObservedSignals_eq (activeIds : list string) (band : Band)
    (opts : SelectObservedSignalsOptions) (r : SelectObservedSignalsResult) :
  selectObservedSignals activeIds band opts = Ok r ->
  lines r = Js.slice0 (map text (selection (wanted opts) (candidates activeIds)))
              (wanted opts).
Proof.
  unfold selectObservedSignals. cbv zeta.
  destruct (candidates_of _ activeIds) as [cs| |] eqn:C; cbn [bind]; try discriminate.
  intro H. injection H as <-. rewrite (candidates_of_Ok activeIds cs C). reflexivity.
Qed.

Lemma NoDup_map_filter {A B : Type} (keep : A -> bool) (key : A -> B) (xs : list A)
    (N : NoDup (map key xs)) :
  NoDup (map key (filter keep xs)).
Proof.
  revert N. induction xs as [|x r IH]; cbn [map filter]; intro N; [constructor|].
  inversion N as [|? ? N1 N2]; subst. destruct (keep x); cbn [map]; [|exact (IH N2)].
  constructor; [|exact (IH N2)]. intro I. apply N1.
  apply in_map_iff in I. destruct I as [y [E I]]. apply filter_In in I.
  rewrite <- E. apply in_map, I.
Qed.

Definition remaining_of (cs selected : list SignalTemplate) : list SignalTemplate :=
  Js.sort (fun a b => Num.sub (priority a) (priority b))
    (filter (fun t => negb (is_selected selected t)) cs).

Lemma remaining_perm (cs selected : list SignalTemplate) :
  Permutation (filter (fun t => negb (is_selected selected t)) cs)
              (remaining_of cs selected).
Proof. apply sort_perm. Qed.

Lemma selection_ok (d : num) (cs : list SignalTemplate) :
  Forall finite_priority cs -> NoDup (map id cs) -> sel_ok cs (selection d cs).
Proof.
  intros F N. unfold selection. cbv zeta.
  set (s2 := pick_groups d cs fillGroupOrder _).
  assert (S2 : sel_ok cs s2).
  { apply pick_groups_ok, pick_groups_ok; try exact F.
    split; [intros x [] | constructor]. }
  destruct (Num.ltb _ _); [|exact S2].
  fold (remaining_of cs s2). pose proof (remaining_perm cs s2) as P.
  apply fill_ok; try exact S2.
  - intros x I. apply (Permutation_in _ (Permutation_sym P)) in I.
    apply filter_In in I. apply I.
  - apply (Permutation_NoDup (Permutation_map id P)), NoDup_map_filter, N.
  - intros x I. apply (Permutation_in _ (Permutation_sym P)) in I.
    apply filter_In in I. destruct I as [_ I]. apply negb_true_iff, I.
Qed.

Lemma selected_count (cs selected : list SignalTemplate) :
  sel_ok cs selected -> NoDup (map id cs) ->
  List.length (filter (is_selected selected) cs) = List.length selected.
Proof.
  intros [I N] C.
  rewrite <- (length_map id (filter _ cs)), <- (length_map id selected).
  apply Permutation_length, NoDup_Permutation;
    [apply NoDup_map_filter, C | exact N |].
  intro i. split; intro H; apply in_map_iff in H; destruct H as [t [<- H]].
  - apply filter_In in H. destruct H as [_ H]. unfold is_selected in H.
    apply existsb_exists in H. destruct H as [x [Ix E]]. apply String.eqb_eq in E.
    rewrite <- E. apply in_map, Ix.
  - apply in_map, filter_In. split; [apply I, H|].
    apply existsb_exists. exists t. split; [exact H | apply String.eqb_refl].
Qed.

Lemma selection_length (d : nat) (cs : list SignalTemplate) :
  Forall finite_priority cs -> NoDup (map id cs) ->
  List.length (selection (Js.num_of_nat d) cs) = Nat.min d (List.length cs).
Proof.
  intros F N. unfold selection. cbv zeta.
  set (s2 := pick_groups (Js.num_of_nat d) cs fillGroupOrder _).
  assert (S2 : sel_ok cs s2).
  { apply pick_groups_ok, pick_groups_ok; try exact F.
    split; [intros x [] | constructor]. }
  assert (L2 : (List.length s2 <= d)%nat).
  { apply pick_groups_length, pick_groups_length. cbn [List.length]. lia. }
  assert (LC : (List.length s2 <= List.length cs)%nat).
  { apply NoDup_incl_length; [|apply S2].
    destruct S2 as [_ M]. apply NoDup_map_inv in M. exact M. }
  rewrite num_of_nat_ltb. destruct (Nat.ltb_spec (List.length s2) d) as [G|G]; [|lia].
  fold (remaining_of cs s2). rewrite fill_length by exact L2.
  rewrite <- (Permutation_length (remaining_perm cs s2)).
  pose proof (filter_length (is_selected s2) cs) as FL.
  rewrite (selected_count cs s2 S2 N) in FL. lia.
Qed.

Lemma selection_incl_core (d : nat) (cs : list SignalTemplate) :
  incl (pick_groups (Js.num_of_nat d) cs coreGroupOrder []) (selection (Js.num_of_nat d) cs).
Proof.
  unfold selection. cbv zeta.
  set (s1 := pick_groups _ cs coreGroupOrder []).
  set (s2 := pick_groups _ cs fillGroupOrder s1).
  assert (I : incl s1 s2) by apply pick_groups_incl.
  destruct (Num.ltb _ _); [|exact I].
  apply (incl_tran I), fill_incl.
Qed.

Lemma lines_sound (activeIds : list string) (l : string) (d : num) :
  In l (map text (selection d (candidates activeIds))) ->
  exists t,
    In t buildSignalLibraryV1_S1toS18 /\ In (id t) activeIds /\ text t = l.
Proof.
  intro I. apply in_map_iff in I. destruct I as [t [E I]].
  assert (C : In t (candidates activeIds)).
  { unfold selection in I. cbv zeta in I.
    set (s2 := pick_groups d _ fillGroupOrder _) in I.
    assert (S2 : incl s2 (candidates activeIds)).
    { apply (pick_groups_ok d _ fillGroupOrder), (pick_groups_ok d _ coreGroupOrder);
        try apply candidates_finite.
      split; [intros x [] | constructor]. }
    destruct (Num.ltb _ _); [|exact (S2 t I)].
    fold (remaining_of (candidates activeIds) s2) in I.
    assert (R : forall rem sel x, In x (fill d rem sel) -> In x rem \/ In x sel).
    { clear. induction rem as [|y r IH]; intros sel x H; cbn [fill] in H; [right; exact H|].
      destruct (Num.geb _ _); [right; exact H|].
      destruct (IH _ _ H) as [H' | H']; [left; right; exact H'|].
      apply in_app_or in H'. destruct H' as [H' | [<- | []]];
        [right; exact H' | left; left; reflexivity]. }
    destruct (R _ _ _ I) as [J | J]; [|exact (S2 t J)].
    apply (Permutation_in _ (Permutation_sym (remaining_perm _ s2))) in J.
    apply filter_In in J. apply J. }
  apply candidates_in_lib in C. exists t. tauto.
Qed.

(** When no active id names a member that objects inherit (such as
    "toString"), the selection returns; the lines returned are texts of
    library templates whose ids are active, no line comes twice, there are
    no more lines than active ids that the library knows, and no more than
    [displayLines] when that is a number from 0 up (4 when it is not
    given). *)
Theorem selectObservedSignals_sound (activeIds : list string) (band : Band)
    (opts : SelectObservedSignalsOptions) :
  NoDup activeIds ->
  own_ids activeIds ->
  exists r,
    selectObservedSignals activeIds band opts = Ok r
    /\ NoDup (lines r)
    /\ (forall l, In l (lines r) ->
          exists t,
            In t buildSignalLibraryV1_S1toS18 /\ In (id t) activeIds /\ text t = l)
    /\ (List.length (lines r) <= List.length (filter known_id activeIds))%nat
    /\ (forall q, wanted opts = Fin q -> 0 <= q ->
          inject_Z (Z.of_nat (List.length (lines r))) <= q).
Proof.
  intros N O. destruct (selectObservedSignals_returns activeIds band opts O) as [r H].
  exists r. split; [exact H|].
  pose proof (selectObservedSignals_eq activeIds band opts r H) as E.
  set (cs := candidates activeIds) in *.
  assert (F : Forall finite_priority cs) by apply candidates_finite.
  assert (NC : NoDup (map id cs)).
  { unfold cs. rewrite candidates_ids. apply NoDup_filter, N. }
  destruct (selection_ok (wanted opts) cs F NC) as [SI SN].
  assert (ST : NoDup (map text (selection (wanted opts) cs))).
  { apply NoDup_map_on; [|exact (NoDup_map_inv _ _ SN)].
    intros x y Ix Iy. apply (NoDup_map_same text buildSignalLibraryV1_S1toS18 x y lib_texts_NoDup).
    - exact (proj1 (candidates_in_lib activeIds x (SI x Ix))).
    - exact (proj1 (candidates_in_lib activeIds y (SI y Iy))). }
  destruct (slice0_firstn (map text (selection (wanted opts) cs)) (wanted opts)) as [k K].
  split; [|split; [|split]].
  - rewrite E, K. apply NoDup_firstn, ST.
  - intros l I. rewrite E, K in I. apply firstn_incl in I.
    exact (lines_sound activeIds l (wanted opts) I).
  - rewrite E, K, length_firstn, length_map.
    assert (LC : (List.length (selection (wanted opts) cs) <= List.length cs)%nat).
    { apply NoDup_incl_length; [exact (NoDup_map_inv _ _ SN) | exact SI]. }
    rewrite <- candidates_ids, length_map. fold cs. lia.
  - intros q W Q0. rewrite E, W. unfold Js.slice0. cbv zeta.
    assert (X : Num.Qltb q 0 = false) by (apply Qltb_false; exact Q0).
    rewrite X.
    assert (Z0 : (0 <= Qfloor q)%Z) by (apply (Qfloor_resp_le 0); exact Q0).
    destruct (Z.ltb_spec (Qfloor q) 0) as [L|L]; [lia|].
    apply (Qle_trans _ (inject_Z (Qfloor q))); [|apply Qfloor_le].
    rewrite <- Zle_Qle, length_firstn. lia.
Qed.

(** Options that ask for a whole number of lines, or leave the number
    out. *)
Definition whole_lines (n : option nat) (p : option InsufficientPolicy)
  : SelectObservedSignalsOptions :=
  {| displayLines := option_map Js.num_of_nat n; insufficientPolicy := p |}.

Definition lines_wanted (n : option nat) : nat :=
  match n with Some d => d | None => 4%nat end.

Lemma wanted_whole (n : option nat) (p : option InsufficientPolicy) :
  wanted (whole_lines n p) = Js.num_of_nat (lines_wanted n).
Proof. destruct n; reflexivity. Qed.

(** When no active id names a member that objects inherit and a whole
    number of lines is asked for (4 when none is), the selection returns
    and its lines are short of that number only when fewer active ids are
    known to the library; and with four lines or more, each of the four
    core groups that has an active template is represented by one with the
    lowest priority number of its group. *)
Theorem selectObservedSignals_complete (activeIds : list string) (band : Band)
    (n : option nat) (p : option InsufficientPolicy) :
  NoDup activeIds ->
  own_ids activeIds ->
  exists r,
    selectObservedSignals activeIds band (whole_lines n p) = Ok r
    /\ List.length (lines r)
       = Nat.min (lines_wanted n) (List.length (filter known_id activeIds))
    /\ ((4 <= lines_wanted n)%nat ->
        forall g t,
          In g coreGroupOrder ->
          In t buildSignalLibraryV1_S1toS18 -> In (id t) activeIds -> group t = g ->
          exists b,
            In b buildSignalLibraryV1_S1toS18 /\ In (id b) activeIds /\ group b = g
            /\ In (text b) (lines r)
            /\ (forall t',
                  In t' buildSignalLibraryV1_S1toS18 -> In (id t') activeIds ->
                  group t' = g -> Num.leb (priority b) (priority t') = true)).
Proof.
  intros N O.
  destruct (selectObservedSignals_returns activeIds band (whole_lines n p) O) as [r H].
  exists r. split; [exact H|].
  pose proof (selectObservedSignals_eq activeIds band _ r H) as E.
  rewrite wanted_whole, slice0_nat in E.
  set (d := lines_wanted n) in *. set (cs := candidates activeIds) in *.
  assert (F : Forall finite_priority cs) by apply candidates_finite.
  assert (NC : NoDup (map id cs)).
  { unfold cs. rewrite candidates_ids. apply NoDup_filter, N. }
  pose proof (selection_length d cs F NC) as L.
  assert (LC : List.length cs = List.length (filter known_id activeIds)).
  { rewrite <- (length_map id cs). unfold cs. rewrite candidates_ids. reflexivity. }
  assert (A : firstn d (map text (selection (Js.num_of_nat d) cs))
              = map text (selection (Js.num_of_nat d) cs)).
  { apply firstn_all2. rewrite length_map. lia. }
  rewrite A in E. split.
  - rewrite E, length_map, L, LC. reflexivity.
  - intros D g t G T I Gt.
    assert (C : In t cs) by (apply in_lib_candidates; assumption).
    pose proof (pickBest_spec cs g F) as B.
    destruct (pickBest cs g) as [b|] eqn:P; [|destruct (B t C Gt)].
    destruct B as [Ib [Gb Mb]]. exists b.
    destruct (candidates_in_lib activeIds b Ib) as [Lb Ab].
    split; [exact Lb|]. split; [exact Ab|]. split; [exact Gb|]. split.
    + rewrite E. apply in_map, (selection_incl_core d cs).
      apply (pick_groups_best d cs coreGroupOrder [] g b F NC); try assumption.
      split; [intros x [] | constructor].
    + intros t' T' I' G'. apply Mb; [apply in_lib_candidates; assumption | exact G'].
Qed.

(** The lines that an exported record holds under its keys 1 to 4, an
    empty string standing for no line. *)
Definition rc_lines (j : value) : list string :=
  flat_map
    (fun k =>
       match j.["rc"].["observed_structural_signals"].[k] with
       | VStr s => if String.eqb s EmptyString then [] else [s]
       | _ => []
       end)
    ["1"; "2"; "3"; "4"].

Lemma rc_lines_toRcJson (ls : list string) :
  Forall (fun s => String.eqb s EmptyString = false) ls ->
  rc_lines (toRcJson {| lines := ls |}) = firstn 4 ls.
Proof.
  intro F. unfold rc_lines, toRcJson. cbn [lines].
  destruct ls as [|a [|b [|c [|d rest]]]];
    repeat match goal with
           | H : Forall _ (_ :: _) |- _ =>
               let H1 := fresh in let H2 := fresh in
               inversion H as [|? ? H1 H2]; subst; clear H
           end;
    cbn; repeat match goal with E : String.eqb _ EmptyString = false |- _ =>
                                  rewrite E; clear E end; reflexivity.
Qed.

(** When no active id names a member that objects inherit, exporting the
    selection and reading the record back gives the first four of the
    selected lines, and all of them when the number of lines was left at
    its default. *)
Theorem toRcJson_round_trip (activeIds : list string) (band : Band)
    (opts : SelectObservedSignalsOptions) :
  own_ids activeIds ->
  exists r,
    selectObservedSignals activeIds band opts = Ok r
    /\ rc_lines (toRcJson r) = firstn 4 (lines r)
    /\ (displayLines opts = None -> rc_lines (toRcJson r) = lines r).
Proof.
  intro O. destruct (selectObservedSignals_returns activeIds band opts O) as [r H].
  exists r. split; [exact H|].
  pose proof (selectObservedSignals_eq activeIds band opts r H) as E.
  assert (T : rc_lines (toRcJson r) = firstn 4 (lines r)).
  { destruct r as [ls]. cbn [lines] in *. apply rc_lines_toRcJson.
    destruct (slice0_firstn (map text (selection (wanted opts) (candidates activeIds)))
                (wanted opts)) as [k K].
    rewrite E, K. apply Forall_forall. intros l I. apply firstn_incl in I.
    destruct (lines_sound activeIds l (wanted opts) I) as [t [L [_ <-]]].
    exact (proj1 (Forall_forall _ _) lib_texts_nonempty t L). }
  split; [exact T|].
  intro D. rewrite T. apply firstn_all2. rewrite E. unfold wanted. rewrite D.
  change (Fin 4) with (Js.num_of_nat 4). rewrite slice0_nat. apply firstn_le_length.
Qed.

(** The active ids of the example in the source, with one id the library
    does not know. *)
Definition sample_active : list string :=
  ["S1"; "S2"; "S5"; "S9"; "S14"; "S11"; "S17"; "S99"].

Definition default_options : SelectObservedSignalsOptions := whole_lines None None.

Definition sample_selection : SelectObservedSignalsResult :=
  {| lines :=
       ["Revision activity occurs at semantic decision boundaries.";
        "Consistency checks appear across structural transitions.";
        "Counter-arguments are explicitly addressed through refutational reasoning.";
        "No sustained repetitive propagation is observed across reasoning segments."] |}.

Lemma sample_active_own : own_ids sample_active.
Proof. intros i I. repeat (destruct I as [<-|I]; [reflexivity|]). destruct I. Qed.

Lemma selectObservedSignals_sound_witness :
  exists r,
    selectObservedSignals sample_active HIGH default_options = Ok r
    /\ NoDup (lines r)
    /\ (forall l, In l (lines r) ->
          exists t,
            In t buildSignalLibraryV1_S1toS18 /\ In (id t) sample_active /\ text t = l)
    /\ (List.length (lines r) <= List.length (filter known_id sample_active))%nat
    /\ (forall q, wanted default_options = Fin q -> 0 <= q ->
          inject_Z (Z.of_nat (List.length (lines r))) <= q).
Proof.
  apply (selectObservedSignals_sound sample_active HIGH default_options).
  - apply distinctb_NoDup. vm_compute. reflexivity.
  - exact sample_active_own.
Defined.

Lemma sample_selection_selected :
  selectObservedSignals sample_active HIGH default_options = Ok sample_selection.
Proof. vm_compute. reflexivity. Qed.

Definition sample_six : SelectObservedSignalsResult :=
  {| lines :=
       (lines sample_selection
        ++ ["Multiple evidence types are integrated within the reasoning structure.";
            "Structural behavior reflects document-specific reasoning rather than generic composition patterns."])%list |}.

Lemma sample_six_selected :
  selectObservedSignals sample_active MEDIUM (whole_lines (Some 6%nat) (Some shorten))
  = Ok sample_six.
Proof. vm_compute. reflexivity. Qed.

Lemma selectObservedSignals_complete_witness :
  exists r,
    selectObservedSignals sample_active MEDIUM (whole_lines (Some 6%nat) (Some shorten))
    = Ok r
    /\ List.length (lines r)
       = Nat.min (lines_wanted (Some 6%nat)) (List.length (filter known_id sample_active))
    /\ ((4 <= lines_wanted (Some 6%nat))%nat ->
        forall g t,
          In g coreGroupOrder ->
          In t buildSignalLibraryV1_S1toS18 -> In (id t) sample_active -> group t = g ->
          exists b,
            In b buildSignalLibraryV1_S1toS18 /\ In (id b) sample_active /\ group b = g
            /\ In (text b) (lines r)
            /\ (forall t',
                  In t' buildSignalLibraryV1_S1toS18 -> In (id t') sample_active ->
                  group t' = g -> Num.leb (priority b) (priority t') = true)).
Proof.
  apply (selectObservedSignals_complete sample_active MEDIUM (Some 6%nat) (Some shorten)).
  - apply distinctb_NoDup. vm_compute. reflexivity.
  - exact sample_active_own.
Defined.

Lemma toRcJson_round_trip_witness :
  exists r,
    selectObservedSignals sample_active LOW default_options = Ok r
    /\ rc_lines (toRcJson r) = firstn 4 (lines r)
    /\ (displayLines default_options = None -> rc_lines (toRcJson r) = lines r).
Proof.
  apply (toRcJson_round_trip sample_active LOW default_options).
  exact sample_active_own.
Defined.

End SignalFacts.

(** ** The reasoning control distribution: label and shares *)

Section DistributionFacts.

Local Open Scope Q_scope.
Local Open Scope string_scope.

Import Distribution.

Lemma dist_clamp01_in01 (x : num) : in01 (clamp01 x).
Proof.
  unfold in01, clamp01, Num.gtb, Num.ltb.
  destruct x as [| | |q]; cbn [Num.isFinite];
    try (exists 0; split; [reflexivity | split; discriminate]).
  q_cases; eexists; (split; [reflexivity|]); qlra.
Qed.

Lemma dist_clamp01_id (q : Q) : 0 <= q <= 1 -> clamp01 (Fin q) = Fin q.
Proof.
  intros [L U]. unfold clamp01, Num.gtb. cbn [Num.isFinite Num.ltb].
  q_cases; try reflexivity; exfalso; qlra.
Qed.

(** The four conditions on the indicators under which a middle probability
    is read as hybrid control. *)
Definition hybrid_profile (c : CFV) : Prop :=
  Num.ltb (clamp01 (rdx c)) TH_rdx_low = true
  /\ Num.geb (clamp01 (hi c)) TH_hi_mid = true
  /\ Num.geb (clamp01 (aas c)) TH_aas_human_like = true
  /\ Num.geb (clamp01 (eds c)) TH_eds_ai_like = true.

Lemma andb_chain (g b1 b2 b3 b4 : bool) :
  g && b1 && b2 && b3 && b4 = true <-> g = true /\ b1 = true /\ b2 = true /\ b3 = true /\ b4 = true.
Proof. destruct g, b1, b2, b3, b4; cbn; intuition discriminate. Qed.

(** Case analysis on [x <= y] for two numbers known to be finite. *)
Ltac leb_split Hx Hy :=
  match type of Hx with
  | fin_eq ?x _ =>
      match type of Hy with
      | fin_eq ?y _ =>
          let G := fresh "G" in
          destruct (Num.leb x y) eqn:G;
          [apply (fin_eq_leb Hx Hy) in G | apply (fin_eq_leb_false Hx Hy) in G]
      end
  end.

Lemma label_spec (cfv0 : CFV) (pHuman01 : num) :
  exists q,
    clamp01 pHuman01 = Fin q /\ 0 <= q <= 1
    /\ (determineLabelFromProbs cfv0 pHuman01 = Hybrid
        <-> 0.45 <= q <= 0.65 /\ hybrid_profile cfv0)
    /\ (determineLabelFromProbs cfv0 pHuman01 = Human
        <-> 0.5 <= q /\ ~ (q <= 0.65 /\ hybrid_profile cfv0))
    /\ (determineLabelFromProbs cfv0 pHuman01 = AI
        <-> q < 0.5 /\ ~ (0.45 <= q /\ hybrid_profile cfv0)).
Proof.
  destruct (dist_clamp01_in01 pHuman01) as [q [E [L U]]].
  exists q. split; [exact E|]. split; [split; assumption|].
  unfold determineLabelFromProbs. cbv zeta. rewrite E.
  assert (A : exists a, clamp01 (Num.sub (Fin 1) (Fin q)) = Fin a /\ a == 1 - q).
  { eexists. split.
    - unfold Num.sub, Num.add, Num.neg, lit. apply dist_clamp01_id. q_red. qlra.
    - q_red. qlra. }
  destruct A as [a [-> Ea]].
  pose proof (fin_eq_Fin q) as Fq.
  assert (Fa : fin_eq (Fin a) (1 - q)) by exact Ea.
  pose proof (fin_eq_lit 0.75) as F75. pose proof (fin_eq_lit 0.45) as F45.
  pose proof (fin_eq_lit 0.35) as F35.
  unfold Num.geb.
  leb_split F75 Fq.
  { intuition (try discriminate; try qlra). }
  leb_split F45 Fq.
  2: { intuition (try discriminate; try qlra). }
  match goal with
  | |- context [negb ?c] =>
      assert (C : c = true <-> q <= 0.65 /\ hybrid_profile cfv0)
  end.
  { rewrite andb_chain, andb_true_iff, (fin_eq_leb F35 Fq), (fin_eq_leb F35 Fa).
    unfold hybrid_profile, Num.geb.
    intuition qlra. }
  match goal with |- context [negb ?c] => destruct c end; cbn [negb].
  - assert (C' : q <= 0.65 /\ hybrid_profile cfv0) by (apply C; reflexivity).
    intuition (try discriminate; try qlra).
  - assert (C' : ~ (q <= 0.65 /\ hybrid_profile cfv0)).
    { intro X. apply C in X. discriminate. }
    leb_split Fa Fq; try (assert (q <= 0.65) by qlra);
      intuition (try discriminate; try qlra).
Qed.

(** The label follows the clamped probability [q] of human control: Hybrid
    exactly when [q] lies between 0.45 and 0.65 and the indicators have the
    hybrid profile; otherwise Human when [q] is at least one half, and AI
    when it is below. *)
Theorem determineLabelFromProbs_cases (cfv0 : CFV) (pHuman01 : num) :
  exists q,
    clamp01 pHuman01 = Fin q /\ 0 <= q <= 1
    /\ (determineLabelFromProbs cfv0 pHuman01 = Hybrid
        <-> 0.45 <= q <= 0.65 /\ hybrid_profile cfv0)
    /\ (determineLabelFromProbs cfv0 pHuman01 = Human
        <-> 0.5 <= q /\ ~ (q <= 0.65 /\ hybrid_profile cfv0))
    /\ (determineLabelFromProbs cfv0 pHuman01 = AI
        <-> q < 0.5 /\ ~ (0.45 <= q /\ hybrid_profile cfv0)).
Proof. exact (label_spec cfv0 pHuman01). Qed.

Lemma dist_clamp01_fin (x : num) (v : Q) :
  fin_eq x v -> 0 <= v <= 1 -> fin_eq (clamp01 x) v.
Proof.
  intros F [L U]. destruct x as [| | |y]; try contradiction. unfold fin_eq in F.
  rewrite dist_clamp01_id; [exact F | rewrite F; split; assumption].
Qed.

Lemma min_cases (x y : num) (a b : Q) :
  fin_eq x a -> fin_eq y b ->
  exists m, fin_eq (Num.min x y) m /\ ((m == a /\ a <= b) \/ (m == b /\ b < a)).
Proof.
  intros Hx Hy. pose proof (fin_eq_min x y a b Hx Hy) as M.
  destruct (Qle_bool a b) eqn:E.
  - exists a. split; [exact M|]. left. split; [reflexivity | apply Qle_bool_iff, E].
  - exists b. split; [exact M|]. right. split; [reflexivity|].
    apply Qnot_le_lt. intro C. apply Qle_bool_iff in C. congruence.
Qed.

Lemma pct_zero (x : num) : fin_eq x 0 -> pct x = "0%".
Proof.
  intro F. unfold pct.
  assert (R : 0 <= 0 <= 1) by (split; discriminate).
  pose proof (dist_clamp01_fin x 0 F R) as C.
  destruct (clamp01 x) as [| | |y]; try contradiction. unfold fin_eq in C.
  cbn [Num.mul]. unfold lit. cbn [Num.round].
  assert (Z0 : Qfloor (Qred (y * 100) + (1 # 2)) = 0%Z).
  { rewrite (Qfloor_comp _ (1 # 2)); [reflexivity|]. q_red. rewrite C. reflexivity. }
  rewrite Z0. reflexivity.
Qed.

Lemma normalize3_zero (a b c : num) (va vb vc : Q) :
  fin_eq a va -> fin_eq b vb -> fin_eq c vc ->
  0 <= va <= 1 -> 0 <= vb <= 1 -> 0 <= vc <= 1 -> 0 < va + vb + vc ->
  (va == 0 -> fin_eq (t_a (normalize3 a b c)) 0)
  /\ (vc == 0 -> fin_eq (t_c (normalize3 a b c)) 0).
Proof.
  intros Fa Fb Fc Ra Rb Rc S. unfold normalize3. cbv zeta.
  pose proof (dist_clamp01_fin a va Fa Ra) as Ca.
  pose proof (dist_clamp01_fin b vb Fb Rb) as Cb.
  pose proof (dist_clamp01_fin c vc Fc Rc) as Cc.
  pose proof (fin_eq_add (fin_eq_add Ca Cb) Cc) as Fs.
  assert (G : Num.leb (Num.add (Num.add (clamp01 a) (clamp01 b)) (clamp01 c)) (Fin 0) = false).
  { apply (fin_eq_leb_false Fs (fin_eq_Fin 0)). exact S. }
  rewrite G. cbn [t_a t_c].
  assert (N : ~ va + vb + vc == 0) by (intro Z; rewrite Z in S; discriminate).
  split; intro Z.
  - apply (fin_eq_compat (fin_eq_div Ca Fs N)). rewrite Z. unfold Qdiv. apply Qmult_0_l.
  - apply (fin_eq_compat (fin_eq_div Cc Fs N)). rewrite Z. unfold Qdiv. apply Qmult_0_l.
Qed.

(** The distribution never shows a share for both ends: under the label
    Human the AI share is 0%, under the label AI the Human share is 0%, and
    under Hybrid one of the two is.  This holds whatever [Math.exp]
    returns. *)
Theorem buildReasoningControlDistribution_shares
    (exp : num -> num) (input : RcInferenceInput) :
  let out := buildReasoningControlDistribution exp input in
  (final_determination out = Human -> d_AI out = "0%")
  /\ (final_determination out = AI -> d_Human out = "0%")
  /\ (d_Human out = "0%" \/ d_AI out = "0%").
Proof.
  unfold buildReasoningControlDistribution. cbv zeta.
  set (pH := computePHumanFromCFV exp (cfv input) (model input)).
  assert (P : in01 pH) by apply dist_clamp01_in01.
  destruct P as [q [E [L U]]].
  destruct (label_spec (cfv input) pH) as [q' [E' [_ [LH [LU LA]]]]].
  assert (I : clamp01 pH = pH).
  { rewrite E. apply dist_clamp01_id. split; assumption. }
  rewrite I, E in E'. injection E' as <-. clear I.
  rewrite E in *. clear E. clearbody pH. clear pH.
  pose proof (fin_eq_Fin q) as Fq.
  assert (Fa : fin_eq (clamp01 (Num.sub (Fin 1) (Fin q))) (1 - q)).
  { apply dist_clamp01_fin; [apply fin_eq_sub; apply fin_eq_Fin | split; qlra]. }
  set (pA := clamp01 (Num.sub (Fin 1) (Fin q))) in *. clearbody pA.
  destruct (min_cases (Fin q) pA q (1 - q) Fq Fa) as [m [Fm M]].
  set (mn := Num.min (Fin q) pA) in *. clearbody mn.
  destruct (determineLabelFromProbs (cfv input) (Fin q)) eqn:D;
    cbn [final_determination d_Human d_AI].
  - (* Human *)
    assert (Q2 : 0.5 <= q) by (apply LU; reflexivity).
    assert (Em : m == 1 - q) by (destruct M as [[? ?]|[? ?]]; qlra).
    assert (Ry : 0 <= 1 - q <= 1) by (split; qlra).
    assert (Rh : 0 <= q - (1 - q) <= 1) by (split; qlra).
    assert (Ri : 0 <= 0 <= 1) by (split; qlra).
    assert (Ei : 1 - q - (1 - q) == 0) by qlra.
    pose proof (dist_clamp01_fin mn (1 - q) (fin_eq_compat Fm Em) Ry) as Fy.
    pose proof (dist_clamp01_fin _ _ (fin_eq_sub _ _ _ _ Fq Fy) Rh) as Fh.
    pose proof (dist_clamp01_fin _ _ (fin_eq_compat (fin_eq_sub _ _ _ _ Fa Fy) Ei) Ri) as Fi.
    assert (S : 0 < q - (1 - q) + (1 - q) + 0) by qlra.
    destruct (normalize3_zero _ _ _ _ _ _ Fh Fy Fi Rh Ry Ri S) as [_ Z].
    assert (X : pct (t_c (normalize3 (clamp01 (Num.sub (Fin q) (clamp01 mn))) (clamp01 mn)
                            (clamp01 (Num.sub pA (clamp01 mn))))) = "0%")
      by (apply pct_zero, Z; reflexivity).
    split; [intros _; exact X|]. split; [discriminate | right; exact X].
  - (* Hybrid *)
    assert (Q2 : 0.45 <= q <= 0.65) by (apply LH; reflexivity).
    assert (Rm : 0.35 <= m <= 0.5) by (destruct M as [[? ?]|[? ?]]; split; qlra).
    assert (Ry : 0 <= 2 * m <= 1) by (split; qlra).
    assert (Rh : 0 <= q - m <= 1) by (destruct M as [[? ?]|[? ?]]; split; qlra).
    assert (Ri : 0 <= 1 - q - m <= 1) by (destruct M as [[? ?]|[? ?]]; split; qlra).
    assert (N2 : ~ 2 == 0) by discriminate.
    assert (E2 : 2 * m / 2 == m) by (field).
    pose proof (dist_clamp01_fin _ _ (fin_eq_mul (fin_eq_Fin 2) Fm) Ry) as Fy.
    pose proof (fin_eq_compat (fin_eq_div Fy (fin_eq_Fin 2) N2) E2) as F2.
    pose proof (dist_clamp01_fin _ _ (fin_eq_sub _ _ _ _ Fq F2) Rh) as Fh.
    pose proof (dist_clamp01_fin _ _ (fin_eq_sub _ _ _ _ Fa F2) Ri) as Fi.
    assert (S : 0 < q - m + 2 * m + (1 - q - m)) by qlra.
    destruct (normalize3_zero _ _ _ _ _ _ Fh Fy Fi Rh Ry Ri S) as [Zh Zi].
    split; [discriminate|]. split; [discriminate|].
    destruct M as [[Em _]|[Em _]].
    + left. apply pct_zero, Zh. qlra.
    + right. apply pct_zero, Zi. qlra.
  - (* AI *)
    assert (Q2 : q < 0.5) by (apply LA; reflexivity).
    assert (Em : m == q) by (destruct M as [[? ?]|[? ?]]; qlra).
    assert (Ry : 0 <= q <= 1) by (split; qlra).
    assert (Ri : 0 <= 1 - q - q <= 1) by (split; qlra).
    assert (Rh : 0 <= 0 <= 1) by (split; qlra).
    assert (Eh : q - q == 0) by qlra.
    pose proof (dist_clamp01_fin mn q (fin_eq_compat Fm Em) Ry) as Fy.
    pose proof (dist_clamp01_fin _ _ (fin_eq_sub _ _ _ _ Fa Fy) Ri) as Fi.
    pose proof (dist_clamp01_fin _ _ (fin_eq_compat (fin_eq_sub _ _ _ _ Fq Fy) Eh) Rh) as Fh.
    assert (S : 0 < 0 + q + (1 - q - q)) by qlra.
    destruct (normalize3_zero _ _ _ _ _ _ Fh Fy Fi Rh Ry Ri S) as [Z _].
    assert (X : pct (t_a (normalize3 (clamp01 (Num.sub (Fin q) (clamp01 mn))) (clamp01 mn)
                            (clamp01 (Num.sub pA (clamp01 mn))))) = "0%")
      by (apply pct_zero, Z; reflexivity).
    split; [discriminate|]. split; [intros _; exact X | left; exact X].
Qed.

End DistributionFacts.

(** ** Segments of a document and chains of transitions *)

Section AgencyFacts.

Local Open Scope Q_scope.

Import Agency.

Lemma Qred_inject_Z (n : Z) : Qred (inject_Z n) = inject_Z n.
Proof.
  unfold Qred, inject_Z.
  pose proof (Z.ggcd_gcd n 1) as G. pose proof (Z.ggcd_correct_divisors n 1) as D.
  destruct (Z.ggcd n 1) as [g [a b]]. cbn [fst snd] in *.
  rewrite Z.gcd_1_r in G. subst g. destruct D as [D1 D2].
  rewrite Z.mul_1_l in D1, D2. subst a b. reflexivity.
Qed.

Lemma lit_Z (q : Q) (n : Z) : q == inject_Z n -> lit q = Fin (inject_Z n).
Proof.
  intro E. unfold lit. f_equal. rewrite (Qred_complete _ _ E).
  apply Qred_inject_Z.
Qed.

Lemma Qfloor_div_Z (a b : Z) : (0 < b)%Z -> Qfloor (inject_Z a / inject_Z b) = (a / b)%Z.
Proof.
  intro B. rewrite (Qfloor_comp _ (a # Z.to_pos b)).
  - cbn. rewrite Z2Pos.id by exact B. reflexivity.
  - unfold Qeq, Qdiv, Qmult, Qinv, inject_Z. cbn.
    destruct b as [|p|p]; try lia. cbn. lia.
Qed.

Lemma floor_fin (x : num) (a : Q) : fin_eq x a -> Num.floor x = Fin (inject_Z (Qfloor a)).
Proof.
  intro F. destruct x as [| | |y]; try contradiction. unfold fin_eq in F.
  cbn [Num.floor]. rewrite (Qfloor_comp _ _ F). reflexivity.
Qed.

Lemma max1_floor (x : Q) :
  Num.max (Fin 1) (Num.floor (Fin x)) = Fin (inject_Z (Z.max 1 (Qfloor x))).
Proof.
  cbn [Num.floor Num.max Num.ltb].
  destruct (Num.Qltb 1 (inject_Z (Qfloor x))) eqn:E.
  - apply Qltb_true in E. rewrite <- (Zlt_Qlt 1) in E.
    rewrite Z.max_r by lia. reflexivity.
  - apply Qltb_false in E. rewrite <- (Zle_Qle _ 1) in E.
    rewrite Z.max_l by lia. reflexivity.
Qed.

(** The bound of segment [i] of [k] over [u] units. *)
Definition bound (u k i : Z) : Z := (i * u / k)%Z.

Lemma floor_bound (u k i : Z) (x : num) :
  (0 < k)%Z -> fin_eq x (inject_Z i) ->
  Num.floor (Num.div (Num.mul x (Fin (inject_Z u))) (Fin (inject_Z k)))
  = Fin (inject_Z (bound u k i)).
Proof.
  intros K F.
  assert (N : ~ inject_Z k == 0).
  { intro HZ. unfold Qeq in HZ. cbn in HZ. lia. }
  rewrite (floor_fin _ _ (fin_eq_div (fin_eq_mul F (fin_eq_Fin (inject_Z u)))
                            (fin_eq_Fin (inject_Z k)) N)).
  rewrite <- inject_Z_mult, Qfloor_div_Z by exact K. reflexivity.
Qed.

Lemma bound_step (u k i : Z) :
  (0 < k)%Z -> (0 <= u)%Z ->
  (u / k <= bound u k (i + 1) - bound u k i <= u / k + 1)%Z.
Proof.
  intros K U. unfold bound.
  replace ((i + 1) * u)%Z with (i * u + u)%Z by ring.
  assert (Kn : k <> 0%Z) by lia.
  pose proof (Z.div_mod (i * u) k Kn) as E1.
  pose proof (Z.mod_pos_bound (i * u) k K) as B1.
  pose proof (Z.div_mod u k Kn) as E2.
  pose proof (Z.mod_pos_bound u k K) as B2.
  pose proof (Z.div_mod (i * u + u) k Kn) as E3.
  pose proof (Z.mod_pos_bound (i * u + u) k K) as B3.
  nia.
Qed.

Lemma range_at_bounds (u k : Z) (i : nat) :
  (0 < k)%Z -> (0 <= u)%Z ->
  range_at (Fin (inject_Z u)) (Fin (inject_Z k)) (Js.num_of_nat i)
  = {| start := Fin (inject_Z (bound u k (Z.of_nat i)));
       end_ := Fin (inject_Z (bound u k (Z.of_nat i + 1)));
       len := Fin (inject_Z (bound u k (Z.of_nat i + 1) - bound u k (Z.of_nat i))) |}.
Proof.
  intros K U. unfold range_at. cbv zeta.
  rewrite (floor_bound u k (Z.of_nat i) (Js.num_of_nat i) K (fin_eq_Fin _)).
  assert (F1 : fin_eq (Num.add (Js.num_of_nat i) (Fin 1)) (inject_Z (Z.of_nat i + 1))).
  { apply (fin_eq_compat (fin_eq_add (fin_eq_Fin _) (fin_eq_Fin 1))).
    rewrite inject_Z_plus. reflexivity. }
  rewrite (floor_bound u k (Z.of_nat i + 1) _ K F1).
  pose proof (bound_step u k (Z.of_nat i) K U) as St.
  pose proof (Z.div_pos u k U K) as D.
  set (s := bound u k (Z.of_nat i)) in *. set (e := bound u k (Z.of_nat i + 1)) in *.
  assert (X : Num.sub (Fin (inject_Z e)) (Fin (inject_Z s)) = Fin (inject_Z (e - s))).
  { pose proof (fin_eq_sub _ _ _ _ (fin_eq_Fin (inject_Z e)) (fin_eq_Fin (inject_Z s))) as F.
    unfold Num.sub, Num.add, Num.neg in *. fold (lit (inject_Z e + Qred (- inject_Z s))) in *.
    apply lit_Z. unfold lit, fin_eq in F. rewrite Qred_correct in F. rewrite F.
    unfold Zminus. rewrite inject_Z_plus, inject_Z_opp. reflexivity. }
  rewrite X. f_equal. cbn [Num.max Num.ltb].
  destruct (Num.Qltb 0 (inject_Z (e - s))) eqn:E; [reflexivity|].
  apply Qltb_false in E. rewrite <- (Zle_Qle _ 0) in E.
  replace (e - s)%Z with 0%Z by lia. reflexivity.
Qed.

(** Segments that follow one another from [from] to [to], each as long as
    the distance between its two ends. *)
Fixpoint tiles (from to : Z) (rs : list Range) : Prop :=
  match rs with
  | [] => from = to
  | r :: rest =>
      exists e,
        (from <= e)%Z
        /\ start r = Fin (inject_Z from)
        /\ end_ r = Fin (inject_Z e)
        /\ len r = Fin (inject_Z (e - from))
        /\ tiles e to rest
  end.

Lemma ranges_tile (u k : Z) (n a : nat) :
  (0 < k)%Z -> (0 <= u)%Z ->
  tiles (bound u k (Z.of_nat a)) (bound u k (Z.of_nat (a + n)))
    (map (fun i => range_at (Fin (inject_Z u)) (Fin (inject_Z k)) (Js.num_of_nat i))
         (seq a n)).
Proof.
  intros K U. revert a. induction n as [|n IH]; intro a; cbn [seq map tiles].
  - rewrite Nat.add_0_r. reflexivity.
  - rewrite (range_at_bounds u k a K U). cbn [start end_ len].
    exists (bound u k (Z.of_nat a + 1)).
    pose proof (bound_step u k (Z.of_nat a) K U) as St.
    pose proof (Z.div_pos u k U K) as D.
    split; [lia|]. repeat split.
    replace (Z.of_nat a + 1)%Z with (Z.of_nat (S a)) by lia.
    replace (a + S n)%nat with (S a + n)%nat by lia. apply IH.
Qed.

(** For finite arguments [segmentRanges] returns [k] segments that tile the
    units from 0 to [u] without gap or overlap, where [u] and [k] are the
    arguments rounded down and raised to at least 1; and the segments are
    balanced: each holds [u / k] units, rounded down, or one more.  The
    product [u * k] is taken below [2 ^ 53]: the products [i * u] of the
    loop are then whole numbers that doubles hold exactly, and their
    quotients by [k] round down to the same whole numbers as the exact
    quotients. *)
Theorem segmentRanges_tiling (units K : Q) :
  let u := Z.max 1 (Qfloor units) in
  let k := Z.max 1 (Qfloor K) in
  (u * k < 2 ^ 53)%Z ->
  exists rs,
    segmentRanges (Fin units) (Fin K) = Ok rs
    /\ List.length rs = Z.to_nat k
    /\ tiles 0 u rs
    /\ Forall (fun r => exists n, len r = Fin (inject_Z n) /\ (u / k <= n <= u / k + 1)%Z) rs.
Proof.
  intros u k _. unfold segmentRanges. cbv zeta. rewrite !max1_floor. fold u k.
  rewrite Qceiling_Z.
  assert (K0 : (0 < k)%Z) by (unfold k; lia).
  assert (U0 : (0 <= u)%Z) by (unfold u; lia).
  eexists. split; [reflexivity|]. split; [|split].
  - rewrite length_map, length_seq. reflexivity.
  - pose proof (ranges_tile u k (Z.to_nat k) 0 K0 U0) as T.
    assert (E0 : bound u k (Z.of_nat 0) = 0%Z).
    { unfold bound. rewrite Z.mul_0_l. apply Z.div_0_l. lia. }
    assert (E1 : bound u k (Z.of_nat (0 + Z.to_nat k)) = u).
    { unfold bound. cbn [Nat.add]. rewrite Z2Nat.id by lia.
      rewrite Z.mul_comm. apply Z.div_mul. lia. }
    rewrite E0, E1 in T. exact T.
  - apply Forall_map, Forall_forall. intros i _.
    rewrite (range_at_bounds u k i K0 U0). cbn [len]. eexists. split; [reflexivity|].
    apply bound_step; assumption.
Qed.

Lemma segmentRanges_tiling_witness :
  exists rs,
    segmentRanges (Fin 10) (Fin 3) = Ok rs
    /\ List.length rs = 3%nat
    /\ tiles 0 10 rs
    /\ Forall (fun r => exists n, len r = Fin (inject_Z n) /\ (3 <= n <= 4)%Z) rs.
Proof. apply (segmentRanges_tiling 10 3). reflexivity. Defined.

(** The loop of the chain lengths, on natural numbers. *)
Definition chain_nat (st : list nat * nat) (x : bool) : list nat * nat :=
  let '(runs, cur) := st in
  if x then (runs, S cur)
  else if (0 <? cur)%nat then ((runs ++ [cur])%list, 0%nat)
  else (runs, cur).

Definition as_nums (st : list nat * nat) : list num * num :=
  (map Js.num_of_nat (fst st), Js.num_of_nat (snd st)).

Lemma num_of_nat_S (n : nat) : Num.add (Js.num_of_nat n) (Fin 1) = Js.num_of_nat (S n).
Proof.
  unfold Js.num_of_nat. cbn [Num.add]. apply lit_Z.
  rewrite Nat2Z.inj_succ, <- Z.add_1_r, inject_Z_plus. reflexivity.
Qed.

Lemma num_of_nat_pos (n : nat) : Num.gtb (Js.num_of_nat n) (Fin 0) = (0 <? n)%nat.
Proof. exact (num_of_nat_ltb 0 n). Qed.

Lemma chain_step_nat (st : list nat * nat) (x : bool) :
  chain_step (as_nums st) x = as_nums (chain_nat st x).
Proof.
  destruct st as [runs cur]. unfold as_nums, chain_step, chain_nat. cbn [fst snd].
  destruct x.
  - cbn [fst snd]. rewrite num_of_nat_S. reflexivity.
  - rewrite num_of_nat_pos. destruct (0 <? cur)%nat; cbn [fst snd]; [|reflexivity].
    rewrite map_app. reflexivity.
Qed.

Lemma chain_fold_nat (xs : list bool) (st : list nat * nat) :
  fold_left chain_step xs (as_nums st) = as_nums (fold_left chain_nat xs st).
Proof.
  revert st. induction xs as [|x r IH]; intro st; [reflexivity|].
  cbn [fold_left]. rewrite chain_step_nat. apply IH.
Qed.

(** What the loop keeps: every run found is at least 1 long, and the runs
    with the current one cover as many units as had a transition. *)
Definition chain_inv (seen : list bool) (st : list nat * nat) : Prop :=
  Forall (fun r => (1 <= r)%nat) (fst st)
  /\ (list_sum (fst st) + snd st = List.length (filter (fun b : bool => b) seen))%nat.

Lemma chain_nat_inv (seen : list bool) (st : list nat * nat) (x : bool) :
  chain_inv seen st -> chain_inv (seen ++ [x]) (chain_nat st x).
Proof.
  destruct st as [runs cur]. unfold chain_inv, chain_nat. cbn [fst snd].
  intros [F E]. rewrite filter_app, length_app. destruct x; cbn [filter List.length fst snd].
  - split; [exact F | lia].
  - destruct (Nat.ltb_spec 0 cur) as [L|L]; cbn [fst snd].
    + split.
      * apply Forall_app. split; [exact F | constructor; [lia | constructor]].
      * rewrite list_sum_app. cbn [list_sum fold_right]. lia.
    + split; [exact F | lia].
Qed.

Lemma chain_fold_inv (xs seen : list bool) (st : list nat * nat) :
  chain_inv seen st -> chain_inv (seen ++ xs) (fold_left chain_nat xs st).
Proof.
  revert seen st. induction xs as [|x r IH]; intros seen st I; cbn [fold_left].
  - rewrite app_nil_r. exact I.
  - replace (seen ++ x :: r)%list with ((seen ++ [x]) ++ r)%list
      by (rewrite <- app_assoc; reflexivity).
    apply IH, chain_nat_inv, I.
Qed.

Lemma list_sum_cons (x : nat) (l : list nat) : list_sum (x :: l) = (x + list_sum l)%nat.
Proof. reflexivity. Qed.

Lemma sum_nats (rs : list nat) (a : nat) :
  fold_left (fun s v => Num.add s (safeNum v (Fin 0))) (map Js.num_of_nat rs)
    (Js.num_of_nat a)
  = Js.num_of_nat (a + list_sum rs).
Proof.
  revert a. induction rs as [|r rest IH]; intro a; cbn [map fold_left].
  - cbn. rewrite Nat.add_0_r. reflexivity.
  - assert (E : Num.add (Js.num_of_nat a) (safeNum (Js.num_of_nat r) (Fin 0))
                = Js.num_of_nat (a + r)).
    { unfold safeNum, Js.num_of_nat. cbn [Num.isFinite Num.add]. apply lit_Z.
      rewrite Nat2Z.inj_add, inject_Z_plus. reflexivity. }
    rewrite E, IH, list_sum_cons. f_equal. lia.
Qed.

Lemma mean_nats (rs : list nat) :
  rs <> [] -> Forall (fun r => (1 <= r)%nat) rs ->
  exists q,
    mean (map Js.num_of_nat rs) = Fin q
    /\ q == inject_Z (Z.of_nat (list_sum rs)) / inject_Z (Z.of_nat (List.length rs))
    /\ 1 <= q.
Proof.
  intros N F. unfold mean.
  destruct (map Js.num_of_nat rs) eqn:M; [destruct rs; [contradiction | discriminate]|].
  rewrite <- M. unfold sum. change (Fin 0) with (Js.num_of_nat 0) at 2.
  rewrite sum_nats, length_map. cbn [Nat.add].
  assert (L : (1 <= List.length rs)%nat) by (destruct rs; [contradiction | cbn; lia]).
  assert (S1 : (List.length rs <= list_sum rs)%nat).
  { clear - F. induction F as [|r rest R _ IH]; [cbn; lia|].
    rewrite list_sum_cons. cbn [List.length]. lia. }
  assert (NZ : ~ inject_Z (Z.of_nat (List.length rs)) == 0).
  { intro HZ. unfold Qeq in HZ. cbn in HZ. lia. }
  pose proof (fin_eq_div (fin_eq_Fin (inject_Z (Z.of_nat (list_sum rs))))
                (fin_eq_Fin (inject_Z (Z.of_nat (List.length rs)))) NZ) as D.
  fold (Js.num_of_nat (list_sum rs)) in D. fold (Js.num_of_nat (List.length rs)) in D.
  destruct (Num.div _ _) as [| | |q]; try contradiction. unfold fin_eq in D.
  exists q. split; [reflexivity|]. split; [exact D|]. rewrite D.
  apply Qle_shift_div_l.
  - rewrite <- (Zlt_Qlt 0). lia.
  - rewrite Qmult_1_l, <- Zle_Qle. lia.
Qed.

Lemma share_le (s m len : nat) :
  (s <= m)%nat -> (1 <= len)%nat ->
  inject_Z (Z.of_nat s) <= inject_Z (Z.of_nat (Nat.max 1 m)) * inject_Z (Z.of_nat len).
Proof.
  intros S1 L1. rewrite <- inject_Z_mult, <- Zle_Qle, <- Nat2Z.inj_mul.
  apply Nat2Z.inj_le. pose proof (Nat.le_max_r 1 m) as M1.
  revert M1. generalize (Nat.max 1 m). intros M M1. nia.
Qed.

Lemma mean_or_one (runs : list num) :
  runs <> [] -> match runs with [] => Fin 1 | _ => mean runs end = mean runs.
Proof. destruct runs; [contradiction | reflexivity]. Qed.

(** The average chain length is a finite number, at least 1 and at most the
    number of units with a transition (1 when there is none); without the
    per-unit list it is 1. *)
Theorem computeAvgChainLength_bounds (perUnitTransitions : option (list num)) :
  exists q,
    computeAvgChainLengthFromPerUnitTransitions perUnitTransitions = Fin q
    /\ 1 <= q
    /\ (perUnitTransitions = None -> q == 1)
    /\ (forall vs,
          perUnitTransitions = Some vs ->
          let marked :=
            List.length (filter (fun v => Num.gtb (safeNum v (Fin 0)) (Fin 0)) vs) in
          q <= inject_Z (Z.of_nat (Nat.max 1 marked))).
Proof.
  destruct perUnitTransitions as [vs|].
  2: { exists 1. repeat split; try reflexivity; try discriminate. }
  destruct vs as [|v0 vr].
  { exists 1. split; [reflexivity|]. split; [discriminate|]. split; [discriminate|].
    intros vs E. injection E as <-. cbn. discriminate. }
  set (vs := v0 :: vr). unfold computeAvgChainLengthFromPerUnitTransitions. fold vs.
  cbv zeta.
  set (xs := map (fun v => Num.gtb (safeNum v (Fin 0)) (Fin 0)) vs).
  change ([], Fin 0) with (as_nums ([], 0%nat)).
  rewrite chain_fold_nat.
  assert (I : chain_inv ([] ++ xs) (fold_left chain_nat xs ([], 0%nat))).
  { apply chain_fold_inv. split; [constructor | reflexivity]. }
  cbn [app] in I.
  assert (C : List.length (filter (fun b : bool => b) xs)
              = List.length (filter (fun v => Num.gtb (safeNum v (Fin 0)) (Fin 0)) vs)).
  { unfold xs. clear. induction vs as [|v r IH]; [reflexivity|].
    cbn [map filter]. destruct (Num.gtb _ _); cbn [List.length]; rewrite IH; reflexivity. }
  destruct (fold_left chain_nat xs ([], 0%nat)) as [rs cur].
  unfold as_nums, chain_inv in *. cbn [fst snd] in *. destruct I as [F E]. rewrite C in E.
  rewrite num_of_nat_pos.
  set (runs := if (0 <? cur)%nat then (map Js.num_of_nat rs ++ [Js.num_of_nat cur])%list
               else map Js.num_of_nat rs).
  destruct (Nat.ltb_spec 0 cur) as [L|L].
  - assert (R : runs = map Js.num_of_nat (rs ++ [cur])) by (unfold runs; rewrite map_app; reflexivity).
    clearbody runs. subst runs.
    assert (F' : Forall (fun r => (1 <= r)%nat) (rs ++ [cur])).
    { apply Forall_app. split; [exact F | constructor; [lia | constructor]]. }
    assert (N' : (rs ++ [cur])%list <> []) by (destruct rs; discriminate).
    destruct (mean_nats (rs ++ [cur]) N' F') as [q [M [Q1 Q2]]].
    assert (X : map Js.num_of_nat (rs ++ [cur]) <> []) by (destruct rs; discriminate).
    rewrite (mean_or_one _ X), M.
    exists q. split; [reflexivity|]. split; [exact Q2|]. split; [discriminate|].
    intros vs' E'. injection E' as <-. cbv zeta.
    rewrite Q1.
    assert (Ln : (1 <= List.length (rs ++ [cur]))%nat)
      by (rewrite length_app; cbn [List.length]; lia).
    apply Qle_shift_div_r; [rewrite <- (Zlt_Qlt 0); lia|].
    apply share_le; [|exact Ln]. rewrite list_sum_app. cbn [list_sum fold_right]. lia.
  - assert (R : runs = map Js.num_of_nat rs) by reflexivity.
    clearbody runs. subst runs.
    destruct rs as [|r0 rr].
    + exists 1. split; [reflexivity|]. split; [discriminate|]. split; [discriminate|].
      intros vs' E'. injection E' as <-. cbv zeta. rewrite <- (Zle_Qle 1). lia.
    + assert (N' : r0 :: rr <> []) by discriminate.
      destruct (mean_nats (r0 :: rr) N' F) as [q [M [Q1 Q2]]].
      assert (X : map Js.num_of_nat (r0 :: rr) <> []) by discriminate.
      rewrite (mean_or_one _ X), M.
      exists q. split; [reflexivity|]. split; [exact Q2|]. split; [discriminate|].
      intros vs' E'. injection E' as <-. cbv zeta. rewrite Q1.
      assert (Ln : (1 <= List.length (r0 :: rr))%nat) by (cbn [List.length]; lia).
      apply Qle_shift_div_r; [rewrite <- (Zlt_Qlt 0); lia|].
      apply share_le; [lia | exact Ln].
Qed.

End AgencyFacts.

(** ** The cohort response: label and interpretation *)

Section CohortFacts.

Local Open Scope Q_scope.
Local Open Scope string_scope.

Import Cohort.

Lemma percentile0to1_thousandths (v : num) (cohort : list value) :
  exists k,
    (0 <= k <= 1000)%Z /\ Rsl.percentile0to1 v cohort = lit (inject_Z k / 1000).
Proof.
  destruct cohort as [|x r].
  - exists 500%Z. split; [lia | vm_compute; reflexivity].
  - unfold Rsl.percentile0to1, Rsl.round4.
    set (lower := fold_left _ (x :: r) 0%nat).
    assert (L : (lower <= List.length (x :: r))%nat).
    { unfold lower.
      change (fold_left _ (x :: r) 0%nat)
        with (fold_left (fun lower y => if strictly_below v y then S lower else lower)
                (x :: r) 0%nat).
      rewrite count_fold. cbn [plus]. apply filter_length_le. }
    set (len := List.length (x :: r)) in *.
    assert (Lpos : (0 < len)%nat) by (unfold len; cbn [List.length]; lia).
    assert (N : ~ inject_Z (Z.of_nat len) == 0).
    { intro HZ. unfold Qeq in HZ. cbn in HZ. lia. }
    pose proof (fin_eq_round (fin_eq_mul
                  (fin_eq_div (fin_eq_Fin (inject_Z (Z.of_nat lower)))
                     (fin_eq_Fin (inject_Z (Z.of_nat len))) N)
                  (fin_eq_Fin 1000))) as R.
    fold (Js.num_of_nat lower) in R. fold (Js.num_of_nat len) in R.
    set (k := Qfloor (inject_Z (Z.of_nat lower) / inject_Z (Z.of_nat len) * 1000 + (1 # 2)))
      in R.
    exists k. split.
    + assert (Q0 : 0 < inject_Z (Z.of_nat len)) by (rewrite <- (Zlt_Qlt 0); lia).
      assert (B : 0 <= inject_Z (Z.of_nat lower) / inject_Z (Z.of_nat len) <= 1).
      { split.
        - apply Qle_shift_div_l; [exact Q0|]. rewrite Qmult_0_l.
          rewrite <- (Zle_Qle 0). lia.
        - apply Qle_shift_div_r; [exact Q0|]. rewrite Qmult_1_l.
          rewrite <- Zle_Qle. lia. }
      unfold k. revert B.
      generalize (inject_Z (Z.of_nat lower) / inject_Z (Z.of_nat len)).
      intros q B. split.
      * apply (Qfloor_resp_le 0). qlra.
      * apply (Qfloor_resp_le _ (1000 + (1 # 2))). qlra.
    + destruct (Num.round _) as [| | |y]; try contradiction. unfold fin_eq in R.
      cbn [Num.div]. change (Qeq_bool 1000 0) with false. cbv iota.
      unfold lit. f_equal. apply Qred_complete. rewrite R. reflexivity.
Qed.

(** Whatever the value and the cohort are, the percentile is a whole number
    [k] of thousandths, the label reads "Top n%" where [n] is [t] raised to
    at least 1, and the interpretation is the one that belongs to [t],
    where [t] is the share of peers not below, in percent, rounded to a
    whole number: a whole number from 0 to 100 that is within one half of
    [(1 - k / 1000) * 100].  When that share lies halfway between two whole
    numbers, which of the two is [t] is decided by the rounding of the
    doubles. *)
Theorem computeRslCohortResponse_label (friValue : num) (cohortFriList : list value) :
  let r := computeRslCohortResponse friValue cohortFriList in
  exists k t,
    (0 <= k <= 1000)%Z
    /\ percentile_0to1 r = lit (inject_Z k / 1000)
    /\ (0 <= t <= 100)%Z
    /\ Qabs (inject_Z t - (1 - inject_Z k / 1000) * 100) <= 1 # 2
    /\ top_percent_label r = "Top " ++ Js.numToString (Fin (inject_Z (Z.max 1 t))) ++ "%"
    /\ interpretation r = Rsl.cohortInterpretationFromTopPercent (Fin (inject_Z t)).
Proof.
  cbv zeta. unfold computeRslCohortResponse. cbv zeta.
  cbn [percentile_0to1 top_percent_label interpretation].
  destruct (percentile0to1_thousandths friValue cohortFriList) as [k [K ->]].
  set (t := Qfloor ((1 - inject_Z k / 1000) * 100 + (1 # 2))).
  exists k, t. split; [exact K|]. split; [reflexivity|].
  assert (T : (0 <= t <= 100)%Z).
  { unfold t. assert (B : 0 <= inject_Z k / 1000 <= 1).
    { unfold Qdiv. change (/ 1000) with (1 # 1000).
      destruct K as [K0 K1]. rewrite (Zle_Qle 0) in K0. rewrite (Zle_Qle _ 1000) in K1.
      change (inject_Z 1000) with 1000 in K1. change (inject_Z 0) with 0 in K0.
      split; qlra. }
    revert B. generalize (inject_Z k / 1000). intros q B. split.
    - apply (Qfloor_resp_le 0). qlra.
    - apply (Qfloor_resp_le _ (100 + (1 # 2))). qlra. }
  assert (R : Num.round (Num.mul (Num.sub (Fin 1) (lit (inject_Z k / 1000))) (Fin 100))
              = Fin (inject_Z t)).
  { pose proof (fin_eq_round (fin_eq_mul
                  (fin_eq_sub _ _ _ _ (fin_eq_Fin 1) (fin_eq_lit (inject_Z k / 1000)))
                  (fin_eq_Fin 100))) as F.
    destruct (Num.mul _ _) as [| | |y]; try contradiction.
    cbn [Num.round] in *. unfold fin_eq in F. f_equal.
    apply (proj1 (inject_Z_injective _ _)) in F. rewrite F. reflexivity. }
  split; [exact T|]. split.
  { unfold t. generalize ((1 - inject_Z k / 1000) * 100). intro x.
    pose proof (Qfloor_le (x + (1 # 2))) as Lo.
    pose proof (Qlt_floor (x + (1 # 2))) as Hi.
    rewrite inject_Z_plus in Hi. change (inject_Z 1) with 1 in Hi.
    apply Qabs_Qle_condition. split; qlra. }
  unfold Rsl.topPercentLabel. cbv zeta. cbn [Num.isFinite lit]. fold (lit (inject_Z k / 1000)).
  rewrite R.
  destruct (Z.leb_spec t 1) as [L1|L1].
  - assert (G : Num.leb (Fin (inject_Z t)) (Fin 1) = true).
    { apply leb_Fin. rewrite <- (Zle_Qle _ 1). exact L1. }
    rewrite G, Z.max_l by exact L1. split; reflexivity.
  - assert (G : Num.leb (Fin (inject_Z t)) (Fin 1) = false).
    { apply leb_Fin_false. rewrite <- (Zlt_Qlt 1). exact L1. }
    rewrite G, Z.max_r by lia. split; reflexivity.
Qed.

(** At the percentile 0.805 the share is 19.5 percent: the rationals round
    it to 20, and the doubles, which compute 19.499999999999996, to 19. *)
Lemma topPercentLabel_halfway :
  Rsl.topPercentLabel (lit 0.805) = "Top 20%"
  /\ ((1 - 0.805) * 100)%float = 19.499999999999996%float
  /\ Doubles.topPercent 0.805 = 19%float.
Proof. repeat split; vm_compute; reflexivity. Qed.

End CohortFacts.

(** ** The verification id of a report *)

From Stdlib Require Import DecimalFacts DecimalNat DecimalPos DecimalN.

Section VerificationIdFacts.

Local Open Scope Q_scope.
Local Open Scope string_scope.

Import Route.

Definition is_digit (c : ascii) : bool :=
  (48 <=? nat_of_ascii c)%nat && (nat_of_ascii c <=? 57)%nat.

Definition all_digits (s : string) : bool := forallb is_digit (list_ascii_of_string s).

(** A string of [n] decimal digits. *)
Definition digits (n : nat) (s : string) : bool :=
  (String.length s =? n)%nat && all_digits s.

(** The decimal digit [k] put before [u]. *)
Definition dig (k : nat) (u : Decimal.uint) : Decimal.uint :=
  match k with
  | 0 => Decimal.D0 u | 1 => Decimal.D1 u | 2 => Decimal.D2 u | 3 => Decimal.D3 u
  | 4 => Decimal.D4 u | 5 => Decimal.D5 u | 6 => Decimal.D6 u | 7 => Decimal.D7 u
  | 8 => Decimal.D8 u | _ => Decimal.D9 u
  end%nat.

Ltac digit_cases k :=
  do 10 (destruct k as [|k]; [try reflexivity; try lia|]); try lia.

Lemma dig_revapp (k : nat) (u acc : Decimal.uint) :
  Decimal.revapp (dig k u) acc = Decimal.revapp u (dig k acc).
Proof. do 9 (destruct k as [|k]; [reflexivity|]). reflexivity. Qed.

Lemma dig_nb_digits (k : nat) (u : Decimal.uint) :
  Decimal.nb_digits (dig k u) = S (Decimal.nb_digits u).
Proof. do 9 (destruct k as [|k]; [reflexivity|]). reflexivity. Qed.

Lemma dig_of_lu_nat (k : nat) (u : Decimal.uint) :
  (k < 10)%nat ->
  DecimalNat.Unsigned.of_lu (dig k u) = (k + 10 * DecimalNat.Unsigned.of_lu u)%nat.
Proof. intro K. digit_cases k. Qed.

Lemma dig_of_lu_N (k : nat) (u : Decimal.uint) :
  (k < 10)%nat ->
  DecimalPos.Unsigned.of_lu (dig k u)
  = (N.of_nat k + 10 * DecimalPos.Unsigned.of_lu u)%N.
Proof. intro K. digit_cases k. Qed.

Lemma dig_unorm (k : nat) (u : Decimal.uint) :
  (1 <= k)%nat -> Decimal.unorm (dig k u) = dig k u.
Proof.
  intro K. destruct k as [|k]; [lia|].
  do 8 (destruct k as [|k]; [reflexivity|]). reflexivity.
Qed.

(** Four decimal digits, the first one leading. *)
Definition four (a b c e : nat) : Decimal.uint :=
  dig a (dig b (dig c (dig e Decimal.Nil))).

Lemma four_rev (a b c e : nat) :
  Decimal.rev (four a b c e) = dig e (dig c (dig b (dig a Decimal.Nil))).
Proof. unfold Decimal.rev, four. rewrite !dig_revapp. reflexivity. Qed.

Lemma four_nb_digits (a b c e : nat) : Decimal.nb_digits (four a b c e) = 4%nat.
Proof. unfold four. rewrite !dig_nb_digits. reflexivity. Qed.

Lemma four_not_nil (a b c e : nat) : four a b c e <> Decimal.Nil.
Proof.
  intro E. pose proof (four_nb_digits a b c e) as N. rewrite E in N. discriminate.
Qed.

Lemma four_digits_of (n : nat) :
  (Z.of_nat n < 10000)%Z ->
  exists a b c e,
    (a < 10 /\ b < 10 /\ c < 10 /\ e < 10)%nat
    /\ (n = e + 10 * (c + 10 * (b + 10 * (a + 10 * 0))))%nat.
Proof.
  intro B.
  pose proof (Nat.div_mod_eq n 10) as E1.
  pose proof (Nat.mod_upper_bound n 10 ltac:(discriminate)) as U1.
  pose proof (Nat.div_mod_eq (n / 10) 10) as E2.
  pose proof (Nat.mod_upper_bound (n / 10) 10 ltac:(discriminate)) as U2.
  pose proof (Nat.div_mod_eq (n / 10 / 10) 10) as E3.
  pose proof (Nat.mod_upper_bound (n / 10 / 10) 10 ltac:(discriminate)) as U3.
  exists (n / 10 / 10 / 10)%nat, (n / 10 / 10 mod 10)%nat, (n / 10 mod 10)%nat,
    (n mod 10)%nat.
  revert E1 U1 E2 U2 E3 U3.
  generalize (n mod 10)%nat (n / 10 mod 10)%nat (n / 10 / 10 mod 10)%nat
    (n / 10 / 10 / 10)%nat (n / 10 / 10)%nat (n / 10)%nat.
  intros e c b a q2 q1 E1 U1 E2 U2 E3 U3. lia.
Qed.

Lemma string_length_uint (u : Decimal.uint) :
  String.length (NilEmpty.string_of_uint u) = Decimal.nb_digits u.
Proof. induction u; cbn; congruence. Qed.

Lemma string_digits_uint (u : Decimal.uint) :
  all_digits (NilEmpty.string_of_uint u) = true.
Proof. unfold all_digits. induction u; cbn; try reflexivity; exact IHu. Qed.

Lemma string_uint_nonnil (u : Decimal.uint) :
  u <> Decimal.Nil -> NilZero.string_of_uint u = NilEmpty.string_of_uint u.
Proof. destruct u; [contradiction | reflexivity ..]. Qed.

Lemma unorm_not_nil (u : Decimal.uint) : Decimal.unorm u <> Decimal.Nil.
Proof. unfold Decimal.unorm. destruct (Decimal.nzhead u); discriminate. Qed.

(** A year of four digits is printed with four digits. *)
Lemma year_digits (n : nat) :
  (1000 <= Z.of_nat n <= 9999)%Z -> digits 4 (Js.string_of_nat n) = true.
Proof.
  intro R. destruct (four_digits_of n ltac:(lia)) as [a [b [c [e [[A [B [C E]]] N]]]]].
  assert (A1 : (1 <= a)%nat) by lia.
  assert (O : Nat.of_uint (four a b c e) = n).
  { rewrite DecimalNat.Unsigned.of_uint_alt, four_rev, !dig_of_lu_nat by assumption.
    cbn [DecimalNat.Unsigned.of_lu]. lia. }
  unfold Js.string_of_nat. rewrite <- O, DecimalNat.Unsigned.to_of.
  unfold four at 1. rewrite (dig_unorm a _ A1). fold (four a b c e).
  rewrite (string_uint_nonnil _ (four_not_nil a b c e)).
  unfold digits. rewrite string_length_uint, four_nb_digits, string_digits_uint.
  reflexivity.
Qed.

Lemma pad_digits (n : nat) (s : string) :
  (String.length s <= n)%nat -> all_digits s = true -> digits n (padStart0 n s) = true.
Proof.
  intros L D. unfold digits, padStart0, all_digits in *.
  set (k := (n - String.length s)%nat).
  assert (P : forall (m : nat) (t : string),
             String.length (string_of_list_ascii (repeat "0"%char m) ++ t)
             = (m + String.length t)%nat
             /\ forallb is_digit
                  (list_ascii_of_string (string_of_list_ascii (repeat "0"%char m) ++ t))
                = forallb is_digit (list_ascii_of_string t)).
  { induction m as [|m IH]; intro t; cbn [repeat string_of_list_ascii append]; [split; reflexivity|].
    destruct (IH t) as [I1 I2]. cbn [String.length list_ascii_of_string forallb].
    rewrite I1, I2. split; reflexivity. }
  destruct (P k s) as [P1 P2]. rewrite P1, P2, D.
  apply andb_true_iff. split; [apply Nat.eqb_eq; unfold k; lia | reflexivity].
Qed.

(** The sequence number is printed with four digits. *)
Lemma seq_digits (r : Q) :
  0 <= r < 1 ->
  digits 4 (padStart0 4 (Js.numToString (Num.floor (Num.mul (Fin r) (Fin 10000))))) = true.
Proof.
  intros [L U]. cbn [Num.mul]. unfold lit. cbn [Num.floor].
  set (z := Qfloor (Qred (r * 10000))).
  assert (Z0 : (0 <= z < 10000)%Z).
  { unfold z. split.
    - apply (Qfloor_resp_le 0). q_red. qlra.
    - rewrite Zlt_Qlt. apply (Qle_lt_trans _ (Qred (r * 10000))); [apply Qfloor_le|].
      q_red. change (inject_Z 10000) with 10000. qlra. }
  clearbody z.
  assert (S0 : Js.numToString (Fin (inject_Z z)) = Js.string_of_Z z).
  { unfold Js.numToString. cbv zeta. rewrite Qfloor_Z.
    assert (E : Qeq_bool (inject_Z z) (inject_Z z) = true) by (apply Qeq_bool_iff; reflexivity).
    rewrite E. reflexivity. }
  rewrite S0.
  destruct (four_digits_of (Z.to_nat z) ltac:(lia)) as [a [b [c [e [[A [B [C E]]] N]]]]].
  assert (O : N.of_uint (four a b c e) = Z.to_N z).
  { unfold N.of_uint.
    rewrite DecimalPos.Unsigned.of_uint_alt, four_rev, !dig_of_lu_N by assumption.
    cbn [DecimalPos.Unsigned.of_lu]. lia. }
  assert (T : Z.to_int z = Decimal.Pos (Decimal.unorm (four a b c e))).
  { rewrite <- DecimalN.Unsigned.to_of, O. destruct z as [|p|p]; [reflexivity | reflexivity | lia]. }
  unfold Js.string_of_Z. rewrite T. cbn [NilZero.string_of_int].
  rewrite (string_uint_nonnil _ (unorm_not_nil _)).
  apply pad_digits; [|apply string_digits_uint].
  rewrite string_length_uint.
  pose proof (DecimalFacts.nb_digits_unorm _ (four_not_nil a b c e)) as M.
  rewrite four_nb_digits in M. exact M.
Qed.

Lemma forall_range (f : nat -> bool) (a n i : nat) :
  forallb f (seq a n) = true -> (a <= i < a + n)%nat -> f i = true.
Proof.
  intros F I. rewrite forallb_forall in F. apply F, in_seq. exact I.
Qed.

Lemma month_digits (n : nat) :
  (n <= 11)%nat -> digits 2 (padStart0 2 (Js.string_of_nat (n + 1))) = true.
Proof.
  intro R.
  apply (forall_range (fun n => digits 2 (padStart0 2 (Js.string_of_nat (n + 1)))) 0 12).
  - vm_compute. reflexivity.
  - lia.
Qed.

Lemma date_digits (n : nat) :
  (1 <= n <= 31)%nat -> digits 2 (padStart0 2 (Js.string_of_nat n)) = true.
Proof.
  intro R. apply (forall_range (fun n => digits 2 (padStart0 2 (Js.string_of_nat n))) 1 31).
  - vm_compute. reflexivity.
  - lia.
Qed.

Lemma length_append (a b : string) :
  String.length (a ++ b) = (String.length a + String.length b)%nat.
Proof. induction a as [|c a IH]; cbn; [reflexivity | rewrite IH; reflexivity]. Qed.

Lemma digits_length (n : nat) (s : string) : digits n s = true -> String.length s = n.
Proof.
  unfold digits. intro D. apply andb_true_iff in D. apply Nat.eqb_eq, D.
Qed.

(** For a calendar date with a four-digit year and a random number from 0
    up to but not including 1, the verification id reads
    NP-yyyy-mmdd-nnnn: seventeen characters, digits in the three fields. *)
Theorem generateVerificationIdV1_format (h : Host) :
  (1000 <= Z.of_nat (utc_full_year h) <= 9999)%Z ->
  (utc_month h <= 11)%nat ->
  (1 <= utc_date h <= 31)%nat ->
  0 <= random h < 1 ->
  exists yyyy mm dd nnnn,
    generateVerificationIdV1 h = "NP-" ++ yyyy ++ "-" ++ mm ++ dd ++ "-" ++ nnnn
    /\ digits 4 yyyy = true /\ digits 2 mm = true /\ digits 2 dd = true
    /\ digits 4 nnnn = true
    /\ String.length (generateVerificationIdV1 h) = 17%nat.
Proof.
  intros Y M D R. unfold generateVerificationIdV1. cbv zeta.
  pose proof (year_digits _ Y) as DY. pose proof (month_digits _ M) as DM.
  pose proof (date_digits _ D) as DD. pose proof (seq_digits _ R) as DS.
  eexists _, _, _, _. split; [reflexivity|]. repeat (split; [eassumption|]).
  rewrite !length_append.
  rewrite (digits_length _ _ DY), (digits_length _ _ DM), (digits_length _ _ DD),
    (digits_length _ _ DS). reflexivity.
Qed.

Lemma generateVerificationIdV1_format_witness :
  exists yyyy mm dd nnnn,
    generateVerificationIdV1 morning = "NP-" ++ yyyy ++ "-" ++ mm ++ dd ++ "-" ++ nnnn
    /\ digits 4 yyyy = true /\ digits 2 mm = true /\ digits 2 dd = true
    /\ digits 4 nnnn = true
    /\ String.length (generateVerificationIdV1 morning) = 17%nat.
Proof.
  apply (generateVerificationIdV1_format morning).
  - cbn. lia.
  - cbn. lia.
  - cbn. lia.
  - cbn. split; [discriminate | reflexivity].
Defined.

End VerificationIdFacts.

(** ** What [deriveRc] returns *)

Section DeriveRcFacts.

Local Open Scope string_scope.

Import Rc.

Variable computeRCFromRaw : value -> RCOut.
Variable computeAgencyIndicators : value -> res AgencyIndicators.

(** The section of the report with raw features: the five fields of the
    control summary and the signal library under [rc], the four agency
    indicators beside it. *)
Definition rc_with_raw (r : RCOut) (a : AgencyIndicators) : value :=
  VObj [("rc",
         VObj [("summary", VStr (summary r));
               ("control_pattern", VStr (control_pattern r));
               ("reliability_band", VStr (reliability_band r));
               ("band_rationale", VStr (band_rationale r));
               ("pattern_interpretation", VStr (pattern_interpretation r));
               ("observed_structural_signals_library",
                library_json buildSignalLibraryV1_S1toS18)]);
        ("structural_variance", VNum (structural_variance a));
        ("human_rhythm_index", VNum (human_rhythm_index a));
        ("transition_flow", VNum (transition_flow a));
        ("revision_depth", VNum (revision_depth a))].

Definition rc_without_raw : value :=
  VObj [("rc",
         VObj [("observed_structural_signals_library",
                library_json buildSignalLibraryV1_S1toS18);
               ("structural_control_signals", VObj [])])].

(** [deriveRc] returns one of two shapes.  Without raw features: the signal
    library and an empty record of control signals, both under [rc].  With
    raw features: the control summary and the library under [rc], and the
    four agency indicators at the top level, not under
    [rc.structural_control_signals]; an error of the agency kernel is passed
    on.  In neither case is there a reasoning control distribution or a
    selection of observed signals, whatever the input holds under [cff]. *)
Theorem deriveRc_shape (input : value) :
  let raw := rawOf (unwrap input) in
  deriveRc computeRCFromRaw computeAgencyIndicators input
  = if Js.truthy raw
    then bind (computeAgencyIndicators raw)
           (fun a => Ok (rc_with_raw (computeRCFromRaw raw) a))
    else Ok rc_without_raw.
Proof.
  cbv zeta. unfold deriveRc. cbv zeta.
  set (raw := rawOf (unwrap input)).
  set (cfv := Js.coalesce _ _).
  assert (D : (if Js.truthy cfv
               then match computePHumanFromCFV cfv VUndef with
                    | Ok p => Ok (VNum p)
                    | Throw _ => Ok (VObj [("rc", VObj [])])
                    | Beyond => Beyond
                    end
               else Ok (VObj [("rc", VObj [])])) = Ok (VObj [("rc", VObj [])])).
  { destruct (Js.truthy cfv); reflexivity. }
  rewrite D. cbn [bind]. clearbody cfv. clear D.
  unfold rc_with_raw, rc_without_raw.
  generalize (library_json buildSignalLibraryV1_S1toS18). intro lib.
  destruct (Js.truthy raw).
  - destruct (computeAgencyIndicators raw) as [a|e|]; cbn [bind]; reflexivity.
  - cbn [bind]. reflexivity.
Qed.

End DeriveRcFacts.
